(* ===== verification/_CoqProject ===== *)
-Q . S2P
Prelude.v
Ring.v
Slab.v
Frame.v
NetBytes.v
Link.v
Internet.v
Udp.v
Tcp.v
PacketQueue.v
NetTables.v
Reassembly.v
UdpEndpoint.v
TcpEndpoint.v
Network.v
Handle.v
Storage.v
Block.v
BlockCache.v
WaitQueue.v
Scheduler.v
Channel.v
Heap.v
Vfs.v
VfsTree.v
Inflate.v
AddressSpace.v
Spaces.v
KernelMap.v
