(* ===== verification/Prelude.v ===== *)
(** * A verification development for the [os] kernel

    [os] is an x86_64 operating system written in C: a UEFI boot loader, a
    modular-monolithic kernel and a small userland.  This library models parts of the
    kernel as Rocq functions, translated function by function from the C sources, and
    proves what makes them correct.  Paths below are under src/kernel.

    ** The program and the files that model it

    - Memory.  mm/physical/frame.c hands out 4 KiB frames from two bitmaps ([Frame.v]);
      mm/slab/slab.c hands out objects of one size ([Slab.v]); mm/heap/heap.c is the kernel
      heap, a linked list of blocks over pages that are committed on demand ([Heap.v]);
      mm/virtual/address_space.c keeps the page tables of the kernel and of every process
      ([AddressSpace.v] for the operations and what each does to the tables, [Spaces.v] for
      all address spaces together and user memory, [KernelMap.v] for what the kernel's
      tables map).
    - Network stack, drivers/network.  Byte order and checksums ([NetBytes.v]); ethernet.c
      and arp.c ([Link.v]); ipv4.c and icmp.c ([Internet.v]); udp.c ([Udp.v]); tcp.c, the
      segments and the connection state machine ([Tcp.v]); packet_queue.c
      ([PacketQueue.v]); arp_cache.c and route.c ([NetTables.v]); reassembly.c
      ([Reassembly.v]); udp_endpoint.c ([UdpEndpoint.v]); tcp_endpoint.c
      ([TcpEndpoint.v]); network.c, which decodes frames, answers them and drives the
      tables above ([Network.v]).
    - Processes.  core/process/handle.c, the handle table of a process ([Handle.v]).
    - Storage.  drivers/storage/storage.c, the registry of disks ([Storage.v]);
      fs/block/block.c and storage_block.c, the block devices over it ([Block.v]);
      fs/cache/cache.c, the sector cache over those ([BlockCache.v]).
    - Tasks.  core/task/wait_queue.c, the linked wait queues ([WaitQueue.v]);
      sched/core/scheduler.c and sched/policy/round_robin.c with the task objects of
      core/task/task.c ([Scheduler.v]); ipc/channel.c, the bounded message channels on
      which tasks wait ([Channel.v]).
    - Files.  fs/vfs/vfs.c, the tree of nodes with reference counts, paths and permissions,
      and security/credentials.c ([Vfs.v] for the operations, [VfsTree.v] for what holds in
      all histories of calls); fs/btrfs/deflate.c, the zlib decompressor ([Inflate.v]).
    - [Prelude.v] has the machine integers, arrays, loops, record updates and the lemmas
      and tactics that the components share; [Ring.v] the ring buffers that the queues of
      the network stack use.

    Each file has a Module per component: its data as records and inductive types with
    the names of the source, one definition per operation, an invariant, and theorems.

    ** How the code is modelled

    - A w-bit unsigned integer is a [Z]; an operation that can leave the range is followed
      by [wrap w] (written [u8], [u16], [u32], [u64]).
    - An array is a list, read and written by [a.[i]] and [a.[i <- v]].  Objects reached by
      pointers are functions of their address, changed by [fupd]; null is 0 or [None].
    - A loop is [for_z] (a counted loop), [find_z] or [find_first] (a search that stops),
      or structural recursion; these need no fuel.  A loop whose bound is not syntactic
      takes a bound that is proved to suffice: carries are folded three times
      ([NetBytes.fold_loop], a 32-bit sum has no carry left after three folds); lists in
      memory are followed for as many steps as there are objects ([Heap.v], [Vfs.v], whose
      invariants say that the lists end); the decompressor runs for as many rounds as the
      input has bits ([Inflate.bit_bound]).  Running out of the bound is a value of its own
      ([None], [Stuck]), which the theorems exclude.
    - A function that takes a lock around its body is one atomic step.  Where a function
      releases the lock in between, each critical section is a definition of its own, and
      the interleavings are sequences of them ([BlockCache.cache_write_race],
      [VfsTree.vfs_release_race], the passes of waiting senders and receivers in
      [Channel.v]).  In [Channel.v] a wake-up that follows the release of the lock belongs to
      the same step.
    - A function pointer is a number.  What calling it does is a type class: [Driver] and
      its laws [DriverDisk] for the storage drivers, [BlockIO] and [BlockMedium] for block
      devices, [FileOperations] for the callbacks of a node.  Components that use one another
      meet at classes too: [WaitQueues] and [WaitQueueLaws] between wait queues and
      scheduler, [Blocking] and [BlockingLaws] between scheduler and channels,
      [Frames] and [FramesLaws] between the frame allocator and the address spaces,
      [PageProvider] below the heap, [Allocator] and [AllocatorLaws] between heap and file
      tree.  The clients are proved against the class and the implementing file proves the
      laws.  Calls whose effect is
      outside the model are returned as a log ([Handle.call], [Scheduler.call]).
    - Page tables are words of physical memory, which the code reaches at its physical
      addresses; the descents through the tables are definitions of their own, and
      [KernelMap.translate] is the processor's.  That the kernel maps physical memory at
      itself is what [KernelMap.kernel_identity] and [KernelMap.kernel_window] show, the
      window of the heap excepted.  Loading a root and invalidating a page are logged.
    - The bytes of an uninitialised local array are a parameter [uninit].

    ** What the theorems show

    - Refinement: on every sequence of operations the concrete tables give the answers of
      an abstract object.  Handle tables are partial maps from handles to capabilities;
      the sector cache is transparent over plain disks; UDP endpoints are mailboxes; the
      packet queue is a bounded first-in first-out queue; linked wait queues are
      sequences.  Path lookup computes the reference resolution of the components.
    - Invariants: in every reachable state the state of a task says where it is and the
      processor runs the current task; references keep objects in their slots and every
      object is released once; a TCP connection keeps its window and retransmission
      bounds.
    - Memory safety: the live blocks of the heap are disjoint and keep their contents; in
      every history of calls on the file tree only nodes that exist are touched, and a node
      is freed exactly when nothing refers to it.
    - Isolation: whatever calls are made on address spaces, no two of them share a frame, no
      frame is lost, and a call changes only the space it is about; every call does what a
      map from pages to entries would do ([Spaces.effect]); the validation of user ranges is
      exact and copies to the user stay within it; the kernel's addresses keep their
      translation in every space.
    - The decompressor inverts every way of writing a stream, and on any input ends within
      the bounds of its buffers.
    - Progress: no wake-up of a channel is lost, ready tasks take turns, a woken task runs, a retransmission stops after
      three copies.
    - End to end: a datagram, an echo request, an ARP request or an unexpected TCP segment
      that enters the service loop has the effect, and is given the answer, that the
      protocol asks for; a TCP stream is delivered in order without gap or repetition;
      fragments rebuild their datagram in any order of arrival.
    - Functional specifications with every error path of the allocators, registries, the
      ARP cache and the routing table.
    - Behaviours that the code does not intend are theorems too, and say so: see
      [Tcp.tcp_open_wrap_stuck], [TcpEndpoint.tcp_endpoint_overflow],
      [Reassembly.reassembly_accepts_gap], [Reassembly.reassembly_full_table_mixes],
      [Handle.handle_last_slot_unusable], [BlockCache.cache_write_race],
      [Channel.channel_small_reader_strands], [Heap.heap_merge_incomplete],
      [VfsTree.vfs_release_race], [Spaces.clone_forgets_protection] and
      [KernelMap.heap_growth_leaves_space].

    ** Not modelled

    The boot loader, processor tables, interrupt entry, context switching and
    the device drivers act on registers, privileged instructions or memory-mapped
    hardware; they appear here only as inputs, interfaces or logged calls.  The on-disk
    file systems, mounts and open files, processes, system calls and the userland programs
    are not modelled.  Of address spaces, the translation caches of the processors are left
    out, as is an object that only names the kernel's root. *)

From Stdlib Require Export Lia ZifyBool.
From stdpp Require Export base list numbers gmap.
Open Scope Z_scope.

(** ** Machine integers

    A [w]-bit unsigned integer is a [Z]; every operation of the code that can
    leave the range is followed by [wrap w]. *)

Definition wrap (w x : Z) : Z := x mod 2 ^ w.
Abbreviation u8 := (wrap 8).
Abbreviation u16 := (wrap 16).
Abbreviation u32 := (wrap 32).
Abbreviation u64 := (wrap 64).

Definition in_width (w x : Z) : Prop := 0 <= x < 2 ^ w.
Abbreviation is_u8 := (in_width 8).
Abbreviation is_u16 := (in_width 16).
Abbreviation is_u32 := (in_width 32).
Abbreviation is_u64 := (in_width 64).

Definition U16_MAX : Z := 65535.
Definition U32_MAX : Z := 4294967295.
Definition U64_MAX : Z := 18446744073709551615.

(** ** Arrays

    A C array is a list; [a.[i]] reads and [a.[i <- v]] writes the element at
    the (non-negative) index [i]. *)

Declare Scope c_scope.
Delimit Scope c_scope with C.
Notation "a .[ i ]" := (a !!! Z.to_nat i)
  (at level 1, left associativity, format "a .[ i ]") : c_scope.
Notation "a .[ i <- v ]" := (<[Z.to_nat i := v]> a)
  (at level 1, left associativity, format "a .[ i  <-  v ]") : c_scope.
Open Scope c_scope.

(** [zlen a] is the number of elements of the array [a], as an index bound. *)
Definition zlen {A} (a : list A) : Z := Z.of_nat (length a).

(** ** Loops *)

(** [for (i = lo; i < hi; ++i) s = body(i, s);] *)
Definition for_z {S} (lo hi : Z) (body : Z -> S -> S) (s : S) : S :=
  foldl (fun s i => body i s) s (seqZ lo (hi - lo)).

(** [for (i = 0; i < n; ++i) if (p(a[i])) return i;] *)
Fixpoint find_first {A} (p : A -> bool) (l : list A) : option nat :=
  match l with
  | [] => None
  | x :: l => if p x then Some 0%nat else S <$> find_first p l
  end.

(** [for (i = lo; i < hi; ++i) if (p(i)) return i;] *)
Fixpoint find_from (n : nat) (lo : Z) (p : Z -> bool) : option Z :=
  match n with
  | O => None
  | S n => if p lo then Some lo else find_from n (lo + 1) p
  end.
Definition find_z (lo hi : Z) (p : Z -> bool) : option Z :=
  find_from (Z.to_nat (hi - lo)) lo p.

(** [for (i = 0; i < n; ++i) dst[off + i] = src[i];] *)
Definition copy_bytes {A} `{Inhabited A} (dst : list A) (off : Z) (src : list A)
    (n : Z) : list A :=
  for_z 0 n (fun i d => d.[off + i <- src.[i]]) dst.

(** ** Tactics and hint databases *)

Create Rewrite HintDb len.
#[export] Hint Rewrite @length_app @length_take @length_drop @length_insert
  @length_fmap @length_replicate @length_cons @length_nil @length_seqZ : len.

(** Decide list-length side conditions. *)
Ltac len :=
  unfold zlen in *; autorewrite with len;
  first [lia | simpl length; lia | autorewrite with len in *; simpl in *; lia].

(** Split every conditional and match of the goal and the hypotheses, closing the
    contradictory cases. *)
Ltac cases := repeat (case_match; simplify_eq/=; try lia).

(** Split the first conditional of the goal whose test has no conditional in it. *)
Tactic Notation "case_if" "as" ident(E) :=
  match goal with
  | |- context [if ?b then _ else _] =>
      lazymatch b with context [if _ then _ else _] => fail | _ => destruct b eqn:E end
  end.

(** Split all of them. *)
Ltac split_ifs := repeat (let E := fresh "E" in case_if as E).

(** Unfold the width predicates so that [lia] sees the numerals. *)
Ltac widths := unfold wrap, in_width, U16_MAX, U32_MAX, U64_MAX in *;
  change (2 ^ 8) with 256 in *; change (2 ^ 16) with 65536 in *;
  change (2 ^ 32) with 4294967296 in *; change (2 ^ 64) with 18446744073709551616 in *.

(** Linear arithmetic with division and remainder by constants. *)
Ltac zlia := widths; Z.to_euclidean_division_equations; lia.

#[global] Arguments seqZ : simpl never.
#[global] Arguments for_z : simpl never.
#[global] Arguments find_z : simpl never.
#[global] Arguments wrap : simpl never.
#[global] Arguments Z.shiftl : simpl never.
#[global] Arguments Z.shiftr : simpl never.
#[global] Arguments Z.lor : simpl never.
#[global] Arguments Z.land : simpl never.
#[global] Arguments Z.max : simpl never.
#[global] Arguments Z.min : simpl never.

(** ** Record update

    A record type declares its eta expansion as an instance of [Eta]; then
    [r <| field := v |>] is [r] with one field replaced. *)

Class Eta (R : Type) := eta : R -> R.
Class Setter {R E : Type} (getter : R -> E) := set_field : (E -> E) -> R -> R.
#[global] Arguments set_field {R E} getter {_} _ _ /.

Ltac solve_setter :=
  lazymatch goal with
  | |- @Setter ?R ?E ?g =>
      let e := constr:(_ : Eta R) in
      exact (fun (update : E -> E) (record : R) => ltac:(
        let b := eval hnf in (@eta R e record) in
        let p := eval pattern (g record) in b in
        lazymatch p with
        | ?h _ => let t := eval cbv beta in (h (update (g record))) in exact t
        end))
  end.
#[global] Hint Extern 0 (Setter _) => solve_setter : typeclass_instances.

Notation "r <| field := v |>" := (set_field field (fun _ => v) r)
  (at level 1, left associativity, field constr at level 1, v at level 200,
   format "r <| field  :=  v |>") : c_scope.

(** ** Lemmas on integers *)

Lemma wrap_small w x : in_width w x -> wrap w x = x.
Proof. apply Z.mod_small. Qed.

Lemma wrap_range w x : 0 <= w -> in_width w (wrap w x).
Proof. intros. apply Z.mod_pos_bound. apply Z.pow_pos_nonneg; lia. Qed.

Lemma wrap_idem w x : 0 <= w -> wrap w (wrap w x) = wrap w x.
Proof. intros. by apply wrap_small, wrap_range. Qed.

Lemma wrap_add_l w x y : wrap w (wrap w x + y) = wrap w (x + y).
Proof. unfold wrap. apply Zplus_mod_idemp_l. Qed.

Lemma land_pow2_testbit x k :
  0 <= k -> (Z.land x (Z.shiftl 1 k) =? 0) = negb (Z.testbit x k).
Proof.
  intros Hk.
  destruct (Z.testbit x k) eqn:E; simpl.
  - apply Z.eqb_neq. intros H0. apply (f_equal (fun z => Z.testbit z k)) in H0.
    rewrite Z.land_spec, Z.bits_0, E, Z.shiftl_spec, Z.sub_diag in H0 by lia. done.
  - apply Z.eqb_eq, Z.bits_inj'. intros n Hn. rewrite Z.land_spec, Z.bits_0.
    destruct (decide (n = k)) as [->|]; [by rewrite E|].
    rewrite Z.shiftl_spec by lia. destruct (decide (k < n)).
    + replace (Z.testbit 1 (n - k)) with false; [by rewrite andb_false_r|].
      symmetry. apply Z.bits_above_log2; simpl; lia.
    + rewrite (Z.testbit_neg_r 1) by lia. by rewrite andb_false_r.
Qed.

Lemma lor_shift_add a b k :
  0 <= k -> 0 <= b < 2 ^ k -> Z.lor (Z.shiftl a k) b = a * 2 ^ k + b.
Proof.
  intros Hk Hb. pose proof (Z.add_lor_land (Z.shiftl a k) b) as Hl.
  enough (Z.land (Z.shiftl a k) b = 0) as H0.
  { rewrite H0, Z.shiftl_mul_pow2 in Hl by lia. rewrite Z.shiftl_mul_pow2 by lia. lia. }
  apply Z.bits_inj'. intros n Hn. rewrite Z.land_spec, Z.bits_0, Z.shiftl_spec by lia.
  destruct (decide (n < k)).
  - by rewrite Z.testbit_neg_r by lia.
  - rewrite <- (Z.mod_small b (2 ^ k)), Z.mod_pow2_bits_high by lia. apply andb_false_r.
Qed.

(** Clearing and setting one bit of a byte. *)
Lemma testbit_pow2 j k : 0 <= j -> 0 <= k -> Z.testbit (Z.shiftl 1 j) k = (k =? j).
Proof.
  intros. rewrite Z.shiftl_1_l, Z.pow2_bits_eqb by lia. lia.
Qed.

Lemma byte_mask_small j : 0 <= j < 8 -> u8 (Z.shiftl 1 j) = Z.shiftl 1 j.
Proof.
  intros. apply wrap_small. unfold in_width. rewrite Z.shiftl_1_l.
  split; [apply Z.pow_nonneg; lia|apply Z.pow_lt_mono_r; lia].
Qed.

Lemma byte_bit_clear b j k :
  0 <= j < 8 -> 0 <= k < 8 ->
  Z.testbit (Z.land b (u8 (Z.lnot (Z.shiftl 1 j)))) k = Z.testbit b k && negb (k =? j).
Proof.
  intros. unfold wrap. rewrite Z.land_spec, Z.mod_pow2_bits_low, Z.lnot_spec, testbit_pow2 by lia.
  done.
Qed.

Lemma byte_bit_set b j k :
  0 <= j -> 0 <= k -> Z.testbit (Z.lor b (Z.shiftl 1 j)) k = Z.testbit b k || (k =? j).
Proof. intros. by rewrite Z.lor_spec, testbit_pow2 by lia. Qed.

(** The byte and the bit of a bitmap position. *)
Lemma bitmap_index i : 0 <= i -> Z.shiftr i 3 = i / 8 /\ Z.land i 7 = i mod 8.
Proof.
  intros. split; [by rewrite Z.shiftr_div_pow2|].
  change 7 with (Z.ones 3). by rewrite Z.land_ones.
Qed.

Lemma bitmap_index_inj i j : 0 <= i -> 0 <= j -> i / 8 = j / 8 -> i mod 8 = j mod 8 -> i = j.
Proof. intros. rewrite (Z.div_mod i 8), (Z.div_mod j 8) by lia. lia. Qed.

(** ** Lemmas on arrays *)

Section arrays.
Context {A : Type} `{Inhabited A}.
Implicit Types (a : list A) (i j : Z).

Lemma arr_get_eq a i v : 0 <= i < zlen a -> a.[i <- v].[i] = v.
Proof. intros. apply list_lookup_total_insert_eq. unfold zlen in *. lia. Qed.

Lemma arr_get_ne a i j v : 0 <= i -> 0 <= j -> i <> j -> a.[i <- v].[j] = a.[j].
Proof. intros. apply list_lookup_total_insert_ne. lia. Qed.

Lemma arr_set_get a i : a.[i <- a.[i]] = a.
Proof.
  destruct (decide (Z.to_nat i < length a)%nat) as [Hi|].
  - apply list_insert_id. by apply list_lookup_lookup_total_lt.
  - apply list_insert_ge. lia.
Qed.

Lemma zlen_set a i v : zlen (a.[i <- v]) = zlen a.
Proof. unfold zlen. by rewrite length_insert. Qed.

Lemma zlen_nonneg a : 0 <= zlen a.
Proof. unfold zlen. lia. Qed.

(** Reading every index gives the array. *)
Lemma arr_seq a n : zlen a = n -> (fun i => a.[i]) <$> seqZ 0 n = a.
Proof.
  unfold zlen. intros Hn. apply list_eq. intros i. rewrite list_lookup_fmap.
  destruct (decide (Z.of_nat i < n)).
  - rewrite lookup_seqZ_lt, Z.add_0_l by lia. cbn. rewrite Nat2Z.id. symmetry.
    apply list_lookup_lookup_total_lt. lia.
  - rewrite lookup_seqZ_ge, lookup_ge_None_2 by lia. done.
Qed.

Lemma arr_lookup a i : 0 <= i < zlen a -> a !! Z.to_nat i = Some (a.[i]).
Proof. intros. apply list_lookup_lookup_total_lt. unfold zlen in *. lia. Qed.

End arrays.

#[export] Hint Rewrite @zlen_set : len.

(** ** Bitmaps: bit [i] of a byte array is bit [i mod 8] of byte [i / 8] *)

Definition bit_at (bm : list Z) (i : Z) : bool := Z.testbit (bm.[i / 8]) (i mod 8).

Lemma bit_at_land bm i :
  0 <= i -> (Z.land (bm.[i / 8]) (Z.shiftl 1 (i mod 8)) =? 0) = negb (bit_at bm i).
Proof. intros. apply land_pow2_testbit. apply Z.mod_pos_bound. lia. Qed.

Lemma bit_at_write bm i k v :
  0 <= i < 8 * zlen bm -> 0 <= k ->
  bit_at (bm.[i / 8 <- v]) k = if k / 8 =? i / 8 then Z.testbit v (k mod 8) else bit_at bm k.
Proof.
  intros. unfold bit_at. case_if as E.
  - replace (k / 8) with (i / 8) by lia. rewrite arr_get_eq; [done|]. zlia.
  - rewrite arr_get_ne; [done|zlia..].
Qed.

Lemma bit_at_set bm i k :
  0 <= i < 8 * zlen bm -> 0 <= k ->
  bit_at (bm.[i / 8 <- Z.lor (bm.[i / 8]) (Z.shiftl 1 (i mod 8))]) k = bit_at bm k || (k =? i).
Proof.
  intros. rewrite bit_at_write by lia.
  pose proof (Z.mod_pos_bound i 8 ltac:(lia)). pose proof (Z.mod_pos_bound k 8 ltac:(lia)).
  case_if as E.
  - rewrite byte_bit_set by lia. unfold bit_at. replace (k / 8) with (i / 8) by lia. f_equal.
    destruct (k =? i) eqn:E'; [zlia|]. apply Z.eqb_neq. intros ?.
    assert (k = i) by (apply bitmap_index_inj; lia). lia.
  - destruct (k =? i) eqn:E'; [|by rewrite orb_false_r].
    replace k with i in E by lia. lia.
Qed.

Lemma bit_at_clear bm i k :
  0 <= i < 8 * zlen bm -> 0 <= k ->
  bit_at (bm.[i / 8 <- Z.land (bm.[i / 8]) (u8 (Z.lnot (Z.shiftl 1 (i mod 8))))]) k =
  bit_at bm k && negb (k =? i).
Proof.
  intros. rewrite bit_at_write by lia.
  pose proof (Z.mod_pos_bound i 8 ltac:(lia)). pose proof (Z.mod_pos_bound k 8 ltac:(lia)).
  case_if as E.
  - rewrite byte_bit_clear by lia. unfold bit_at. replace (k / 8) with (i / 8) by lia.
    do 2 f_equal. destruct (k =? i) eqn:E'; [zlia|]. apply Z.eqb_neq. intros ?.
    assert (k = i) by (apply bitmap_index_inj; lia). lia.
  - destruct (k =? i) eqn:E'; [|by rewrite andb_true_r].
    replace k with i in E by lia. lia.
Qed.

(** ** Memory: objects by address *)

Definition fupd {A} (m : Z -> A) (a : Z) (v : A) : Z -> A := fun x => if x =? a then v else m x.

Lemma fupd_eq {A} (m : Z -> A) a v : fupd m a v a = v.
Proof. unfold fupd. by rewrite Z.eqb_refl. Qed.

Lemma fupd_ne {A} (m : Z -> A) a v x : x <> a -> fupd m a v x = m x.
Proof. intros Hx. unfold fupd. by replace (x =? a) with false by lia. Qed.


(** ** Lemmas on loops *)

Lemma for_z_empty {S} lo hi (body : Z -> S -> S) s : hi <= lo -> for_z lo hi body s = s.
Proof. intros. unfold for_z. by rewrite seqZ_nil by lia. Qed.

Lemma for_z_last {S} lo hi (body : Z -> S -> S) s :
  lo <= hi -> for_z lo (hi + 1) body s = body hi (for_z lo hi body s).
Proof.
  intros. unfold for_z. replace (hi + 1 - lo) with (hi - lo + 1) by lia.
  rewrite seqZ_app by lia. rewrite foldl_app. f_equal. simpl.
  replace (lo + (hi - lo)) with hi by lia. done.
Qed.

(** The invariant rule of a counting loop. *)
Lemma for_z_ind {S} (P : Z -> S -> Prop) lo hi body s :
  lo <= hi -> P lo s ->
  (forall i s, lo <= i < hi -> P i s -> P (i + 1) (body i s)) ->
  P hi (for_z lo hi body s).
Proof.
  intros Hle H0 Hstep.
  assert (forall n, 0 <= n -> lo + n <= hi -> P (lo + n) (for_z lo (lo + n) body s)) as Hn.
  { apply (natlike_ind (fun n => lo + n <= hi -> _)).
    - intros _. rewrite Z.add_0_r, for_z_empty by lia. done.
    - intros n Hn IH Hle'. replace (lo + Z.succ n) with (lo + n + 1) by lia.
      rewrite for_z_last by lia. apply Hstep; [lia|]. apply IH. lia. }
  replace hi with (lo + (hi - lo)) by lia. apply Hn; lia.
Qed.

Lemma for_z_ext {S} lo hi (f g : Z -> S -> S) s :
  (forall i s, lo <= i < hi -> f i s = g i s) -> for_z lo hi f s = for_z lo hi g s.
Proof.
  intros Hfg. destruct (decide (lo <= hi)) as [Hle|]; [|by rewrite !for_z_empty by lia].
  unfold for_z. generalize s. assert (forall i, i ∈ seqZ lo (hi - lo) -> lo <= i < hi) as Hin.
  { intros i Hi%elem_of_seqZ. lia. }
  induction (seqZ lo (hi - lo)) as [|i l IH]; intros s'; simpl; [done|].
  rewrite Hfg by (apply Hin; set_solver). apply IH. intros. apply Hin. set_solver.
Qed.

Section find_first.
Context {A : Type} (p : A -> bool).

Lemma find_first_Some l i :
  find_first p l = Some i <->
  (exists x, l !! i = Some x /\ p x = true) /\
  (forall j x, (j < i)%nat -> l !! j = Some x -> p x = false).
Proof.
  revert i. induction l as [|y l IH]; intros i; simpl.
  { split; [done|]. intros [(x & Hx & _) _]. done. }
  destruct (p y) eqn:Ey.
  - split.
    + intros [= <-]. split; [by exists y|]. lia.
    + intros [(x & Hx & Hp) Hj]. destruct i as [|i]; [done|].
      specialize (Hj 0%nat y ltac:(lia) eq_refl). congruence.
  - split.
    + intros Hi. apply fmap_Some in Hi as (k & Hk%IH & ->).
      destruct Hk as [Hx Hj]. split; [done|].
      intros [|j] x Hlt Hl; simpl in Hl; [by simplify_eq|]. apply (Hj j); [lia|done].
    + intros [(x & Hx & Hp) Hj]. destruct i as [|i]; simpl in Hx; [congruence|].
      apply fmap_Some. exists i. split; [|done]. apply IH. split; [by exists x|].
      intros j z Hlt Hl. apply (Hj (S j) z); [lia|done].
Qed.

Lemma find_first_None l :
  find_first p l = None <-> forall i x, l !! i = Some x -> p x = false.
Proof.
  induction l as [|y l IH]; simpl; [done|]. destruct (p y) eqn:Ey.
  - split; [done|]. intros Hi. specialize (Hi 0%nat y eq_refl). congruence.
  - rewrite fmap_None, IH. split.
    + intros Hi [|i] x Hx; simpl in Hx; [congruence|]. by apply (Hi i).
    + intros Hi i x Hx. by apply (Hi (S i)).
Qed.

Lemma find_first_lt l i : find_first p l = Some i -> (i < length l)%nat.
Proof. intros [(x & Hx & _) _]%find_first_Some. by apply lookup_lt_Some in Hx. Qed.

End find_first.

Lemma find_from_Some n lo p i :
  find_from n lo p = Some i <->
  lo <= i < lo + Z.of_nat n /\ p i = true /\ forall j, lo <= j < i -> p j = false.
Proof.
  revert lo. induction n as [|n IH]; intros lo; simpl; [split; [done|lia]|].
  destruct (p lo) eqn:Ep.
  - split; [intros [= ->]; split_and!; [lia..|done|lia]|].
    intros (Hi & Hp & Hj). destruct (decide (i = lo)) as [->|]; [done|].
    specialize (Hj lo ltac:(lia)). congruence.
  - rewrite IH. split; intros (Hi & Hp & Hj); split_and!; try lia; try done.
    + intros j Hlt. destruct (decide (j = lo)) as [->|]; [done|]. apply Hj; lia.
    + destruct (decide (i = lo)) as [->|]; [congruence|lia].
    + intros j Hlt. apply Hj. lia.
Qed.

Lemma find_z_Some lo hi p i :
  find_z lo hi p = Some i <->
  lo <= i < hi /\ p i = true /\ forall j, lo <= j < i -> p j = false.
Proof. unfold find_z. rewrite find_from_Some. intuition lia. Qed.

Lemma find_z_None lo hi p :
  find_z lo hi p = None <-> forall i, lo <= i < hi -> p i = false.
Proof.
  unfold find_z. remember (Z.to_nat (hi - lo)) as n eqn:Hn.
  assert (forall i, lo <= i < hi <-> lo <= i < lo + Z.of_nat n) as Hr by lia.
  setoid_rewrite Hr. clear Hn Hr. revert lo. induction n as [|n IH]; intros lo; simpl.
  { split; [lia|done]. }
  destruct (p lo) eqn:Ep.
  - split; [done|]. intros Hi. rewrite (Hi lo) in Ep by lia. done.
  - rewrite IH. split; intros Hi i Hlt; [|apply Hi; lia].
    destruct (decide (i = lo)) as [->|]; [done|]. apply Hi. lia.
Qed.

Lemma find_z_ext lo hi p q :
  (forall i, lo <= i < hi -> p i = q i) -> find_z lo hi p = find_z lo hi q.
Proof.
  intros Hpq. destruct (find_z lo hi q) as [i|] eqn:E.
  - apply find_z_Some in E as (Hi & Hq & Hj). apply find_z_Some. split_and!; [lia..|by rewrite Hpq|].
    intros j Hlt. rewrite Hpq by lia. auto.
  - rewrite find_z_None in E. apply find_z_None. intros i Hi. rewrite Hpq by lia. auto.
Qed.

(** A search over the indices of an array is a search over its elements. *)
Lemma find_z_first {A} `{Inhabited A} (p : A -> bool) (l : list A) n :
  zlen l = n -> find_z 0 n (fun i => p (l.[i])) = Z.of_nat <$> find_first p l.
Proof.
  intros Hn. unfold zlen in Hn. destruct (find_first p l) as [i|] eqn:E; simpl.
  - pose proof (find_first_lt _ _ _ E). apply find_first_Some in E as [(x & Hx & Hp) Hj].
    apply find_z_Some. rewrite Nat2Z.id. split_and!; [lia..| |].
    + by rewrite (list_lookup_total_correct _ _ _ Hx).
    + intros j Hlt. apply (Hj (Z.to_nat j)); [lia|]. apply list_lookup_lookup_total_lt. lia.
  - apply find_z_None. rewrite find_first_None in E. intros i Hi. apply (E (Z.to_nat i)).
    apply list_lookup_lookup_total_lt. lia.
Qed.

Lemma find_first_fmap {A B} (f : A -> B) p (l : list A) :
  find_first p (f <$> l) = find_first (fun x => p (f x)) l.
Proof. induction l as [|x l IH]; simpl; [done|]. by rewrite <- IH. Qed.

Lemma find_first_ext {A} (p q : A -> bool) (l : list A) :
  (forall x, x ∈ l -> p x = q x) -> find_first p l = find_first q l.
Proof.
  induction l as [|x l IH]; simpl; intros Hpq; [done|].
  rewrite (Hpq x), IH by set_solver. done.
Qed.

Lemma existsb_find_first {A} (p : A -> bool) (l : list A) :
  existsb p l = bool_decide (is_Some (find_first p l)).
Proof.
  induction l as [|x l IH]; simpl; [done|]. rewrite IH. destruct (p x); [done|].
  destruct (find_first p l); done.
Qed.

(** The filling loop [for (i = 0; i < n; ++i) a[i] = v;]. *)
Lemma fill_loop {A} `{Inhabited A} (a : list A) (v : A) n :
  0 <= n <= zlen a ->
  let b := for_z 0 n (fun i a => a.[i <- v]) a in
  zlen b = zlen a /\ forall j, 0 <= j < n -> b.[j] = v.
Proof.
  intros Hn. apply (for_z_ind (fun k b => zlen b = zlen a /\ forall j, 0 <= j < k -> b.[j] = v));
    [lia|split; [done|lia]|].
  intros i b Hi [Hlen Hz]. rewrite zlen_set. split; [done|]. intros j Hj.
  destruct (decide (i = j)) as [<-|]; [apply arr_get_eq; lia|].
  rewrite arr_get_ne by lia. apply Hz. lia.
Qed.

Lemma fill_loop_len {A} (a : list A) (v : A) n :
  zlen (for_z 0 n (fun i a => a.[i <- v]) a) = zlen a.
Proof.
  destruct (decide (0 <= n)); [|by rewrite for_z_empty by lia].
  apply (for_z_ind (fun _ b => zlen b = zlen a)); [done..|]. intros. by rewrite zlen_set.
Qed.

(** A bitmap of equal bytes. *)
Lemma bit_at_fill bm v n i :
  0 <= n <= zlen bm -> 0 <= i < 8 * n ->
  bit_at (for_z 0 n (fun i bm => bm.[i <- v]) bm) i = Z.testbit v (i mod 8).
Proof.
  intros Hn Hi. destruct (fill_loop bm v n Hn) as [_ Hv]. unfold bit_at.
  rewrite Hv; [done|]. zlia.
Qed.

(** The copying loop overwrites the window [off, off + n). *)
Lemma copy_bytes_spec {A} `{Inhabited A} (dst src : list A) off n :
  0 <= off -> 0 <= n <= zlen src -> off + n <= zlen dst ->
  copy_bytes dst off src n =
  take (Z.to_nat off) dst ++ take (Z.to_nat n) src ++ drop (Z.to_nat (off + n)) dst.
Proof.
  intros Hoff [Hn Hsrc] Hdst. unfold copy_bytes.
  apply (for_z_ind (fun k d => d = take (Z.to_nat off) dst ++ take (Z.to_nat k) src ++
                                   drop (Z.to_nat (off + k)) dst)); [lia|..].
  { rewrite Z.add_0_r. simpl. by rewrite take_drop. }
  intros k d Hk ->. unfold zlen in *.
  assert (Z.to_nat (off + k) < length dst)%nat as Hd by lia.
  apply list_eq. intros j. rewrite list_lookup_insert.
  case_decide as Hj.
  - destruct Hj as [<- Hj]. rewrite lookup_app_r by (rewrite length_take; lia).
    rewrite length_take, lookup_app_l by (rewrite length_take; lia).
    replace (Z.to_nat (off + k) - _)%nat with (Z.to_nat k) by lia.
    rewrite lookup_take_lt by lia. symmetry. apply list_lookup_lookup_total_lt. lia.
  - autorewrite with len in Hj.
    destruct (decide (j < Z.to_nat off)%nat).
    { by rewrite !lookup_app_l by (rewrite length_take; lia). }
    rewrite !(lookup_app_r (take _ dst)) by (rewrite length_take; lia).
    rewrite length_take, Nat.min_l by lia.
    destruct (decide (j - Z.to_nat off < Z.to_nat k)%nat).
    { rewrite !lookup_app_l by (rewrite length_take; lia). by rewrite !lookup_take_lt by lia. }
    rewrite !lookup_app_r by (rewrite length_take; lia). rewrite !lookup_drop, !length_take.
    f_equal. lia.
Qed.

Lemma copy_bytes_get {A} `{Inhabited A} (dst src : list A) off n j :
  0 <= off -> 0 <= n -> off + n <= zlen dst -> 0 <= j ->
  (copy_bytes dst off src n).[j] =
  if (off <=? j) && (j <? off + n) then src.[j - off] else dst.[j].
Proof.
  intros Hoff Hn Hd Hj. unfold copy_bytes.
  apply (for_z_ind (fun k d => zlen d = zlen dst /\ d.[j] =
    if (off <=? j) && (j <? off + k) then src.[j - off] else dst.[j])); [lia|..].
  { split; [done|]. by replace (_ && _) with false by lia. }
  intros k d Hk [L Hg]. rewrite zlen_set. split; [done|].
  destruct (decide (off + k = j)) as [<-|].
  - rewrite arr_get_eq by lia. replace (_ && _) with true by lia. do 2 f_equal. lia.
  - rewrite arr_get_ne, Hg by lia. by replace (j <? off + (k + 1)) with (j <? off + k) by lia.
Qed.

(** Copying a whole array. *)
Lemma copy_whole {A} `{Inhabited A} (dst src : list A) n :
  zlen dst = n -> zlen src = n -> copy_bytes dst 0 src n = src.
Proof.
  intros Hd Hs. pose proof (zlen_nonneg src). rewrite copy_bytes_spec by lia. simpl.
  unfold zlen in *. by rewrite take_ge, drop_ge, app_nil_r by lia.
Qed.

(** The filling loop over a window [lo, hi). *)
Lemma fill_window {A} (a : list A) (v : A) lo hi :
  0 <= lo <= hi -> hi <= zlen a ->
  for_z lo hi (fun i a => a.[i <- v]) a =
  take (Z.to_nat lo) a ++ replicate (Z.to_nat (hi - lo)) v ++ drop (Z.to_nat hi) a.
Proof.
  intros Hlo Hhi. unfold zlen in Hhi.
  apply (for_z_ind (fun k b => b = take (Z.to_nat lo) a ++ replicate (Z.to_nat (k - lo)) v ++
                                   drop (Z.to_nat k) a)); [lia|..].
  { rewrite Z.sub_diag. simpl. by rewrite take_drop. }
  intros k b Hk ->. assert (Z.to_nat k < length a)%nat as Hd by lia.
  replace (Z.to_nat (k + 1 - lo)) with (Z.to_nat (k - lo) + 1)%nat by lia.
  replace (Z.to_nat (k + 1)) with (S (Z.to_nat k)) by lia.
  destruct (lookup_lt_is_Some_2 a _ Hd) as [x Hx].
  rewrite (drop_S _ _ _ Hx), replicate_add, <- (app_assoc (replicate _ _)), !app_assoc.
  rewrite insert_app_r_alt by len.
  rewrite !length_app, length_take, length_replicate.
  replace (Z.to_nat k - _)%nat with 0%nat by lia. simpl. by rewrite <- !app_assoc.
Qed.

(** Unrolling a counting loop with numeric bounds. *)
Ltac unroll :=
  repeat match goal with
  | |- context [@for_z ?S ?lo ?hi ?f ?s] =>
      lazymatch eval vm_compute in (hi - lo) with Zpos _ => idtac end;
      let l := eval vm_compute in (seqZ lo (hi - lo)) in
      change (@for_z S lo hi f s) with (foldl (fun s i => f i s) s l)
  end;
  cbn [foldl].

(** Evaluating reads at numeric indices of a list whose elements are named. *)
Ltac reads :=
  repeat match goal with
  | |- context [@lookup_total nat Z (list Z) ?I (Z.to_nat ?i) ?l] =>
      lazymatch eval vm_compute in i with Z0 => idtac | Zpos _ => idtac end;
      let n := eval vm_compute in (Z.to_nat i) in
      let v := eval cbn [nth app] in (nth n l 0) in
      change (@lookup_total nat Z (list Z) I (Z.to_nat i) l) with v
  end.

(** Name the first [n] elements of a list known from [H] to be that long. *)
Ltac explode l H n :=
  lazymatch n with
  | O => idtac
  | S ?m => destruct l as [|? l]; [exfalso; unfold zlen in H; simpl in H; lia|explode l H m]
  end.

(** Name all elements of a list known from [H] to have exactly [n]. *)
Ltac explode_all l H n :=
  explode l H n; destruct l; [|exfalso; unfold zlen in H; simpl in H; lia].

Lemma length_copy_bytes {A} `{Inhabited A} (dst src : list A) off n :
  zlen (copy_bytes dst off src n) = zlen dst.
Proof.
  unfold copy_bytes. destruct (decide (0 <= n)).
  - apply (for_z_ind (fun _ d => zlen d = zlen dst)); [lia|done|].
    intros. by rewrite zlen_set.
  - by rewrite for_z_empty by lia.
Qed.
#[export] Hint Rewrite @length_copy_bytes : len.

(** ** Counting *)

(** The number of elements of [l] that satisfy [p]. *)
Fixpoint countb {A} (p : A -> bool) (l : list A) : Z :=
  match l with
  | [] => 0
  | x :: l => (if p x then 1 else 0) + countb p l
  end.

Section countb.
Context {A : Type} (p : A -> bool).

Lemma countb_app l k : countb p (l ++ k) = countb p l + countb p k.
Proof. induction l as [|x l IH]; simpl; lia. Qed.

Lemma countb_bounds l : 0 <= countb p l <= zlen l.
Proof. unfold zlen. induction l as [|x l IH]; simpl; [lia|]. destruct (p x); lia. Qed.

Lemma countb_insert l i x y :
  l !! i = Some x ->
  countb p (<[i := y]> l) =
  countb p l - (if p x then 1 else 0) + (if p y then 1 else 0).
Proof.
  revert i. induction l as [|z l IH]; intros [|i] Hi; simplify_eq/=; [lia|].
  rewrite (IH i) by done. lia.
Qed.

Lemma countb_mono q l : (forall x, p x = true -> q x = true) -> countb p l <= countb q l.
Proof.
  intros Hpq. induction l as [|x l IH]; simpl; [lia|].
  destruct (p x) eqn:E; [rewrite (Hpq x E); lia|]. destruct (q x); lia.
Qed.

Lemma countb_zero l : countb p l = 0 <-> forall i x, l !! i = Some x -> p x = false.
Proof.
  induction l as [|x l IH]; simpl; [done|]. pose proof (countb_bounds l).
  split.
  - intros Hz. destruct (p x) eqn:Ex; [lia|].
    intros [|i] y Hy; simpl in Hy; [congruence|]. apply IH in Hy; [done|lia].
  - intros Hi. rewrite (Hi 0%nat x) by done. apply IH.
    intros i y Hy. by apply (Hi (S i)).
Qed.

Lemma countb_pos l i x : l !! i = Some x -> p x = true -> 0 < countb p l.
Proof.
  intros Hi Hp. pose proof (countb_bounds l).
  destruct (decide (countb p l = 0)) as [Hz|]; [|lia].
  rewrite (proj1 (countb_zero l) Hz i x Hi) in Hp. done.
Qed.

Lemma countb_full l : (forall i x, l !! i = Some x -> p x = true) -> countb p l = zlen l.
Proof.
  unfold zlen. induction l as [|x l IH]; simpl; intros Hi; [done|].
  rewrite (Hi 0%nat x) by done. rewrite IH; [lia|]. intros i y Hy. by apply (Hi (S i)).
Qed.

Lemma countb_update q l g :
  NoDup l -> g ∈ l -> (forall x, x <> g -> p x = q x) ->
  countb q l = countb p l - (if p g then 1 else 0) + (if q g then 1 else 0).
Proof.
  intros Hnd Hg Hpq. induction Hnd as [|x l Hx Hnd IH]; [set_solver|]. simpl.
  apply elem_of_cons in Hg as [->|Hg].
  - enough (countb q l = countb p l) by lia. clear IH.
    assert (forall y, y ∈ l -> p y = q y) as Hl by (intros; apply Hpq; set_solver).
    clear -Hl. induction l as [|z l IH]; simpl; [done|]. rewrite Hl, IH by set_solver. done.
  - rewrite IH by done. rewrite (Hpq x) by set_solver. lia.
Qed.

Lemma countb_ext q l :
  (forall x, x ∈ l -> p x = q x) -> countb p l = countb q l.
Proof.
  induction l as [|x l IH]; simpl; intros Hq; [done|].
  rewrite (Hq x) by set_solver. f_equal. apply IH. intros. apply Hq. set_solver.
Qed.

End countb.

(** Counting over an index range. *)
Lemma countb_range_bounds p n : 0 <= n -> 0 <= countb p (seqZ 0 n) <= n.
Proof.
  intros Hn. pose proof (countb_bounds p (seqZ 0 n)) as Hb. unfold zlen in Hb.
  rewrite length_seqZ in Hb. lia.
Qed.

Lemma countb_range_update p q n g :
  0 <= g < n -> (forall x, 0 <= x < n -> x <> g -> q x = p x) ->
  countb q (seqZ 0 n) = countb p (seqZ 0 n) - (if p g then 1 else 0) + (if q g then 1 else 0).
Proof.
  intros Hg Hpq. rewrite (countb_ext q (fun x => if x =? g then q g else p x)).
  - rewrite (countb_update p _ _ g); [by rewrite Z.eqb_refl|apply NoDup_seqZ|
      apply elem_of_seqZ; lia|].
    intros x Hx. by replace (x =? g) with false by lia.
  - intros x Hx%elem_of_seqZ. destruct (x =? g) eqn:E; [by replace x with g by lia|].
    apply Hpq; lia.
Qed.

Lemma seqZ_snoc lo n : 0 <= n -> seqZ lo (n + 1) = seqZ lo n ++ [lo + n].
Proof. intros. rewrite seqZ_app by lia. done. Qed.

(** Adding a run of positions that were not counted. *)
Lemma countb_range_add p n f m :
  0 <= f -> 0 <= m -> f + m <= n -> (forall i, f <= i < f + m -> p i = false) ->
  countb (fun i => p i || ((f <=? i) && (i <? f + m))) (seqZ 0 n) = countb p (seqZ 0 n) + m.
Proof.
  intros Hf Hm. revert m Hm. apply (natlike_ind (fun m => f + m <= n -> _ -> _ = _)).
  - intros _ _. rewrite !Z.add_0_r. apply countb_ext. intros x _.
    replace (_ && _) with false by lia. apply orb_false_r.
  - intros m Hm IH Hn Hp.
    rewrite (countb_range_update (fun i => p i || ((f <=? i) && (i <? f + m))) _ n (f + m)).
    + rewrite IH by (lia || intros; apply Hp; lia). rewrite Hp by lia.
      replace (_ && (f + m <? f + m)) with false by lia.
      replace (_ && (f + m <? f + Z.succ m)) with true by lia. simpl. lia.
    + lia.
    + intros x Hx Hne. f_equal. lia.
Qed.

Lemma countb_all {A} (p : A -> bool) l :
  countb p l = zlen l -> forall x, x ∈ l -> p x = true.
Proof.
  induction l as [|y l IH]; simpl; intros Hc x Hx; [set_solver|].
  pose proof (countb_bounds p l). unfold zlen in *. simpl in Hc.
  destruct (p y) eqn:Ey; [|lia].
  apply elem_of_cons in Hx as [->|Hx]; [done|]. apply IH; [lia|done].
Qed.

(** As many as there can be: then all of them. *)
Lemma countb_range_full p n m :
  0 <= m <= n -> (forall i, 0 <= i < n -> p i = true -> i < m) ->
  countb p (seqZ 0 n) = m -> forall i, 0 <= i < m -> p i = true.
Proof.
  intros Hm Hp Hc i Hi. replace n with (m + (n - m)) in Hc by lia.
  rewrite seqZ_app, countb_app in Hc by lia.
  rewrite (proj2 (countb_zero p (seqZ (0 + m) _))) in Hc.
  - apply (countb_all p (seqZ 0 m)); [|apply elem_of_seqZ; lia].
    unfold zlen. rewrite length_seqZ. lia.
  - intros j x Hx%lookup_seqZ. destruct (p x) eqn:E; [|done]. apply Hp in E; lia.
Qed.

(** The counting loop [for (i = 0; i < n; ++i) if (p(i)) ++c;]. *)
Lemma count_loop (p : Z -> bool) (n w : Z) :
  0 <= n < 2 ^ w -> 0 <= w ->
  for_z 0 n (fun i c => if p i then wrap w (c + 1) else c) 0 = countb p (seqZ 0 n).
Proof.
  intros Hn Hw. apply (for_z_ind (fun k c => c = countb p (seqZ 0 k))); [lia|done|].
  intros k c Hk ->. rewrite seqZ_snoc, countb_app, Z.add_0_l by lia. simpl.
  pose proof (countb_range_bounds p k ltac:(lia)).
  case_if as E; [|lia]. rewrite wrap_small; [lia|]. unfold in_width. lia.
Qed.
