(* ===== verification/Ring.v ===== *)
(** * Ring buffers

    The bounded queues of the kernel (IPC channels, packet queues and the receive
    queues of the UDP and TCP endpoints) share one representation: an array
    [buf] of [cap] slots, the index [head] of the oldest element, the index
    [tail] of the next free slot and the number [count] of stored elements.
    This file states what that representation means and how the two updates
    the code performs act on it. *)

From S2P Require Import Prelude.

Section ring.
Context {A : Type} `{Inhabited A} (cap : Z) (Hcap : 0 < cap).
Implicit Types (buf : list A) (head tail count : Z).

(** The representation invariant. *)
Definition ring_ok buf head tail count : Prop :=
  zlen buf = cap /\ 0 <= head < cap /\ 0 <= count <= cap /\ tail = (head + count) mod cap.

(** The queue a ring represents, oldest element first. *)
Definition ring_list buf head count : list A :=
  (fun i => buf.[(head + i) mod cap]) <$> seqZ 0 count.

Lemma ring_list_length buf head count :
  0 <= count -> zlen (ring_list buf head count) = count.
Proof. intros. unfold ring_list. len. Qed.

Lemma ring_empty_ok buf : zlen buf = cap -> ring_ok buf 0 0 0.
Proof. intros. unfold ring_ok. rewrite Z.mod_small; lia. Qed.

Lemma ring_slot_ne i j :
  0 <= i < cap -> 0 <= j < cap -> i <> j -> forall h, (h + i) mod cap <> (h + j) mod cap.
Proof.
  intros Hi Hj Hij h Heq. apply Hij.
  assert ((h + i - (h + j)) mod cap = 0) as Hz.
  { rewrite Zminus_mod, Heq, Z.sub_diag. apply Zmod_0_l. }
  replace (h + i - (h + j)) with (i - j) in Hz by lia.
  apply Z.mod_divide in Hz as [k Hk]; [|lia].
  assert (k = 0 \/ 1 <= k \/ k <= -1) as [->|[]] by lia; nia.
Qed.

(** Writing the tail slot and advancing [tail] appends an element. *)
Lemma ring_push buf head tail count x :
  ring_ok buf head tail count -> count < cap ->
  ring_ok (buf.[tail <- x]) head ((tail + 1) mod cap) (count + 1) /\
  ring_list (buf.[tail <- x]) head (count + 1) = ring_list buf head count ++ [x].
Proof.
  intros (Hlen & Hh & Hc & ->) Hlt. split.
  { unfold ring_ok. rewrite zlen_set, Zplus_mod_idemp_l. repeat split; try lia. f_equal; lia. }
  pose proof (Z.mod_pos_bound (head + count) cap ltac:(lia)).
  unfold ring_list. rewrite seqZ_app, fmap_app by lia. f_equal.
  - apply list_fmap_ext. intros k i Hi%lookup_seqZ.
    pose proof (Z.mod_pos_bound (head + i) cap ltac:(lia)).
    rewrite arr_get_ne; [done|lia..|]. apply ring_slot_ne; lia.
  - simpl. rewrite Z.add_0_l. rewrite arr_get_eq; [done|lia].
Qed.

(** Advancing [head] removes the oldest element. *)
Lemma ring_pop buf head tail count :
  ring_ok buf head tail count -> 0 < count ->
  ring_ok buf ((head + 1) mod cap) tail (count - 1) /\
  ring_list buf head count =
    buf.[head] :: ring_list buf ((head + 1) mod cap) (count - 1).
Proof.
  intros (Hlen & Hh & Hc & ->) Hlt. split.
  { unfold ring_ok. rewrite Zplus_mod_idemp_l.
    pose proof (Z.mod_pos_bound (head + 1) cap ltac:(lia)).
    repeat split; try lia. f_equal; lia. }
  unfold ring_list. rewrite (seqZ_cons 0) by lia. simpl.
  rewrite Z.add_0_r, Z.mod_small by lia. f_equal.
  apply list_eq. intros k. rewrite !list_lookup_fmap.
  replace (Z.pred count) with (count - 1) by lia.
  destruct (decide (Z.of_nat k < count - 1)).
  - rewrite !lookup_seqZ_lt by lia. simpl. rewrite Zplus_mod_idemp_l. do 4 f_equal. lia.
  - by rewrite !lookup_seqZ_ge by lia.
Qed.

(** The head slot holds the oldest element. *)
Lemma ring_peek buf head tail count :
  ring_ok buf head tail count -> 0 < count ->
  ring_list buf head count !! 0%nat = Some (buf.[head]).
Proof. intros Hok Hc. by rewrite (proj2 (ring_pop _ _ _ _ Hok Hc)). Qed.

End ring.
