(* ===== verification/Slab.v ===== *)
(** * Slab caches (kernel/mm/slab/slab.c)

    A slab cache hands out fixed-size objects of a caller-supplied storage area
    and records in the byte array [used] which of them are live.  The model
    keeps the record of slab.h (its spinlock apart: every operation runs under
    the lock, so it is one atomic step); an object is its address, and 0 is the
    null pointer. *)

From S2P Require Import Prelude.

Module Slab.

Record slab_cache_t := {
  storage : Z;
  used : list Z;
  object_size : Z;
  capacity : Z;
  available : Z;
}.

Definition with_used (c : slab_cache_t) (u : list Z) (av : Z) : slab_cache_t :=
  {| storage := storage c; used := u; object_size := object_size c;
     capacity := capacity c; available := av |}.

Definition slab_cache_initialize (storage_ object_size_ capacity_ : Z) (used_ : list Z)
    : option slab_cache_t :=
  if (storage_ =? 0) || (object_size_ =? 0) || (capacity_ =? 0) then None
  else Some {| storage := storage_;
               used := for_z 0 capacity_ (fun i u => u.[i <- 0]) used_;
               object_size := object_size_; capacity := capacity_;
               available := capacity_ |}.

(** Returns the object (0 for null) and the cache. *)
Definition slab_cache_allocate (c : slab_cache_t) : Z * slab_cache_t :=
  if available c =? 0 then (0, c)
  else match find_first (fun b => b =? 0) (take (Z.to_nat (capacity c)) (used c)) with
       | Some i =>
           let i := Z.of_nat i in
           (u64 (storage c + u64 (i * object_size c)),
            with_used c ((used c).[i <- 1]) (u32 (available c - 1)))
       | None => (0, c)
       end.

(** Returns 1 or 0 as a boolean and the cache. *)
Definition slab_cache_free (c : slab_cache_t) (object : Z) : bool * slab_cache_t :=
  if object =? 0 then (false, c) else
  let start := storage c in
  let address := object in
  let span := u64 (object_size c * capacity c) in
  if (address <? start) || (span <=? address - start)
     || negb ((address - start) mod object_size c =? 0) then (false, c)
  else
    let index := u32 ((address - start) / object_size c) in
    if (used c).[index] =? 0 then (false, c)
    else (true, with_used c ((used c).[index <- 0]) (u32 (available c + 1))).

Definition slab_cache_available (c : slab_cache_t) : Z := available c.

(** ** Invariant and abstraction *)

(** Every slot byte is 0 or not, [available] counts the zero ones, and the
    storage area lies inside the address space. *)
Record slab_ok (c : slab_cache_t) : Prop := {
  ok_storage : 0 < storage c;
  ok_size : 0 < object_size c /\ is_u32 (object_size c);
  ok_capacity : 0 < capacity c /\ is_u32 (capacity c);
  ok_span : storage c + object_size c * capacity c <= 2 ^ 64;
  ok_used : capacity c <= zlen (used c);
  ok_available :
    available c = countb (fun b => b =? 0) (take (Z.to_nat (capacity c)) (used c));
}.

Definition slot_address (c : slab_cache_t) (i : Z) : Z := storage c + i * object_size c.

(** The live objects: the addresses of the slots in use. *)
Definition live (c : slab_cache_t) (a : Z) : Prop :=
  exists i, 0 <= i < capacity c /\ a = slot_address c i /\ (used c).[i] <> 0.

(** ** Lemmas *)

Lemma slot_address_inj c i j : slab_ok c -> slot_address c i = slot_address c j -> i = j.
Proof. intros [] Heq. unfold slot_address in Heq. nia. Qed.

Lemma slab_slot_range c i :
  slab_ok c -> 0 <= i < capacity c -> 0 < slot_address c i < 2 ^ 64.
Proof. intros [] Hi. unfold slot_address. nia. Qed.

Lemma slab_available_width c : slab_ok c -> is_u32 (available c) /\ available c <= capacity c.
Proof.
  intros [? ? [] ? Hu ->].
  pose proof (countb_bounds (fun b => b =? 0) (take (Z.to_nat (capacity c)) (used c))).
  unfold zlen in *. rewrite length_take in *. widths. lia.
Qed.

Lemma slab_take_lookup c i :
  slab_ok c -> 0 <= i < capacity c ->
  take (Z.to_nat (capacity c)) (used c) !! Z.to_nat i = Some ((used c).[i]).
Proof.
  intros Hok Hi. rewrite lookup_take_lt by lia. apply arr_lookup.
  pose proof (ok_used c Hok). lia.
Qed.

(** Storing [b] in slot [i] with the matching count keeps the invariant. *)
Lemma slab_store_ok c i b av :
  slab_ok c -> 0 <= i < capacity c ->
  av = available c - (if (used c).[i] =? 0 then 1 else 0) + (if b =? 0 then 1 else 0) ->
  slab_ok (with_used c ((used c).[i <- b]) av).
Proof.
  intros Hok Hi ->. pose proof Hok as [Hs1 Hs2 Hs3 Hs4 Hs5 Hs6].
  constructor; simpl; try done; [by rewrite zlen_set|].
  rewrite take_insert_lt by lia.
  erewrite countb_insert by (by apply slab_take_lookup). by rewrite Hs6.
Qed.

Lemma slab_used_lt c i :
  slab_ok c -> 0 <= i < capacity c -> (used c).[i] <> 0 -> available c < capacity c.
Proof.
  intros Hok Hi Hu. pose proof (slab_store_ok c i 0 (available c + 1) Hok Hi) as Hst.
  replace ((used c).[i] =? 0) with false in Hst by lia.
  specialize (Hst ltac:(simpl; lia)). apply slab_available_width in Hst. simpl in Hst. lia.
Qed.

Lemma slab_live_store c i b av a :
  slab_ok c -> 0 <= i < capacity c ->
  live (with_used c ((used c).[i <- b]) av) a <->
  (a = slot_address c i /\ b <> 0) \/ (a <> slot_address c i /\ live c a).
Proof.
  intros Hok Hi. pose proof (ok_used c Hok). unfold live. simpl. split.
  - intros (j & Hj & -> & Hu). change (slot_address (with_used _ _ _) j) with (slot_address c j).
    destruct (decide (i = j)) as [<-|Hne].
    + left. rewrite arr_get_eq in Hu by lia. done.
    + right. split; [intros Heq; by apply slot_address_inj in Heq|]. exists j.
      rewrite arr_get_ne in Hu by lia. done.
  - intros [[-> Hb]|[Hne (j & Hj & -> & Hu)]].
    + exists i. by rewrite arr_get_eq by lia.
    + exists j. rewrite arr_get_ne by (try lia; congruence). done.
Qed.

Lemma slab_zero_count u n :
  0 <= n <= zlen u -> (forall j, 0 <= j < n -> u.[j] = 0) ->
  countb (fun b => b =? 0) (take (Z.to_nat n) u) = n.
Proof.
  intros Hn Hz. rewrite countb_full; [unfold zlen in *; rewrite length_take; lia|].
  intros i x Hx. pose proof (lookup_lt_Some _ _ _ Hx) as Hlt. rewrite length_take in Hlt.
  rewrite lookup_take_lt in Hx by lia. apply list_lookup_total_correct in Hx.
  specialize (Hz (Z.of_nat i) ltac:(lia)). rewrite Nat2Z.id in Hz. lia.
Qed.

(** ** Theorems *)

(** A fresh cache is well formed, has every slot available and no live object. *)
Theorem slab_initialize_ok storage_ object_size_ capacity_ used_ :
  0 < storage_ -> 0 < object_size_ -> is_u32 object_size_ ->
  0 < capacity_ -> is_u32 capacity_ ->
  storage_ + object_size_ * capacity_ <= 2 ^ 64 -> capacity_ <= zlen used_ ->
  exists c, slab_cache_initialize storage_ object_size_ capacity_ used_ = Some c /\
    slab_ok c /\ available c = capacity_ /\ forall a, ~ live c a.
Proof.
  intros Hs Ho Ho' Hc Hc' Hspan Hu. unfold slab_cache_initialize.
  replace (_ || _ || _) with false by lia. eexists. split; [done|].
  destruct (fill_loop used_ 0 capacity_ ltac:(lia)) as [Hlen Hz].
  split; [|split; [done|]].
  - constructor; simpl; try done; [lia|]. symmetry. apply slab_zero_count; [lia|done].
  - intros a (i & Hi & _ & Hui). apply Hui. by apply Hz.
Qed.

(** The allocator against its contract: a non-null result was not live, is one of
    the slots, and becomes live, nothing else changing; null is returned only
    when every slot is live. *)
Theorem slab_allocate_spec c :
  slab_ok c ->
  let '(obj, c') := slab_cache_allocate c in
  slab_ok c' /\
  ((obj = 0 /\ c' = c /\ forall i, 0 <= i < capacity c -> live c (slot_address c i)) \/
   (exists i, 0 <= i < capacity c /\ obj = slot_address c i /\ obj <> 0 /\ ~ live c obj /\
     available c' = available c - 1 /\
     forall a, live c' a <-> a = obj \/ live c a)).
Proof.
  intros Hok. pose proof (slab_available_width c Hok) as [Hav Hle].
  unfold slab_cache_allocate. destruct (find_first _ _) as [n|] eqn:Hf.
  - apply find_first_Some in Hf as [(x & Hx & Hx0) _].
    pose proof (lookup_lt_Some _ _ _ Hx) as Hlt. rewrite length_take in Hlt.
    set (i := Z.of_nat n). assert (0 <= i < capacity c) as Hi by lia.
    replace n with (Z.to_nat i) in Hx by lia. rewrite slab_take_lookup in Hx by done.
    pose proof (slab_slot_range c i Hok Hi) as Hr. unfold slot_address in Hr.
    assert (0 < available c) as Hpos.
    { rewrite (ok_available c Hok). eapply countb_pos; [|exact Hx0].
      rewrite slab_take_lookup by done. exact Hx. }
    replace (available c =? 0) with false by lia. simplify_eq.
    rewrite (wrap_small 64 (i * _)), (wrap_small 64), wrap_small
      by (pose proof (ok_storage c Hok); pose proof (ok_size c Hok); widths; nia).
    split; [apply slab_store_ok; [done..|]; rewrite Hx0; simpl; lia|].
    right. exists i. split_and!; [lia|lia|done|unfold slot_address; lia| |done|].
    + intros (j & Hj & Heq%slot_address_inj & Hu); [|done]. subst j. lia.
    + intros a. rewrite slab_live_store by done. change (storage c + _) with (slot_address c i).
      destruct (decide (a = slot_address c i)); intuition congruence.
  - assert (forall i, 0 <= i < capacity c -> live c (slot_address c i)) as Hall.
    { intros i Hi. exists i. split; [done|split; [done|]].
      eapply find_first_None in Hf; [|by apply slab_take_lookup]. lia. }
    destruct (available c =? 0); (split; [exact Hok|left; done]).
Qed.

(** Freeing succeeds exactly on the live objects and then removes just that one;
    on any other address it fails and changes nothing. *)
Theorem slab_free_spec c object :
  slab_ok c -> is_u64 object ->
  let '(r, c') := slab_cache_free c object in
  slab_ok c' /\ (r = true <-> live c object) /\
  (r = false -> c' = c) /\
  (r = true -> available c' = available c + 1 /\
     forall a, live c' a <-> a <> object /\ live c a).
Proof.
  intros Hok Hobj. pose proof Hok as [Hs1 [Hs2 Hs2'] [Hs3 Hs3'] Hs4 Hs5 _].
  unfold slab_cache_free.
  assert (forall j, 0 <= j < capacity c -> object = slot_address c j ->
            j = (object - storage c) / object_size c /\
            (object - storage c) mod object_size c = 0 /\
            storage c <= object /\ object - storage c < object_size c * capacity c) as Hslot.
  { intros j Hj ->. unfold slot_address. replace (_ + _ - _) with (j * object_size c) by lia.
    rewrite Z.div_mul, Z.mod_mul by lia. split_and!; [done..|nia|nia]. }
  case_if as E0.
  { split_and!; [done| |done..]. split; [done|]. intros (j & Hj & Heq & _).
    destruct (Hslot j Hj Heq). lia. }
  rewrite (wrap_small 64) by (widths; nia).
  case_if as E1.
  { split_and!; [done| |done..]. split; [done|]. intros (j & Hj & Heq & _).
    destruct (Hslot j Hj Heq). lia. }
  set (i := (object - storage c) / object_size c).
  assert (0 <= i < capacity c /\ object = slot_address c i) as [Hi Heq].
  { unfold slot_address, i. pose proof (Z.div_mod (object - storage c) (object_size c)).
    split; [split; [apply Z.div_pos; lia|apply Z.div_lt_upper_bound; lia]|nia]. }
  rewrite wrap_small by (widths; lia).
  case_if as E2.
  { split_and!; [done| |done..]. split; [done|]. intros (j & Hj & Heq' & Hu).
    destruct (Hslot j Hj Heq') as [-> _]. fold i in Hu. lia. }
  pose proof (slab_available_width c Hok) as [Hav Hle].
  rewrite wrap_small by (pose proof (slab_used_lt c i Hok Hi ltac:(lia)); widths; lia).
  split_and!; [apply slab_store_ok; [done..|]; rewrite E2; simpl; lia| |done|].
  - split; [intros _; exists i; split_and!; lia || done|done].
  - intros _. split; [done|]. intros a. rewrite slab_live_store, <- Heq by done. tauto.
Qed.

(** ** Examples *)

(** Four objects of 64 bytes at address 4096, the second of them live. *)
Definition example_cache : slab_cache_t :=
  {| storage := 4096; used := [0; 1; 0; 0]; object_size := 64; capacity := 4; available := 3 |}.

Lemma slab_initialize_witness :
  exists c, slab_cache_initialize 4096 64 4 [7; 7; 7; 7] = Some c /\ slab_ok c /\ available c = 4.
Proof.
  destruct (slab_initialize_ok 4096 64 4 [7; 7; 7; 7]) as (c & Hc & Hok & Hav & _);
    [vm_compute; (split; congruence) || congruence..|].
  by exists c.
Defined.

Lemma slab_allocate_witness :
  slab_ok example_cache /\ slab_ok (slab_cache_allocate example_cache).2.
Proof.
  assert (slab_ok example_cache) as Hok by (constructor; vm_compute; intuition congruence).
  split; [exact Hok|]. pose proof (slab_allocate_spec example_cache Hok) as H.
  destruct (slab_cache_allocate example_cache) as [obj c']. apply H.
Defined.

Lemma slab_free_witness :
  slab_ok example_cache /\ slab_ok (slab_cache_free example_cache 4160).2.
Proof.
  assert (slab_ok example_cache) as Hok by (constructor; vm_compute; intuition congruence).
  assert (is_u64 4160) as Hw by (vm_compute; intuition congruence).
  split; [exact Hok|]. pose proof (slab_free_spec example_cache 4160 Hok Hw) as H.
  destruct (slab_cache_free example_cache 4160) as [r c']. apply H.
Defined.

End Slab.
