(* ===== verification/Frame.v ===== *)
(** * Physical frames (kernel/mm/physical/frame.c)

    The allocator keeps two bitmaps over the 4 KiB frames below 4 GiB:
    [frame_bitmap] (bit set: the frame is not free) and [allocated_bitmap]
    (bit set: the frame was handed out by the allocator), with counters.  The
    state below is the file's static data plus the physical memory it clears;
    each operation runs under [frame_lock], so it is one atomic step.  Physical
    memory is a function from (8-byte aligned) addresses to 64-bit words. *)

From S2P Require Import Prelude.

Module Frame.

Definition FRAME_SIZE : Z := 4096.
Definition MAX_PHYSICAL_ADDRESS : Z := 4294967296.
Definition MAX_FRAMES : Z := 1048576.
Definition BITMAP_BYTES : Z := 131072.

Record efi_memory_descriptor_t := {
  type : Z;
  physical_start : Z;
  virtual_start : Z;
  number_of_pages : Z;
  attributes : Z;
}.
Definition sizeof_efi_memory_descriptor : Z := 40.

(** The fields of the boot information that the allocator reads. *)
Record os_boot_info_t := {
  memory_map : Z;
  memory_map_size : Z;
  memory_descriptor_size : Z;
  kernel_base : Z;
  kernel_size : Z;
}.

Record physical_memory_stats_t := {
  total_frames : Z;
  free_frames : Z;
  reserved_frames : Z;
}.

Record phys_t := {
  frame_bitmap : list Z;
  allocated_bitmap : list Z;
  stats : physical_memory_stats_t;
  memory : Z -> Z;
}.

(** The bit of [frame] in its byte: [(uint8_t)(1U << (frame & 7))]. *)
Definition frame_mask (frame : Z) : Z := u8 (Z.shiftl 1 (Z.land frame 7)).

Definition mark_frame (bm : list Z) (frame : Z) (free : bool) : list Z :=
  if MAX_FRAMES <=? frame then bm
  else
    let mask := frame_mask frame in
    let b := bm.[Z.shiftr frame 3] in
    if free then bm.[Z.shiftr frame 3 <- Z.land b (u8 (Z.lnot mask))]
    else bm.[Z.shiftr frame 3 <- Z.lor b mask].

Definition frame_is_free (bm : list Z) (frame : Z) : bool :=
  Z.land (bm.[Z.shiftr frame 3]) (frame_mask frame) =? 0.

Definition frame_is_allocated (am : list Z) (frame : Z) : bool :=
  negb (Z.land (am.[Z.shiftr frame 3]) (frame_mask frame) =? 0).

Definition mark_allocated (am : list Z) (frame : Z) (allocated : bool) : list Z :=
  let mask := frame_mask frame in
  let b := am.[Z.shiftr frame 3] in
  if allocated then am.[Z.shiftr frame 3 <- Z.lor b mask]
  else am.[Z.shiftr frame 3 <- Z.land b (u8 (Z.lnot mask))].

(** ** physical_init

    [read] is the memory the loader left behind: the descriptor stored at an
    address. *)

Definition boot_info_valid (bi : os_boot_info_t) : bool :=
  negb ((memory_map bi =? 0) || (memory_descriptor_size bi =? 0)
        || (memory_descriptor_size bi <? sizeof_efi_memory_descriptor)
        || (memory_map_size bi <? memory_descriptor_size bi)
        || (MAX_PHYSICAL_ADDRESS <=? kernel_base bi)
        || (kernel_size bi =? 0)
        || (MAX_PHYSICAL_ADDRESS - kernel_base bi <? kernel_size bi)).

(** The pages of one descriptor, as the loop body of the scan marks them. *)
Definition free_descriptor (d : efi_memory_descriptor_t) (bm : list Z) : list Z :=
  if (type d =? 7) && (physical_start d <? MAX_PHYSICAL_ADDRESS) then
    let first := physical_start d / FRAME_SIZE in
    let pages := number_of_pages d in
    let pages := if MAX_FRAMES - first <? pages then MAX_FRAMES - first else pages in
    for_z 0 pages (fun page bm => mark_frame bm (first + page) true) bm
  else bm.

(** The two conditions of the kernel loop, [page < kernel_pages] and
    [kernel_first + page < MAX_FRAMES], both bound [page]. *)
Definition reserve_kernel (bi : os_boot_info_t) (bm : list Z) : list Z :=
  let kernel_first := kernel_base bi / FRAME_SIZE in
  let kernel_pages := (kernel_size bi - 1) / FRAME_SIZE + 1 in
  for_z 0 (Z.min kernel_pages (MAX_FRAMES - kernel_first))
    (fun page bm => mark_frame bm (kernel_first + page) false) bm.

Definition count_free (bm : list Z) : Z :=
  for_z 0 MAX_FRAMES (fun frame n => if frame_is_free bm frame then u64 (n + 1) else n) 0.

Definition physical_init (bi : os_boot_info_t) (read : Z -> efi_memory_descriptor_t)
    (st : phys_t) : bool * phys_t :=
  if negb (boot_info_valid bi) then (false, st)
  else
    let bm := for_z 0 BITMAP_BYTES (fun i bm => bm.[i <- 255]) (frame_bitmap st) in
    let am := for_z 0 BITMAP_BYTES (fun i am => am.[i <- 0]) (allocated_bitmap st) in
    let count := memory_map_size bi / memory_descriptor_size bi in
    let bm := for_z 0 count
      (fun i bm => free_descriptor (read (u64 (memory_map bi + i * memory_descriptor_size bi))) bm)
      bm in
    let bm := reserve_kernel bi bm in
    let free := count_free bm in
    (negb (free =? 0),
     {| frame_bitmap := bm; allocated_bitmap := am;
        stats := {| total_frames := MAX_FRAMES; free_frames := free;
                    reserved_frames := u64 (MAX_FRAMES - free) |};
        memory := memory st |}).

Definition physical_stats (st : phys_t) : physical_memory_stats_t := stats st.

(** ** Allocation *)

(** [while (available < count && frame_is_free(frame + available)) ++available;] *)
Fixpoint free_run (n : nat) (bm : list Z) (frame : Z) : Z :=
  match n with
  | O => 0
  | S n => if frame_is_free bm frame then 1 + free_run n bm (frame + 1) else 0
  end.

(** The clearing loop over the 512 words of a frame. *)
Definition zero_frame (mem : Z -> Z) (frame : Z) : Z -> Z :=
  for_z 0 (FRAME_SIZE / 8) (fun word m => fupd m (frame * FRAME_SIZE + 8 * word) 0) mem.

(** One iteration of the loop that claims a frame of the run found. *)
Definition claim_frame (frame : Z) (st : phys_t) : phys_t :=
  {| frame_bitmap := mark_frame (frame_bitmap st) frame false;
     allocated_bitmap := mark_allocated (allocated_bitmap st) frame true;
     stats := stats st;
     memory := zero_frame (memory st) frame |}.

Definition add_free (st : phys_t) (n : Z) : phys_t :=
  {| frame_bitmap := frame_bitmap st; allocated_bitmap := allocated_bitmap st;
     stats := {| total_frames := total_frames (stats st);
                 free_frames := u64 (free_frames (stats st) + n);
                 reserved_frames := u64 (reserved_frames (stats st) - n) |};
     memory := memory st |}.

Definition physical_alloc_frames (count : Z) (st : phys_t) : Z * phys_t :=
  if (count =? 0) || (MAX_FRAMES - 256 <? count) then (0, st)
  else
    match find_z 256 (MAX_FRAMES - count + 1)
            (fun frame => free_run (Z.to_nat count) (frame_bitmap st) frame =? count) with
    | Some frame =>
        let st := for_z 0 count (fun page st => claim_frame (frame + page) st) st in
        (u64 (frame * FRAME_SIZE), add_free st (- count))
    | None => (0, st)
    end.

Definition physical_alloc_frame (st : phys_t) : Z * phys_t := physical_alloc_frames 1 st.

(** ** Release *)

Definition release_frame (frame : Z) (st : phys_t) : phys_t :=
  if frame_is_allocated (allocated_bitmap st) frame then
    add_free {| frame_bitmap := mark_frame (frame_bitmap st) frame true;
                allocated_bitmap := mark_allocated (allocated_bitmap st) frame false;
                stats := stats st; memory := memory st |} 1
  else st.

Definition physical_free_frames (address count : Z) (st : phys_t) : phys_t :=
  if (count =? 0) || negb (Z.land address (FRAME_SIZE - 1) =? 0)
     || (MAX_PHYSICAL_ADDRESS <=? address)
     || ((MAX_PHYSICAL_ADDRESS - address) / FRAME_SIZE <? count) then st
  else
    let first := address / FRAME_SIZE in
    for_z 0 count (fun page st => release_frame (first + page) st) st.

Definition physical_free_frame (address : Z) (st : phys_t) : phys_t :=
  physical_free_frames address 1 st.

(** ** Invariant *)

Definition free_count (bm : list Z) : Z := countb (frame_is_free bm) (seqZ 0 MAX_FRAMES).

(** No frame is both free and handed out, and the counters agree with the
    bitmaps. *)
Record frame_ok (st : phys_t) : Prop := {
  ok_bm : zlen (frame_bitmap st) = BITMAP_BYTES;
  ok_am : zlen (allocated_bitmap st) = BITMAP_BYTES;
  ok_disjoint : forall f, 0 <= f < MAX_FRAMES ->
    frame_is_allocated (allocated_bitmap st) f = true ->
    frame_is_free (frame_bitmap st) f = false;
  ok_total : total_frames (stats st) = MAX_FRAMES;
  ok_free : free_frames (stats st) = free_count (frame_bitmap st);
  ok_reserved : reserved_frames (stats st) = MAX_FRAMES - free_frames (stats st);
}.

Definition run_free (st : phys_t) (f n : Z) : Prop :=
  forall i, 0 <= i < n -> frame_is_free (frame_bitmap st) (f + i) = true.

Definition in_run (f n g : Z) : bool := (f <=? g) && (g <? f + n).

(** ** The bitmaps *)

Lemma frame_is_free_bit bm f : 0 <= f -> frame_is_free bm f = negb (bit_at bm f).
Proof.
  intros. unfold frame_is_free, frame_mask. destruct (bitmap_index f) as [-> ->]; [done|].
  pose proof (Z.mod_pos_bound f 8 ltac:(lia)). rewrite byte_mask_small by lia.
  by apply bit_at_land.
Qed.

Lemma frame_is_allocated_bit am f : 0 <= f -> frame_is_allocated am f = bit_at am f.
Proof.
  intros. change (frame_is_allocated am f) with (negb (frame_is_free am f)).
  rewrite frame_is_free_bit by done. apply negb_involutive.
Qed.

Lemma mark_frame_spec bm f b g :
  zlen bm = BITMAP_BYTES -> 0 <= f < MAX_FRAMES -> 0 <= g ->
  frame_is_free (mark_frame bm f b) g = if g =? f then b else frame_is_free bm g.
Proof.
  intros Hlen Hf Hg. rewrite !frame_is_free_bit by done. unfold mark_frame, frame_mask.
  replace (MAX_FRAMES <=? f) with false by lia.
  destruct (bitmap_index f) as [-> ->]; [lia|].
  pose proof (Z.mod_pos_bound f 8 ltac:(lia)). rewrite byte_mask_small by lia.
  assert (0 <= f < 8 * zlen bm) by (unfold MAX_FRAMES, BITMAP_BYTES in *; lia).
  destruct b; [rewrite bit_at_clear by lia|rewrite bit_at_set by lia];
    destruct (g =? f), (bit_at bm g); done.
Qed.

Lemma mark_allocated_spec am f b g :
  zlen am = BITMAP_BYTES -> 0 <= f < MAX_FRAMES -> 0 <= g ->
  frame_is_allocated (mark_allocated am f b) g = if g =? f then b else frame_is_allocated am g.
Proof.
  intros Hlen Hf Hg.
  pose proof (mark_frame_spec am f (negb b) g Hlen Hf Hg) as Hm. unfold mark_frame in Hm.
  replace (MAX_FRAMES <=? f) with false in Hm by lia.
  unfold frame_is_allocated. unfold frame_is_free in Hm. unfold mark_allocated.
  destruct b; simpl in *; rewrite Hm; by destruct (g =? f).
Qed.

Lemma zlen_mark_frame bm f b : zlen (mark_frame bm f b) = zlen bm.
Proof. unfold mark_frame. cases; by rewrite ?zlen_set. Qed.

Lemma zlen_mark_allocated am f b : zlen (mark_allocated am f b) = zlen am.
Proof. unfold mark_allocated. cases; by rewrite ?zlen_set. Qed.
#[local] Hint Rewrite zlen_mark_frame zlen_mark_allocated : len.

Lemma free_count_mark bm f b :
  zlen bm = BITMAP_BYTES -> 0 <= f < MAX_FRAMES -> frame_is_free bm f = negb b ->
  free_count (mark_frame bm f b) = free_count bm + (if b then 1 else -1).
Proof.
  intros Hlen Hf Hb. unfold free_count. rewrite (countb_range_update (frame_is_free bm) _ _ f).
  - rewrite mark_frame_spec, Z.eqb_refl, Hb by (done || lia).
    generalize (countb (frame_is_free bm) (seqZ 0 MAX_FRAMES)) as n.
    intros. destruct b; simpl; lia.
  - done.
  - intros x Hx Hne. rewrite mark_frame_spec by (done || lia). by replace (x =? f) with false by lia.
Qed.

Lemma free_count_bounds bm : 0 <= free_count bm <= MAX_FRAMES.
Proof. by apply countb_range_bounds. Qed.

(** Equal free sets have equal counts. *)
Lemma free_count_ext bm bm' :
  (forall g, 0 <= g < MAX_FRAMES -> frame_is_free bm g = frame_is_free bm' g) ->
  free_count bm = free_count bm'.
Proof.
  intros Hg. unfold free_count.
  apply countb_ext. intros x Hx%elem_of_seqZ. apply Hg. lia.
Qed.

Lemma free_count_pos bm :
  free_count bm <> 0 <-> exists g, 0 <= g < MAX_FRAMES /\ frame_is_free bm g = true.
Proof.
  unfold free_count.
  set (l := seqZ 0 MAX_FRAMES). pose proof (countb_bounds (frame_is_free bm) l). split.
  - intros Hne. destruct (find_z 0 MAX_FRAMES (frame_is_free bm)) as [g|] eqn:Hf.
    { apply find_z_Some in Hf as (? & ? & _). by exists g. }
    exfalso. apply Hne, countb_zero. intros i x Hx%lookup_seqZ.
    apply (proj1 (find_z_None _ _ _) Hf). lia.
  - intros (g & Hg & Hf). enough (0 < countb (frame_is_free bm) l) by lia.
    eapply (countb_pos _ _ (Z.to_nat g)); [|exact Hf]. apply lookup_seqZ. lia.
Qed.

Lemma count_free_spec bm : count_free bm = free_count bm.
Proof. apply (count_loop (frame_is_free bm) MAX_FRAMES 64); done. Qed.

Lemma free_run_full n bm f :
  free_run n bm f = Z.of_nat n <->
  forall i, 0 <= i < Z.of_nat n -> frame_is_free bm (f + i) = true.
Proof.
  assert (forall n f, 0 <= free_run n bm f <= Z.of_nat n) as Hb.
  { intros m. induction m as [|m IH]; intros g; simpl; [lia|].
    specialize (IH (g + 1)). case_match; lia. }
  revert f. induction n as [|n IH]; intros f; simpl; [split; [lia|done]|].
  specialize (Hb n (f + 1)). case_match eqn:E.
  - replace (1 + free_run n bm (f + 1) = Z.of_nat (S n)) with
      (1 + free_run n bm (f + 1) = 1 + Z.of_nat n) by (f_equal; lia).
    rewrite Z.add_cancel_l, IH. split; intros Hi i Hr.
    + destruct (decide (i = 0)) as [->|]; [by rewrite Z.add_0_r|].
      replace (f + i) with (f + 1 + (i - 1)) by lia. apply Hi. lia.
    + replace (f + 1 + i) with (f + (i + 1)) by lia. apply Hi. lia.
  - split; [lia|]. intros Hi. specialize (Hi 0 ltac:(lia)). rewrite Z.add_0_r in Hi. congruence.
Qed.

#[local] Opaque free_count.
#[local] Arguments mark_frame : simpl never.
#[local] Arguments mark_allocated : simpl never.

(** ** The loops *)

Lemma zero_frame_spec mem f a :
  zero_frame mem f a =
  if (f * FRAME_SIZE <=? a) && (a <? (f + 1) * FRAME_SIZE) && ((a - f * FRAME_SIZE) mod 8 =? 0)
  then 0 else mem a.
Proof.
  unfold zero_frame, FRAME_SIZE. change (4096 / 8) with 512.
  assert (for_z 0 512 (fun word m => fupd m (f * 4096 + 8 * word) 0) mem a =
          if (f * 4096 <=? a) && (a <? f * 4096 + 8 * 512) && ((a - f * 4096) mod 8 =? 0)
          then 0 else mem a) as ->;
    [|by replace (f * 4096 + 8 * 512) with ((f + 1) * 4096) by lia].
  apply (for_z_ind (fun k m => m a =
    if (f * 4096 <=? a) && (a <? f * 4096 + 8 * k) && ((a - f * 4096) mod 8 =? 0)
    then 0 else mem a)); [lia| |].
  - by replace (_ && _ && _) with false by lia.
  - intros k m Hk IH. unfold fupd. rewrite IH. clear IH.
    split_ifs; try done; exfalso; zlia.
Qed.

(** [st'] is [st] with exactly the [n] frames from [f] on handed out and cleared. *)
Definition run_claimed (st : phys_t) (f n : Z) (st' : phys_t) : Prop :=
  (forall g, 0 <= g ->
    frame_is_free (frame_bitmap st') g = frame_is_free (frame_bitmap st) g && negb (in_run f n g) /\
    frame_is_allocated (allocated_bitmap st') g =
      frame_is_allocated (allocated_bitmap st) g || in_run f n g) /\
  (forall a, memory st' a =
    if (f * FRAME_SIZE <=? a) && (a <? (f + n) * FRAME_SIZE) && (a mod 8 =? 0)
    then 0 else memory st a).

(** [st'] is [st] with the handed-out frames among the [n] frames from [f] on free again. *)
Definition run_released (st : phys_t) (f n : Z) (st' : phys_t) : Prop :=
  (forall g, 0 <= g ->
    frame_is_free (frame_bitmap st') g =
      frame_is_free (frame_bitmap st) g
      || (in_run f n g && frame_is_allocated (allocated_bitmap st) g) /\
    frame_is_allocated (allocated_bitmap st') g =
      frame_is_allocated (allocated_bitmap st) g && negb (in_run f n g)) /\
  memory st' = memory st.

Lemma run_claimed_step st f k s :
  zlen (frame_bitmap s) = BITMAP_BYTES -> zlen (allocated_bitmap s) = BITMAP_BYTES ->
  0 <= f -> 0 <= k -> f + k < MAX_FRAMES ->
  run_claimed st f k s -> run_claimed st f (k + 1) (claim_frame (f + k) s).
Proof.
  intros Hb Ha Hf Hk Hmax [Hg Hm]. split; simpl.
  - intros g Hg0. destruct (Hg g Hg0) as [Hg1 Hg2].
    rewrite mark_frame_spec, mark_allocated_spec, Hg1, Hg2 by (done || lia).
    unfold in_run. destruct (g =? f + k) eqn:E; split; lia.
  - intros a. rewrite zero_frame_spec, Hm. unfold FRAME_SIZE. clear -Hk Hf.
    split_ifs; try done; exfalso; zlia.
Qed.

Lemma run_claimed_nil st f : run_claimed st f 0 st.
Proof.
  split.
  - intros g Hg. unfold in_run. replace ((f <=? g) && (g <? f + 0)) with false by lia.
    by rewrite andb_true_r, orb_false_r.
  - intros a. by replace (_ && _ && _) with false by lia.
Qed.

(** The claiming loop marks exactly the run and clears its frames. *)
Lemma claim_run st f n :
  zlen (frame_bitmap st) = BITMAP_BYTES -> zlen (allocated_bitmap st) = BITMAP_BYTES ->
  0 <= f -> 0 <= n -> f + n <= MAX_FRAMES -> run_free st f n ->
  let st' := for_z 0 n (fun page st => claim_frame (f + page) st) st in
  zlen (frame_bitmap st') = BITMAP_BYTES /\ zlen (allocated_bitmap st') = BITMAP_BYTES /\
  stats st' = stats st /\ free_count (frame_bitmap st') = free_count (frame_bitmap st) - n /\
  run_claimed st f n st'.
Proof.
  intros Hbm Ham Hf Hn Hmax Hrun.
  apply (for_z_ind (fun k s =>
    zlen (frame_bitmap s) = BITMAP_BYTES /\ zlen (allocated_bitmap s) = BITMAP_BYTES /\
    stats s = stats st /\ free_count (frame_bitmap s) = free_count (frame_bitmap st) - k /\
    run_claimed st f k s)); [done| |].
  - split_and!; [done..|lia|apply run_claimed_nil].
  - intros k s Hk (Hb & Ha & Hs & Hc & Hr).
    assert (frame_is_free (frame_bitmap s) (f + k) = true) as Hfree.
    { rewrite (proj1 (proj1 Hr (f + k) ltac:(lia))), Hrun by lia. unfold in_run. lia. }
    split_and!; [..|apply run_claimed_step; done || lia]; simpl;
      rewrite ?zlen_mark_frame, ?zlen_mark_allocated; try done.
    rewrite free_count_mark by (done || lia). lia.
Qed.

(** Moving the counters by [n] together with the bitmap count keeps the invariant. *)
Lemma add_free_ok st0 st n :
  frame_ok st0 -> stats st = stats st0 ->
  zlen (frame_bitmap st) = BITMAP_BYTES -> zlen (allocated_bitmap st) = BITMAP_BYTES ->
  (forall f, 0 <= f < MAX_FRAMES -> frame_is_allocated (allocated_bitmap st) f = true ->
    frame_is_free (frame_bitmap st) f = false) ->
  free_count (frame_bitmap st) = free_count (frame_bitmap st0) + n ->
  frame_ok (add_free st n) /\
  free_frames (stats (add_free st n)) = free_frames (stats st0) + n.
Proof.
  intros [Hbm Ham Hd Ht Hfr Hrs] Hs Hb Ha Hdis Hc.
  pose proof (free_count_bounds (frame_bitmap st)) as Hcb.
  assert (free_frames (stats (add_free st n)) = free_frames (stats st0) + n) as Hf.
  { simpl. rewrite Hs. apply wrap_small. unfold MAX_FRAMES in *. widths. lia. }
  split; [|done]. constructor; try done.
  - simpl. by rewrite Hs.
  - rewrite Hf. simpl. lia.
  - rewrite Hf. simpl. rewrite Hs, Hrs. rewrite wrap_small; [lia|].
    unfold MAX_FRAMES in *. widths. lia.
Qed.

Lemma release_frame_ok st f :
  frame_ok st -> 0 <= f < MAX_FRAMES ->
  frame_ok (release_frame f st) /\ run_released st f 1 (release_frame f st).
Proof.
  intros Hok Hf. pose proof Hok as [Hbm Ham Hd _ _ _].
  unfold release_frame. case_if as E.
  - assert (forall g, 0 <= g ->
      frame_is_free (mark_frame (frame_bitmap st) f true) g =
        (g =? f) || frame_is_free (frame_bitmap st) g /\
      frame_is_allocated (mark_allocated (allocated_bitmap st) f false) g =
        negb (g =? f) && frame_is_allocated (allocated_bitmap st) g) as Hg.
    { intros g Hg. rewrite mark_frame_spec, mark_allocated_spec by (done || lia).
      by destruct (g =? f). }
    split.
    + eapply add_free_ok; [exact Hok|done|..]; simpl.
      * by rewrite zlen_mark_frame.
      * by rewrite zlen_mark_allocated.
      * intros g Hr. destruct (Hg g ltac:(lia)) as [-> ->]. specialize (Hd g Hr).
        by destruct (g =? f).
      * apply free_count_mark; [done..|]. by apply Hd.
    + split; [|done]. intros g Hg0. simpl. destruct (Hg g Hg0) as [-> ->]. unfold in_run.
      destruct (g =? f) eqn:Eg.
      * replace g with f by lia. rewrite E, Z.leb_refl, (Hd f Hf E).
        replace (f <? f + 1) with true by lia. done.
      * replace ((f <=? g) && (g <? f + 1)) with false by lia.
        by rewrite orb_false_r, andb_true_r.
  - split; [done|]. split; [|done]. intros g Hg0. unfold in_run.
    destruct (decide (g = f)) as [->|].
    + rewrite E. by rewrite andb_false_r, orb_false_r.
    + replace ((f <=? g) && (g <? f + 1)) with false by lia. by rewrite orb_false_r, andb_true_r.
Qed.

Lemma run_released_app st f k s s' :
  0 <= k -> run_released st f k s -> run_released s (f + k) 1 s' -> run_released st f (k + 1) s'.
Proof.
  intros Hk [H1 M1] [H2 M2]. split; [|congruence]. intros g Hg.
  destruct (H2 g Hg) as [-> ->], (H1 g Hg) as [-> ->].
  assert (in_run f (k + 1) g = in_run f k g || in_run (f + k) 1 g) as -> by (unfold in_run; lia).
  assert (in_run f k g && in_run (f + k) 1 g = false) as Hdis by (unfold in_run; lia).
  by destruct (in_run f k g), (in_run (f + k) 1 g), (frame_is_free _ g), (frame_is_allocated _ g).
Qed.

Lemma release_run st f n :
  frame_ok st -> 0 <= f -> 0 <= n -> f + n <= MAX_FRAMES ->
  let st' := for_z 0 n (fun page st => release_frame (f + page) st) st in
  frame_ok st' /\ run_released st f n st'.
Proof.
  intros Hok Hf Hn Hmax.
  apply (for_z_ind (fun k s => frame_ok s /\ run_released st f k s)); [done| |].
  - split; [done|]. split; [|done]. intros g Hg. unfold in_run.
    replace ((f <=? g) && (g <? f + 0)) with false by lia. by rewrite orb_false_r, andb_true_r.
  - intros k s Hk [Hs Hr]. destruct (release_frame_ok s (f + k) Hs ltac:(lia)) as [Hs' Hr'].
    split; [done|]. by eapply run_released_app; [lia|..].
Qed.

(** The test of [physical_free_frames]: a non-empty, page-aligned run below 4 GiB. *)
Definition free_request_valid (address count : Z) : Prop :=
  count <> 0 /\ address mod FRAME_SIZE = 0 /\ address / FRAME_SIZE + count <= MAX_FRAMES.

(** ** Initialisation *)

(** Frame [f] lies in the conventional memory that descriptor [d] reports. *)
Definition descriptor_covers (d : efi_memory_descriptor_t) (f : Z) : bool :=
  (type d =? 7) && (physical_start d <? MAX_PHYSICAL_ADDRESS)
  && in_run (physical_start d / FRAME_SIZE) (number_of_pages d) f.

(** Frame [f] is one of the pages reserved for the kernel image. *)
Definition kernel_covers (bi : os_boot_info_t) (f : Z) : bool :=
  in_run (kernel_base bi / FRAME_SIZE) ((kernel_size bi - 1) / FRAME_SIZE + 1) f.

(** Marking the frames of a run one by one. *)
Lemma mark_run bm f n b :
  zlen bm = BITMAP_BYTES -> 0 <= f -> 0 <= n -> f + n <= MAX_FRAMES ->
  let bm' := for_z 0 n (fun page bm => mark_frame bm (f + page) b) bm in
  zlen bm' = BITMAP_BYTES /\
  forall g, 0 <= g -> frame_is_free bm' g = if in_run f n g then b else frame_is_free bm g.
Proof.
  intros Hlen Hf Hn Hmax.
  apply (for_z_ind (fun k s => zlen s = BITMAP_BYTES /\ forall g, 0 <= g ->
    frame_is_free s g = if in_run f k g then b else frame_is_free bm g)); [done| |].
  - split; [done|]. intros g Hg. by replace (in_run f 0 g) with false by (unfold in_run; lia).
  - intros k s Hk [Hs Hg]. rewrite zlen_mark_frame. split; [done|]. intros g Hg0.
    rewrite mark_frame_spec, Hg by (done || lia). unfold in_run.
    split_ifs; done || (exfalso; lia).
Qed.

Lemma free_descriptor_spec d bm :
  zlen bm = BITMAP_BYTES -> 0 <= physical_start d -> 0 <= number_of_pages d ->
  zlen (free_descriptor d bm) = BITMAP_BYTES /\
  forall g, 0 <= g < MAX_FRAMES ->
    frame_is_free (free_descriptor d bm) g = frame_is_free bm g || descriptor_covers d g.
Proof.
  intros Hlen Hs Hp. unfold free_descriptor, descriptor_covers. case_if as E.
  - assert (0 <= physical_start d / FRAME_SIZE < MAX_FRAMES) as Hfirst.
    { unfold FRAME_SIZE, MAX_FRAMES, MAX_PHYSICAL_ADDRESS in *. zlia. }
    set (first := physical_start d / FRAME_SIZE) in *. cbv zeta.
    set (pages := if _ <? _ then _ else _).
    assert (0 <= pages /\ first + pages <= MAX_FRAMES /\
      forall g, g < MAX_FRAMES -> in_run first pages g = in_run first (number_of_pages d) g)
      as (Hp0 & Hmax & Hrun)
      by (unfold pages, in_run; case_if as E'; split_and!; [lia..|intros; lia]).
    destruct (mark_run bm first pages true) as [Hl Hg]; [done|lia..|]. split; [exact Hl|].
    intros g Hr. rewrite Hg, Hrun by lia. destruct (in_run _ _ _); simpl; [lia|].
    by rewrite orb_false_r.
  - split; [done|]. intros g Hr. simpl. by rewrite orb_false_r.
Qed.

Lemma reserve_kernel_spec bi bm :
  zlen bm = BITMAP_BYTES -> boot_info_valid bi = true -> 0 <= kernel_base bi ->
  0 <= kernel_size bi ->
  zlen (reserve_kernel bi bm) = BITMAP_BYTES /\
  forall g, 0 <= g < MAX_FRAMES ->
    frame_is_free (reserve_kernel bi bm) g = frame_is_free bm g && negb (kernel_covers bi g).
Proof.
  intros Hlen Hv Hb Hk. unfold reserve_kernel, kernel_covers. cbv zeta.
  assert (0 <= kernel_base bi / FRAME_SIZE < MAX_FRAMES /\
          0 <= (kernel_size bi - 1) / FRAME_SIZE) as [Hfirst Hpages].
  { unfold boot_info_valid in Hv. unfold FRAME_SIZE, MAX_FRAMES, MAX_PHYSICAL_ADDRESS in *. zlia. }
  set (first := kernel_base bi / FRAME_SIZE) in *.
  set (pages := (kernel_size bi - 1) / FRAME_SIZE + 1) in *.
  destruct (mark_run bm first (Z.min pages (MAX_FRAMES - first)) false) as [Hl Hg]; [done|lia..|].
  split; [exact Hl|]. intros g Hr. rewrite Hg by lia.
  replace (in_run first (Z.min _ _) g) with (in_run first pages g) by (unfold in_run; lia).
  destruct (in_run _ _ _); simpl; [by rewrite andb_false_r|by rewrite andb_true_r].
Qed.

(** A bitmap of equal bytes. *)
Lemma filled_bitmap bm v f :
  zlen bm = BITMAP_BYTES -> 0 <= f < MAX_FRAMES ->
  bit_at (for_z 0 BITMAP_BYTES (fun i bm => bm.[i <- v]) bm) f = Z.testbit v (f mod 8).
Proof.
  intros Hlen Hf. apply bit_at_fill; [rewrite Hlen; done|].
  unfold MAX_FRAMES, BITMAP_BYTES in *. lia.
Qed.

(** The scan of the memory map. *)
Lemma scan_spec (ds : Z -> efi_memory_descriptor_t) bm n :
  zlen bm = BITMAP_BYTES -> 0 <= n ->
  (forall i, 0 <= physical_start (ds i) /\ 0 <= number_of_pages (ds i)) ->
  let bm' := for_z 0 n (fun i bm => free_descriptor (ds i) bm) bm in
  zlen bm' = BITMAP_BYTES /\
  forall g, 0 <= g < MAX_FRAMES ->
    frame_is_free bm' g = true <->
    frame_is_free bm g = true \/ exists i, 0 <= i < n /\ descriptor_covers (ds i) g = true.
Proof.
  intros Hlen Hn Hds.
  apply (for_z_ind (fun k s => zlen s = BITMAP_BYTES /\ forall g, 0 <= g < MAX_FRAMES ->
    frame_is_free s g = true <->
    frame_is_free bm g = true \/ exists i, 0 <= i < k /\ descriptor_covers (ds i) g = true));
    [done| |].
  - split; [done|]. intros g _. split; [by left|]. intros [?|(i & ? & _)]; [done|lia].
  - intros k s Hk [Hs Hg]. destruct (Hds k) as [Hp Hq].
    destruct (free_descriptor_spec (ds k) s Hs Hp Hq) as [Hl Hf]. split; [done|].
    intros g Hr. rewrite Hf, orb_true_iff, Hg by done. split.
    + intros [[?|(i & ? & ?)]|?]; [by left|right; exists i|right; exists k]; split; lia || done.
    + intros [?|(i & Hi & Hc)]; [by left; left|].
      destruct (decide (i = k)) as [->|]; [by right|left; right; exists i; split; [lia|done]].
Qed.

(** Both operations against their contracts. *)
Lemma alloc_frames_correct st count :
  frame_ok st -> is_u32 count ->
  let '(a, st') := physical_alloc_frames count st in
  frame_ok st' /\
  ((a = 0 /\ st' = st /\
    (count = 0 \/ forall f, 256 <= f -> f + count <= MAX_FRAMES -> ~ run_free st f count)) \/
   (exists f, 256 <= f /\ f + count <= MAX_FRAMES /\ a = f * FRAME_SIZE /\
      run_free st f count /\ (forall g, 256 <= g < f -> ~ run_free st g count) /\
      run_claimed st f count st' /\
      free_frames (stats st') = free_frames (stats st) - count)).
Proof.
  intros Hok Hcount. pose proof Hok as [Hbm Ham Hd Ht Hfr Hrs].
  assert (forall f, (free_run (Z.to_nat count) (frame_bitmap st) f =? count) = true <->
                    run_free st f count) as Hfull.
  { intros f. rewrite Z.eqb_eq. unfold run_free. pose proof (free_run_full (Z.to_nat count)
      (frame_bitmap st) f) as Hfr'. rewrite Z2Nat.id in Hfr' by (widths; lia). exact Hfr'. }
  unfold physical_alloc_frames. case_if as E0.
  { split; [done|]. left. split_and!; [done..|]. destruct (decide (count = 0)); [by left|right].
    intros f Hf Hm. exfalso. lia. }
  destruct (find_z _ _ _) as [f|] eqn:Hfind.
  - apply find_z_Some in Hfind as (Hf & Hrun%Hfull & Hmin).
    destruct (claim_run st f count Hbm Ham ltac:(lia) ltac:(widths; lia) ltac:(lia) Hrun)
      as (Hb & Ha & Hs & Hc & Hr).
    destruct (add_free_ok st _ (- count) Hok Hs Hb Ha) as [Hok' Hff].
    { intros g Hg. destruct (proj1 Hr g ltac:(lia)) as [-> ->]. specialize (Hd g Hg).
      destruct (in_run f count g), (frame_is_allocated _ g); simpl;
        rewrite ?andb_false_r, ?andb_true_r; auto. }
    { lia. }
    split; [exact Hok'|]. right. exists f. split_and!; [lia..| |done| |exact Hr|lia].
    + apply wrap_small. unfold FRAME_SIZE, MAX_FRAMES in *. widths. lia.
    + intros g Hg Hrg%Hfull. rewrite Hmin in Hrg by lia. done.
  - split; [done|]. left. split_and!; [done..|]. right. intros f Hf Hm Hrun%Hfull.
    rewrite (proj1 (find_z_None _ _ _) Hfind f) in Hrun by lia. done.
Qed.

Lemma free_frames_correct st address count :
  frame_ok st -> is_u64 address -> is_u32 count ->
  let st' := physical_free_frames address count st in
  frame_ok st' /\
  (free_request_valid address count -> run_released st (address / FRAME_SIZE) count st') /\
  (~ free_request_valid address count -> st' = st).
Proof.
  intros Hok Ha Hc. unfold physical_free_frames, free_request_valid.
  change (FRAME_SIZE - 1) with (Z.ones 12). rewrite Z.land_ones by lia.
  change (2 ^ 12) with FRAME_SIZE.
  assert ((MAX_PHYSICAL_ADDRESS - address) / FRAME_SIZE = MAX_FRAMES - address / FRAME_SIZE \/
          address mod FRAME_SIZE <> 0) as Hdiv.
  { unfold MAX_PHYSICAL_ADDRESS, MAX_FRAMES, FRAME_SIZE. clear. zlia. }
  assert (MAX_PHYSICAL_ADDRESS <= address <-> MAX_FRAMES <= address / FRAME_SIZE) as Hlim.
  { unfold MAX_PHYSICAL_ADDRESS, MAX_FRAMES, FRAME_SIZE. clear. zlia. }
  assert (0 <= address / FRAME_SIZE) by (unfold FRAME_SIZE; widths; zlia).
  unfold in_width in Hc. cbv zeta. case_if as E.
  - split; [done|]. split; [|done]. intros Hv. exfalso. lia.
  - destruct (release_run st (address / FRAME_SIZE) count) as [Hok' Hr]; [done|lia..|].
    split; [done|]. split; [done|]. intros Hnv. exfalso. apply Hnv. lia.
Qed.

Lemma frame_ok_stats_ext st st' :
  frame_ok st -> frame_ok st' ->
  (forall g, 0 <= g < MAX_FRAMES ->
    frame_is_free (frame_bitmap st) g = frame_is_free (frame_bitmap st') g) ->
  stats st = stats st'.
Proof.
  intros [_ _ _ H1 H2 H3] [_ _ _ H1' H2' H3'] Hg%free_count_ext.
  destruct (stats st), (stats st'). simpl in *. f_equal; lia.
Qed.

(** Initialisation against its contract. *)
Lemma physical_init_correct bi read st :
  zlen (frame_bitmap st) = BITMAP_BYTES -> zlen (allocated_bitmap st) = BITMAP_BYTES ->
  boot_info_valid bi = true -> 0 <= kernel_base bi -> 0 <= kernel_size bi ->
  (forall a, 0 <= physical_start (read a) /\ 0 <= number_of_pages (read a)) ->
  let '(r, st') := physical_init bi read st in
  let ds i := read (u64 (memory_map bi + i * memory_descriptor_size bi)) in
  let n := memory_map_size bi / memory_descriptor_size bi in
  frame_ok st' /\
  (forall g, 0 <= g < MAX_FRAMES -> frame_is_allocated (allocated_bitmap st') g = false) /\
  (forall g, 0 <= g < MAX_FRAMES -> frame_is_free (frame_bitmap st') g = true <->
     (exists i, 0 <= i < n /\ descriptor_covers (ds i) g = true) /\ kernel_covers bi g = false) /\
  (r = true <-> exists g, 0 <= g < MAX_FRAMES /\ frame_is_free (frame_bitmap st') g = true).
Proof.
  intros Hbm Ham Hv Hb Hk Hrd. unfold physical_init. rewrite Hv. unfold negb at 1. cbv iota zeta.
  assert (0 <= memory_map_size bi / memory_descriptor_size bi) as Hn.
  { unfold boot_info_valid, sizeof_efi_memory_descriptor in Hv. apply Z.div_pos; lia. }
  set (bm0 := for_z 0 BITMAP_BYTES (fun i bm => bm.[i <- 255]) (frame_bitmap st)).
  set (am := for_z 0 BITMAP_BYTES (fun i am => am.[i <- 0]) (allocated_bitmap st)).
  assert (zlen bm0 = BITMAP_BYTES) as Hbm0 by (by unfold bm0; rewrite fill_loop_len).
  assert (zlen am = BITMAP_BYTES) as Ham0 by (by unfold am; rewrite fill_loop_len).
  set (ds := fun i => read (u64 (memory_map bi + i * memory_descriptor_size bi))).
  set (bm1 := for_z 0 _ _ bm0).
  destruct (scan_spec ds bm0 (memory_map_size bi / memory_descriptor_size bi) Hbm0 Hn
    ltac:(intros i; apply Hrd)) as [Hbm1 Hs].
  change (for_z 0 _ (fun i bm => free_descriptor (ds i) bm) bm0) with bm1 in Hbm1, Hs.
  destruct (reserve_kernel_spec bi bm1 Hbm1 Hv Hb Hk) as [Hbm2 Hf].
  assert (forall g, 0 <= g < MAX_FRAMES -> frame_is_allocated am g = false) as Hal.
  { intros g Hg. rewrite frame_is_allocated_bit by lia. unfold am.
    rewrite filled_bitmap by done. apply Z.testbit_0_l. }
  assert (forall g, 0 <= g < MAX_FRAMES -> frame_is_free bm0 g = false) as Hnf.
  { intros g Hg. rewrite frame_is_free_bit by lia. unfold bm0. rewrite filled_bitmap by done.
    change 255 with (Z.ones 8). pose proof (Z.mod_pos_bound g 8).
    by rewrite Z.ones_spec_low by lia. }
  set (bm2 := reserve_kernel bi bm1) in *. rewrite count_free_spec.
  pose proof (free_count_bounds bm2) as Hcb. clearbody bm2 bm1 bm0 am.
  split_and!; simpl; [|done|..].
  - constructor; simpl; try done.
    + intros f Hr Ha. rewrite Hal in Ha by done. done.
    + apply wrap_small. unfold MAX_FRAMES in *. widths. lia.
  - intros g Hg. rewrite Hf, andb_true_iff, negb_true_iff, Hs, Hnf by done. intuition congruence.
  - rewrite negb_true_iff, Z.eqb_neq. apply free_count_pos.
Qed.

(** ** Theorems *)


(** C25. First fit over contiguous runs: either no run of [count] free frames exists from
    frame 256 on and nothing changes, or the lowest such run is handed out, its
    frames (and only they) leave the free set, enter the allocated set and read
    zero, and its address is returned. *)
Theorem frame_alloc_spec st count :
  frame_ok st -> is_u32 count ->
  let '(a, st') := physical_alloc_frames count st in
  frame_ok st' /\
  ((a = 0 /\ st' = st /\
    (count = 0 \/ forall f, 256 <= f -> f + count <= MAX_FRAMES -> ~ run_free st f count)) \/
   (exists f, 256 <= f /\ f + count <= MAX_FRAMES /\ a = f * FRAME_SIZE /\
      run_free st f count /\ (forall g, 256 <= g < f -> ~ run_free st g count) /\
      run_claimed st f count st' /\
      free_frames (stats st') = free_frames (stats st) - count)).
Proof. apply alloc_frames_correct. Qed.

(** Releasing a page-aligned run below 4 GiB frees exactly its handed-out frames (so
    releasing twice, or releasing reserved memory, has no effect); any other
    request changes nothing.  The invariant is kept. *)
Theorem frame_free_spec st address count :
  frame_ok st -> is_u64 address -> is_u32 count ->
  let st' := physical_free_frames address count st in
  frame_ok st' /\
  (free_request_valid address count -> run_released st (address / FRAME_SIZE) count st') /\
  (~ free_request_valid address count -> st' = st).
Proof. apply free_frames_correct. Qed.

(** Handing out a run and releasing it again restores both bitmaps (as sets of
    frames) and the counters. *)
Theorem frame_alloc_free_roundtrip st count a st' :
  frame_ok st -> is_u32 count -> physical_alloc_frames count st = (a, st') -> a <> 0 ->
  let st'' := physical_free_frames a count st' in
  frame_ok st'' /\ stats st'' = stats st /\
  forall g, 0 <= g < MAX_FRAMES ->
    frame_is_free (frame_bitmap st'') g = frame_is_free (frame_bitmap st) g /\
    frame_is_allocated (allocated_bitmap st'') g = frame_is_allocated (allocated_bitmap st) g.
Proof.
  intros Hok Hc Heq Ha st''. pose proof (alloc_frames_correct st count Hok Hc) as Hal.
  rewrite Heq in Hal. destruct Hal as [Hok' [(-> & _)|Hal]]; [done|].
  destruct Hal as (f & Hf & Hmax & -> & Hrun & _ & [Hcl _] & _).
  destruct (free_frames_correct st' (f * FRAME_SIZE) count Hok') as (Hok'' & Hrel & _); [|done|].
  { unfold FRAME_SIZE, MAX_FRAMES in *. widths. lia. }
  fold st'' in Hok'', Hrel. rewrite Z.div_mul in Hrel by done.
  assert (forall g, 0 <= g < MAX_FRAMES ->
    frame_is_free (frame_bitmap st'') g = frame_is_free (frame_bitmap st) g /\
    frame_is_allocated (allocated_bitmap st'') g = frame_is_allocated (allocated_bitmap st) g) as Hg.
  { destruct Hrel as [Hrel _].
    { unfold free_request_valid. rewrite Z.mod_mul, Z.div_mul by done. split_and!; [|done|lia].
      intros ->. unfold physical_alloc_frames in Heq. simpl in Heq. congruence. }
    intros g Hg. destruct (Hrel g ltac:(lia)) as [-> ->], (Hcl g ltac:(lia)) as [-> ->].
    pose proof (ok_disjoint st Hok g Hg) as Hd. pose proof (Hrun (g - f)) as Hr.
    replace (f + (g - f)) with g in Hr by lia. unfold in_run.
    destruct ((f <=? g) && (g <? f + count)) eqn:Ein.
    - rewrite Hr in Hd |- * by lia. destruct (frame_is_allocated _ g); [|done]. by specialize (Hd eq_refl).
    - by rewrite !andb_true_r, !orb_false_r. }
  split; [done|]. split; [|exact Hg]. apply frame_ok_stats_ext; [done..|]. intros g Hr. apply Hg, Hr.
Qed.

(** ** Examples *)

(** A machine with 16 frames of conventional memory from 2 MiB on and its kernel
    in the first two of them. *)
Definition example_boot : os_boot_info_t :=
  {| memory_map := 4096; memory_map_size := 40; memory_descriptor_size := 40;
     kernel_base := 2097152; kernel_size := 5000 |}.
Definition example_map (_ : Z) : efi_memory_descriptor_t :=
  {| type := 7; physical_start := 2097152; virtual_start := 0; number_of_pages := 16;
     attributes := 0 |}.
Definition example_start : phys_t :=
  {| frame_bitmap := replicate (Z.to_nat BITMAP_BYTES) 0;
     allocated_bitmap := replicate (Z.to_nat BITMAP_BYTES) 0;
     stats := {| total_frames := 0; free_frames := 0; reserved_frames := 0 |};
     memory := fun _ => 1 |}.

Lemma example_bitmap : zlen (replicate (Z.to_nat BITMAP_BYTES) 0) = BITMAP_BYTES.
Proof. unfold zlen. rewrite length_replicate. apply Z2Nat.id. done. Qed.

Lemma frame_example_ok : frame_ok (physical_init example_boot example_map example_start).2.
Proof.
  pose proof (physical_init_correct example_boot example_map example_start example_bitmap
    example_bitmap eq_refl ltac:(done) ltac:(done) ltac:(done)) as H.
  destruct (physical_init _ _ _) as [r st]. apply H.
Qed.


Lemma frame_alloc_witness : exists st, frame_ok st /\ frame_ok (physical_alloc_frames 3 st).2.
Proof.
  exists (physical_init example_boot example_map example_start).2. split; [exact frame_example_ok|].
  pose proof (frame_alloc_spec _ 3 frame_example_ok ltac:(done)) as H.
  destruct (physical_alloc_frames _ _) as [a st']. apply H.
Defined.

Lemma frame_free_witness : exists st, frame_ok st /\ frame_ok (physical_free_frames 2109440 3 st).
Proof.
  exists (physical_init example_boot example_map example_start).2. split; [exact frame_example_ok|].
  apply (frame_free_spec _ 2109440 3 frame_example_ok); done.
Defined.

(** Frames 515 to 517 are free, so the allocation succeeds. *)
Lemma example_alloc_nonzero :
  (physical_alloc_frames 3 (physical_init example_boot example_map example_start).2).1 <> 0.
Proof.
  pose proof (physical_init_correct example_boot example_map example_start example_bitmap
    example_bitmap eq_refl ltac:(done) ltac:(done) ltac:(done)) as H.
  destruct (physical_init _ _ _) as [r st]. destruct H as (Hok & _ & Hfree & _). simpl.
  pose proof (alloc_frames_correct st 3 Hok ltac:(done)) as Hal.
  destruct (physical_alloc_frames 3 st) as [a st']. simpl.
  destruct Hal as [_ [(-> & _ & [|Hno])|(f & Hf & _ & -> & _)]]; [done| |unfold FRAME_SIZE; lia].
  exfalso. apply (Hno 515); [done..|]. intros i Hi. apply Hfree; [unfold MAX_FRAMES; lia|].
  assert (i = 0 \/ i = 1 \/ i = 2) as [-> |[-> | ->]] by lia; (split; [by exists 0|done]).
Qed.

Lemma frame_roundtrip_witness :
  exists st a st', physical_alloc_frames 3 st = (a, st') /\
    frame_ok (physical_free_frames a 3 st') /\ stats (physical_free_frames a 3 st') = stats st.
Proof.
  pose proof example_alloc_nonzero as Hnz. pose proof frame_example_ok as Hok. revert Hnz Hok.
  generalize (physical_init example_boot example_map example_start).2. intros st Hnz Hok.
  exists st. destruct (physical_alloc_frames 3 st) as [a st'] eqn:E. exists a, st'.
  destruct (frame_alloc_free_roundtrip st 3 a st' Hok ltac:(done) E Hnz) as (H1 & H2 & _). done.
Defined.

End Frame.
