(* ===== verification/NetBytes.v ===== *)
(** * Byte order and Internet checksums (kernel/drivers/network)

    The helpers [load_be16], [store_be16], [load_be32], [store_be32] and
    [add_bytes] that the protocol files of kernel/drivers/network share (each
    file has its own static copy of the same code), and the ones'-complement
    arithmetic behind the checksum loops.  A buffer is a list of bytes; the
    pointer [bytes + off] is the buffer with the offset [off]. *)

From S2P Require Import Prelude.

(** ** The helpers *)

Definition load_be16 (b : list Z) (off : Z) : Z :=
  u16 (Z.lor (Z.shiftl (b.[off]) 8) (b.[off + 1])).

Definition store_be16 (b : list Z) (off number : Z) : list Z :=
  b.[off <- u8 (Z.shiftr number 8)].[off + 1 <- u8 number].

Definition load_be32 (b : list Z) (off : Z) : Z :=
  Z.lor (Z.lor (Z.lor (Z.shiftl (b.[off]) 24) (Z.shiftl (b.[off + 1]) 16))
               (Z.shiftl (b.[off + 2]) 8)) (b.[off + 3]).

Definition store_be32 (b : list Z) (off number : Z) : list Z :=
  b.[off <- u8 (Z.shiftr number 24)].[off + 1 <- u8 (Z.shiftr number 16)]
   .[off + 2 <- u8 (Z.shiftr number 8)].[off + 3 <- u8 number].

(** [for (i = lo; i < hi; i += step) s = body(i, s);] *)
Definition for_step {S} (lo hi step : Z) (body : Z -> S -> S) (s : S) : S :=
  for_z 0 ((hi - lo + step - 1) / step) (fun k => body (lo + step * k)) s.

(** The loop condition [i + 1U < length] is [i < length - 1]. *)
Definition add_bytes (sum : Z) (bytes : list Z) (length : Z) : Z :=
  let sum := for_step 0 (length - 1) 2
    (fun i sum => u32 (sum + Z.lor (Z.shiftl (bytes.[i]) 8) (bytes.[i + 1]))) sum in
  if negb (Z.land length 1 =? 0) then u32 (sum + Z.shiftl (bytes.[length - 1]) 8) else sum.

(** [while (sum >> 16) sum = (sum & 0xffff) + (sum >> 16);] with [fuel] iterations at most. *)
Fixpoint fold_loop (fuel : nat) (sum : Z) : Z :=
  match fuel with
  | O => sum
  | S fuel =>
      if Z.shiftr sum 16 =? 0 then sum
      else fold_loop fuel (u32 (Z.land sum 65535 + Z.shiftr sum 16))
  end.
Definition fold_carries (sum : Z) : Z := fold_loop 3 sum.

(** ** Bytes *)

Definition bytes_ok (l : list Z) : Prop := Forall is_u8 l.

(** The bytes a (nullable) data pointer refers to. *)
Definition data (p : option (list Z)) : list Z := default [] p.

(** A caller-supplied buffer of nullable type holds at least [n] bytes. *)
Definition data_ok (p : option (list Z)) (n : Z) : Prop :=
  bytes_ok (data p) /\ n <= zlen (data p) /\ (n <> 0 -> is_Some p).

(** Writing behind a header [h] of known length. *)
Lemma copy_after (h r src : list Z) off n :
  off = zlen h -> 0 <= n <= zlen src -> n <= zlen r ->
  copy_bytes (h ++ r) off src n = h ++ take (Z.to_nat n) src ++ drop (Z.to_nat n) r.
Proof.
  intros -> Hn Hr. rewrite copy_bytes_spec by len. unfold zlen.
  rewrite Nat2Z.id, take_app_length. do 2 f_equal.
  replace (Z.to_nat (_ + n)) with (length h + Z.to_nat n)%nat by lia.
  by rewrite drop_app_add.
Qed.

Lemma fill_after (h r : list Z) lo hi v :
  lo = zlen h -> lo <= hi -> hi - lo <= zlen r ->
  for_z lo hi (fun i b => b.[i <- v]) (h ++ r) =
  h ++ replicate (Z.to_nat (hi - lo)) v ++ drop (Z.to_nat (hi - lo)) r.
Proof.
  intros -> Hle Hr. rewrite fill_window by len. unfold zlen in *.
  rewrite Nat2Z.id, take_app_length. do 2 f_equal.
  replace (Z.to_nat hi) with (length h + Z.to_nat (hi - Z.of_nat (length h)))%nat by lia.
  by rewrite drop_app_add.
Qed.

(** The null test of a data pointer that covers [n] bytes. *)
Lemma data_ok_Some l n : bytes_ok l -> n <= zlen l -> data_ok (Some l) n.
Proof. intros. split; [done|]. split; [done|]. by eexists. Qed.

Lemma data_ok_test p n :
  data_ok p n -> negb (n =? 0) && bool_decide (p = None) = false.
Proof.
  intros (_ & _ & Hs). destruct (n =? 0) eqn:E; [done|].
  destruct Hs as [x ->]; [lia|]. done.
Qed.

Lemma byte_word a b : is_u8 b -> Z.lor (Z.shiftl a 8) b = a * 256 + b.
Proof. intros Hb. rewrite lor_shift_add by (widths; lia). done. Qed.

Lemma bytes_get l i : bytes_ok l -> is_u8 (l.[i]).
Proof.
  intros Hl. destruct (decide (Z.to_nat i < length l)%nat) as [Hi|Hi].
  - eapply Forall_lookup_1; [exact Hl|]. by apply list_lookup_lookup_total_lt.
  - rewrite list_lookup_total_alt, lookup_ge_None_2 by lia. done.
Qed.

Lemma be16_value a b : is_u8 a -> is_u8 b -> u16 (Z.lor (Z.shiftl a 8) b) = a * 256 + b.
Proof. intros. rewrite byte_word by done. zlia. Qed.

Lemma be16_roundtrip v :
  is_u16 v -> u16 (Z.lor (Z.shiftl (u8 (Z.shiftr v 8)) 8) (u8 v)) = v.
Proof.
  intros. rewrite be16_value by (apply wrap_range; lia). rewrite Z.shiftr_div_pow2 by lia.
  change (2 ^ 8) with 256. zlia.
Qed.

Lemma be32_value a b c d :
  is_u8 b -> is_u8 c -> is_u8 d ->
  Z.lor (Z.lor (Z.lor (Z.shiftl a 24) (Z.shiftl b 16)) (Z.shiftl c 8)) d =
  a * 16777216 + b * 65536 + c * 256 + d.
Proof.
  intros Hb Hc Hd.
  assert (Z.shiftl a 24 = Z.shiftl (Z.shiftl a 8) 16) as -> by by rewrite Z.shiftl_shiftl by lia.
  rewrite <- Z.shiftl_lor, byte_word by done.
  assert (Z.shiftl (a * 256 + b) 16 = Z.shiftl (Z.shiftl (a * 256 + b) 8) 8) as ->
    by by rewrite Z.shiftl_shiftl by lia.
  rewrite <- Z.shiftl_lor, !byte_word by done. lia.
Qed.

Lemma be32_roundtrip v :
  is_u32 v ->
  Z.lor (Z.lor (Z.lor (Z.shiftl (u8 (Z.shiftr v 24)) 24) (Z.shiftl (u8 (Z.shiftr v 16)) 16))
    (Z.shiftl (u8 (Z.shiftr v 8)) 8)) (u8 v) = v.
Proof.
  intros. rewrite be32_value by (apply wrap_range; lia). rewrite !Z.shiftr_div_pow2 by lia.
  change (2 ^ 24) with 16777216. change (2 ^ 16) with 65536. change (2 ^ 8) with 256. zlia.
Qed.

(** ** The sum of the big-endian 16-bit words, an odd last byte padded with 0 *)

Fixpoint word_sum (l : list Z) : Z :=
  match l with
  | [] => 0
  | [a] => a * 256
  | a :: b :: l => a * 256 + b + word_sum l
  end.

Lemma word_sum_cons2 a b l : word_sum (a :: b :: l) = a * 256 + b + word_sum l.
Proof. done. Qed.

(** Induction two elements at a time. *)
Lemma pair_ind {A} (P : list A -> Prop) :
  P [] -> (forall a, P [a]) -> (forall a b l, P l -> P (a :: b :: l)) -> forall l, P l.
Proof.
  intros H0 H1 H2 l. enough (P l /\ forall a, P (a :: l)) by tauto.
  induction l as [|b l [IH1 IH2]]; [done|]. split; [done|]. intros a. by apply H2.
Qed.

Lemma word_sum_app l k :
  Nat.even (length l) = true -> word_sum (l ++ k) = word_sum l + word_sum k.
Proof. induction l as [|a|a b l IH] using pair_ind; intros He; [done..|]. simpl in *. rewrite IH by done. lia. Qed.

Lemma word_sum_bounds l :
  bytes_ok l -> 0 <= word_sum l <= 65535 * ((zlen l + 1) / 2).
Proof.
  unfold zlen. induction l as [|a|a b l IH] using pair_ind; intros Hl; simpl length.
  - done.
  - apply Forall_cons in Hl as [Ha _]. simpl word_sum. zlia.
  - apply Forall_cons in Hl as [Ha [Hb Hl]%Forall_cons]. specialize (IH Hl). simpl word_sum.
    replace ((Z.of_nat (S (S (length l))) + 1) / 2) with ((Z.of_nat (length l) + 1) / 2 + 1) by zlia.
    widths. lia.
Qed.

Lemma take_pair (l : list Z) k :
  0 <= k -> k + 2 <= zlen l ->
  take (Z.to_nat (k + 2)) l = take (Z.to_nat k) l ++ [l.[k]; l.[k + 1]].
Proof.
  intros Hk Hl. unfold zlen in Hl.
  replace (Z.to_nat (k + 2)) with (S (S (Z.to_nat k))) by lia.
  rewrite (take_S_r _ _ (l.[k + 1])), (take_S_r _ _ (l.[k])).
  - by rewrite <- app_assoc.
  - apply list_lookup_lookup_total_lt. lia.
  - replace (S (Z.to_nat k)) with (Z.to_nat (k + 1)) by lia.
    apply list_lookup_lookup_total_lt. lia.
Qed.

Lemma take_even (l : list Z) k :
  0 <= k -> 2 * k <= zlen l -> Nat.even (length (take (Z.to_nat (2 * k)) l)) = true.
Proof.
  intros. unfold zlen in *. rewrite length_take.
  replace (Z.to_nat (2 * k) `min` length l)%nat with (2 * Z.to_nat k)%nat by lia.
  apply Nat.even_even.
Qed.

(** The loop of [add_bytes] adds the word sum of the first [length] bytes. *)
Lemma add_bytes_spec sum bytes length :
  bytes_ok bytes -> is_u32 sum -> 0 <= length <= zlen bytes ->
  add_bytes sum bytes length = u32 (sum + word_sum (take (Z.to_nat length) bytes)).
Proof.
  intros Hb Hs Hlen. unfold add_bytes, for_step.
  replace ((length - 1 - 0 + 2 - 1) / 2) with (length / 2) by (f_equal; lia).
  set (loop := for_z _ _ _ _).
  assert (loop = u32 (sum + word_sum (take (Z.to_nat (2 * (length / 2))) bytes))) as ->.
  { apply (for_z_ind (fun k s => s = u32 (sum + word_sum (take (Z.to_nat (2 * k)) bytes)))).
    - zlia.
    - simpl. by rewrite Z.add_0_r, wrap_small.
    - intros k s Hk ->. assert (2 * k + 2 <= length) by zlia.
      rewrite Z.add_0_l, byte_word by (by apply bytes_get).
      replace (2 * (k + 1)) with (2 * k + 2) by lia.
      rewrite take_pair, word_sum_app by (try apply take_even; lia).
      rewrite wrap_add_l. simpl word_sum. f_equal. lia. }
  assert (Z.land length 1 = length mod 2) as -> by (change 1 with (Z.ones 1); by rewrite Z.land_ones).
  case_if as E.
  - assert (length = 2 * (length / 2) + 1) as Hodd by zlia.
    set (k := length / 2) in *. rewrite Hodd, wrap_add_l.
    replace (2 * k + 1 - 1) with (2 * k) by lia.
    replace (Z.to_nat (2 * k + 1)) with (S (Z.to_nat (2 * k))) by lia.
    rewrite (take_S_r _ _ (bytes.[2 * k])) by (apply arr_lookup; lia).
    rewrite word_sum_app by (apply take_even; lia). simpl.
    rewrite Z.shiftl_mul_pow2 by lia. f_equal. lia.
  - by replace (2 * (length / 2)) with length by zlia.
Qed.

(** ** Folding the carries

    Three iterations fold any 32-bit sum, and the fold keeps the sum modulo
    65535 and whether it is zero. *)

Lemma fold_loop_S n sum :
  is_u32 sum ->
  fold_loop (S n) sum =
  if sum / 65536 =? 0 then sum else fold_loop n (sum mod 65536 + sum / 65536).
Proof.
  intros. cbn [fold_loop]. rewrite Z.shiftr_div_pow2 by lia. change 65535 with (Z.ones 16).
  rewrite Z.land_ones by lia. change (2 ^ 16) with 65536.
  by rewrite (wrap_small 32) by zlia.
Qed.

Lemma fold_loop_spec n sum :
  is_u32 sum ->
  let r := fold_loop n sum in
  is_u32 r /\ r mod 65535 = sum mod 65535 /\ (r = 0 <-> sum = 0).
Proof.
  revert sum. induction n as [|n IH]; intros sum Hs; [done|].
  rewrite fold_loop_S by done. case_if as E; [done|].
  destruct (IH (sum mod 65536 + sum / 65536)) as (Hr & Hm & Hz); [zlia|].
  split; [done|]. rewrite Hm, Hz. split; [|zlia].
  rewrite (Z.div_mod sum 65536) at 3 by lia.
  replace (65536 * (sum / 65536) + sum mod 65536) with
    (sum mod 65536 + sum / 65536 + (sum / 65536) * 65535) by lia.
  by rewrite Z.mod_add by lia.
Qed.

Lemma fold_loop_small sum n : is_u16 sum -> fold_loop n sum = sum.
Proof.
  intros. destruct n; simpl; [done|]. rewrite Z.shiftr_div_pow2 by lia.
  change (2 ^ 16) with 65536. by replace (sum / 65536 =? 0) with true by zlia.
Qed.

Lemma fold_carries_u16 sum : is_u32 sum -> is_u16 (fold_carries sum).
Proof.
  intros Hs. unfold fold_carries.
  rewrite fold_loop_S by done. case_if as E1; [zlia|].
  rewrite fold_loop_S by zlia. case_if as E2; [zlia|].
  rewrite fold_loop_S by zlia. case_if as E3; [zlia|]. exfalso. zlia.
Qed.

(** More iterations change nothing: the loop has ended. *)
Lemma fold_carries_done sum n : is_u32 sum -> fold_loop n (fold_carries sum) = fold_carries sum.
Proof. intros. by apply fold_loop_small, fold_carries_u16. Qed.

(** [(uint16_t)~sum] after the fold: the ones' complement of the sum. *)
Definition inet_complement (sum : Z) : Z := u16 (Z.lnot (fold_carries sum)).

Lemma inet_complement_eq sum : is_u32 sum -> inet_complement sum = 65535 - fold_carries sum.
Proof.
  intros Hs%fold_carries_u16. unfold inet_complement, Z.lnot. zlia.
Qed.

Lemma inet_complement_u16 sum : is_u16 (inet_complement sum).
Proof. by apply wrap_range. Qed.

(** A checksum verifies exactly when the sum is a non-zero multiple of 65535. *)
Lemma inet_complement_zero sum :
  is_u32 sum -> inet_complement sum = 0 <-> sum mod 65535 = 0 /\ sum <> 0.
Proof.
  intros Hs. rewrite inet_complement_eq by done. pose proof (fold_carries_u16 sum Hs).
  destruct (fold_loop_spec 3 sum Hs) as (_ & Hm & Hz). fold (fold_carries sum) in *.
  split.
  - intros. assert (fold_carries sum = 65535) as Hf by lia. rewrite Hf in *. split; [|lia].
    by rewrite <- Hm.
  - intros [H0 Hn]. rewrite H0 in Hm. widths. apply Z.mod_divide in Hm as [q Hq]; lia.
Qed.

(** Adding the complement to the sum makes the checksum verify. *)
Lemma inet_complement_verify sum c :
  is_u32 sum -> is_u32 (sum + c) -> c = inet_complement sum \/ (inet_complement sum = 0 /\ c = 65535) ->
  inet_complement (sum + c) = 0.
Proof.
  intros Hs Hsc Hc. rewrite inet_complement_zero by done.
  rewrite inet_complement_eq in Hc by done. pose proof (fold_carries_u16 sum Hs).
  destruct (fold_loop_spec 3 sum Hs) as (_ & Hm & Hz). fold (fold_carries sum) in *.
  split; [|widths; lia]. rewrite Zplus_mod, <- Hm, <- Zplus_mod.
  destruct Hc as [->|[? ->]].
  - by replace (_ + _) with 65535 by lia.
  - by replace (fold_carries sum) with 65535 by lia.
Qed.

(** ** Checksums over packets *)

Lemma be16_bytes c : is_u16 c -> u8 (Z.shiftr c 8) * 256 + u8 c = c.
Proof. intros. rewrite Z.shiftr_div_pow2 by lia. change (2 ^ 8) with 256. zlia. Qed.

(** Filling a zero checksum field adds the checksum to the word sum. *)
Lemma word_sum_field pre post c :
  Nat.even (length pre) = true -> is_u16 c ->
  word_sum (pre ++ u8 (Z.shiftr c 8) :: u8 c :: post) = word_sum (pre ++ 0 :: 0 :: post) + c.
Proof.
  intros He Hc. rewrite !word_sum_app, !word_sum_cons2 by done.
  pose proof (be16_bytes c Hc). lia.
Qed.

(** Replacing the aligned word at [i]. *)
Lemma word_sum_update l i a b :
  0 <= i -> 2 * i + 1 < zlen l ->
  word_sum (l.[2 * i <- a].[2 * i + 1 <- b]) =
  word_sum l - (l.[2 * i] * 256 + l.[2 * i + 1]) + (a * 256 + b).
Proof.
  intros Hi. revert l. pattern i. apply natlike_ind; [|clear i Hi; intros i Hi IH|done]; intros l Hlen.
  - assert (2 <= zlen l) as H2 by lia. explode l H2 2%nat. reads.
    change (_.[2 * 0 <- a].[2 * 0 + 1 <- b]) with (a :: b :: l). rewrite !word_sum_cons2. lia.
  - assert (2 <= zlen l) as H2 by lia. explode l H2 2%nat.
    replace (Z.to_nat (2 * Z.succ i)) with (S (S (Z.to_nat (2 * i)))) by lia.
    replace (Z.to_nat (2 * Z.succ i + 1)) with (S (S (Z.to_nat (2 * i + 1)))) by lia.
    specialize (IH l ltac:(unfold zlen in *; simpl in *; lia)).
    change (word_sum (z :: z0 :: l.[2 * i <- a].[2 * i + 1 <- b]) =
      word_sum (z :: z0 :: l) - (l.[2 * i] * 256 + l.[2 * i + 1]) + (a * 256 + b)).
    rewrite !word_sum_cons2, IH. lia.
Qed.

Lemma word_sum_u32 l : bytes_ok l -> zlen l <= 65536 -> is_u32 (word_sum l).
Proof. intros Hb Hl. pose proof (word_sum_bounds l Hb). zlia. Qed.

Lemma bytes_ok_take n l : bytes_ok l -> bytes_ok (take n l).
Proof. apply Forall_take. Qed.

Lemma bytes_ok_drop n l : bytes_ok l -> bytes_ok (drop n l).
Proof. apply Forall_drop. Qed.

Lemma bytes_ok_app l k : bytes_ok l -> bytes_ok k -> bytes_ok (l ++ k).
Proof. intros. by apply Forall_app. Qed.

Lemma bytes_ok_cons a l : is_u8 a -> bytes_ok l -> bytes_ok (a :: l).
Proof. by constructor. Qed.

Lemma bytes_ok_set l i v : is_u8 v -> bytes_ok l -> bytes_ok (l.[i <- v]).
Proof. intros. by apply Forall_insert. Qed.

Lemma bytes_ok_replicate n v : is_u8 v -> bytes_ok (replicate n v).
Proof. intros. by apply Forall_replicate. Qed.

Lemma u8_ok x : is_u8 (u8 x).
Proof. by apply wrap_range. Qed.

Create HintDb bytes.
#[export] Hint Resolve bytes_ok_take bytes_ok_drop bytes_ok_app bytes_ok_cons bytes_ok_set
  bytes_ok_replicate u8_ok : bytes.
#[export] Hint Extern 1 (bytes_ok []) => apply Forall_nil_2 : bytes.
#[export] Hint Extern 2 (in_width 8 _) => (vm_compute; split; congruence) : bytes.

(** Verification by [add_bytes] from 0 is verification of the word sum. *)
Lemma add_bytes_0 bytes n :
  bytes_ok bytes -> 0 <= n <= zlen bytes -> n <= 65535 ->
  add_bytes 0 bytes n = word_sum (take (Z.to_nat n) bytes) /\
  is_u32 (word_sum (take (Z.to_nat n) bytes)).
Proof.
  intros Hb Hn Hmax.
  assert (is_u32 (word_sum (take (Z.to_nat n) bytes))) as Hw
    by (apply word_sum_u32; [auto with bytes|len]).
  split; [|done]. rewrite add_bytes_spec by done. by rewrite Z.add_0_l, wrap_small.
Qed.

(** A changed word that differs modulo 65535 is always detected. *)
Lemma inet_complement_detects s w w' :
  is_u32 s -> is_u32 (s - w + w') -> w mod 65535 <> w' mod 65535 ->
  inet_complement s = 0 -> inet_complement (s - w + w') <> 0.
Proof.
  intros Hs Hs' Hne Hc Hc'. apply inet_complement_zero in Hc as [H0 _]; [|done].
  apply inet_complement_zero in Hc' as [H1 _]; [|done]. apply Hne. clear -H0 H1. zlia.
Qed.

(** ** Pseudo headers

    The part of a UDP or TCP checksum that covers the addresses, the protocol
    number and the length. *)
Definition pseudo_sum (src dst : list Z) (protocol length : Z) : Z :=
  u32 (u32 (add_bytes (add_bytes 0 src 4) dst 4 + protocol) + length).

Lemma pseudo_sum_spec src dst protocol length :
  zlen src = 4 -> zlen dst = 4 -> bytes_ok src -> bytes_ok dst ->
  0 <= protocol <= 255 -> is_u16 length ->
  pseudo_sum src dst protocol length = word_sum src + word_sum dst + protocol + length /\
  0 <= pseudo_sum src dst protocol length <= 1000000.
Proof.
  intros Hs Hd Hbs Hbd Hp Hl. unfold pseudo_sum.
  pose proof (word_sum_bounds src Hbs) as Ws. pose proof (word_sum_bounds dst Hbd) as Wd.
  rewrite Hs in Ws. rewrite Hd in Wd. change ((4 + 1) / 2) with 2 in *.
  rewrite (add_bytes_spec 0 src 4), (add_bytes_spec _ dst 4) by (done || lia || by apply wrap_range).
  rewrite !take_ge by len. rewrite Z.add_0_l, !(wrap_small 32) by zlia. widths. lia.
Qed.

(** ** Agreement on a prefix

    A parser reads no further than the length it is given; two buffers that agree
    that far give the same result. *)
Definition agree (n : Z) (l k : list Z) : Prop := forall i, 0 <= i < n -> l.[i] = k.[i].

Lemma agree_sym n l k : agree n l k -> agree n k l.
Proof. intros H i Hi. by rewrite H. Qed.

Lemma agree_trans n l k m : agree n l k -> agree n k m -> agree n l m.
Proof. intros H1 H2 i Hi. by rewrite H1, H2. Qed.

Lemma agree_le n m l k : agree n l k -> m <= n -> agree m l k.
Proof. intros H Hm i Hi. apply H. lia. Qed.

Lemma drop_get (l : list Z) o i : 0 <= o -> 0 <= i -> (drop (Z.to_nat o) l).[i] = l.[o + i].
Proof.
  intros. rewrite !list_lookup_total_alt, lookup_drop. do 2 f_equal. lia.
Qed.

Lemma agree_drop n o l k :
  0 <= o -> agree n l k -> agree (n - o) (drop (Z.to_nat o) l) (drop (Z.to_nat o) k).
Proof. intros Ho H i Hi. rewrite !drop_get by lia. apply H. lia. Qed.

Lemma agree_take n l k :
  agree n l k -> n <= zlen l -> n <= zlen k -> take (Z.to_nat n) l = take (Z.to_nat n) k.
Proof.
  intros H Hl Hk. apply list_eq. intros i. unfold zlen in *.
  destruct (decide (i < Z.to_nat n)%nat).
  - rewrite !lookup_take_lt by done. specialize (H (Z.of_nat i) ltac:(lia)). rewrite Nat2Z.id in H.
    rewrite !list_lookup_lookup_total_lt by lia. by rewrite H.
  - by rewrite !lookup_take_ge by lia.
Qed.

Lemma take_agree n l k : take (Z.to_nat n) l = take (Z.to_nat n) k -> agree n l k.
Proof.
  intros H i Hi. rewrite !list_lookup_total_alt.
  rewrite <- (lookup_take_lt l (Z.to_nat n)), H, lookup_take_lt by lia. done.
Qed.

Lemma load_be16_agree n l k o : agree n l k -> 0 <= o -> o + 1 < n -> load_be16 l o = load_be16 k o.
Proof. intros H ? ?. unfold load_be16. by rewrite !H by lia. Qed.

Lemma load_be32_agree n l k o : agree n l k -> 0 <= o -> o + 3 < n -> load_be32 l o = load_be32 k o.
Proof. intros H ? ?. unfold load_be32. by rewrite !H by lia. Qed.

Lemma add_bytes_agree n l k sum : agree n l k -> 0 <= n -> add_bytes sum l n = add_bytes sum k n.
Proof.
  intros H Hn. unfold add_bytes, for_step.
  assert (forall s, for_z 0 ((n - 1 - 0 + 2 - 1) / 2)
    (fun j s => u32 (s + Z.lor (Z.shiftl (l.[0 + 2 * j]) 8) (l.[0 + 2 * j + 1]))) s =
    for_z 0 ((n - 1 - 0 + 2 - 1) / 2)
    (fun j s => u32 (s + Z.lor (Z.shiftl (k.[0 + 2 * j]) 8) (k.[0 + 2 * j + 1]))) s) as ->.
  { intros s. apply for_z_ext. intros i s' Hi. assert (2 * i + 1 < n) by zlia.
    by rewrite !H by lia. }
  destruct (Z.land n 1 =? 0) eqn:E; simpl; [done|].
  assert (n <> 0) by (intros ->; done). by rewrite H by lia.
Qed.

(** ** Comparing IPv4 addresses

    [for (i = 0; i < 4; ++i) if (left[i] != right[i]) return 0; return 1;] *)
Definition address_equal (left right : list Z) : bool :=
  match find_z 0 4 (fun i => negb (left.[i] =? right.[i])) with Some _ => false | None => true end.

Lemma address_equal_spec left right :
  zlen left = 4 -> zlen right = 4 -> address_equal left right = true <-> left = right.
Proof.
  intros Hl Hr. unfold address_equal. destruct (find_z _ _ _) as [i|] eqn:E.
  - apply find_z_Some in E as (Hi & Hne & _). split; [done|]. intros ->. lia.
  - split; [|done]. intros _. rewrite find_z_None in E. apply list_eq. intros i.
    unfold zlen in *. destruct (decide (i < 4)%nat).
    + specialize (E (Z.of_nat i) ltac:(lia)). rewrite Nat2Z.id in E.
      rewrite !list_lookup_lookup_total_lt by lia. f_equal. lia.
    + by rewrite !lookup_ge_None_2 by lia.
Qed.

(** All four bytes zero. *)
Definition wildcard (address : list Z) : bool :=
  (address.[0] =? 0) && (address.[1] =? 0) && (address.[2] =? 0) && (address.[3] =? 0).

(** Decide the side conditions of a concrete packet. *)
Ltac concrete :=
  first
    [ done
    | lia
    | (vm_compute; intuition congruence)
    | (repeat apply bytes_ok_cons; first [apply Forall_nil_2 | (vm_compute; intuition congruence)])
    | (apply Forall_replicate; vm_compute; intuition congruence)
    | (unfold data_ok; split_and!; concrete) ].
