(* ===== verification/Link.v ===== *)
(** * The link layer (kernel/drivers/network/ethernet.c and arp.c)

    Building and parsing Ethernet frames and ARP packets.  A build operation
    takes the output buffer and returns it with the length written, or [None]
    where the code returns 0; a view's pointers into a packet are the suffixes of
    the packet from there on. *)

From S2P Require Import Prelude NetBytes.

Module Ethernet.

Definition ETHERNET_ADDRESS_SIZE : Z := 6.
Definition ETHERNET_HEADER_SIZE : Z := 14.
Definition ETHERNET_MIN_FRAME_SIZE : Z := 60.
Definition ETHERNET_MAX_FRAME_SIZE : Z := 1518.
Definition ETHERNET_MAX_PAYLOAD_SIZE : Z := 1500.

Record ethernet_frame_view_t := {
  destination : list Z;
  source : list Z;
  ether_type : Z;
  payload : list Z;
  payload_length : Z;
}.

Definition ethernet_frame_build (frame : list Z) (capacity : Z) (dst src : list Z)
    (etype : Z) (pl : option (list Z)) (plen : Z) : option (list Z * Z) :=
  if (etype <? 1536) || (ETHERNET_MAX_PAYLOAD_SIZE <? plen)
     || (negb (plen =? 0) && bool_decide (pl = None)) then None
  else
    let length := u16 (ETHERNET_HEADER_SIZE + plen) in
    let length := if length <? ETHERNET_MIN_FRAME_SIZE then ETHERNET_MIN_FRAME_SIZE else length in
    if (capacity <? length) || (ETHERNET_MAX_FRAME_SIZE <? length) then None
    else
      let bytes := for_z 0 ETHERNET_ADDRESS_SIZE
        (fun i bytes => bytes.[i <- dst.[i]].[6 + i <- src.[i]]) frame in
      let bytes := store_be16 bytes 12 etype in
      let bytes := copy_bytes bytes ETHERNET_HEADER_SIZE (data pl) plen in
      let bytes := for_z (ETHERNET_HEADER_SIZE + plen) length
        (fun i bytes => bytes.[i <- 0]) bytes in
      Some (bytes, length).

Definition ethernet_frame_parse (frame : list Z) (frame_length : Z)
    : option ethernet_frame_view_t :=
  if (frame_length <? ETHERNET_MIN_FRAME_SIZE) || (ETHERNET_MAX_FRAME_SIZE <? frame_length)
  then None
  else
    let etype := load_be16 frame 12 in
    if etype <? 1536 then None
    else Some {| destination := frame; source := drop 6 frame; ether_type := etype;
                 payload := drop 14 frame;
                 payload_length := u16 (frame_length - ETHERNET_HEADER_SIZE) |}.

Definition ethernet_address_is_broadcast (address : list Z) : bool :=
  match find_z 0 ETHERNET_ADDRESS_SIZE (fun i => negb (address.[i] =? 255)) with
  | Some _ => false
  | None => true
  end.

(** ** Lemmas *)

(** The length of a frame that carries [plen] bytes. *)
Definition frame_size (plen : Z) : Z := Z.max ETHERNET_MIN_FRAME_SIZE (ETHERNET_HEADER_SIZE + plen).

Definition frame_header (dst src : list Z) (etype : Z) : list Z :=
  dst ++ src ++ [u8 (Z.shiftr etype 8); u8 etype].

Lemma ethernet_header_bytes frame dst src etype :
  zlen dst = 6 -> zlen src = 6 -> 14 <= zlen frame ->
  store_be16 (for_z 0 6 (fun i bytes => bytes.[i <- dst.[i]].[6 + i <- src.[i]]) frame) 12 etype =
  frame_header dst src etype ++ drop 14 frame.
Proof.
  intros Hd Hs Hf. explode_all dst Hd 6%nat. explode_all src Hs 6%nat. explode frame Hf 14%nat.
  unroll. done.
Qed.

(** The wire image of a frame. *)
Lemma ethernet_build_bytes frame capacity dst src etype pl plen :
  zlen dst = 6 -> zlen src = 6 -> is_u16 etype -> 1536 <= etype ->
  0 <= plen <= ETHERNET_MAX_PAYLOAD_SIZE -> data_ok pl plen ->
  frame_size plen <= capacity <= zlen frame ->
  ethernet_frame_build frame capacity dst src etype pl plen =
  Some (frame_header dst src etype ++ take (Z.to_nat plen) (data pl) ++
        replicate (Z.to_nat (frame_size plen - (14 + plen))) 0 ++
        drop (Z.to_nat (frame_size plen)) frame, frame_size plen).
Proof.
  intros Hd Hs Het Het' Hpl Hdata Hcap. pose proof Hdata as (Hb & Hlen & _).
  unfold ethernet_frame_build.
  unfold frame_size, ETHERNET_MIN_FRAME_SIZE, ETHERNET_HEADER_SIZE, ETHERNET_ADDRESS_SIZE,
    ETHERNET_MAX_PAYLOAD_SIZE, ETHERNET_MAX_FRAME_SIZE in *.
  rewrite (data_ok_test pl plen) by done. replace (_ || _ || _) with false by lia.
  rewrite (wrap_small 16) by (widths; lia).
  replace (if 14 + plen <? 60 then 60 else 14 + plen) with (Z.max 60 (14 + plen))
    by (case_if as E; lia).
  replace (_ || _) with false by lia. cbv zeta. do 2 f_equal.
  rewrite ethernet_header_bytes by lia.
  assert (zlen (frame_header dst src etype) = 14) by (unfold frame_header; len).
  rewrite copy_after, app_assoc, fill_after by len. rewrite <- app_assoc, !drop_drop.
  do 4 f_equal. lia.
Qed.

(** What a parsed frame looks like. *)
Lemma ethernet_parse_inv frame n v :
  ethernet_frame_parse frame n = Some v ->
  60 <= n <= 1518 /\ destination v = frame /\ source v = drop 6 frame /\
  payload v = drop 14 frame /\ payload_length v = n - 14.
Proof.
  unfold ethernet_frame_parse, ETHERNET_MIN_FRAME_SIZE, ETHERNET_MAX_FRAME_SIZE,
    ETHERNET_HEADER_SIZE. case_if as E; [done|]. case_if as E'; [done|].
  intros [= <-]. simpl. split_and!; try done; try lia. rewrite wrap_small; [done|widths; lia].
Qed.

Lemma ethernet_parse_agree l k n v :
  agree n l k -> ethernet_frame_parse l n = Some v ->
  ethernet_frame_parse k n = Some {| destination := k; source := drop 6 k;
    ether_type := ether_type v; payload := drop 14 k; payload_length := payload_length v |}.
Proof.
  intros H. unfold ethernet_frame_parse, ETHERNET_MIN_FRAME_SIZE. case_if as E; [done|].
  rewrite (load_be16_agree n l k 12) by (done || lia). case_if as E'; [done|].
  intros [= <-]. done.
Qed.

(** ** Round trips *)

(** Parsing a built frame returns the addresses, the type and the payload, padded
    with zero bytes to the minimum frame size. *)
Lemma ethernet_roundtrip frame capacity dst src etype pl plen :
  zlen dst = 6 -> zlen src = 6 -> is_u16 etype -> 1536 <= etype ->
  0 <= plen <= ETHERNET_MAX_PAYLOAD_SIZE -> data_ok pl plen ->
  frame_size plen <= capacity <= zlen frame ->
  exists bytes v,
    ethernet_frame_build frame capacity dst src etype pl plen = Some (bytes, frame_size plen) /\
    ethernet_frame_parse bytes (frame_size plen) = Some v /\
    take 6 (destination v) = dst /\ take 6 (source v) = src /\ ether_type v = etype /\
    payload_length v = Z.max 46 plen /\
    take (Z.to_nat (payload_length v)) (payload v) =
      take (Z.to_nat plen) (data pl) ++ replicate (Z.to_nat (46 - plen)) 0 /\
    zlen bytes = zlen frame.
Proof.
  intros Hd Hs Het Het' Hpl Hdata Hcap. pose proof Hdata as (Hb & Hlen & _).
  rewrite ethernet_build_bytes by done. unfold frame_header.
  explode_all dst Hd 6%nat. explode_all src Hs 6%nat. eexists _, _. split; [done|].
  unfold ethernet_frame_parse, load_be16.
  unfold frame_size, ETHERNET_MIN_FRAME_SIZE, ETHERNET_HEADER_SIZE,
    ETHERNET_MAX_PAYLOAD_SIZE, ETHERNET_MAX_FRAME_SIZE in *.
  replace (_ || _) with false by lia. reads. cbv zeta. rewrite be16_roundtrip by done.
  replace (etype <? 1536) with false by lia. split; [done|]. cbn.
  rewrite (wrap_small 16) by (widths; lia). split_and!; try done; [lia| |].
  - rewrite drop_0, app_assoc, take_app_length'; [|len]. do 2 f_equal. lia.
  - len.
Qed.

(** The bytes of a built frame. *)
Lemma ethernet_build_ok frame capacity dst src etype pl plen bytes n :
  zlen dst = 6 -> zlen src = 6 -> bytes_ok dst -> bytes_ok src -> bytes_ok frame ->
  is_u16 etype -> 1536 <= etype ->
  0 <= plen <= ETHERNET_MAX_PAYLOAD_SIZE -> data_ok pl plen ->
  frame_size plen <= capacity <= zlen frame ->
  ethernet_frame_build frame capacity dst src etype pl plen = Some (bytes, n) -> bytes_ok bytes.
Proof.
  intros Hd Hs Hbd Hbs Hbf Het Het' Hpl Hdata Hcap. pose proof Hdata as (Hb & _).
  rewrite ethernet_build_bytes by done. intros [= <- _]. unfold frame_header. auto 20 with bytes.
Qed.

(** ** Examples *)

Lemma ethernet_roundtrip_witness :
  exists bytes v,
    ethernet_frame_build (replicate 100 255) 100 [2; 0; 0; 0; 0; 2] [2; 0; 0; 0; 0; 1] 2048
      (Some [1; 2; 3]) 3 = Some (bytes, 60) /\
    ethernet_frame_parse bytes 60 = Some v /\ ether_type v = 2048 /\ payload_length v = 46.
Proof.
  destruct (ethernet_roundtrip (replicate 100 255) 100 [2; 0; 0; 0; 0; 2] [2; 0; 0; 0; 0; 1] 2048
    (Some [1; 2; 3]) 3) as (bytes & v & Hb & Hp & _ & _ & He & Hl & _); [concrete..|].
  by exists bytes, v.
Defined.

End Ethernet.

Module Arp.

Definition ARP_PACKET_SIZE : Z := 28.
Definition ARP_HARDWARE_ETHERNET : Z := 1.
Definition ARP_PROTOCOL_IPV4 : Z := 2048.
Definition ARP_OPERATION_REQUEST : Z := 1.
Definition ARP_OPERATION_REPLY : Z := 2.

Record arp_packet_view_t := {
  operation : Z;
  sender_hardware : list Z;
  sender_protocol : list Z;
  target_hardware : list Z;
  target_protocol : list Z;
}.

Definition arp_packet_build (packet : list Z) (capacity op : Z) (sha spa tha tpa : list Z)
    : option (list Z * Z) :=
  if (capacity <? ARP_PACKET_SIZE)
     || (negb (op =? ARP_OPERATION_REQUEST) && negb (op =? ARP_OPERATION_REPLY)) then None
  else
    let bytes := store_be16 packet 0 ARP_HARDWARE_ETHERNET in
    let bytes := store_be16 bytes 2 ARP_PROTOCOL_IPV4 in
    let bytes := bytes.[4 <- Ethernet.ETHERNET_ADDRESS_SIZE] in
    let bytes := bytes.[5 <- 4] in
    let bytes := store_be16 bytes 6 op in
    let bytes := copy_bytes bytes 8 sha Ethernet.ETHERNET_ADDRESS_SIZE in
    let bytes := copy_bytes bytes 14 spa 4 in
    let bytes := copy_bytes bytes 18 tha Ethernet.ETHERNET_ADDRESS_SIZE in
    let bytes := copy_bytes bytes 24 tpa 4 in
    Some (bytes, ARP_PACKET_SIZE).

Definition arp_packet_parse (bytes : list Z) (packet_length : Z) : option arp_packet_view_t :=
  if packet_length <? ARP_PACKET_SIZE then None
  else
    let op := load_be16 bytes 6 in
    if negb (load_be16 bytes 0 =? ARP_HARDWARE_ETHERNET)
       || negb (load_be16 bytes 2 =? ARP_PROTOCOL_IPV4)
       || negb (bytes.[4] =? 6) || negb (bytes.[5] =? 4)
       || (negb (op =? ARP_OPERATION_REQUEST) && negb (op =? ARP_OPERATION_REPLY)) then None
    else Some {| operation := op; sender_hardware := drop 8 bytes;
                 sender_protocol := drop 14 bytes; target_hardware := drop 18 bytes;
                 target_protocol := drop 24 bytes |}.

(** The 28 bytes of a packet on the wire. *)
Definition wire (op : Z) (sha spa tha tpa : list Z) : list Z :=
  [0; 1; 8; 0; 6; 4; u8 (Z.shiftr op 8); u8 op] ++ sha ++ spa ++ tha ++ tpa.

Lemma arp_build_bytes packet capacity op sha spa tha tpa :
  zlen sha = 6 -> zlen spa = 4 -> zlen tha = 6 -> zlen tpa = 4 ->
  28 <= capacity <= zlen packet -> op = 1 \/ op = 2 ->
  arp_packet_build packet capacity op sha spa tha tpa =
  Some (wire op sha spa tha tpa ++ drop 28 packet, 28).
Proof.
  intros Hsh Hsp Hth Htp Hcap Hop. unfold arp_packet_build.
  replace (_ || _) with false
    by (unfold ARP_PACKET_SIZE, ARP_OPERATION_REQUEST, ARP_OPERATION_REPLY; lia).
  explode_all sha Hsh 6%nat. explode_all spa Hsp 4%nat.
  explode_all tha Hth 6%nat. explode_all tpa Htp 4%nat.
  assert (28 <= zlen packet) as Hp by lia. explode packet Hp 28%nat.
  cbv zeta. unfold copy_bytes, Ethernet.ETHERNET_ADDRESS_SIZE. unroll. done.
Qed.

(** Parsing a built packet, also when it was padded to a longer frame, returns the
    operation and the four addresses. *)
Lemma arp_roundtrip packet capacity op sha spa tha tpa padding :
  zlen sha = 6 -> zlen spa = 4 -> zlen tha = 6 -> zlen tpa = 4 ->
  28 <= capacity <= zlen packet -> op = 1 \/ op = 2 -> 0 <= padding ->
  exists bytes v,
    arp_packet_build packet capacity op sha spa tha tpa = Some (bytes, 28) /\
    arp_packet_parse bytes (28 + padding) = Some v /\ operation v = op /\
    take 6 (sender_hardware v) = sha /\ take 4 (sender_protocol v) = spa /\
    take 6 (target_hardware v) = tha /\ take 4 (target_protocol v) = tpa /\
    zlen bytes = zlen packet.
Proof.
  intros Hsh Hsp Hth Htp Hcap Hop Hpad. rewrite arp_build_bytes by done. unfold wire.
  explode_all sha Hsh 6%nat. explode_all spa Hsp 4%nat.
  explode_all tha Hth 6%nat. explode_all tpa Htp 4%nat. eexists _, _. split; [done|].
  unfold arp_packet_parse, load_be16, ARP_PACKET_SIZE.
  replace (28 + padding <? 28) with false by lia. reads. cbv zeta.
  rewrite be16_roundtrip by (widths; lia). destruct Hop as [-> | ->]; split_and!; done || len.
Qed.

Lemma arp_build_ok packet capacity op sha spa tha tpa bytes n :
  zlen sha = 6 -> zlen spa = 4 -> zlen tha = 6 -> zlen tpa = 4 ->
  28 <= capacity <= zlen packet -> op = 1 \/ op = 2 ->
  bytes_ok packet -> bytes_ok sha -> bytes_ok spa -> bytes_ok tha -> bytes_ok tpa ->
  arp_packet_build packet capacity op sha spa tha tpa = Some (bytes, n) -> bytes_ok bytes.
Proof.
  intros Hsh Hsp Hth Htp Hcap Hop Hbp Hbsh Hbsp Hbth Hbtp. rewrite arp_build_bytes by done.
  intros [= <- _]. unfold wire. auto 20 with bytes.
Qed.

Lemma arp_parse_views l n v :
  arp_packet_parse l n = Some v ->
  sender_hardware v = drop 8 l /\ sender_protocol v = drop 14 l /\
  target_hardware v = drop 18 l /\ target_protocol v = drop 24 l.
Proof. unfold arp_packet_parse. case_if as E0; [done|]. case_if as E1; [done|]. by intros [= <-]. Qed.

Lemma arp_parse_agree l k n m v :
  agree n l k -> n <= m -> arp_packet_parse l n = Some v ->
  arp_packet_parse k m = Some {| operation := operation v; sender_hardware := drop 8 k;
    sender_protocol := drop 14 k; target_hardware := drop 18 k; target_protocol := drop 24 k |}.
Proof.
  intros H Hm. unfold arp_packet_parse, ARP_PACKET_SIZE. case_if as E0; [done|].
  replace (m <? 28) with false by lia. rewrite (load_be16_agree n l k 0), (load_be16_agree n l k 2),
    (load_be16_agree n l k 6), (H 4), (H 5) by (done || lia).
  case_if as E1; [done|]. intros [= <-]. done.
Qed.

(** ** Examples *)

Lemma arp_roundtrip_witness :
  exists bytes v,
    arp_packet_build (replicate 60 255) 60 1 [2; 0; 0; 0; 0; 1] [10; 0; 0; 1] [0; 0; 0; 0; 0; 0]
      [10; 0; 0; 2] = Some (bytes, 28) /\
    arp_packet_parse bytes (28 + 18) = Some v /\ operation v = 1.
Proof.
  destruct (arp_roundtrip (replicate 60 255) 60 1 [2; 0; 0; 0; 0; 1] [10; 0; 0; 1]
    [0; 0; 0; 0; 0; 0] [10; 0; 0; 2] 18) as (bytes & v & Hb & Hp & Ho & _); [concrete..|].
  by exists bytes, v.
Defined.

End Arp.
