(* ===== verification/Internet.v ===== *)
(** * The internet layer (kernel/drivers/network/ipv4.c and icmp.c)

    Building and parsing IPv4 packets and ICMP echo messages, with the
    conventions of Link.v. *)

From S2P Require Import Prelude NetBytes.

Module Ipv4.

Definition IPV4_MIN_HEADER_SIZE : Z := 20.
Definition IPV4_MAX_HEADER_SIZE : Z := 60.
Definition IPV4_MAX_PACKET_SIZE : Z := 65535.

Record ipv4_packet_view_t := {
  ihl : Z;
  ttl : Z;
  protocol : Z;
  identification : Z;
  fragment_offset : Z;
  more_fragments : Z;
  source : list Z;
  destination : list Z;
  payload : list Z;
  payload_length : Z;
}.

Definition ipv4_checksum (bytes : list Z) (length : Z) : Z :=
  if length =? 0 then 0 else inet_complement (add_bytes 0 bytes length).

Definition ipv4_packet_build (packet : list Z) (capacity : Z) (src dst : list Z)
    (proto ttl_ ident : Z) (pl : option (list Z)) (plen : Z) : option (list Z * Z) :=
  if (ttl_ =? 0) || (IPV4_MAX_PACKET_SIZE - IPV4_MIN_HEADER_SIZE <? plen)
     || (negb (plen =? 0) && bool_decide (pl = None)) then None
  else
    let total := u16 (IPV4_MIN_HEADER_SIZE + plen) in
    if capacity <? total then None
    else
      let bytes := for_z 0 IPV4_MIN_HEADER_SIZE (fun i bytes => bytes.[i <- 0]) packet in
      let bytes := bytes.[0 <- 69] in
      let bytes := bytes.[1 <- 0] in
      let bytes := store_be16 bytes 2 total in
      let bytes := store_be16 bytes 4 ident in
      let bytes := store_be16 bytes 6 0 in
      let bytes := bytes.[8 <- ttl_] in
      let bytes := bytes.[9 <- proto] in
      let bytes := for_z 0 4
        (fun i bytes => bytes.[12 + i <- src.[i]].[16 + i <- dst.[i]]) bytes in
      let bytes := store_be16 bytes 10 (ipv4_checksum bytes IPV4_MIN_HEADER_SIZE) in
      let bytes := copy_bytes bytes IPV4_MIN_HEADER_SIZE (data pl) plen in
      Some (bytes, total).

Definition ipv4_packet_parse (bytes : list Z) (packet_length : Z) : option ipv4_packet_view_t :=
  if packet_length <? IPV4_MIN_HEADER_SIZE then None
  else if negb (Z.shiftr (bytes.[0]) 4 =? 4) then None
  else
    let header_length := u8 (Z.land (bytes.[0]) 15 * 4) in
    if (header_length <? IPV4_MIN_HEADER_SIZE) || (IPV4_MAX_HEADER_SIZE <? header_length)
       || (packet_length <? header_length) then None
    else
      let total := load_be16 bytes 2 in
      let fragments := load_be16 bytes 6 in
      let fragment_offset_ := Z.land fragments 8191 * 8 in
      if (total <? header_length) || (packet_length <? total)
         || (IPV4_MAX_PACKET_SIZE - header_length <? fragment_offset_)
         || (IPV4_MAX_PACKET_SIZE - total + header_length <? fragment_offset_)
         || (negb (Z.land fragments 8192 =? 0) && (total - header_length =? 0))
         || (negb (Z.land fragments 8192 =? 0) && negb (Z.land (total - header_length) 7 =? 0))
         || negb (ipv4_checksum bytes header_length =? 0) then None
      else Some {|
        ihl := u8 (header_length / 4);
        ttl := bytes.[8];
        protocol := bytes.[9];
        identification := load_be16 bytes 4;
        fragment_offset := u16 fragment_offset_;
        more_fragments := Z.b2z (negb (Z.land fragments 8192 =? 0));
        source := drop 12 bytes;
        destination := drop 16 bytes;
        payload := drop (Z.to_nat header_length) bytes;
        payload_length := u16 (total - header_length) |}.

(** ** Lemmas *)

(** The header with checksum [c]. *)
Definition header (src dst : list Z) (proto ttl_ ident total c : Z) : list Z :=
  [69; 0; u8 (Z.shiftr total 8); u8 total; u8 (Z.shiftr ident 8); u8 ident; 0; 0; ttl_; proto]
  ++ u8 (Z.shiftr c 8) :: u8 c :: src ++ dst.

Lemma header_length src dst proto ttl_ ident total c :
  zlen src = 4 -> zlen dst = 4 -> zlen (header src dst proto ttl_ ident total c) = 20.
Proof. intros. unfold header. len. Qed.

Lemma header_bytes src dst proto ttl_ ident total c :
  bytes_ok src -> bytes_ok dst -> is_u8 proto -> is_u8 ttl_ ->
  bytes_ok (header src dst proto ttl_ ident total c).
Proof. intros. unfold header. simpl. auto 30 with bytes. Qed.

Lemma header_sum src dst proto ttl_ ident total c :
  is_u16 c ->
  word_sum (header src dst proto ttl_ ident total c) =
  word_sum (header src dst proto ttl_ ident total 0) + c.
Proof.
  intros Hc. unfold header. rewrite word_sum_field by done.
  by change (u8 (Z.shiftr 0 8)) with 0; change (u8 0) with 0.
Qed.

Lemma ipv4_header_build packet src dst proto ttl_ ident total :
  zlen src = 4 -> zlen dst = 4 -> 20 <= zlen packet ->
  let bytes := for_z 0 20 (fun i bytes => bytes.[i <- 0]) packet in
  let bytes := bytes.[0 <- 69] in
  let bytes := bytes.[1 <- 0] in
  let bytes := store_be16 bytes 2 total in
  let bytes := store_be16 bytes 4 ident in
  let bytes := store_be16 bytes 6 0 in
  let bytes := bytes.[8 <- ttl_] in
  let bytes := bytes.[9 <- proto] in
  let bytes := for_z 0 4 (fun i bytes => bytes.[12 + i <- src.[i]].[16 + i <- dst.[i]]) bytes in
  bytes = header src dst proto ttl_ ident total 0 ++ drop 20 packet /\
  forall c, store_be16 bytes 10 c = header src dst proto ttl_ ident total c ++ drop 20 packet.
Proof.
  intros Hs Hd Hp. explode_all src Hs 4%nat. explode_all dst Hd 4%nat. explode packet Hp 20%nat.
  cbv zeta. unroll. done.
Qed.

(** The checksum of the header with its field zero, and with it filled in. *)
Lemma header_checksum src dst proto ttl_ ident total rest rest' :
  zlen src = 4 -> zlen dst = 4 -> bytes_ok src -> bytes_ok dst -> is_u8 proto -> is_u8 ttl_ ->
  bytes_ok rest -> bytes_ok rest' ->
  let c := ipv4_checksum (header src dst proto ttl_ ident total 0 ++ rest) 20 in
  ipv4_checksum (header src dst proto ttl_ ident total c ++ rest') 20 = 0.
Proof.
  intros Hs Hd Hbs Hbd Hp Ht Hr Hr'. unfold ipv4_checksum. change (20 =? 0) with false.
  cbv iota zeta.
  assert (forall c rest, bytes_ok rest ->
    add_bytes 0 (header src dst proto ttl_ ident total c ++ rest) 20 =
      word_sum (header src dst proto ttl_ ident total c) /\
    is_u32 (word_sum (header src dst proto ttl_ ident total c))) as Hsum.
  { intros c r Hbr. pose proof (header_length src dst proto ttl_ ident total c Hs Hd) as Hl.
    destruct (add_bytes_0 (header src dst proto ttl_ ident total c ++ r) 20) as [-> ?].
    - apply bytes_ok_app; [by apply header_bytes|done].
    - len.
    - lia.
    - rewrite take_app_length' in * by len. done. }
  destruct (Hsum 0 rest Hr) as [-> H0]. set (c := inet_complement (word_sum _)).
  destruct (Hsum c rest' Hr') as [-> Hc].
  rewrite (header_sum _ _ _ _ _ _ c) in Hc |- * by apply inet_complement_u16.
  apply inet_complement_verify; [done..|by left].
Qed.

(** What the parser reads from a header. *)
Lemma header_reads src dst proto ttl_ ident total c rest :
  zlen src = 4 -> zlen dst = 4 -> is_u16 ident -> is_u16 total ->
  let bytes := header src dst proto ttl_ ident total c ++ rest in
  bytes.[0] = 69 /\ load_be16 bytes 2 = total /\ load_be16 bytes 4 = ident /\
  load_be16 bytes 6 = 0 /\ bytes.[8] = ttl_ /\ bytes.[9] = proto /\
  drop 12 bytes = src ++ dst ++ rest /\ drop 16 bytes = dst ++ rest /\ drop 20 bytes = rest.
Proof.
  intros Hs Hd Hid Ht. explode_all src Hs 4%nat. explode_all dst Hd 4%nat.
  unfold header, load_be16. cbv zeta. reads. rewrite !be16_roundtrip by done. split_and!; done.
Qed.

(** The wire image of a packet. *)
Lemma ipv4_build_bytes packet capacity src dst proto ttl_ ident pl plen :
  zlen src = 4 -> zlen dst = 4 -> ttl_ <> 0 ->
  0 <= plen <= 65515 -> data_ok pl plen -> 20 + plen <= capacity <= zlen packet ->
  let total := 20 + plen in
  let c := ipv4_checksum (header src dst proto ttl_ ident total 0 ++ drop 20 packet) 20 in
  ipv4_packet_build packet capacity src dst proto ttl_ ident pl plen =
  Some (header src dst proto ttl_ ident total c ++
        take (Z.to_nat plen) (data pl) ++ drop (Z.to_nat plen) (drop 20 packet), total).
Proof.
  intros Hs Hd Ht Hpl Hdata Hcap. pose proof Hdata as (_ & Hlen & _). unfold ipv4_packet_build.
  unfold IPV4_MIN_HEADER_SIZE, IPV4_MAX_PACKET_SIZE.
  rewrite (data_ok_test pl plen) by done. replace (_ || _ || _) with false by lia.
  rewrite (wrap_small 16 (20 + plen)) by (widths; lia). replace (capacity <? _) with false by lia.
  cbv zeta. destruct (ipv4_header_build packet src dst proto ttl_ ident (20 + plen))
    as [Hh Hc]; [lia..|]. cbv zeta in Hh, Hc. rewrite Hc, Hh. clear Hh Hc.
  rewrite copy_after; [reflexivity|by rewrite header_length|lia|len].
Qed.

(** ** Theorems *)

(** Parsing a built packet succeeds (its header checksum verifies) and returns the
    fields and the payload it was built from, unfragmented. *)
Lemma ipv4_roundtrip packet capacity src dst proto ttl_ ident pl plen extra :
  zlen src = 4 -> zlen dst = 4 -> bytes_ok src -> bytes_ok dst -> is_u8 proto -> is_u8 ttl_ ->
  ttl_ <> 0 -> is_u16 ident -> 0 <= plen <= 65515 -> data_ok pl plen -> bytes_ok packet ->
  20 + plen <= capacity <= zlen packet -> 0 <= extra -> 20 + plen + extra <= zlen packet ->
  exists bytes v,
    ipv4_packet_build packet capacity src dst proto ttl_ ident pl plen = Some (bytes, 20 + plen) /\
    ipv4_packet_parse bytes (20 + plen + extra) = Some v /\
    ihl v = 5 /\ ttl v = ttl_ /\ protocol v = proto /\ identification v = ident /\
    fragment_offset v = 0 /\ more_fragments v = 0 /\
    take 4 (source v) = src /\ take 4 (destination v) = dst /\ payload_length v = plen /\
    take (Z.to_nat plen) (payload v) = take (Z.to_nat plen) (data pl) /\
    bytes_ok bytes /\ zlen bytes = zlen packet.
Proof.
  intros Hs Hd Hbs Hbd Hp Ht Ht0 Hid Hpl Hdata Hbp Hcap Hex Hex'. pose proof Hdata as (Hb & Hlen & _).
  rewrite ipv4_build_bytes by done. eexists _, _. split; [done|].
  set (rest := take _ (data pl) ++ _).
  assert (bytes_ok rest) as Hbr by (unfold rest; auto with bytes).
  pose proof (header_checksum src dst proto ttl_ ident (20 + plen) (drop 20 packet) rest Hs Hd
    Hbs Hbd Hp Ht ltac:(auto with bytes) Hbr) as Hck. cbv zeta in Hck.
  set (c := ipv4_checksum (header _ _ _ _ _ _ 0 ++ drop 20 packet) 20) in *.
  destruct (header_reads src dst proto ttl_ ident (20 + plen) c rest)
    as (R0 & R2 & R4 & R6 & R8 & R9 & D12 & D16 & D20); [done..|widths; lia|].
  set (bytes := header _ _ _ _ _ _ c ++ rest) in *. unfold ipv4_packet_parse.
  rewrite R0, R2, R4, R6, R8, R9. change (u8 (Z.land 69 15 * 4)) with 20.
  change (Z.shiftr 69 4 =? 4) with true. rewrite Hck, D12, D16.
  change (Z.to_nat 20) with 20%nat. rewrite D20.
  unfold IPV4_MIN_HEADER_SIZE, IPV4_MAX_HEADER_SIZE, IPV4_MAX_PACKET_SIZE.
  replace (_ <? 20) with false by lia. replace (_ || _ || _) with false by lia.
  change (Z.land 0 8192) with 0. change (Z.land 0 8191) with 0.
  replace (_ || _) with false by lia. split; [done|]. simpl.
  rewrite (wrap_small 16 (20 + plen - 20)) by (widths; lia).
  split_and!; try done; [by rewrite take_app_length' by len..|lia| | |].
  - unfold rest. by rewrite take_app_length' by len.
  - apply bytes_ok_app; [|done]. by apply header_bytes.
  - unfold bytes, rest. pose proof (header_length src dst proto ttl_ ident (20 + plen) c Hs Hd). len.
Qed.

(** The parser reads no further than the packet's length. *)
Lemma ipv4_parse_agree l k n m v :
  agree n l k -> n <= m -> ipv4_packet_parse l n = Some v ->
  ipv4_packet_parse k m =
  Some {| ihl := ihl v; ttl := ttl v; protocol := protocol v; identification := identification v;
          fragment_offset := fragment_offset v; more_fragments := more_fragments v;
          source := drop 12 k; destination := drop 16 k;
          payload := drop (Z.to_nat (4 * ihl v)) k;
          payload_length := payload_length v |}.
Proof.
  intros H Hm. unfold ipv4_packet_parse, IPV4_MIN_HEADER_SIZE. case_if as E0; [done|].
  replace (m <? 20) with false by lia. rewrite (H 0) by lia. case_if as E1; [done|].
  set (h := u8 (Z.land (k.[0]) 15 * 4)). case_if as E2; [done|].
  replace ((h <? 20) || (IPV4_MAX_HEADER_SIZE <? h) || (m <? h)) with false by lia.
  rewrite (load_be16_agree n l k 2), (load_be16_agree n l k 4), (load_be16_agree n l k 6), (H 8), (H 9)
    by (done || lia).
  assert (ipv4_checksum l h = ipv4_checksum k h) as ->.
  { unfold ipv4_checksum. case_if as E; [done|]. f_equal. apply add_bytes_agree; [|lia].
    apply (agree_le n); [done|lia]. }
  destruct (_ || _) eqn:E3 in |- *; [done|]. intros [= <-].
  replace (_ || _) with false by lia. simpl.
  assert (4 * u8 (h / 4) = h) as ->; [|done].
  unfold h. change 15 with (Z.ones 4). rewrite Z.land_ones by lia. change (2 ^ 4) with 16. zlia.
Qed.

(** Whatever the input bytes, an accepted packet lies inside the buffer, its
    fragment ends within the 64 KiB of a datagram, and a non-final fragment
    carries a positive multiple of eight bytes. *)
Lemma ipv4_parse_safe bytes packet_length v :
  is_u16 packet_length -> packet_length <= zlen bytes ->
  ipv4_packet_parse bytes packet_length = Some v ->
  20 <= 4 * ihl v <= 60 /\ 0 <= payload_length v /\
  4 * ihl v + payload_length v <= packet_length /\
  payload v = drop (Z.to_nat (4 * ihl v)) bytes /\
  source v = drop 12 bytes /\ destination v = drop 16 bytes /\
  0 <= fragment_offset v /\ fragment_offset v mod 8 = 0 /\
  fragment_offset v + payload_length v <= IPV4_MAX_PACKET_SIZE /\
  (more_fragments v <> 0 -> 0 < payload_length v /\ payload_length v mod 8 = 0).
Proof.
  intros Hl Hlen. unfold ipv4_packet_parse.
  unfold IPV4_MIN_HEADER_SIZE, IPV4_MAX_HEADER_SIZE, IPV4_MAX_PACKET_SIZE.
  case_if as E0; [done|]. case_if as E1; [done|].
  assert (u8 (Z.land (bytes.[0]) 15 * 4) = Z.land (bytes.[0]) 15 * 4) as ->.
  { change 15 with (Z.ones 4). rewrite Z.land_ones by lia. change (2 ^ 4) with 16. zlia. }
  set (k := Z.land _ 15). cbv zeta. case_if as E2; [done|].
  assert (is_u16 (load_be16 bytes 2)) as Ht by by apply wrap_range.
  set (total := load_be16 bytes 2) in *. set (f := load_be16 bytes 6) in *.
  assert (0 <= Z.land f 8191) as Hf by (apply Z.land_nonneg; lia).
  change 7 with (Z.ones 3) at 1. rewrite Z.land_ones by lia. change (2 ^ 3) with 8.
  case_if as E3; [done|]. intros [= <-]. simpl. set (o := Z.land f 8191) in *.
  widths. rewrite Z.div_mul, !Z.mod_small by lia. 
  split_and!; try done; try lia.
  - f_equal. lia.
  - apply Z.mod_mul. lia.
Qed.

(** ** Examples *)

Lemma ipv4_roundtrip_witness :
  exists bytes v,
    ipv4_packet_build (replicate 64 0) 64 [10; 0; 0; 1] [10; 0; 0; 2] 17 64 513
      (Some [1; 2; 3]) 3 = Some (bytes, 23) /\
    ipv4_packet_parse bytes 46 = Some v /\ protocol v = 17 /\ payload_length v = 3.
Proof.
  destruct (ipv4_roundtrip (replicate 64 0) 64 [10; 0; 0; 1] [10; 0; 0; 2] 17 64 513
    (Some [1; 2; 3]) 3 23) as (bytes & v & Hb & Hp & _ & _ & Hpr & _ & _ & _ & _ & _ & Hl & _);
    [concrete..|].
  by exists bytes, v.
Defined.

(** A first fragment of eight bytes. *)
Definition example_fragment : list Z :=
  [69; 0; 0; 28; 2; 1; 32; 0; 64; 17; 68; 206; 10; 0; 0; 1; 10; 0; 0; 2; 1; 2; 3; 4; 5; 6; 7; 8].

Lemma ipv4_parse_safe_witness :
  exists v, ipv4_packet_parse example_fragment 28 = Some v /\ payload_length v mod 8 = 0.
Proof.
  destruct (ipv4_packet_parse example_fragment 28) as [v|] eqn:E; [|by vm_compute in E].
  exists v. split; [done|].
  apply (ipv4_parse_safe example_fragment 28 v); [concrete..|done|].
  vm_compute in E. injection E as <-. done.
Defined.

End Ipv4.

Module Icmp.

Definition ICMP_ECHO_HEADER_SIZE : Z := 8.
Definition ICMP_MAX_PACKET_SIZE : Z := 65535.
Definition ICMP_TYPE_ECHO_REPLY : Z := 0.
Definition ICMP_TYPE_ECHO_REQUEST : Z := 8.

Record icmp_echo_view_t := {
  type : Z;
  code : Z;
  identifier : Z;
  sequence : Z;
  payload : list Z;
  payload_length : Z;
}.

Definition icmp_checksum (bytes : list Z) (length : Z) : Z :=
  if length =? 0 then 0 else inet_complement (add_bytes 0 bytes length).

Definition icmp_echo_build (packet : list Z) (capacity ty ident seq : Z)
    (pl : option (list Z)) (plen : Z) : option (list Z * Z) :=
  if (negb (ty =? ICMP_TYPE_ECHO_REQUEST) && negb (ty =? ICMP_TYPE_ECHO_REPLY))
     || (negb (plen =? 0) && bool_decide (pl = None))
     || (ICMP_MAX_PACKET_SIZE - ICMP_ECHO_HEADER_SIZE <? plen) then None
  else
    let length := u16 (ICMP_ECHO_HEADER_SIZE + plen) in
    if capacity <? length then None
    else
      let bytes := packet.[0 <- ty] in
      let bytes := bytes.[1 <- 0] in
      let bytes := store_be16 bytes 2 0 in
      let bytes := store_be16 bytes 4 ident in
      let bytes := store_be16 bytes 6 seq in
      let bytes := copy_bytes bytes ICMP_ECHO_HEADER_SIZE (data pl) plen in
      let bytes := store_be16 bytes 2 (icmp_checksum bytes length) in
      Some (bytes, length).

Definition icmp_echo_parse (bytes : list Z) (packet_length : Z) : option icmp_echo_view_t :=
  if packet_length <? ICMP_ECHO_HEADER_SIZE then None
  else if (negb (bytes.[0] =? ICMP_TYPE_ECHO_REQUEST) && negb (bytes.[0] =? ICMP_TYPE_ECHO_REPLY))
          || negb (bytes.[1] =? 0) || negb (icmp_checksum bytes packet_length =? 0) then None
  else Some {| type := bytes.[0]; code := bytes.[1];
               identifier := load_be16 bytes 4; sequence := load_be16 bytes 6;
               payload := drop 8 bytes;
               payload_length := u16 (packet_length - ICMP_ECHO_HEADER_SIZE) |}.

(** ** Lemmas *)

(** The message with checksum [c], followed by [rest] (payload and what the buffer
    held behind it). *)
Definition wire (ty ident seq c : Z) (rest : list Z) : list Z :=
  [ty; 0] ++ u8 (Z.shiftr c 8) :: u8 c ::
  [u8 (Z.shiftr ident 8); u8 ident; u8 (Z.shiftr seq 8); u8 seq] ++ rest.

Lemma icmp_build_bytes packet capacity ty ident seq pl plen :
  ty = 8 \/ ty = 0 -> 0 <= plen <= 65527 -> data_ok pl plen ->
  8 + plen <= capacity <= zlen packet ->
  let rest := take (Z.to_nat plen) (data pl) ++ drop (Z.to_nat plen) (drop 8 packet) in
  icmp_echo_build packet capacity ty ident seq pl plen =
  Some (wire ty ident seq (icmp_checksum (wire ty ident seq 0 rest) (8 + plen)) rest, 8 + plen).
Proof.
  intros Hty Hpl Hdata Hcap. pose proof Hdata as (_ & Hlen & _). unfold icmp_echo_build.
  unfold ICMP_ECHO_HEADER_SIZE, ICMP_MAX_PACKET_SIZE, ICMP_TYPE_ECHO_REQUEST, ICMP_TYPE_ECHO_REPLY.
  rewrite (data_ok_test pl plen) by done. replace (_ || _ || _) with false by lia.
  rewrite (wrap_small 16 (8 + plen)) by (widths; lia). replace (capacity <? _) with false by lia.
  cbv zeta. assert (8 <= zlen packet) as Hp by lia.
  assert (store_be16 (store_be16 (store_be16 packet.[0 <- ty].[1 <- 0] 2 0) 4 ident) 6 seq =
    wire ty ident seq 0 [] ++ drop 8 packet) as -> by (by explode packet Hp 8%nat).
  rewrite copy_after; [reflexivity|done|lia|len].
Qed.

Lemma icmp_sum ty ident seq c rest :
  is_u16 c -> word_sum (wire ty ident seq c rest) = word_sum (wire ty ident seq 0 rest) + c.
Proof.
  intros Hc. unfold wire. rewrite word_sum_field by done.
  by change (u8 (Z.shiftr 0 8)) with 0; change (u8 0) with 0.
Qed.

Lemma icmp_wire_take ty ident seq c rest n :
  0 <= n -> take (Z.to_nat (8 + n)) (wire ty ident seq c rest) =
  wire ty ident seq c (take (Z.to_nat n) rest).
Proof. intros. by replace (Z.to_nat (8 + n)) with (8 + Z.to_nat n)%nat by lia. Qed.

Lemma icmp_checksum_wire ty ident seq rest n :
  is_u8 ty -> bytes_ok rest -> 0 <= n <= zlen rest -> n <= 65527 ->
  let c := icmp_checksum (wire ty ident seq 0 rest) (8 + n) in
  icmp_checksum (wire ty ident seq c rest) (8 + n) = 0.
Proof.
  intros Hty Hr Hn Hmax. unfold icmp_checksum. replace (8 + n =? 0) with false by lia. cbv zeta.
  assert (forall c, add_bytes 0 (wire ty ident seq c rest) (8 + n) =
                    word_sum (wire ty ident seq c (take (Z.to_nat n) rest)) /\
                    is_u32 (word_sum (wire ty ident seq c (take (Z.to_nat n) rest)))) as Hsum.
  { intros c. rewrite <- icmp_wire_take by lia. apply add_bytes_0; [|unfold wire; len|lia].
    unfold wire. simpl. auto 30 with bytes. }
  destruct (Hsum 0) as [-> H0]. set (c := inet_complement (word_sum _)).
  destruct (Hsum c) as [-> Hc]. rewrite (icmp_sum _ _ _ c) in Hc |- * by apply inet_complement_u16.
  apply inet_complement_verify; [done..|by left].
Qed.

(** ** Theorems *)

(** Parsing a built echo message succeeds and returns its type, identifier,
    sequence number and payload. *)
Lemma icmp_roundtrip packet capacity ty ident seq pl plen :
  ty = 8 \/ ty = 0 -> is_u16 ident -> is_u16 seq -> 0 <= plen <= 65527 -> data_ok pl plen ->
  bytes_ok packet -> 8 + plen <= capacity <= zlen packet ->
  exists bytes v,
    icmp_echo_build packet capacity ty ident seq pl plen = Some (bytes, 8 + plen) /\
    icmp_echo_parse bytes (8 + plen) = Some v /\
    type v = ty /\ identifier v = ident /\ sequence v = seq /\ payload_length v = plen /\
    take (Z.to_nat plen) (payload v) = take (Z.to_nat plen) (data pl) /\
    bytes_ok bytes /\ zlen bytes = zlen packet.
Proof.
  intros Hty Hid Hseq Hpl Hdata Hbp Hcap. pose proof Hdata as (Hb & Hlen & _).
  rewrite icmp_build_bytes by done. eexists _, _. split; [done|].
  set (rest := take _ (data pl) ++ _). set (c := icmp_checksum _ _).
  assert (icmp_checksum (wire ty ident seq c rest) (8 + plen) = 0) as Hck.
  { apply icmp_checksum_wire; [widths; lia|unfold rest; auto with bytes|unfold rest; len|lia]. }
  unfold icmp_echo_parse. rewrite Hck. unfold wire, load_be16. reads.
  rewrite !be16_roundtrip by done. unfold ICMP_ECHO_HEADER_SIZE.
  replace (8 + plen <? 8) with false by lia.
  replace (_ || _ || _) with false by (unfold ICMP_TYPE_ECHO_REQUEST, ICMP_TYPE_ECHO_REPLY; lia).
  rewrite (wrap_small 16 (8 + plen - 8)) by (widths; lia). split; [done|]. simpl.
  assert (bytes_ok rest) by (unfold rest; auto with bytes).
  split_and!; try done; [lia| | |].
  - rewrite drop_0. unfold rest. by rewrite take_app_length' by len.
  - assert (is_u8 ty) by (widths; lia). auto 20 with bytes.
  - unfold rest. len.
Qed.

Lemma icmp_parse_inv l n v :
  icmp_echo_parse l n = Some v -> payload v = drop 8 l /\ (is_u16 n -> payload_length v = n - 8).
Proof.
  unfold icmp_echo_parse, ICMP_ECHO_HEADER_SIZE. case_if as E0; [done|]. case_if as E1; [done|].
  intros [= <-]. split; [done|]. intros Hn. simpl. apply wrap_small. widths. lia.
Qed.

Lemma icmp_parse_agree l k n v :
  agree n l k -> icmp_echo_parse l n = Some v ->
  icmp_echo_parse k n = Some {| type := type v; code := code v; identifier := identifier v;
    sequence := sequence v; payload := drop 8 k; payload_length := payload_length v |}.
Proof.
  intros H. unfold icmp_echo_parse, ICMP_ECHO_HEADER_SIZE. case_if as E0; [done|].
  rewrite (H 0), (H 1), (load_be16_agree n l k 4), (load_be16_agree n l k 6) by (done || lia).
  assert (icmp_checksum l n = icmp_checksum k n) as ->.
  { unfold icmp_checksum. case_if as E; [done|]. f_equal. apply add_bytes_agree; [done|lia]. }
  case_if as E1; [done|]. intros [= <-]. done.
Qed.

(** Error detection: changing one aligned 16-bit word of an accepted message to
    a value that is different modulo 65535 makes the parser reject it. *)
Theorem icmp_detects_corruption bytes packet_length i a b :
  bytes_ok bytes -> is_u16 packet_length -> packet_length <= zlen bytes ->
  icmp_echo_parse bytes packet_length <> None ->
  0 <= i -> 2 * i + 1 < packet_length -> is_u8 a -> is_u8 b ->
  (a * 256 + b) mod 65535 <> (bytes.[2 * i] * 256 + bytes.[2 * i + 1]) mod 65535 ->
  icmp_echo_parse (bytes.[2 * i <- a].[2 * i + 1 <- b]) packet_length = None.
Proof.
  intros Hb Hl Hlen Hacc Hi Hi' Ha Hb' Hne. unfold icmp_echo_parse in Hacc |- *.
  case_if as E0; [done|]. unfold ICMP_ECHO_HEADER_SIZE in E0.
  enough (icmp_checksum (bytes.[2 * i <- a].[2 * i + 1 <- b]) packet_length <> 0) as Hck.
  { replace (icmp_checksum (bytes.[2 * i <- a].[2 * i + 1 <- b]) _ =? 0) with false by lia.
    by rewrite orb_true_r. }
  assert (icmp_checksum bytes packet_length = 0) as H0.
  { destruct (icmp_checksum bytes packet_length =? 0) eqn:E; [lia|].
    by rewrite orb_true_r in Hacc. }
  unfold icmp_checksum in *. assert ((packet_length =? 0) = false) as Hz by lia. rewrite Hz in *.
  destruct (add_bytes_0 bytes packet_length) as [Hs Hu]; [done|widths; lia..|].
  set (bytes' := bytes.[2 * i <- a].[2 * i + 1 <- b]).
  destruct (add_bytes_0 bytes' packet_length) as [Hs' Hu'];
    [unfold bytes'; auto with bytes|unfold bytes'; autorewrite with len; widths; lia|widths; lia|].
  assert (word_sum (take (Z.to_nat packet_length) bytes') =
    word_sum (take (Z.to_nat packet_length) bytes)
    - (bytes.[2 * i] * 256 + bytes.[2 * i + 1]) + (a * 256 + b)) as Hw.
  { unfold bytes'. rewrite !take_insert_lt by lia. rewrite word_sum_update by len.
    by rewrite !list_lookup_total_alt, !lookup_take_lt by lia. }
  rewrite Hs in H0. rewrite Hs', Hw. rewrite Hw in Hu'.
  apply inet_complement_detects; [done..|congruence|done].
Qed.

(** ** Examples *)

Lemma icmp_roundtrip_witness :
  exists bytes v,
    icmp_echo_build (replicate 16 0) 16 8 7 1 (Some [1; 2; 3]) 3 = Some (bytes, 11) /\
    icmp_echo_parse bytes 11 = Some v /\ identifier v = 7 /\ payload_length v = 3.
Proof.
  destruct (icmp_roundtrip (replicate 16 0) 16 8 7 1 (Some [1; 2; 3]) 3)
    as (bytes & v & Hb & Hp & _ & Hi & _ & Hl & _); [concrete..|].
  by exists bytes, v.
Defined.

(** An echo request with one word of payload, and the same with that word changed. *)
Lemma icmp_detects_corruption_witness :
  icmp_echo_parse [8; 0; 246; 251; 0; 0; 0; 1; 1; 3] 10 <> None /\
  icmp_echo_parse [8; 0; 246; 251; 0; 0; 0; 1; 1; 4] 10 = None.
Proof.
  assert (icmp_echo_parse [8; 0; 246; 251; 0; 0; 0; 1; 1; 3] 10 <> None) as Hok
    by (vm_compute; congruence).
  split; [exact Hok|].
  apply (icmp_detects_corruption [8; 0; 246; 251; 0; 0; 0; 1; 1; 3] 10 4 1 4); [concrete..|].
  vm_compute. congruence.
Defined.

End Icmp.
