(* ===== verification/Udp.v ===== *)
(** * UDP datagrams (kernel/drivers/network/udp.c) *)

From S2P Require Import Prelude NetBytes.

Module Udp.

Definition UDP_HEADER_SIZE : Z := 8.
Definition UDP_MAX_PACKET_SIZE : Z := 65535.

Record udp_packet_view_t := {
  source_port : Z;
  destination_port : Z;
  payload : list Z;
  payload_length : Z;
}.

Definition packet_checksum (packet : list Z) (length : Z) (src dst : list Z) : Z :=
  let sum := pseudo_sum src dst 17 length in
  let sum := add_bytes sum packet UDP_HEADER_SIZE in
  let sum := add_bytes sum (drop 8 packet) (u16 (length - UDP_HEADER_SIZE)) in
  let result := inet_complement sum in
  if negb (result =? 0) then result else 65535.

Definition udp_packet_build (packet : list Z) (capacity : Z) (src dst : list Z)
    (sport dport : Z) (pl : option (list Z)) (plen : Z) : option (list Z * Z) :=
  if (sport =? 0) || (dport =? 0) || (UDP_MAX_PACKET_SIZE - UDP_HEADER_SIZE <? plen)
     || (negb (plen =? 0) && bool_decide (pl = None)) then None
  else
    let length := u16 (UDP_HEADER_SIZE + plen) in
    if capacity <? length then None
    else
      let bytes := store_be16 packet 0 sport in
      let bytes := store_be16 bytes 2 dport in
      let bytes := store_be16 bytes 4 length in
      let bytes := store_be16 bytes 6 0 in
      let bytes := copy_bytes bytes UDP_HEADER_SIZE (data pl) plen in
      let bytes := store_be16 bytes 6 (packet_checksum bytes length src dst) in
      Some (bytes, length).

Definition udp_packet_parse (bytes : list Z) (packet_length : Z) (src dst : list Z)
    : option udp_packet_view_t :=
  if packet_length <? UDP_HEADER_SIZE then None
  else
    let length := load_be16 bytes 4 in
    let checksum := load_be16 bytes 6 in
    if (load_be16 bytes 0 =? 0) || (load_be16 bytes 2 =? 0)
       || (length <? UDP_HEADER_SIZE) || (packet_length <? length)
       || (negb (checksum =? 0) && negb (packet_checksum bytes length src dst =? 65535)) then None
    else Some {| source_port := load_be16 bytes 0; destination_port := load_be16 bytes 2;
                 payload := drop 8 bytes;
                 payload_length := u16 (length - UDP_HEADER_SIZE) |}.

(** ** Lemmas *)

Definition wire (sport dport length c : Z) (rest : list Z) : list Z :=
  [u8 (Z.shiftr sport 8); u8 sport; u8 (Z.shiftr dport 8); u8 dport;
   u8 (Z.shiftr length 8); u8 length] ++ u8 (Z.shiftr c 8) :: u8 c :: rest.

Lemma udp_build_bytes packet capacity src dst sport dport pl plen :
  sport <> 0 -> dport <> 0 -> 0 <= plen <= 65527 -> data_ok pl plen ->
  8 + plen <= capacity <= zlen packet ->
  let rest := take (Z.to_nat plen) (data pl) ++ drop (Z.to_nat plen) (drop 8 packet) in
  let c := packet_checksum (wire sport dport (8 + plen) 0 rest) (8 + plen) src dst in
  udp_packet_build packet capacity src dst sport dport pl plen =
  Some (wire sport dport (8 + plen) c rest, 8 + plen).
Proof.
  intros Hsp Hdp Hpl Hdata Hcap. pose proof Hdata as (_ & Hlen & _). unfold udp_packet_build.
  unfold UDP_HEADER_SIZE, UDP_MAX_PACKET_SIZE.
  rewrite (data_ok_test pl plen) by done. replace (_ || _ || _ || _) with false by lia.
  rewrite (wrap_small 16 (8 + plen)) by (widths; lia). replace (capacity <? _) with false by lia.
  cbv zeta. assert (8 <= zlen packet) as Hp by lia.
  set (len := 8 + plen).
  assert (store_be16 (store_be16 (store_be16 (store_be16 packet 0 sport) 2 dport) 4 len) 6 0 =
    wire sport dport len 0 [] ++ drop 8 packet) as -> by (by explode packet Hp 8%nat).
  rewrite copy_after; [reflexivity|done|lia|len].
Qed.

(** The total that the checksum covers. *)
Definition total (src dst l : list Z) (length : Z) : Z :=
  pseudo_sum src dst 17 length + word_sum (take (Z.to_nat length) l).

Lemma packet_checksum_spec l length src dst :
  zlen src = 4 -> zlen dst = 4 -> bytes_ok src -> bytes_ok dst -> bytes_ok l ->
  8 <= length <= zlen l -> is_u16 length ->
  is_u32 (total src dst l length) /\
  packet_checksum l length src dst =
  if negb (inet_complement (total src dst l length) =? 0)
  then inet_complement (total src dst l length) else 65535.
Proof.
  intros Hs Hd Hbs Hbd Hbl Hlen Hl. unfold packet_checksum, total, UDP_HEADER_SIZE.
  destruct (pseudo_sum_spec src dst 17 length) as [_ Hps]; [done..|lia|done|].
  set (p := pseudo_sum src dst 17 length) in *.
  assert (take (Z.to_nat length) l = take 8 l ++ take (Z.to_nat (length - 8)) (drop 8 l)) as Htk.
  { replace (Z.to_nat length) with (8 + Z.to_nat (length - 8))%nat by lia.
    by rewrite take_take_drop. }
  pose proof (word_sum_bounds (take (Z.to_nat length) l) ltac:(auto with bytes)) as Hb.
  assert (zlen (take (Z.to_nat length) l) = length) as Hz by len. rewrite Hz in Hb.
  assert (is_u32 (p + word_sum (take (Z.to_nat length) l))) as Ht by zlia. split; [done|].
  rewrite (wrap_small 16) by (widths; lia).
  rewrite (add_bytes_spec p), add_bytes_spec by
    (done || lia || (by apply wrap_range) || (auto with bytes) || len || (widths; lia)).
  change (Z.to_nat 8) with 8%nat.
  assert (Datatypes.length (take 8 l) = 8%nat) as H8 by len.
  rewrite wrap_add_l, <- Z.add_assoc, <- word_sum_app, <- Htk by (by rewrite H8).
  by rewrite (wrap_small 32 _ Ht).
Qed.

Lemma udp_wire_total src dst sport dport len c rest :
  is_u16 c -> 8 <= len ->
  total src dst (wire sport dport len c rest) len =
  total src dst (wire sport dport len 0 rest) len + c.
Proof.
  intros Hc Hl. unfold total, wire.
  replace (Z.to_nat len) with (8 + Z.to_nat (len - 8))%nat by lia. cbn [take app Nat.add].
  pose proof (word_sum_field [u8 (Z.shiftr sport 8); u8 sport; u8 (Z.shiftr dport 8); u8 dport;
   u8 (Z.shiftr len 8); u8 len] (take (Z.to_nat (len - 8)) rest) c eq_refl Hc) as Hf.
  simpl in *. change (u8 (Z.shiftr 0 8)) with 0. change (u8 0) with 0. lia.
Qed.

Lemma udp_wire_ok sport dport len c rest : bytes_ok rest -> bytes_ok (wire sport dport len c rest).
Proof. intros. unfold wire. simpl. auto 30 with bytes. Qed.

(** The checksum that the builder stores is not zero and verifies. *)
Lemma udp_checksum_wire src dst sport dport rest n :
  zlen src = 4 -> zlen dst = 4 -> bytes_ok src -> bytes_ok dst -> bytes_ok rest ->
  0 <= n <= zlen rest -> n <= 65527 ->
  let c := packet_checksum (wire sport dport (8 + n) 0 rest) (8 + n) src dst in
  is_u16 c /\ c <> 0 /\
  packet_checksum (wire sport dport (8 + n) c rest) (8 + n) src dst = 65535.
Proof.
  intros Hs Hd Hbs Hbd Hbr Hn Hmax. cbv zeta.
  assert (forall c, zlen (wire sport dport (8 + n) c rest) = 8 + zlen rest) as Hwl
    by (intros; unfold wire; len).
  pose proof (fun c => packet_checksum_spec (wire sport dport (8 + n) c rest) (8 + n) src dst
    Hs Hd Hbs Hbd (udp_wire_ok _ _ _ _ _ Hbr) ltac:(rewrite Hwl; lia) ltac:(widths; lia)) as Hspec.
  destruct (Hspec 0) as [H0 Hc0]. revert Hc0.
  generalize (packet_checksum (wire sport dport (8 + n) 0 rest) (8 + n) src dst). intros c Hc0.
  set (t := total src dst (wire sport dport (8 + n) 0 rest) (8 + n)) in *.
  assert (is_u16 c /\ c <> 0 /\
    (c = inet_complement t \/ (inet_complement t = 0 /\ c = 65535))) as (Hu & Hnz & Hcase).
  { pose proof (inet_complement_u16 t). rewrite Hc0. widths. case_if as E; lia. }
  split_and!; [done..|]. destruct (Hspec c) as [H1 ->].
  rewrite udp_wire_total in H1 |- * by (done || lia). fold t in H1 |- *.
  by rewrite (inet_complement_verify t c).
Qed.

(** ** Theorems *)

(** Parsing a built datagram between the same addresses succeeds and returns the
    ports and the payload; bytes behind the datagram are ignored. *)
Lemma udp_roundtrip packet capacity src dst sport dport pl plen extra :
  zlen src = 4 -> zlen dst = 4 -> bytes_ok src -> bytes_ok dst ->
  is_u16 sport -> is_u16 dport -> sport <> 0 -> dport <> 0 ->
  0 <= plen <= 65527 -> data_ok pl plen -> bytes_ok packet ->
  8 + plen <= capacity <= zlen packet -> 0 <= extra ->
  exists bytes v,
    udp_packet_build packet capacity src dst sport dport pl plen = Some (bytes, 8 + plen) /\
    udp_packet_parse bytes (8 + plen + extra) src dst = Some v /\
    source_port v = sport /\ destination_port v = dport /\ payload_length v = plen /\
    take (Z.to_nat plen) (payload v) = take (Z.to_nat plen) (data pl) /\
    bytes_ok bytes /\ zlen bytes = zlen packet.
Proof.
  intros Hs Hd Hbs Hbd Hsp Hdp Hsp0 Hdp0 Hpl Hdata Hbp Hcap Hex. pose proof Hdata as (Hb & Hlen & _).
  rewrite udp_build_bytes by done. eexists _, _. split; [done|].
  set (rest := take _ (data pl) ++ _).
  destruct (udp_checksum_wire src dst sport dport rest plen) as (Hu & Hnz & Hck);
    [done..|unfold rest; auto with bytes|unfold rest; len|lia|].
  set (c := packet_checksum (wire _ _ _ 0 _) _ _ _) in *.
  unfold udp_packet_parse, UDP_HEADER_SIZE.
  assert (load_be16 (wire sport dport (8 + plen) c rest) 0 = sport /\
          load_be16 (wire sport dport (8 + plen) c rest) 2 = dport /\
          load_be16 (wire sport dport (8 + plen) c rest) 4 = 8 + plen) as (-> & -> & ->).
  { unfold load_be16, wire. reads. rewrite !be16_roundtrip by (done || widths; lia). done. }
  rewrite Hck. replace (8 + plen + extra <? 8) with false by lia.
  replace (_ || _ || _ || _ || _) with false by (change (65535 =? 65535) with true; lia).
  rewrite (wrap_small 16 (8 + plen - 8)) by (widths; lia).
  split; [done|]. simpl. split_and!; try done; [lia| | |].
  - rewrite drop_0. unfold rest. by rewrite take_app_length' by len.
  - apply udp_wire_ok. unfold rest. auto with bytes.
  - unfold rest, wire. len.
Qed.

Lemma udp_parse_inv l n src dst v :
  udp_packet_parse l n src dst = Some v ->
  payload v = drop 8 l /\ 0 <= payload_length v <= n - 8 /\
  is_u16 (source_port v) /\ is_u16 (destination_port v).
Proof.
  unfold udp_packet_parse, UDP_HEADER_SIZE. case_if as E0; [done|]. case_if as E1; [done|].
  intros [= <-]. simpl. assert (is_u16 (load_be16 l 4)) by (by apply wrap_range).
  rewrite (wrap_small 16 (_ - 8)) by (widths; lia). split_and!; try done; try lia; by apply wrap_range.
Qed.

(** The parser reads no further than the packet's length. *)
Lemma udp_parse_agree l k n src dst v :
  agree n l k -> udp_packet_parse l n src dst = Some v ->
  udp_packet_parse k n src dst = Some {| source_port := source_port v;
    destination_port := destination_port v; payload := drop 8 k;
    payload_length := payload_length v |}.
Proof.
  intros H. unfold udp_packet_parse, UDP_HEADER_SIZE. case_if as E0; [done|].
  rewrite (load_be16_agree n l k 0), (load_be16_agree n l k 2), (load_be16_agree n l k 4),
    (load_be16_agree n l k 6) by (done || lia).
  set (len := load_be16 k 4). destruct ((len <? 8) || (n <? len)) eqn:E.
  { replace (_ || _) with true by lia. done. }
  assert (packet_checksum l len src dst = packet_checksum k len src dst) as ->.
  { unfold packet_checksum, UDP_HEADER_SIZE. rewrite (add_bytes_agree 8 l k) by
      (lia || (apply (agree_le n); [done|lia])).
    assert (is_u16 len) by (by apply wrap_range). rewrite (wrap_small 16 (len - 8)) by (widths; lia).
    rewrite (add_bytes_agree (len - 8) (drop 8 l) (drop 8 k)); [done| |lia].
    apply (agree_drop len 8); [lia|]. apply (agree_le n); [done|lia]. }
  case_if as E1; [done|]. intros [= <-]. done.
Qed.

(** ** Examples *)

Lemma udp_roundtrip_witness :
  exists bytes v,
    udp_packet_build (replicate 32 0) 32 [10; 0; 0; 1] [10; 0; 0; 2] 4000 53
      (Some [1; 2; 3]) 3 = Some (bytes, 11) /\
    udp_packet_parse bytes 16 [10; 0; 0; 1] [10; 0; 0; 2] = Some v /\
    source_port v = 4000 /\ payload_length v = 3.
Proof.
  destruct (udp_roundtrip (replicate 32 0) 32 [10; 0; 0; 1] [10; 0; 0; 2] 4000 53
    (Some [1; 2; 3]) 3 5) as (bytes & v & Hb & Hp & Hs & _ & Hl & _); [concrete..|].
  by exists bytes, v.
Defined.

End Udp.
