(* ===== verification/Tcp.v ===== *)
(** * TCP segments and connections (kernel/drivers/network/tcp.c)

    The segment codec, and the connection state machine with its retransmission
    buffer.  A connection is the record of tcp.h; an operation that returns 0
    without touching the connection is modelled by [None] (or by [false] with
    the connection unchanged). *)

From S2P Require Import Prelude NetBytes.

Module Tcp.

Definition TCP_HEADER_SIZE : Z := 20.
Definition TCP_MAX_PACKET_SIZE : Z := 65535.
Definition TCP_FLAG_FIN : Z := 1.
Definition TCP_FLAG_SYN : Z := 2.
Definition TCP_FLAG_RST : Z := 4.
Definition TCP_FLAG_PSH : Z := 8.
Definition TCP_FLAG_ACK : Z := 16.
Definition TCP_FLAG_KNOWN : Z := 255.
Definition TCP_RETRANSMIT_MAX_SIZE : Z := 1500.
Definition TCP_RETRANSMIT_MAX_RETRIES : Z := 3.

Record tcp_segment_view_t := {
  source_port : Z;
  destination_port : Z;
  sequence : Z;
  acknowledgment : Z;
  data_offset : Z;
  flags : Z;
  window_ : Z;
  urgent : Z;
  payload : list Z;
  payload_length : Z;
}.

Definition checksum (packet : list Z) (length : Z) (src dst : list Z) : Z :=
  let sum := pseudo_sum src dst 6 length in
  let sum := add_bytes sum packet length in
  inet_complement sum.

(** [(flags & f) != 0] *)
Definition has (fl f : Z) : bool := negb (Z.land fl f =? 0).

(** [(flags & (SYN | FIN)) == (SYN | FIN)] *)
Definition syn_and_fin (fl : Z) : bool :=
  Z.land fl (Z.lor TCP_FLAG_SYN TCP_FLAG_FIN) =? Z.lor TCP_FLAG_SYN TCP_FLAG_FIN.

Definition tcp_segment_build (packet : list Z) (capacity : Z) (src dst : list Z)
    (sport dport seq ack fl window : Z) (pl : option (list Z)) (plen : Z)
    : option (list Z * Z) :=
  if (sport =? 0) || (dport =? 0) || has fl (Z.lnot TCP_FLAG_KNOWN) || syn_and_fin fl
     || (TCP_MAX_PACKET_SIZE - TCP_HEADER_SIZE <? plen)
     || (negb (plen =? 0) && bool_decide (pl = None)) then None
  else
    let length := u16 (TCP_HEADER_SIZE + plen) in
    if capacity <? length then None
    else
      let bytes := store_be16 packet 0 sport in
      let bytes := store_be16 bytes 2 dport in
      let bytes := store_be32 bytes 4 seq in
      let bytes := store_be32 bytes 8 ack in
      let bytes := bytes.[12 <- u8 (Z.shiftl 5 4)] in
      let bytes := bytes.[13 <- fl] in
      let bytes := store_be16 bytes 14 window in
      let bytes := store_be16 bytes 16 0 in
      let bytes := store_be16 bytes 18 0 in
      let bytes := copy_bytes bytes TCP_HEADER_SIZE (data pl) plen in
      let bytes := store_be16 bytes 16 (checksum bytes length src dst) in
      Some (bytes, length).

Definition tcp_segment_parse (bytes : list Z) (packet_length : Z) (src dst : list Z)
    : option tcp_segment_view_t :=
  if packet_length <? TCP_HEADER_SIZE then None
  else
    let data_offset_ := u8 (Z.shiftr (bytes.[12]) 4) in
    let fl := bytes.[13] in
    let header_length := u16 (data_offset_ * 4) in
    if (data_offset_ <? 5) || (packet_length <? header_length)
       || (load_be16 bytes 0 =? 0) || (load_be16 bytes 2 =? 0)
       || negb (Z.land (bytes.[12]) 15 =? 0) || syn_and_fin fl
       || negb (checksum bytes packet_length src dst =? 0) then None
    else Some {|
      source_port := load_be16 bytes 0; destination_port := load_be16 bytes 2;
      sequence := load_be32 bytes 4; acknowledgment := load_be32 bytes 8;
      data_offset := data_offset_; flags := fl;
      window_ := load_be16 bytes 14; urgent := load_be16 bytes 18;
      payload := drop (Z.to_nat header_length) bytes;
      payload_length := u16 (packet_length - header_length) |}.

(** ** Connections *)

Inductive tcp_connection_state_t :=
  | TCP_CONNECTION_CLOSED
  | TCP_CONNECTION_LISTEN
  | TCP_CONNECTION_SYN_SENT
  | TCP_CONNECTION_SYN_RECEIVED
  | TCP_CONNECTION_ESTABLISHED
  | TCP_CONNECTION_FIN_WAIT_1
  | TCP_CONNECTION_FIN_WAIT_2
  | TCP_CONNECTION_CLOSE_WAIT
  | TCP_CONNECTION_LAST_ACK
  | TCP_CONNECTION_TIME_WAIT.

#[export] Instance tcp_connection_state_eq_dec : EqDecision tcp_connection_state_t.
Proof. solve_decision. Defined.

Record tcp_connection_t := {
  state : tcp_connection_state_t;
  send_unacknowledged : Z;
  send_next : Z;
  receive_next : Z;
  window : Z;
  peer_window : Z;
  local_port : Z;
  remote_port : Z;
  retransmission_pending : Z;
  retransmission_retries : Z;
  retransmission_length : Z;
  retransmission_sequence_end : Z;
  retransmission_last_tick : Z;
  retransmission_segment : list Z;
}.

#[export] Instance eta_tcp_connection : Eta tcp_connection_t := fun c => {|
  state := state c; send_unacknowledged := send_unacknowledged c; send_next := send_next c;
  receive_next := receive_next c; window := window c; peer_window := peer_window c;
  local_port := local_port c; remote_port := remote_port c;
  retransmission_pending := retransmission_pending c;
  retransmission_retries := retransmission_retries c;
  retransmission_length := retransmission_length c;
  retransmission_sequence_end := retransmission_sequence_end c;
  retransmission_last_tick := retransmission_last_tick c;
  retransmission_segment := retransmission_segment c |}.

(** [endpoint_handle] is filled in by the endpoint layer. *)
Record tcp_connection_result_t := {
  endpoint_handle : Z;
  response_flags : Z;
  response_sequence : Z;
  response_acknowledgment : Z;
  accepted_payload : Z;
}.

#[export] Instance eta_tcp_connection_result : Eta tcp_connection_result_t := fun r => {|
  endpoint_handle := endpoint_handle r; response_flags := response_flags r;
  response_sequence := response_sequence r;
  response_acknowledgment := response_acknowledgment r;
  accepted_payload := accepted_payload r |}.

Definition result_zero : tcp_connection_result_t :=
  {| endpoint_handle := 0; response_flags := 0; response_sequence := 0;
     response_acknowledgment := 0; accepted_payload := 0 |}.

Definition tcp_connection_initialize (local_port_ window__ : Z) : tcp_connection_t :=
  {| state := TCP_CONNECTION_CLOSED; send_unacknowledged := 0; send_next := 0;
     receive_next := 0; window := window__; peer_window := window__;
     local_port := local_port_; remote_port := 0; retransmission_pending := 0;
     retransmission_retries := 0; retransmission_length := 0;
     retransmission_sequence_end := 0; retransmission_last_tick := 0;
     retransmission_segment := replicate (Z.to_nat TCP_RETRANSMIT_MAX_SIZE) 0 |}.

Abbreviation in_state c s := (bool_decide (state c = s)).

Definition tcp_connection_listen (c : tcp_connection_t) : bool * tcp_connection_t :=
  if (local_port c =? 0) || negb (in_state c TCP_CONNECTION_CLOSED) then (false, c)
  else (true, c<| state := TCP_CONNECTION_LISTEN |>).

Definition tcp_connection_open (c : tcp_connection_t) (seq rport : Z) : bool * tcp_connection_t :=
  if (local_port c =? 0) || (rport =? 0) || negb (in_state c TCP_CONNECTION_CLOSED) then (false, c)
  else (true, c<| remote_port := rport |><| send_next := u32 (seq + 1) |>
               <| send_unacknowledged := seq |><| state := TCP_CONNECTION_SYN_SENT |>).

(** The response that acknowledges what has been received so far. *)
Definition acknowledge (c : tcp_connection_t) : tcp_connection_result_t :=
  result_zero<| response_flags := TCP_FLAG_ACK |><| response_sequence := send_next c |>
             <| response_acknowledgment := receive_next c |>.

(** The last part of [tcp_connection_receive]: segments of a synchronised connection. *)
Definition receive_data (c : tcp_connection_t) (seg : tcp_segment_view_t)
    : option (tcp_connection_t * tcp_connection_result_t) :=
  if negb (in_state c TCP_CONNECTION_ESTABLISHED) && negb (in_state c TCP_CONNECTION_CLOSE_WAIT)
  then None
  else if negb (has (flags seg) TCP_FLAG_ACK) || (acknowledgment seg <? send_unacknowledged c)
          || (send_next c <? acknowledgment seg) then None
  else if negb (sequence seg =? receive_next c) then Some (c, acknowledge c)
  else
    let c := c<| send_unacknowledged := acknowledgment seg |><| peer_window := window_ seg |> in
    let c := if negb (retransmission_pending c =? 0)
                && (retransmission_sequence_end c <=? acknowledgment seg)
             then c<| retransmission_pending := 0 |> else c in
    let advance := u32 (payload_length seg + Z.b2z (has (flags seg) TCP_FLAG_FIN)) in
    let c := c<| receive_next := u32 (receive_next c + advance) |> in
    let c := if has (flags seg) TCP_FLAG_FIN
             then c<| state := TCP_CONNECTION_CLOSE_WAIT |> else c in
    Some (c, (acknowledge c)<| accepted_payload := payload_length seg |>).

Definition tcp_connection_receive (c : tcp_connection_t) (seg : tcp_segment_view_t)
    : option (tcp_connection_t * tcp_connection_result_t) :=
  if negb (destination_port seg =? local_port c)
     || (negb (remote_port c =? 0) && negb (source_port seg =? remote_port c)) then None
  else if has (flags seg) TCP_FLAG_RST then
    Some (c<| state := TCP_CONNECTION_CLOSED |>, result_zero<| response_flags := TCP_FLAG_RST |>)
  else if in_state c TCP_CONNECTION_LISTEN && has (flags seg) TCP_FLAG_SYN then
    let c := c<| remote_port := source_port seg |><| receive_next := u32 (sequence seg + 1) |>
              <| send_next := 1 |><| send_unacknowledged := 0 |>
              <| peer_window := window_ seg |><| state := TCP_CONNECTION_SYN_RECEIVED |> in
    Some (c, result_zero<| response_flags := Z.lor TCP_FLAG_SYN TCP_FLAG_ACK |>
                        <| response_sequence := 0 |>
                        <| response_acknowledgment := receive_next c |>)
  else if in_state c TCP_CONNECTION_SYN_SENT
          && (Z.land (flags seg) (Z.lor TCP_FLAG_SYN TCP_FLAG_ACK) =? Z.lor TCP_FLAG_SYN TCP_FLAG_ACK)
          && (acknowledgment seg =? send_next c) then
    if acknowledgment seg <? send_unacknowledged c then None
    else
      let c := c<| send_unacknowledged := send_next c |><| peer_window := window_ seg |>
                <| retransmission_pending := 0 |><| receive_next := u32 (sequence seg + 1) |>
                <| state := TCP_CONNECTION_ESTABLISHED |> in
      Some (c, acknowledge c)
  else if in_state c TCP_CONNECTION_SYN_RECEIVED && has (flags seg) TCP_FLAG_SYN
          && (u32 (sequence seg + 1) =? receive_next c) then
    Some (c, result_zero<| response_flags := Z.lor TCP_FLAG_SYN TCP_FLAG_ACK |>
                        <| response_sequence := send_unacknowledged c |>
                        <| response_acknowledgment := receive_next c |>)
  else if in_state c TCP_CONNECTION_SYN_RECEIVED && has (flags seg) TCP_FLAG_ACK
          && (acknowledgment seg =? send_next c) then
    Some (c<| send_unacknowledged := send_next c |><| peer_window := window_ seg |>
           <| retransmission_pending := 0 |><| state := TCP_CONNECTION_ESTABLISHED |>, result_zero)
  else if in_state c TCP_CONNECTION_FIN_WAIT_1 && has (flags seg) TCP_FLAG_ACK
          && (acknowledgment seg =? send_next c) then
    Some (c<| send_unacknowledged := send_next c |><| peer_window := window_ seg |>
           <| retransmission_pending := 0 |><| state := TCP_CONNECTION_FIN_WAIT_2 |>, result_zero)
  else if in_state c TCP_CONNECTION_FIN_WAIT_2 && has (flags seg) TCP_FLAG_FIN
          && (sequence seg =? receive_next c) then
    let c := c<| receive_next := u32 (receive_next c + 1) |>
              <| state := TCP_CONNECTION_TIME_WAIT |> in
    Some (c, acknowledge c)
  else if in_state c TCP_CONNECTION_LAST_ACK && has (flags seg) TCP_FLAG_ACK
          && (acknowledgment seg =? send_next c) then
    Some (c<| send_unacknowledged := send_next c |><| state := TCP_CONNECTION_CLOSED |>, result_zero)
  else receive_data c seg.

(** [segment] is the buffer the caller passes; its first [length] bytes are kept. *)
Definition tcp_connection_record_segment (c : tcp_connection_t) (segment : list Z) (length : Z)
    : bool * tcp_connection_t :=
  if (length =? 0) || (TCP_RETRANSMIT_MAX_SIZE <? length) then (false, c)
  else (true, c<| retransmission_segment := copy_bytes (retransmission_segment c) 0 segment length |>
               <| retransmission_length := length |><| retransmission_retries := 0 |>
               <| retransmission_last_tick := 0 |><| retransmission_pending := 1 |>).

(** Returns the code's result, the connection and what was written to [packet] and
    [packet_length], if anything. *)
Definition tcp_connection_build (c : tcp_connection_t) (src dst : list Z) (fl : Z)
    (pl : option (list Z)) (plen : Z) (packet : list Z) (capacity : Z)
    : bool * tcp_connection_t * option (list Z * Z) :=
  if (negb (in_state c TCP_CONNECTION_ESTABLISHED) && negb (in_state c TCP_CONNECTION_CLOSE_WAIT))
     || has fl (Z.lor TCP_FLAG_SYN TCP_FLAG_RST)
     || (TCP_RETRANSMIT_MAX_SIZE - TCP_HEADER_SIZE <? plen)
     || (negb (plen =? 0) && bool_decide (pl = None)) then (false, c, None)
  else
    let fl := if negb (plen =? 0) then Z.lor fl (Z.lor TCP_FLAG_ACK TCP_FLAG_PSH) else fl in
    let fl := if has fl TCP_FLAG_FIN then Z.lor fl TCP_FLAG_ACK else fl in
    let sequence_space := u32 (plen + Z.b2z (has fl TCP_FLAG_FIN)) in
    let outstanding := u32 (send_next c - send_unacknowledged c) in
    if (peer_window c <? sequence_space)
       || (u32 (peer_window c - sequence_space) <? outstanding) then (false, c, None)
    else
      let sequence := send_next c in
      match tcp_segment_build packet capacity src dst (local_port c) (remote_port c) sequence
              (receive_next c) fl (window c) pl plen with
      | None => (false, c, None)
      | Some (bytes, packet_length) =>
          let c := c<| send_next := u32 (send_next c + sequence_space) |> in
          let '(ok, c) := tcp_connection_record_segment c bytes packet_length in
          if negb ok then (false, c, Some (bytes, packet_length))
          else
            let c := c<| retransmission_sequence_end := send_next c |> in
            let c := if has fl TCP_FLAG_FIN then
                       c<| state := if in_state c TCP_CONNECTION_CLOSE_WAIT
                                    then TCP_CONNECTION_LAST_ACK else TCP_CONNECTION_FIN_WAIT_1 |>
                     else c in
            (true, c, Some (bytes, packet_length))
      end.

Definition tcp_connection_close (c : tcp_connection_t) : bool :=
  in_state c TCP_CONNECTION_ESTABLISHED || in_state c TCP_CONNECTION_CLOSE_WAIT.

(** Returns the connection, the caller's buffer and the length when a
    retransmission is due. *)
Definition tcp_connection_retransmit_due (c : tcp_connection_t) (now timeout : Z)
    (segment : list Z) (capacity : Z) : option (tcp_connection_t * list Z * Z) :=
  if (timeout =? 0) || (retransmission_pending c =? 0)
     || (capacity <? retransmission_length c)
     || (TCP_RETRANSMIT_MAX_RETRIES <=? retransmission_retries c)
     || (now <? retransmission_last_tick c)
     || (now - retransmission_last_tick c <? timeout) then None
  else
    let segment := copy_bytes segment 0 (retransmission_segment c) (retransmission_length c) in
    Some (c<| retransmission_last_tick := now |>
           <| retransmission_retries := u8 (retransmission_retries c + 1) |>,
          segment, retransmission_length c).

(** ** The codec *)

Definition wire (sport dport seq ack fl window c : Z) (rest : list Z) : list Z :=
  [u8 (Z.shiftr sport 8); u8 sport; u8 (Z.shiftr dport 8); u8 dport;
   u8 (Z.shiftr seq 24); u8 (Z.shiftr seq 16); u8 (Z.shiftr seq 8); u8 seq;
   u8 (Z.shiftr ack 24); u8 (Z.shiftr ack 16); u8 (Z.shiftr ack 8); u8 ack;
   80; fl; u8 (Z.shiftr window 8); u8 window]
  ++ u8 (Z.shiftr c 8) :: u8 c :: 0 :: 0 :: rest.

Lemma tcp_wire_ok sport dport seq ack fl window c rest :
  is_u8 fl -> bytes_ok rest -> bytes_ok (wire sport dport seq ack fl window c rest).
Proof. intros. unfold wire. simpl. auto 30 with bytes. Qed.

Lemma tcp_build_bytes packet capacity src dst sport dport seq ack fl window pl plen :
  sport <> 0 -> dport <> 0 -> is_u8 fl -> syn_and_fin fl = false ->
  0 <= plen <= 65515 -> data_ok pl plen -> 20 + plen <= capacity <= zlen packet ->
  let rest := take (Z.to_nat plen) (data pl) ++ drop (Z.to_nat plen) (drop 20 packet) in
  let c := checksum (wire sport dport seq ack fl window 0 rest) (20 + plen) src dst in
  tcp_segment_build packet capacity src dst sport dport seq ack fl window pl plen =
  Some (wire sport dport seq ack fl window c rest, 20 + plen).
Proof.
  intros Hsp Hdp Hfl Hsf Hpl Hdata Hcap. pose proof Hdata as (_ & Hlen & _).
  unfold tcp_segment_build, TCP_HEADER_SIZE, TCP_MAX_PACKET_SIZE.
  assert (has fl (Z.lnot TCP_FLAG_KNOWN) = false) as ->.
  { unfold has, TCP_FLAG_KNOWN. change 255 with (Z.ones 8). rewrite <- Z.ldiff_land.
    rewrite Z.ldiff_ones_r_low; [done|widths; lia|]. destruct (decide (fl = 0)) as [->|]; [done|].
    apply Z.log2_lt_pow2; widths; lia. }
  rewrite (data_ok_test pl plen), Hsf by done. replace (_ || _) with false by lia.
  rewrite (wrap_small 16 (20 + plen)) by (widths; lia). replace (capacity <? _) with false by lia.
  cbv zeta. assert (20 <= zlen packet) as Hp by lia.
  set (hdr := store_be16 (store_be16 _ 16 0) 18 0).
  assert (hdr = wire sport dport seq ack fl window 0 [] ++ drop 20 packet) as ->
    by (unfold hdr; by explode packet Hp 20%nat).
  rewrite copy_after; [reflexivity|done|lia|len].
Qed.

(** The total that the checksum covers. *)
Definition total (src dst l : list Z) (length : Z) : Z :=
  pseudo_sum src dst 6 length + word_sum (take (Z.to_nat length) l).

Lemma checksum_spec l length src dst :
  zlen src = 4 -> zlen dst = 4 -> bytes_ok src -> bytes_ok dst -> bytes_ok l ->
  0 <= length <= zlen l -> is_u16 length ->
  is_u32 (total src dst l length) /\
  checksum l length src dst = inet_complement (total src dst l length).
Proof.
  intros Hs Hd Hbs Hbd Hbl Hlen Hl. unfold checksum, total.
  destruct (pseudo_sum_spec src dst 6 length) as [_ Hps]; [done..|lia|done|].
  set (p := pseudo_sum src dst 6 length) in *.
  pose proof (word_sum_bounds (take (Z.to_nat length) l) ltac:(auto with bytes)) as Hb.
  assert (zlen (take (Z.to_nat length) l) = length) as Hz by len. rewrite Hz in Hb.
  assert (is_u32 (p + word_sum (take (Z.to_nat length) l))) as Ht by zlia. split; [done|].
  rewrite (add_bytes_spec p) by (done || (widths; lia)). by rewrite (wrap_small 32 _ Ht).
Qed.

Lemma tcp_wire_total src dst sport dport seq ack fl window c rest len :
  is_u16 c -> 20 <= len ->
  total src dst (wire sport dport seq ack fl window c rest) len =
  total src dst (wire sport dport seq ack fl window 0 rest) len + c.
Proof.
  intros Hc Hl. unfold total, wire.
  replace (Z.to_nat len) with (20 + Z.to_nat (len - 20))%nat by lia. cbn [take app Nat.add].
  set (r := take _ rest).
  pose proof (word_sum_field
    [u8 (Z.shiftr sport 8); u8 sport; u8 (Z.shiftr dport 8); u8 dport;
     u8 (Z.shiftr seq 24); u8 (Z.shiftr seq 16); u8 (Z.shiftr seq 8); u8 seq;
     u8 (Z.shiftr ack 24); u8 (Z.shiftr ack 16); u8 (Z.shiftr ack 8); u8 ack;
     80; fl; u8 (Z.shiftr window 8); u8 window] (0 :: 0 :: r) c eq_refl Hc) as Hf.
  cbn [app] in Hf. rewrite Hf. change (u8 (Z.shiftr 0 8)) with 0. change (u8 0) with 0. lia.
Qed.

(** The checksum that the builder stores verifies. *)
Lemma tcp_checksum_wire src dst sport dport seq ack fl window rest n :
  zlen src = 4 -> zlen dst = 4 -> bytes_ok src -> bytes_ok dst -> bytes_ok rest -> is_u8 fl ->
  0 <= n <= zlen rest -> n <= 65515 ->
  let c := checksum (wire sport dport seq ack fl window 0 rest) (20 + n) src dst in
  checksum (wire sport dport seq ack fl window c rest) (20 + n) src dst = 0.
Proof.
  intros Hs Hd Hbs Hbd Hbr Hfl Hn Hmax. cbv zeta.
  assert (forall c, zlen (wire sport dport seq ack fl window c rest) = 20 + zlen rest) as Hwl
    by (intros; unfold wire; len).
  pose proof (fun c => checksum_spec (wire sport dport seq ack fl window c rest) (20 + n) src dst
    Hs Hd Hbs Hbd (tcp_wire_ok _ _ _ _ _ _ _ _ Hfl Hbr) ltac:(rewrite Hwl; lia)
    ltac:(widths; lia)) as Hspec.
  destruct (Hspec 0) as [H0 Hc0]. revert Hc0.
  generalize (checksum (wire sport dport seq ack fl window 0 rest) (20 + n) src dst). intros c ->.
  set (t := total src dst (wire sport dport seq ack fl window 0 rest) (20 + n)) in *.
  destruct (Hspec (inet_complement t)) as [H1 ->].
  rewrite tcp_wire_total in H1 |- * by (lia || apply inet_complement_u16). fold t in H1 |- *.
  apply inet_complement_verify; [done..|by left].
Qed.

(** What parsing the built segment returns. *)
Lemma tcp_parse_wire src dst sport dport seq ack fl window rest n :
  zlen src = 4 -> zlen dst = 4 -> bytes_ok src -> bytes_ok dst -> bytes_ok rest -> is_u8 fl ->
  is_u16 sport -> is_u16 dport -> sport <> 0 -> dport <> 0 -> is_u32 seq -> is_u32 ack ->
  is_u16 window -> syn_and_fin fl = false -> 0 <= n <= zlen rest -> n <= 65515 ->
  let c := checksum (wire sport dport seq ack fl window 0 rest) (20 + n) src dst in
  tcp_segment_parse (wire sport dport seq ack fl window c rest) (20 + n) src dst =
  Some {| source_port := sport; destination_port := dport; sequence := seq;
          acknowledgment := ack; data_offset := 5; flags := fl; window_ := window;
          urgent := 0; payload := rest; payload_length := n |}.
Proof.
  intros Hs Hd Hbs Hbd Hbr Hfl Hsp Hdp Hsp0 Hdp0 Hseq Hack Hw Hsf Hn Hmax.
  pose proof (tcp_checksum_wire src dst sport dport seq ack fl window rest n) as Hck.
  cbv zeta in Hck |- *. specialize (Hck Hs Hd Hbs Hbd Hbr Hfl Hn Hmax).
  revert Hck. generalize (checksum (wire sport dport seq ack fl window 0 rest) (20 + n) src dst).
  intros c Hck. unfold tcp_segment_parse, TCP_HEADER_SIZE. rewrite Hck. clear Hck.
  unfold wire, load_be16, load_be32. reads. rewrite !be16_roundtrip, !be32_roundtrip by done.
  change (u8 (Z.shiftr 80 4)) with 5. change (u16 (5 * 4)) with 20. change (Z.land 80 15) with 0.
  cbv zeta. rewrite Hsf. replace (20 + n <? 20) with false by lia.
  replace (_ || _) with false by lia. do 2 f_equal. rewrite wrap_small; widths; lia.
Qed.

(** The parser reads no further than the packet's length. *)
Lemma tcp_parse_agree l k n src dst v :
  agree n l k -> tcp_segment_parse l n src dst = Some v ->
  tcp_segment_parse k n src dst =
  Some {| source_port := source_port v; destination_port := destination_port v;
          sequence := sequence v; acknowledgment := acknowledgment v; data_offset := data_offset v;
          flags := flags v; window_ := window_ v; urgent := urgent v;
          payload := drop (Z.to_nat (u16 (data_offset v * 4))) k;
          payload_length := payload_length v |}.
Proof.
  intros H. unfold tcp_segment_parse, TCP_HEADER_SIZE. case_if as E0; [done|].
  rewrite (load_be16_agree n l k 0), (load_be16_agree n l k 2), (load_be16_agree n l k 14),
    (load_be16_agree n l k 18), (load_be32_agree n l k 4), (load_be32_agree n l k 8),
    (H 12), (H 13) by (done || lia).
  assert (checksum l n src dst = checksum k n src dst) as ->.
  { unfold checksum. by rewrite (add_bytes_agree n l k) by (done || lia). }
  case_if as E1; [done|]. intros [= <-]. done.
Qed.

(** ** The state machine *)

(** The connection after an in-order segment. *)
Definition after_data (c : tcp_connection_t) (seg : tcp_segment_view_t) : tcp_connection_t :=
  c<| send_unacknowledged := acknowledgment seg |><| peer_window := window_ seg |>
   <| retransmission_pending :=
        if negb (retransmission_pending c =? 0)
           && (retransmission_sequence_end c <=? acknowledgment seg)
        then 0 else retransmission_pending c |>
   <| receive_next := u32 (receive_next c +
        u32 (payload_length seg + Z.b2z (has (flags seg) TCP_FLAG_FIN))) |>
   <| state := if has (flags seg) TCP_FLAG_FIN then TCP_CONNECTION_CLOSE_WAIT else state c |>.

(** The branches of [tcp_connection_receive], one rule each. *)
Inductive received (c : tcp_connection_t) (seg : tcp_segment_view_t)
    : tcp_connection_t -> tcp_connection_result_t -> Prop :=
  | rcv_reset :
      has (flags seg) TCP_FLAG_RST = true ->
      received c seg (c<| state := TCP_CONNECTION_CLOSED |>)
        (result_zero<| response_flags := TCP_FLAG_RST |>)
  | rcv_syn :
      state c = TCP_CONNECTION_LISTEN ->
      received c seg
        (c<| remote_port := source_port seg |><| receive_next := u32 (sequence seg + 1) |>
          <| send_next := 1 |><| send_unacknowledged := 0 |>
          <| peer_window := window_ seg |><| state := TCP_CONNECTION_SYN_RECEIVED |>)
        (result_zero<| response_flags := 18 |>
                    <| response_acknowledgment := u32 (sequence seg + 1) |>)
  | rcv_syn_ack :
      state c = TCP_CONNECTION_SYN_SENT -> acknowledgment seg = send_next c ->
      let c' := c<| send_unacknowledged := send_next c |><| peer_window := window_ seg |>
                 <| retransmission_pending := 0 |><| receive_next := u32 (sequence seg + 1) |>
                 <| state := TCP_CONNECTION_ESTABLISHED |> in
      received c seg c' (acknowledge c')
  | rcv_syn_again :
      state c = TCP_CONNECTION_SYN_RECEIVED ->
      received c seg c (result_zero<| response_flags := 18 |>
        <| response_sequence := send_unacknowledged c |>
        <| response_acknowledgment := receive_next c |>)
  | rcv_handshake_done :
      state c = TCP_CONNECTION_SYN_RECEIVED -> acknowledgment seg = send_next c ->
      received c seg
        (c<| send_unacknowledged := send_next c |><| peer_window := window_ seg |>
          <| retransmission_pending := 0 |><| state := TCP_CONNECTION_ESTABLISHED |>) result_zero
  | rcv_fin_acked :
      state c = TCP_CONNECTION_FIN_WAIT_1 -> acknowledgment seg = send_next c ->
      received c seg
        (c<| send_unacknowledged := send_next c |><| peer_window := window_ seg |>
          <| retransmission_pending := 0 |><| state := TCP_CONNECTION_FIN_WAIT_2 |>) result_zero
  | rcv_fin :
      state c = TCP_CONNECTION_FIN_WAIT_2 -> has (flags seg) TCP_FLAG_FIN = true ->
      sequence seg = receive_next c ->
      let c' := c<| receive_next := u32 (receive_next c + 1) |>
                 <| state := TCP_CONNECTION_TIME_WAIT |> in
      received c seg c' (acknowledge c')
  | rcv_last_ack :
      state c = TCP_CONNECTION_LAST_ACK -> acknowledgment seg = send_next c ->
      received c seg
        (c<| send_unacknowledged := send_next c |><| state := TCP_CONNECTION_CLOSED |>) result_zero
  | rcv_out_of_order :
      state c = TCP_CONNECTION_ESTABLISHED \/ state c = TCP_CONNECTION_CLOSE_WAIT ->
      sequence seg <> receive_next c -> received c seg c (acknowledge c)
  | rcv_data :
      state c = TCP_CONNECTION_ESTABLISHED \/ state c = TCP_CONNECTION_CLOSE_WAIT ->
      send_unacknowledged c <= acknowledgment seg <= send_next c ->
      sequence seg = receive_next c ->
      received c seg (after_data c seg)
        ((acknowledge (after_data c seg))<| accepted_payload := payload_length seg |>).

Lemma after_data_eq c seg :
  let c1 := c<| send_unacknowledged := acknowledgment seg |><| peer_window := window_ seg |> in
  let c2 := if negb (retransmission_pending c1 =? 0)
                && (retransmission_sequence_end c1 <=? acknowledgment seg)
            then c1<| retransmission_pending := 0 |> else c1 in
  let c3 := c2<| receive_next := u32 (receive_next c2 +
              u32 (payload_length seg + Z.b2z (has (flags seg) TCP_FLAG_FIN))) |> in
  (if has (flags seg) TCP_FLAG_FIN then c3<| state := TCP_CONNECTION_CLOSE_WAIT |> else c3) =
  after_data c seg.
Proof. cbv zeta. unfold after_data. simpl. split_ifs; done. Qed.

Lemma synchronised c :
  negb (in_state c TCP_CONNECTION_ESTABLISHED) && negb (in_state c TCP_CONNECTION_CLOSE_WAIT) = false ->
  state c = TCP_CONNECTION_ESTABLISHED \/ state c = TCP_CONNECTION_CLOSE_WAIT.
Proof. intros H. destruct (state c); auto; by vm_compute in H. Qed.

Lemma receive_data_inv c seg c' r :
  receive_data c seg = Some (c', r) -> received c seg c' r.
Proof.
  unfold receive_data. cbv zeta. rewrite after_data_eq.
  case_if as E0; [done|]. apply synchronised in E0. case_if as E1; [done|].
  case_if as E2; intros [= <- <-].
  - apply rcv_out_of_order; [done|]. clear -E2. lia.
  - apply rcv_data; [done|clear -E1; lia|clear -E2; lia].
Qed.

(** Take one branch of a cascade of guarded returns. *)
Ltac branch :=
  match goal with
  | |- (if ?b then _ else _) = _ -> _ => let E := fresh "E" in destruct b eqn:E; [|clear E]
  end.

Lemma receive_inv c seg c' r :
  tcp_connection_receive c seg = Some (c', r) -> received c seg c' r.
Proof.
  unfold tcp_connection_receive.
  repeat (branch; [try done; intros H; simplify_eq;
    repeat match goal with
    | H : _ && _ = true |- _ => apply andb_prop in H as [H ?]
    | H : bool_decide _ = true |- _ => apply bool_decide_eq_true in H
    end; try (econstructor; done || lia)|]).
  - revert H. branch; [done|]. intros H. simplify_eq. apply rcv_syn_ack; [done|]. by apply Z.eqb_eq.
  - apply receive_data_inv.
Qed.

(** A segment without payload. *)
Definition control (sport dport seq ack fl win : Z) : tcp_segment_view_t :=
  {| source_port := sport; destination_port := dport; sequence := seq; acknowledgment := ack;
     data_offset := 5; flags := fl; window_ := win; urgent := 0; payload := [];
     payload_length := 0 |}.

(** The segment that carries a response to the peer. *)
Definition reply (c : tcp_connection_t) (r : tcp_connection_result_t) : tcp_segment_view_t :=
  control (local_port c) (remote_port c) (response_sequence r) (response_acknowledgment r)
    (response_flags r) (window c).

(** What a connection may have gone through: any operations in any order, fed with
    arbitrary segments of the widths the parser produces. *)
Definition segment_ok (seg : tcp_segment_view_t) : Prop :=
  is_u16 (source_port seg) /\ source_port seg <> 0 /\ is_u32 (sequence seg) /\
  is_u32 (acknowledgment seg) /\ is_u16 (window_ seg) /\ is_u16 (payload_length seg).

Inductive tcp_step : tcp_connection_t -> tcp_connection_t -> Prop :=
  | step_listen c b c' : tcp_connection_listen c = (b, c') -> tcp_step c c'
  | step_open c seq rport b c' :
      is_u32 seq -> is_u16 rport -> tcp_connection_open c seq rport = (b, c') -> tcp_step c c'
  | step_receive c seg c' r :
      segment_ok seg -> tcp_connection_receive c seg = Some (c', r) -> tcp_step c c'
  | step_build c src dst fl pl plen packet capacity b c' out :
      is_u16 plen -> tcp_connection_build c src dst fl pl plen packet capacity = (b, c', out) ->
      tcp_step c c'
  | step_record c segment length b c' :
      is_u16 length -> tcp_connection_record_segment c segment length = (b, c') -> tcp_step c c'
  | step_retransmit c now timeout segment capacity c' segment' length :
      is_u64 now -> 
      tcp_connection_retransmit_due c now timeout segment capacity = Some (c', segment', length) ->
      tcp_step c c'.

Inductive tcp_reachable : tcp_connection_t -> Prop :=
  | reachable_init lport win :
      is_u16 lport -> is_u16 win -> tcp_reachable (tcp_connection_initialize lport win)
  | reachable_step c c' : tcp_reachable c -> tcp_step c c' -> tcp_reachable c'.

(** Widths, the retransmission buffer, and: whatever the sequence numbers, no more
    than 65535 of them are unacknowledged; outside CLOSED and LISTEN both ports are
    known. *)
Record conn_ok (c : tcp_connection_t) : Prop := {
  ok_una : is_u32 (send_unacknowledged c);
  ok_next : is_u32 (send_next c);
  ok_rcv : is_u32 (receive_next c);
  ok_peer_window : is_u16 (peer_window c);
  ok_outstanding : u32 (send_next c - send_unacknowledged c) <= 65535;
  ok_segment : zlen (retransmission_segment c) = TCP_RETRANSMIT_MAX_SIZE;
  ok_length : 0 <= retransmission_length c <= TCP_RETRANSMIT_MAX_SIZE;
  ok_retries : 0 <= retransmission_retries c <= TCP_RETRANSMIT_MAX_RETRIES;
  ok_ports : state c <> TCP_CONNECTION_CLOSED -> local_port c <> 0 /\
    (state c <> TCP_CONNECTION_LISTEN -> remote_port c <> 0);
}.

Lemma u32_ok x : is_u32 (u32 x).
Proof. by apply wrap_range. Qed.

(** Acknowledging up to [ack] between the two bounds leaves less outstanding. *)
Lemma outstanding_shrinks next una ack :
  is_u32 next -> is_u32 una -> una <= ack <= next ->
  u32 (next - una) <= 65535 -> u32 (next - ack) <= 65535.
Proof. intros. zlia. Qed.

#[local] Hint Resolve u32_ok : core.

Lemma conn_ok_receive c seg c' r :
  conn_ok c -> segment_ok seg -> tcp_connection_receive c seg = Some (c', r) -> conn_ok c'.
Proof.
  intros [Hu Hn Hr Hp Ho Hs Hl Hrt Hpt] (Hsp & Hsp0 & Hsq & Hak & Hw & Hpl) Hrcv%receive_inv.
  assert (forall s, state c = s -> s <> TCP_CONNECTION_CLOSED -> s <> TCP_CONNECTION_LISTEN ->
    local_port c <> 0 /\ remote_port c <> 0) as Hports
    by (intros s <- ? ?; split; [apply Hpt|apply Hpt]; done).
  destruct Hrcv; constructor; simpl; rewrite ?Z.sub_diag; try done;
    try (intros; edestruct Hports; by eauto).
  - intros _. split; [apply Hpt; congruence|done].
  - by apply (outstanding_shrinks _ (send_unacknowledged c)).
  - intros _. destruct_or!; destruct (Hports _ H); try done; by destruct (has _ _).
Qed.

Lemma conn_ok_record c segment length b c' :
  conn_ok c -> is_u16 length -> tcp_connection_record_segment c segment length = (b, c') ->
  conn_ok c'.
Proof.
  intros [Hu Hn Hr Hp Ho Hs Hl Hrt Hpt] Hlen. unfold tcp_connection_record_segment.
  case_if as E; intros [= <- <-]; constructor; simpl; try done.
  - by rewrite length_copy_bytes.
  - widths. lia.
Qed.

(** Sending [space] sequence numbers inside the peer's window. *)
Lemma outstanding_grows next una space pw :
  is_u32 next -> is_u32 una -> is_u32 space -> is_u16 pw ->
  space <= pw -> u32 (next - una) <= u32 (pw - space) ->
  u32 (u32 (next + space) - una) = u32 (next - una) + space /\
  u32 (u32 (next + space) - una) <= pw.
Proof. intros. assert (u32 (pw - space) = pw - space) as Heq by zlia. rewrite Heq in *. zlia. Qed.

Lemma segment_build_length packet capacity src dst sport dport seq ack fl win pl plen bytes n :
  tcp_segment_build packet capacity src dst sport dport seq ack fl win pl plen = Some (bytes, n) ->
  n = u16 (20 + plen).
Proof. unfold tcp_segment_build. cbv zeta. split_ifs; intros; by simplify_eq. Qed.

Lemma record_state c segment n b c' :
  tcp_connection_record_segment c segment n = (b, c') -> state c' = state c.
Proof. unfold tcp_connection_record_segment. case_if as E; by intros [= _ <-]. Qed.

Lemma conn_ok_build c src dst fl pl plen packet capacity b c' out :
  conn_ok c -> is_u16 plen ->
  tcp_connection_build c src dst fl pl plen packet capacity = (b, c', out) -> conn_ok c'.
Proof.
  intros Hok Hpl. unfold tcp_connection_build. cbv zeta.
  set (fl' := if has _ TCP_FLAG_FIN then _ else _).
  case_if as E0; [by intros [= _ <- _]|].
  set (space := u32 (plen + _)). case_if as E1; [by intros [= _ <- _]|].
  destruct (tcp_segment_build _ _ _ _ _ _ _ _ _ _ _ _) as [[bytes n]|] eqn:Hb;
    [|by intros [= _ <- _]].
  apply segment_build_length in Hb as ->.
  set (c1 := c<| send_next := u32 (send_next c + space) |>).
  assert (conn_ok c1) as Hok1.
  { destruct Hok. constructor; simpl; try done.
    destruct (outstanding_grows (send_next c) (send_unacknowledged c) space (peer_window c));
      [done..|by apply wrap_range|done|lia|lia|]. widths. lia. }
  destruct (tcp_connection_record_segment c1 _ _) as [ok c2] eqn:Hrec.
  pose proof (record_state _ _ _ _ _ Hrec) as Hst.
  apply conn_ok_record in Hrec; [|done|by apply wrap_range].
  apply orb_false_elim in E0 as [[[E0%synchronised _]%orb_false_elim _]%orb_false_elim _].
  destruct ok; simpl; [|by intros [= _ <- _]].
  destruct (has fl' TCP_FLAG_FIN); intros [= _ <- _]; destruct Hrec; constructor; simpl; try done.
  intros _. change (state c1) with (state c) in Hst. rewrite <- Hst in E0.
  assert (local_port c2 <> 0 /\ remote_port c2 <> 0) as [? ?]
    by (split; apply ok_ports0; destruct_or!; congruence). done.
Qed.

Lemma conn_ok_initialize lport win :
  is_u16 win -> conn_ok (tcp_connection_initialize lport win).
Proof. intros. by constructor. Qed.

Lemma conn_ok_step c c' : conn_ok c -> tcp_step c c' -> conn_ok c'.
Proof.
  intros Hok Hstep. destruct Hstep as [c b c' H|c seq rport b c' Hs Hr H|c seg c' r Hs H|
    c src dst fl pl plen packet capacity b c' out Hp H|c segment length b c' Hl H|
    c now timeout segment capacity c' segment' length Hn H].
  - revert H. unfold tcp_connection_listen. case_if as E; intros [= _ <-]; [done|].
    destruct Hok. constructor; simpl; try done. intros _. split; [lia|done].
  - revert H. unfold tcp_connection_open. case_if as E; intros [= _ <-]; [done|].
    destruct Hok. constructor; simpl; try done; [zlia|]. intros _. split; lia.
  - by eapply conn_ok_receive.
  - by eapply conn_ok_build.
  - by eapply conn_ok_record.
  - revert H. unfold tcp_connection_retransmit_due, TCP_RETRANSMIT_MAX_RETRIES.
    case_if as E; intros [= <- <- <-]. destruct Hok. constructor; simpl; try done.
    unfold TCP_RETRANSMIT_MAX_RETRIES in *. zlia.
Qed.

(** Building and parsing, for every field. *)
Lemma tcp_roundtrip packet capacity src dst sport dport seq ack fl win pl plen :
  zlen src = 4 -> zlen dst = 4 -> bytes_ok src -> bytes_ok dst ->
  is_u16 sport -> is_u16 dport -> sport <> 0 -> dport <> 0 ->
  is_u32 seq -> is_u32 ack -> is_u8 fl -> syn_and_fin fl = false -> is_u16 win ->
  0 <= plen <= 65515 -> data_ok pl plen -> bytes_ok packet ->
  20 + plen <= capacity <= zlen packet ->
  exists bytes v,
    tcp_segment_build packet capacity src dst sport dport seq ack fl win pl plen =
      Some (bytes, 20 + plen) /\
    tcp_segment_parse bytes (20 + plen) src dst = Some v /\
    source_port v = sport /\ destination_port v = dport /\ sequence v = seq /\
    acknowledgment v = ack /\ flags v = fl /\ window_ v = win /\ payload_length v = plen /\
    take (Z.to_nat plen) (payload v) = take (Z.to_nat plen) (data pl) /\
    bytes_ok bytes /\ zlen bytes = zlen packet.
Proof.
  intros Hs Hd Hbs Hbd Hsp Hdp Hsp0 Hdp0 Hsq Hak Hfl Hsf Hw Hpl Hdata Hbp Hcap.
  pose proof Hdata as (Hb & Hlen & _). rewrite tcp_build_bytes by done. eexists _, _.
  split; [done|]. rewrite tcp_parse_wire by (done || auto with bytes || len).
  split; [done|]. simpl. split_and!; try done.
  - by rewrite take_app_length' by len.
  - apply tcp_wire_ok; auto with bytes.
  - unfold wire. len.
Qed.

(** ** Theorems *)

(** C27. Every connection reachable by any sequence of operations and arbitrary incoming
    segments satisfies the invariant: never more than 65535 sequence numbers are
    unacknowledged, the retransmission buffer stays within bounds, at most three
    retries are counted, and every state but CLOSED and LISTEN knows both ports. *)
Theorem tcp_reachable_ok c : tcp_reachable c -> conn_ok c.
Proof.
  induction 1 as [lport win Hl Hw|c c' _ IH Hstep]; [by apply conn_ok_initialize|].
  by eapply conn_ok_step.
Qed.

(** ** Two peers *)

(** Both ends are established, know each other's ports, and everything sent has been
    received and acknowledged. *)
Record paired (a b : tcp_connection_t) : Prop := {
  pair_state : state a = TCP_CONNECTION_ESTABLISHED /\ state b = TCP_CONNECTION_ESTABLISHED;
  pair_ports : local_port a = remote_port b /\ remote_port a = local_port b;
  pair_next : receive_next b = send_next a /\ receive_next a = send_next b;
  pair_una : send_unacknowledged a = send_next a /\ send_unacknowledged b = send_next b;
}.

Lemma paired_sym a b : paired a b -> paired b a.
Proof. intros [[] [] [] []]. by constructor. Qed.

(** A segment of an established connection that acknowledges within the window and
    starts where the receiver expects it is taken. *)
Lemma receive_in_order c seg :
  state c = TCP_CONNECTION_ESTABLISHED ->
  destination_port seg = local_port c -> source_port seg = remote_port c ->
  has (flags seg) TCP_FLAG_RST = false -> has (flags seg) TCP_FLAG_ACK = true ->
  send_unacknowledged c <= acknowledgment seg <= send_next c ->
  sequence seg = receive_next c ->
  tcp_connection_receive c seg =
  Some (after_data c seg, (acknowledge (after_data c seg))<| accepted_payload := payload_length seg |>).
Proof.
  intros Hst Hd Hs Hrst Hack Hbnd Hseq. unfold tcp_connection_receive, receive_data.
  rewrite Hd, Hs, !Z.eqb_refl, Hst, Hrst, Hack. rewrite andb_false_r. cbn -[set_field acknowledge].
  rewrite Hseq, Z.eqb_refl. cbv zeta.
  replace (_ || _) with false by lia. change (negb true) with false. cbv iota.
  pose proof (after_data_eq c seg) as Heq. cbv zeta in Heq. by rewrite Heq.
Qed.

(** A segment that is not the next one is answered by an acknowledgment. *)
Lemma receive_out_of_order c seg :
  state c = TCP_CONNECTION_ESTABLISHED ->
  destination_port seg = local_port c -> source_port seg = remote_port c ->
  has (flags seg) TCP_FLAG_RST = false -> has (flags seg) TCP_FLAG_ACK = true ->
  send_unacknowledged c <= acknowledgment seg <= send_next c ->
  sequence seg <> receive_next c ->
  tcp_connection_receive c seg = Some (c, acknowledge c).
Proof.
  intros Hst Hd Hs Hrst Hack Hbnd Hseq. unfold tcp_connection_receive, receive_data.
  rewrite Hd, Hs, !Z.eqb_refl, Hst, Hrst, Hack. rewrite andb_false_r. cbn -[set_field acknowledge].
  replace (_ || _) with false by lia. by replace (sequence seg =? receive_next c) with false by lia.
Qed.

(** What [tcp_connection_build] does when the data fits the peer's window. *)
Lemma connection_build_ok c src dst pl plen packet capacity :
  conn_ok c -> state c = TCP_CONNECTION_ESTABLISHED ->
  is_u16 (local_port c) -> is_u16 (remote_port c) ->
  1 <= plen <= 1480 -> data_ok pl plen -> 20 + plen <= capacity <= zlen packet ->
  send_unacknowledged c = send_next c -> plen <= peer_window c ->
  exists bytes,
    tcp_segment_build packet capacity src dst (local_port c) (remote_port c) (send_next c)
      (receive_next c) 24 (window c) pl plen = Some (bytes, 20 + plen) /\
    tcp_connection_build c src dst 0 pl plen packet capacity =
    (true,
     c<| send_next := u32 (send_next c + plen) |>
      <| retransmission_segment := copy_bytes (retransmission_segment c) 0 bytes (20 + plen) |>
      <| retransmission_length := 20 + plen |><| retransmission_retries := 0 |>
      <| retransmission_last_tick := 0 |><| retransmission_pending := 1 |>
      <| retransmission_sequence_end := u32 (send_next c + plen) |>,
     Some (bytes, 20 + plen)).
Proof.
  intros Hok Hst Hlp Hrp Hpl Hdata Hcap Huna Hpw. destruct (ok_ports c Hok) as [Hl0 Hr0]; [congruence|].
  pose proof (ok_peer_window c Hok) as Hpw'. pose proof (ok_next c Hok) as Hn.
  eexists. split; [apply tcp_build_bytes; (done || lia || apply Hr0; congruence)|].
  unfold tcp_connection_build, tcp_connection_record_segment. rewrite Hst.
  rewrite (data_ok_test pl plen) by done.
  unfold TCP_RETRANSMIT_MAX_SIZE, TCP_HEADER_SIZE.
  change (has 0 (Z.lor TCP_FLAG_SYN TCP_FLAG_RST)) with false.
  rewrite (bool_decide_eq_true_2 (TCP_CONNECTION_ESTABLISHED = _)) by done. cbn [negb andb orb].
  replace (1500 - 20 <? plen) with false by lia. cbn [orb].
  replace (plen =? 0) with false by lia. cbn [negb]. cbv zeta.
  change (Z.lor 0 (Z.lor TCP_FLAG_ACK TCP_FLAG_PSH)) with 24.
  change (has 24 TCP_FLAG_FIN) with false. cbn [Z.b2z].
  rewrite Z.add_0_r, (wrap_small 32 plen) by (widths; lia). rewrite Huna, Z.sub_diag.
  rewrite (wrap_small 32 (peer_window c - plen)) by (widths; lia).
  change (u32 0) with 0. replace (_ || _) with false by lia.
  rewrite tcp_build_bytes by (done || lia || apply Hr0; congruence).
  replace (_ || _) with false by lia. done.
Qed.

(** ** Theorems on two peers *)

(** The three-way handshake: an opened client and a listening server that exchange
    the SYN and the responses the code computes end up paired, for every initial
    sequence number whose successor does not wrap. *)
Theorem tcp_handshake client server isn :
  state client = TCP_CONNECTION_CLOSED -> state server = TCP_CONNECTION_CLOSED ->
  local_port client <> 0 -> local_port server <> 0 -> remote_port server = 0 ->
  0 <= isn < U32_MAX ->
  exists c1 s1 s2 r2 c3 r3 s4 r4,
    tcp_connection_open client isn (local_port server) = (true, c1) /\
    tcp_connection_listen server = (true, s1) /\
    tcp_connection_receive s1
      (control (local_port client) (local_port server) isn 0 TCP_FLAG_SYN (window client)) =
      Some (s2, r2) /\
    tcp_connection_receive c1 (reply s2 r2) = Some (c3, r3) /\
    tcp_connection_receive s2 (reply c3 r3) = Some (s4, r4) /\
    paired c3 s4.
Proof.
  intros Hc Hs Hlc Hls Hrs Hisn. unfold tcp_connection_open, tcp_connection_listen.
  rewrite Hc, Hs. replace (local_port client =? 0) with false by lia.
  replace (local_port server =? 0) with false by lia. simpl.
  do 8 eexists. split; [done|]. split; [done|].
  unfold tcp_connection_receive at 1. simpl. rewrite Z.eqb_refl, Hrs. simpl. split; [done|].
  unfold tcp_connection_receive at 1. simpl. rewrite !Z.eqb_refl.
  rewrite (wrap_small 32 (isn + 1)) by (widths; lia). rewrite andb_false_r. simpl.
  replace (isn + 1 <? isn) with false by lia. split; [done|].
  unfold tcp_connection_receive. simpl. rewrite !Z.eqb_refl, andb_false_r. simpl. split; [done|].
  by constructor.
Qed.

(** One data exchange between paired connections: the sender builds a segment, the
    receiver takes its whole payload, the acknowledgment the receiver answers with
    clears the sender's retransmission buffer, and both are paired again. *)
Theorem tcp_transfer a b src dst pl plen packet capacity :
  conn_ok a -> conn_ok b -> paired a b ->
  is_u16 (local_port a) -> is_u16 (local_port b) -> is_u16 (window a) -> is_u16 (window b) ->
  zlen src = 4 -> zlen dst = 4 -> bytes_ok src -> bytes_ok dst -> bytes_ok packet ->
  1 <= plen <= 1480 -> data_ok pl plen -> 20 + plen <= capacity <= zlen packet ->
  plen <= peer_window a -> send_next a + plen <= U32_MAX ->
  exists a1 bytes v b1 rb a2 ra,
    tcp_connection_build a src dst 0 pl plen packet capacity = (true, a1, Some (bytes, 20 + plen)) /\
    tcp_segment_parse bytes (20 + plen) src dst = Some v /\
    tcp_connection_receive b v = Some (b1, rb) /\
    accepted_payload rb = plen /\
    take (Z.to_nat plen) (payload v) = take (Z.to_nat plen) (data pl) /\
    tcp_connection_receive a1 (reply b1 rb) = Some (a2, ra) /\
    retransmission_pending a2 = 0 /\ paired a2 b1 /\
    receive_next b1 = receive_next b + plen.
Proof.
  intros Ha Hb [[Sa Sb] [Pl Pr] [Nb Na] [Ua Ub]] Hla Hlb Hwa Hwb Hs Hd Hbs Hbd Hbp Hpl Hdata Hcap
    Hpw Hwrap.
  pose proof Hdata as (Hbd' & Hlen & _).
  destruct (ok_ports a Ha) as [Hl0 Hr0]; [congruence|]. specialize (Hr0 ltac:(congruence)).
  pose proof (ok_next a Ha) as Hn. pose proof (ok_rcv a Ha) as Hrc. pose proof (ok_next b Hb) as Hnb.
  destruct (connection_build_ok a src dst pl plen packet capacity) as (bytes & Hsb & Hbuild);
    [done || congruence..|].
  destruct (tcp_roundtrip packet capacity src dst (local_port a) (remote_port a) (send_next a)
    (receive_next a) 24 (window a) pl plen) as (bytes' & v & Hsb' & Hv & Vs & Vd & Vq & Va & Vf & Vw &
    Vl & Vp & _); [done || congruence || lia..|].
  rewrite Hsb in Hsb'. injection Hsb' as <-. rewrite Hbuild.
  pose proof (receive_in_order b v Sb ltac:(congruence) ltac:(congruence) ltac:(by rewrite Vf)
    ltac:(by rewrite Vf) ltac:(lia) ltac:(congruence)) as Hb1.
  set (b1 := after_data b v) in *.
  assert (receive_next b1 = receive_next b + plen) as Hb1n.
  { simpl. rewrite Vf. change (has 24 TCP_FLAG_FIN) with false. simpl.
    rewrite Vl, Z.add_0_r, (wrap_small 32 plen), Nb by (widths; lia). apply wrap_small. widths. lia. }
  assert (u32 (send_next a + plen) = send_next a + plen) as Hu by (apply wrap_small; widths; lia).
  pose proof Hb1n as Hb1n'. simpl in Hb1n'.
  eexists _, _, v, b1, _, _, _. split; [done|]. split; [done|]. split; [exact Hb1|].
  split; [done|]. split; [done|]. split.
  { apply receive_in_order; simpl; try congruence; try done. rewrite Hu, Hb1n'. lia. }
  simpl. rewrite Hu, Hb1n'. split_and!; try done.
  - by replace (_ <=? _) with true by lia.
  - constructor; simpl; rewrite ?Hu, ?Hb1n', ?Vf; try done; split; try lia.
    change (u32 (0 + 0)) with 0. rewrite Z.add_0_r, Na. by apply wrap_small.
Qed.

(** ** In-order delivery *)

(** The payload bytes taken while a list of segments arrives; a rejected segment
    changes nothing. *)
Fixpoint deliver (c : tcp_connection_t) (segs : list tcp_segment_view_t)
    : list Z * tcp_connection_t :=
  match segs with
  | [] => ([], c)
  | seg :: segs =>
      match tcp_connection_receive c seg with
      | None => deliver c segs
      | Some (c', r) =>
          let '(d, c'') := deliver c' segs in
          (take (Z.to_nat (accepted_payload r)) (payload seg) ++ d, c'')
      end
  end.

(** A data segment whose payload is the part of the stream that its sequence
    number names. *)
Definition honest (stream : Z -> Z) (seg : tcp_segment_view_t) : Prop :=
  has (flags seg) TCP_FLAG_RST = false /\ has (flags seg) TCP_FLAG_FIN = false /\
  is_u16 (payload_length seg) /\ payload_length seg <= zlen (payload seg) /\
  forall i, 0 <= i < payload_length seg -> (payload seg).[i] = stream (u32 (sequence seg + i)).

(** [d] is the part of the stream that starts at sequence number [n]. *)
Definition stream_slice (stream : Z -> Z) (n : Z) (d : list Z) : Prop :=
  forall i, 0 <= i < zlen d -> d.[i] = stream (u32 (n + i)).

Lemma stream_slice_app stream n d e :
  stream_slice stream n d -> stream_slice stream (u32 (n + zlen d)) e ->
  stream_slice stream n (d ++ e).
Proof.
  intros Hd He i Hi. unfold stream_slice, zlen in *. rewrite length_app in Hi.
  destruct (decide (i < Z.of_nat (length d))).
  - rewrite lookup_total_app_l by lia. apply Hd. lia.
  - rewrite lookup_total_app_r by lia.
    replace (Z.to_nat i - length d)%nat with (Z.to_nat (i - Z.of_nat (length d))) by lia.
    rewrite He by lia. rewrite wrap_add_l. do 2 f_equal. lia.
Qed.

Lemma received_established stream c seg c' r :
  state c = TCP_CONNECTION_ESTABLISHED -> is_u32 (receive_next c) -> honest stream seg ->
  tcp_connection_receive c seg = Some (c', r) ->
  let d := take (Z.to_nat (accepted_payload r)) (payload seg) in
  state c' = TCP_CONNECTION_ESTABLISHED /\ receive_next c' = u32 (receive_next c + zlen d) /\
  stream_slice stream (receive_next c) d.
Proof.
  intros Hst Hr (Hrst & Hfin & Hpl & Hlen & Hs) H%receive_inv.
  destruct H; try congruence; simpl.
  - split_and!; [done| |intros i Hi; unfold zlen in Hi; simpl in Hi; lia].
    change (zlen []) with 0. rewrite Z.add_0_r. by rewrite wrap_small.
  - rewrite Hfin. simpl. assert (zlen (take (Z.to_nat (payload_length seg)) (payload seg)) =
      payload_length seg) as Hz by (widths; len).
    split_and!; [done| |].
    + rewrite Hz, Z.add_0_r. f_equal. rewrite (wrap_small 32 (payload_length seg)); [done|].
      widths. lia.
    + intros i Hi. rewrite Hz in Hi. rewrite list_lookup_total_alt, lookup_take_lt by lia.
      rewrite <- list_lookup_total_alt, Hs by done. congruence.
Qed.

(** The connection has seen its peer's first sequence number. *)
Definition has_peer (c : tcp_connection_t) : Prop :=
  state c <> TCP_CONNECTION_LISTEN /\ state c <> TCP_CONNECTION_SYN_SENT.

(** In every later state an honest segment extends the stream or changes nothing. *)
Lemma received_stream stream c seg c' r :
  has_peer c -> is_u32 (receive_next c) -> honest stream seg ->
  tcp_connection_receive c seg = Some (c', r) ->
  let d := take (Z.to_nat (accepted_payload r)) (payload seg) in
  has_peer c' /\ receive_next c' = u32 (receive_next c + zlen d) /\
  stream_slice stream (receive_next c) d /\
  local_port c' = local_port c /\ remote_port c' = remote_port c /\
  0 <= accepted_payload r <= payload_length seg.
Proof.
  intros [Hl Hs] Hr (Hrst & Hfin & Hpl & Hlen & Hst) H%receive_inv.
  assert (u32 (receive_next c + zlen (@nil Z)) = receive_next c) as Hnil
    by (change (zlen []) with 0; rewrite Z.add_0_r; by apply wrap_small).
  assert (stream_slice stream (receive_next c) []) as Hsl
    by (intros i Hi; unfold zlen in Hi; simpl in Hi; lia).
  assert (0 <= payload_length seg) by (widths; lia).
  destruct H; try congruence; unfold has_peer; simpl; rewrite ?Hnil; try (split_and!; congruence || done).
  rewrite Hfin. simpl. assert (zlen (take (Z.to_nat (payload_length seg)) (payload seg)) =
    payload_length seg) as Hz by (widths; len).
  split_and!; try done.
  - rewrite Hz, Z.add_0_r. f_equal. rewrite (wrap_small 32 (payload_length seg)); [done|].
    widths. lia.
  - intros i Hi. rewrite Hz in Hi. rewrite list_lookup_total_alt, lookup_take_lt by lia.
    rewrite <- list_lookup_total_alt, Hst by done. congruence.
Qed.

(** C11. Whatever the order, duplication and loss of the peer's segments, what an
    established connection hands on is exactly the stream from the sequence number
    it expected, without gap or repetition. *)
Theorem tcp_in_order_delivery stream c segs :
  state c = TCP_CONNECTION_ESTABLISHED -> is_u32 (receive_next c) ->
  Forall (honest stream) segs ->
  let '(d, c') := deliver c segs in
  state c' = TCP_CONNECTION_ESTABLISHED /\
  receive_next c' = u32 (receive_next c + zlen d) /\
  stream_slice stream (receive_next c) d.
Proof.
  intros Hst Hr Hsegs. revert c Hst Hr. induction Hsegs as [|seg segs Hseg _ IH]; intros c Hst Hr; simpl.
  { split_and!; [done| |intros i Hi; unfold zlen in Hi; simpl in Hi; lia].
    change (zlen []) with 0. rewrite Z.add_0_r. by rewrite wrap_small. }
  destruct (tcp_connection_receive c seg) as [[c1 r]|] eqn:Hrcv; [|by apply IH].
  destruct (received_established stream c seg c1 r) as (Hst1 & Hr1 & Hs1); [done..|].
  specialize (IH c1 Hst1 ltac:(rewrite Hr1; apply u32_ok)).
  destruct (deliver c1 segs) as [d c2]. destruct IH as (Hst2 & Hr2 & Hs2). split_and!; [done| |].
  - rewrite Hr2, Hr1, wrap_add_l. f_equal. unfold zlen. rewrite length_app. lia.
  - apply stream_slice_app; [done|]. by rewrite <- Hr1.
Qed.

(** ** Retransmission *)

(** Polling for due retransmissions at the given times; the segments sent. *)
Fixpoint poll (c : tcp_connection_t) (timeout : Z) (buffer : list Z) (capacity : Z)
    (nows : list Z) : list (list Z) :=
  match nows with
  | [] => []
  | now :: nows =>
      match tcp_connection_retransmit_due c now timeout buffer capacity with
      | None => poll c timeout buffer capacity nows
      | Some (c', segment, n) =>
          take (Z.to_nat n) segment :: poll c' timeout buffer capacity nows
      end
  end.

(** Once a segment is recorded, polling at any times sends nothing but copies of
    it, at most three. *)
Theorem tcp_retransmission_bounded c segment n timeout buffer capacity nows :
  conn_ok c -> 1 <= n <= TCP_RETRANSMIT_MAX_SIZE -> n <= zlen segment -> n <= capacity <= zlen buffer ->
  let '(ok, c') := tcp_connection_record_segment c segment n in
  ok = true /\ (length (poll c' timeout buffer capacity nows) <= 3)%nat /\
  Forall (eq (take (Z.to_nat n) segment)) (poll c' timeout buffer capacity nows).
Proof.
  intros Hok Hn Hseg Hcap. unfold tcp_connection_record_segment.
  pose proof (ok_segment c Hok) as Hrs. unfold TCP_RETRANSMIT_MAX_SIZE in *.
  replace (_ || _) with false by lia. set (c' := _<| retransmission_pending := 1 |>).
  split; [done|].
  assert (forall c0, retransmission_length c0 = n -> 0 <= retransmission_retries c0 <= 3 ->
    zlen (retransmission_segment c0) = 1500 ->
    take (Z.to_nat n) (retransmission_segment c0) = take (Z.to_nat n) segment ->
    Z.of_nat (length (poll c0 timeout buffer capacity nows)) <= 3 - retransmission_retries c0 /\
    Forall (eq (take (Z.to_nat n) segment)) (poll c0 timeout buffer capacity nows)) as Hall.
  { clear c' Hok Hrs. induction nows as [|now nows IH]; intros c0 Hl Hr Hz Ht; simpl; [split; [lia|done]|].
    unfold tcp_connection_retransmit_due, TCP_RETRANSMIT_MAX_RETRIES. rewrite Hl.
    case_if as E; [by apply IH|].
    set (c1 := c0<| retransmission_last_tick := now |>
                 <| retransmission_retries := u8 (retransmission_retries c0 + 1) |>).
    assert (retransmission_retries c1 = retransmission_retries c0 + 1) as Hr1
      by (simpl; apply wrap_small; widths; lia).
    destruct (IH c1) as [Hlen Hfa]; [done|lia|done..|]. split; [simpl; lia|].
    constructor; [|done]. rewrite copy_bytes_spec by lia. simpl. rewrite <- Ht.
    by rewrite take_app_length' by len. }
  destruct (Hall c') as [Hlen Hfa]; [done..|simpl; lia| | |].
  - simpl. by rewrite length_copy_bytes.
  - simpl. rewrite copy_bytes_spec by lia. simpl. by rewrite take_app_length' by len.
  - split; [simpl in Hlen; lia|done].
Qed.

(** ** What the state machine does not get right *)

(** C36. Sequence numbers are compared as plain integers.  A connection opened with the
    last sequence number rejects every answer but a reset. *)
Theorem tcp_open_wrap_stuck c rport seg :
  state c = TCP_CONNECTION_CLOSED -> local_port c <> 0 -> rport <> 0 ->
  has (flags seg) TCP_FLAG_RST = false -> is_u32 (acknowledgment seg) ->
  let '(ok, c') := tcp_connection_open c U32_MAX rport in
  ok = true /\ tcp_connection_receive c' seg = None.
Proof.
  intros Hst Hl Hr Hrst Hak. unfold tcp_connection_open. rewrite Hst.
  replace (local_port c =? 0) with false by lia. replace (rport =? 0) with false by lia.
  split; [done|]. unfold tcp_connection_receive, receive_data. simpl. rewrite Hrst.
  case_if as E0; [done|]. case_if as E1; [|done]. 
  change (u32 (U32_MAX + 1)) with 0 in E1. by replace (_ <? _) with true by (unfold U32_MAX; lia).
Qed.

(** A pure acknowledgment is itself answered by an acknowledgment, so two paired
    connections keep answering each other: the answer leaves them paired and calls
    for the next one. *)
Theorem tcp_acknowledgment_loop a b :
  is_u32 (receive_next b) -> paired a b ->
  exists b' r,
    tcp_connection_receive b (reply a (acknowledge a)) = Some (b', r) /\
    response_flags r = TCP_FLAG_ACK /\ reply b' r = reply b' (acknowledge b') /\
    receive_next b' = receive_next b /\ paired b' a.
Proof.
  intros Hr [[Sa Sb] [Pl Pr] [Nb Na] [Ua Ub]].
  assert (u32 (receive_next b + u32 (0 + 0)) = receive_next b) as Hz.
  { change (u32 (0 + 0)) with 0. rewrite Z.add_0_r. by apply wrap_small. }
  eexists _, _. split; [apply receive_in_order; simpl; try congruence; try done; lia|].
  split; [done|]. split; [done|]. split; [done|].
  constructor; simpl; rewrite ?Hz; try done; split; congruence.
Qed.

(** ** Examples *)

(** Two established ends that have exchanged nothing but their handshake. *)
Definition example_a : tcp_connection_t :=
  (tcp_connection_initialize 4000 4096)<| state := TCP_CONNECTION_ESTABLISHED |>
    <| remote_port := 80 |><| send_next := 101 |><| send_unacknowledged := 101 |>
    <| receive_next := 1 |>.
Definition example_b : tcp_connection_t :=
  (tcp_connection_initialize 80 8192)<| state := TCP_CONNECTION_ESTABLISHED |>
    <| remote_port := 4000 |><| send_next := 1 |><| send_unacknowledged := 1 |>
    <| receive_next := 101 |>.

Lemma tcp_example_ok : conn_ok example_a /\ conn_ok example_b /\ paired example_a example_b.
Proof. split_and!; constructor; vm_compute; intuition congruence. Qed.

Lemma tcp_roundtrip_witness :
  exists bytes v,
    tcp_segment_build (replicate 40 0) 40 [10; 0; 0; 1] [10; 0; 0; 2] 4000 80 100 7 24 4096
      (Some [1; 2; 3]) 3 = Some (bytes, 23) /\
    tcp_segment_parse bytes 23 [10; 0; 0; 1] [10; 0; 0; 2] = Some v /\ sequence v = 100.
Proof.
  destruct (tcp_roundtrip (replicate 40 0) 40 [10; 0; 0; 1] [10; 0; 0; 2] 4000 80 100 7 24 4096
    (Some [1; 2; 3]) 3) as (bytes & v & Hb & Hp & _ & _ & Hs & _); [concrete..|].
  by exists bytes, v.
Defined.

Lemma tcp_reachable_witness :
  exists c, tcp_reachable c /\ state c = TCP_CONNECTION_LISTEN /\ conn_ok c.
Proof.
  exists (tcp_connection_listen (tcp_connection_initialize 80 4096)).2.
  assert (tcp_reachable (tcp_connection_listen (tcp_connection_initialize 80 4096)).2) as Hr.
  { apply (reachable_step (tcp_connection_initialize 80 4096)); [constructor; concrete|].
    by apply (step_listen _ true). }
  split; [exact Hr|]. split; [done|]. apply (tcp_reachable_ok _ Hr).
Defined.

Lemma tcp_handshake_witness :
  exists c s, paired c s /\ send_next c = 101 /\ local_port s = 80.
Proof.
  destruct (tcp_handshake (tcp_connection_initialize 4000 4096) (tcp_connection_initialize 80 4096)
    100) as (c1 & s1 & s2 & r2 & c3 & r3 & s4 & r4 & E1 & E2 & E3 & E4 & E5 & Hp); [concrete..|].
  exists c3, s4. split; [exact Hp|]. vm_compute in E1, E2. injection E1 as <-. injection E2 as <-.
  vm_compute in E3. injection E3 as <- <-. vm_compute in E4. injection E4 as <- <-.
  vm_compute in E5. injection E5 as <- <-. done.
Defined.

Lemma tcp_transfer_witness :
  exists a b, paired a b /\ receive_next b = 104 /\ retransmission_pending a = 0.
Proof.
  destruct tcp_example_ok as (Ha & Hb & Hp).
  destruct (tcp_transfer example_a example_b [10; 0; 0; 1] [10; 0; 0; 2] (Some [1; 2; 3]) 3
    (replicate 40 0) 40 Ha Hb Hp)
    as (a1 & bytes & v & b1 & rb & a2 & ra & _ & _ & _ & _ & _ & _ & Hz & Hp' & Hn); [concrete..|].
  exists a2, b1. split; [exact Hp'|]. split; [exact Hn|exact Hz].
Defined.

(** Two segments of a stream, the second arriving first and again last. *)
Definition example_segment (seq : Z) (bytes : list Z) : tcp_segment_view_t :=
  {| source_port := 4000; destination_port := 80; sequence := seq; acknowledgment := 1;
     data_offset := 5; flags := TCP_FLAG_ACK; window_ := 4096; urgent := 0; payload := bytes;
     payload_length := zlen bytes |}.

Lemma tcp_in_order_delivery_witness :
  receive_next (deliver example_b [example_segment 102 [102; 103]; example_segment 101 [101];
    example_segment 102 [102; 103]]).2 = 104.
Proof.
  assert (Forall (honest (fun n => n)) [example_segment 102 [102; 103]; example_segment 101 [101];
    example_segment 102 [102; 103]]) as Hh.
  { repeat constructor; try done; intros i Hi; simpl in Hi.
    1, 3: assert (i = 0 \/ i = 1) as [-> | ->] by (unfold zlen in Hi; simpl in Hi; lia); done.
    assert (i = 0) as -> by (unfold zlen in Hi; simpl in Hi; lia). done. }
  pose proof (tcp_in_order_delivery (fun n => n) example_b _ eq_refl ltac:(done) Hh) as H.
  destruct (deliver _ _) as [d c'] eqn:E. destruct H as (_ & Hr & _). simpl. rewrite Hr.
  vm_compute in E.
  by injection E as <- <-.
Defined.

Lemma tcp_retransmission_witness :
  Nat.le (length (poll (tcp_connection_record_segment example_a [1; 2; 3] 3).2 10 (replicate 20 0)
     20 [10; 15; 20; 30; 40; 50])) 3.
Proof.
  destruct tcp_example_ok as (Ha & _).
  pose proof (tcp_retransmission_bounded example_a [1; 2; 3] 3 10 (replicate 20 0) 20
    [10; 15; 20; 30; 40; 50] Ha ltac:(concrete) ltac:(concrete) ltac:(concrete)) as H.
  destruct (tcp_connection_record_segment _ _ _) as [ok c']. apply H.
Defined.

Lemma tcp_open_wrap_witness :
  tcp_connection_receive
    (tcp_connection_open (tcp_connection_initialize 4000 4096) U32_MAX 80).2
    (control 80 4000 0 0 18 4096) = None.
Proof.
  pose proof (tcp_open_wrap_stuck (tcp_connection_initialize 4000 4096) 80
    (control 80 4000 0 0 18 4096) eq_refl ltac:(done) ltac:(done) eq_refl ltac:(concrete)) as H.
  destruct (tcp_connection_open _ _ _) as [ok c']. apply H.
Defined.

Lemma tcp_acknowledgment_loop_witness :
  exists b' r, tcp_connection_receive example_b (reply example_a (acknowledge example_a)) = Some (b', r) /\
    response_flags r = TCP_FLAG_ACK.
Proof.
  destruct tcp_example_ok as (_ & _ & Hp).
  destruct (tcp_acknowledgment_loop example_a example_b ltac:(concrete) Hp)
    as (b' & r & H1 & H2 & _). by exists b', r.
Defined.

End Tcp.
