(* ===== verification/PacketQueue.v ===== *)
(** * The receive queue of the network driver (kernel/drivers/network/packet_queue.c)

    A ring of 16 frames between the driver and the protocol code.  Every operation
    runs under the queue's lock and is one atomic step. *)

From S2P Require Import Prelude Ring NetBytes Link.

Module PacketQueue.
Import Ethernet.

Definition NETWORK_PACKET_QUEUE_CAPACITY : Z := 16.

Record network_packet_t := { length : Z; bytes : list Z }.

#[export] Instance network_packet_inhabited : Inhabited network_packet_t :=
  populate {| length := 0; bytes := [] |}.

Record network_packet_queue_t := {
  packets : list network_packet_t;
  head : Z;
  tail : Z;
  count : Z;
  dropped : Z;
}.

#[export] Instance eta_network_packet_queue : Eta network_packet_queue_t := fun q =>
  {| packets := packets q; head := head q; tail := tail q; count := count q;
     dropped := dropped q |}.

Definition network_packet_queue_initialize (q : network_packet_queue_t) : network_packet_queue_t :=
  q<| head := 0 |><| tail := 0 |><| count := 0 |><| dropped := 0 |>.

Definition network_packet_queue_push (q : network_packet_queue_t) (packet : list Z) (n : Z)
    : bool * network_packet_queue_t :=
  if (n <? ETHERNET_MIN_FRAME_SIZE) || (ETHERNET_MAX_FRAME_SIZE <? n) then (false, q)
  else if count q =? NETWORK_PACKET_QUEUE_CAPACITY then
    (false, q<| dropped := u32 (dropped q + 1) |>)
  else
    let entry := (packets q).[tail q] in
    let entry := {| length := n; bytes := copy_bytes (bytes entry) 0 packet n |} in
    (true, q<| packets := (packets q).[tail q <- entry] |>
            <| tail := u32 (tail q + 1) mod NETWORK_PACKET_QUEUE_CAPACITY |>
            <| count := u32 (count q + 1) |>).

(** Returns the caller's buffer and the length when a packet was taken. *)
Definition network_packet_queue_pop (q : network_packet_queue_t) (packet : list Z) (capacity : Z)
    : option (list Z * Z) * network_packet_queue_t :=
  if capacity <? ETHERNET_MIN_FRAME_SIZE then (None, q)
  else if (count q =? 0) || (capacity <? length ((packets q).[head q])) then (None, q)
  else
    let entry := (packets q).[head q] in
    let destination := copy_bytes packet 0 (bytes entry) (length entry) in
    (Some (destination, length entry),
     q<| head := u32 (head q + 1) mod NETWORK_PACKET_QUEUE_CAPACITY |>
      <| count := u32 (count q - 1) |>).

Definition network_packet_queue_count (q : network_packet_queue_t) : Z := count q.
Definition network_packet_queue_dropped (q : network_packet_queue_t) : Z := dropped q.

(** ** Invariant and abstraction *)

Definition entry_ok (e : network_packet_t) : Prop :=
  zlen (bytes e) = ETHERNET_MAX_FRAME_SIZE /\
  0 <= length e <= ETHERNET_MAX_FRAME_SIZE.

Record queue_ok (q : network_packet_queue_t) : Prop := {
  ok_ring : ring_ok 16 (packets q) (head q) (tail q) (count q);
  ok_entries : Forall entry_ok (packets q);
}.

Definition frame_of (e : network_packet_t) : list Z := take (Z.to_nat (length e)) (bytes e).

(** The frames in the queue, oldest first. *)
Definition contents (q : network_packet_queue_t) : list (list Z) :=
  frame_of <$> ring_list 16 (packets q) (head q) (count q).

(** ** The specification: a FIFO of at most 16 frames *)

Inductive op := Push (packet : list Z) (n : Z) | Pop (packet : list Z) (capacity : Z).
Inductive answer := Pushed (ok : bool) | Popped (frame : option (list Z)).

Definition spec_step (o : op) (l : list (list Z)) : answer * list (list Z) :=
  match o with
  | Push packet n =>
      if (60 <=? n) && (n <=? 1518) && (zlen l <? 16)
      then (Pushed true, l ++ [take (Z.to_nat n) packet]) else (Pushed false, l)
  | Pop packet capacity =>
      match l with
      | frame :: l' =>
          if (60 <=? capacity) && (zlen frame <=? capacity)
          then (Popped (Some frame), l') else (Popped None, l)
      | [] => (Popped None, l)
      end
  end.

Definition impl_step (o : op) (q : network_packet_queue_t) : answer * network_packet_queue_t :=
  match o with
  | Push packet n =>
      let '(b, q') := network_packet_queue_push q packet n in (Pushed b, q')
  | Pop packet capacity =>
      let '(r, q') := network_packet_queue_pop q packet capacity in
      (Popped ((fun '(buf, n) => take (Z.to_nat n) buf) <$> r), q')
  end.

Fixpoint run {S} (step : op -> S -> answer * S) (ops : list op) (s : S) : list answer :=
  match ops with
  | [] => []
  | o :: ops => let '(a, s') := step o s in a :: run step ops s'
  end.

(** What the callers guarantee: the buffers are as long as they say. *)
Definition op_ok (o : op) : Prop :=
  match o with
  | Push packet n => is_u16 n /\ n <= zlen packet
  | Pop packet capacity => is_u16 capacity /\ capacity <= zlen packet
  end.

(** ** Lemmas *)

Lemma contents_length q : queue_ok q -> zlen (contents q) = count q.
Proof.
  intros [(_ & _ & Hc & _) _]. unfold contents, zlen. rewrite length_fmap.
  apply (ring_list_length 16). lia.
Qed.

Lemma push_refines q packet n :
  queue_ok q -> op_ok (Push packet n) ->
  let '(b, q') := network_packet_queue_push q packet n in
  queue_ok q' /\ spec_step (Push packet n) (contents q) = (Pushed b, contents q').
Proof.
  intros Hok [Hn Hlen]. pose proof (contents_length q Hok) as Hcl.
  destruct Hok as [Hr He]. pose proof Hr as (Hpl & Hh & Hc & Ht).
  unfold network_packet_queue_push, spec_step, ETHERNET_MIN_FRAME_SIZE, ETHERNET_MAX_FRAME_SIZE,
    NETWORK_PACKET_QUEUE_CAPACITY. rewrite Hcl.
  case_if as E0; [split; [done|]; by replace (_ && _) with false by lia|].
  case_if as E1; [split; [done|]; by replace (_ && _) with false by lia|].
  replace (_ && _) with true by lia.
  pose proof (Z.mod_pos_bound (head q + count q) 16).
  assert (entry_ok ((packets q).[tail q])) as [Hb _].
  { eapply Forall_lookup_1; [exact He|]. apply arr_lookup. lia. }
  set (e := {| length := n; bytes := _ |}).
  destruct (ring_push 16 ltac:(lia) (packets q) (head q) (tail q) (count q) e Hr ltac:(lia))
    as [Hr' Hl']. rewrite !(wrap_small 32) by (widths; lia). split.
  - split; [done|]. apply Forall_insert; [done|]. split; simpl; [by rewrite length_copy_bytes|].
    unfold ETHERNET_MAX_FRAME_SIZE. lia.
  - do 2 f_equal. unfold contents. simpl. rewrite Hl', fmap_app. do 2 f_equal. unfold frame_of. simpl.
    unfold ETHERNET_MAX_FRAME_SIZE in *. rewrite copy_bytes_spec by lia. simpl.
    by rewrite take_app_length' by len.
Qed.

Lemma pop_refines q packet capacity :
  queue_ok q -> op_ok (Pop packet capacity) ->
  let '(r, q') := network_packet_queue_pop q packet capacity in
  queue_ok q' /\
  spec_step (Pop packet capacity) (contents q) =
    (Popped ((fun '(buf, n) => take (Z.to_nat n) buf) <$> r), contents q').
Proof.
  intros Hok [Hn Hlen]. pose proof (contents_length q Hok) as Hcl.
  destruct Hok as [Hr He]. pose proof Hr as (Hpl & Hh & Hc & Ht).
  unfold network_packet_queue_pop, ETHERNET_MIN_FRAME_SIZE, NETWORK_PACKET_QUEUE_CAPACITY.
  destruct (decide (count q = 0)) as [Hz|Hz].
  { assert (contents q = []) as Hnil
      by (apply nil_length_inv; unfold zlen in Hcl; lia).
    unfold spec_step. rewrite Hz, Hnil. simpl. case_if as E0; by rewrite <- Hnil. }
  destruct (ring_pop 16 ltac:(lia) (packets q) (head q) (tail q) (count q) Hr ltac:(lia))
    as [Hr' Hl'].
  set (e := (packets q).[head q]) in *.
  assert (entry_ok e) as [Hb Hel].
  { eapply Forall_lookup_1; [exact He|]. apply arr_lookup. lia. }
  unfold ETHERNET_MAX_FRAME_SIZE in *.
  assert (zlen (frame_of e) = length e) as Hfe by (unfold frame_of; len).
  unfold spec_step. unfold contents at 1. rewrite Hl', fmap_cons.
  case_if as E0; [by replace (_ && _) with false by lia|].
  replace (count q =? 0) with false by lia. case_if as E1; simpl in E1.
  { replace (_ && _) with false by lia. done. }
  replace (_ && _) with true by lia. rewrite !(wrap_small 32) by (widths; lia).
  split; [done|]. simpl. do 3 f_equal. rewrite copy_bytes_spec by lia. simpl.
  unfold frame_of. by rewrite take_app_length' by len.
Qed.

(** Taking the oldest frame, with the caller's buffer. *)
Lemma pop_frame q packet capacity f rest :
  queue_ok q -> contents q = f :: rest -> 60 <= capacity <= zlen packet -> zlen f <= capacity ->
  exists q', network_packet_queue_pop q packet capacity =
      (Some (f ++ drop (Z.to_nat (zlen f)) packet, zlen f), q') /\
    queue_ok q' /\ contents q' = rest.
Proof.
  intros Hok Hc Hcap Hf. pose proof (contents_length q Hok) as Hcl. rewrite Hc in Hcl.
  destruct Hok as [Hr He]. pose proof Hr as (Hpl & Hh & Hcb & Ht).
  assert (0 < count q) as Hpos by (unfold zlen in Hcl; simpl in Hcl; lia).
  destruct (ring_pop 16 ltac:(lia) (packets q) (head q) (tail q) (count q) Hr Hpos) as [Hr' Hl'].
  unfold contents in Hc. rewrite Hl', fmap_cons in Hc. injection Hc as Hf0 Hrest.
  set (e := (packets q).[head q]) in *.
  assert (entry_ok e) as [Hb Hel].
  { eapply Forall_lookup_1; [exact He|]. apply arr_lookup. lia. }
  unfold ETHERNET_MAX_FRAME_SIZE in *.
  assert (zlen f = length e) as Hfe by (rewrite <- Hf0; unfold frame_of; len).
  unfold network_packet_queue_pop, ETHERNET_MIN_FRAME_SIZE, NETWORK_PACKET_QUEUE_CAPACITY. fold e.
  replace (capacity <? 60) with false by lia. replace (_ || _) with false by lia.
  rewrite !(wrap_small 32) by (widths; lia). unfold frame_of in Hf0.
  eexists. split; [by rewrite copy_bytes_spec, Hfe, <- Hf0 by lia|]. by split.
Qed.

Lemma pop_empty q packet capacity :
  queue_ok q -> contents q = [] -> network_packet_queue_pop q packet capacity = (None, q).
Proof.
  intros Hok Hc. pose proof (contents_length q Hok) as Hcl. rewrite Hc in Hcl.
  unfold network_packet_queue_pop. case_if as E; [done|].
  replace (count q =? 0) with true by (unfold zlen in Hcl; simpl in Hcl; lia). done.
Qed.

(** ** Theorem *)

(** Refinement: on every sequence of operations a freshly initialised queue gives
    the answers of a first-in first-out queue of at most 16 frames that accepts
    only frames of 60 to 1518 bytes. *)
Theorem packet_queue_refines_fifo q ops :
  zlen (packets q) = 16 -> Forall entry_ok (packets q) -> Forall op_ok ops ->
  run impl_step ops (network_packet_queue_initialize q) = run spec_step ops [].
Proof.
  intros Hlen He Hops. set (q0 := network_packet_queue_initialize q).
  assert (queue_ok q0) as Hok by (split; [by apply ring_empty_ok|done]).
  change (run spec_step ops []) with (run spec_step ops (contents q0)). revert Hok. generalize q0. clear q0 He Hlen q.
  induction Hops as [|o ops Ho _ IH]; intros q Hok; simpl; [done|].
  destruct o as [packet n|packet capacity]; simpl.
  - pose proof (push_refines q packet n Hok Ho) as Hp. simpl in Hp.
    destruct (network_packet_queue_push q packet n) as [b q']. destruct Hp as [Hok' ->].
    f_equal. by apply IH.
  - pose proof (pop_refines q packet capacity Hok Ho) as Hp. simpl in Hp.
    destruct (network_packet_queue_pop q packet capacity) as [r q']. destruct Hp as [Hok' ->].
    f_equal. by apply IH.
Qed.

(** ** Examples *)

Definition example_queue : network_packet_queue_t :=
  {| packets := replicate 16 {| length := 0; bytes := replicate 1518 0 |};
     head := 3; tail := 3; count := 9; dropped := 2 |}.

Lemma packet_queue_witness :
  run impl_step [Push (replicate 64 7) 64; Pop (replicate 100 0) 100; Pop (replicate 100 0) 100]
    (network_packet_queue_initialize example_queue) =
  [Pushed true; Popped (Some (replicate 64 7)); Popped None].
Proof.
  rewrite (packet_queue_refines_fifo example_queue); [done|done|..].
  - apply Forall_replicate. vm_compute. intuition congruence.
  - repeat constructor; vm_compute; intuition congruence.
Defined.

End PacketQueue.
