(* ===== verification/NetTables.v ===== *)
(** * Address resolution cache and routing table

    kernel/drivers/network/arp_cache.c and route.c: fixed-size tables searched
    linearly.  Every operation runs under the table's lock and is one atomic
    step. *)

From S2P Require Import Prelude NetBytes.

(** ** Choosing a slot

    The loop that [arp_cache_update] and [ipv4_reassembly_add] share: stop at a
    slot that matches, else remember the last free one, and as long as none was
    seen the one with the smallest time stamp. *)

Section scan.
Context (n : Z) (matches valid : Z -> bool) (last_seen : Z -> Z).

Definition scan_step (i : Z) (s : Z * Z * bool) : Z * Z * bool :=
  let '(selected, oldest, found) := s in
  if found then s
  else if matches i then (i, oldest, true)
  else if negb (valid i) then (i, oldest, false)
  else if (selected =? n) && (last_seen i <? last_seen oldest) then (selected, i, false)
  else s.

Definition scan_slots : Z :=
  let '(selected, oldest, _) := for_z 0 n scan_step (n, 0, false) in
  if selected =? n then oldest else selected.

(** The slot chosen: one that matches; else a free one; else the oldest. *)
Lemma scan_slots_spec :
  0 < n ->
  0 <= scan_slots < n /\
  (matches scan_slots = true \/
   ((forall i, 0 <= i < n -> matches i = false) /\
    (valid scan_slots = false \/
     forall i, 0 <= i < n -> valid i = true /\ last_seen scan_slots <= last_seen i))).
Proof.
  intros Hn. unfold scan_slots.
  pose proof (for_z_ind (fun k '(sel, old, found) =>
    0 <= old < n /\ 0 <= sel <= n /\
    if (found : bool) then sel < n /\ matches sel = true
    else (forall i, 0 <= i < k -> matches i = false) /\
      if sel =? n then forall i, 0 <= i < k -> valid i = true /\ last_seen old <= last_seen i
      else valid sel = false) 0 n scan_step (n, 0, false) ltac:(lia)) as Hloop.
  destruct (for_z 0 n scan_step (n, 0, false)) as [[sel old] found].
  destruct Hloop as (Hold & Hsel & Hres).
  - rewrite Z.eqb_refl. split_and!; (lia || intros; lia).
  - intros i [[sel' old'] found'] Hi (Hold & Hsel & Hinv). simpl.
    destruct found'; [done|]. destruct Hinv as [Hm Hinv].
    assert (matches i = false -> forall j, 0 <= j < i + 1 -> matches j = false) as Hm'.
    { intros Hmi j Hj. destruct (decide (j = i)) as [->|]; [done|]. apply Hm. lia. }
    case_if as E1; [split_and!; lia || done|].
    case_if as E2.
    { replace (i =? n) with false by lia. split_and!; try lia. by apply Hm'. }
    apply negb_false_iff in E2.
    destruct (sel' =? n) eqn:E3; simpl.
    + case_if as E4; rewrite E3; (split_and!; try lia; [by apply Hm'|]);
        intros j Hj; (destruct (decide (j = i)) as [->|]; [split; [done|lia]|]);
        destruct (Hinv j ltac:(lia)); (split; [done|lia]).
    + rewrite E3. split; [done|]. split; [done|]. split; [by apply Hm'|done].
  - destruct (sel =? n) eqn:E.
    + destruct found; [lia|]. destruct Hres as [Hm Hv]. split; [lia|]. right. split; [done|]. by right.
    + split; [lia|]. destruct found; [left; apply Hres|]. destruct Hres as [Hm Hv]. right.
      split; [done|by left].
Qed.

End scan.

Module ArpCache.

Definition ARP_CACHE_CAPACITY : Z := 16.

Record arp_cache_entry_t := {
  valid : bool;
  protocol : list Z;
  hardware : list Z;
  last_seen : Z;
}.

#[export] Instance eta_arp_cache_entry : Eta arp_cache_entry_t := fun e =>
  {| valid := valid e; protocol := protocol e; hardware := hardware e; last_seen := last_seen e |}.
#[export] Instance arp_cache_entry_inhabited : Inhabited arp_cache_entry_t :=
  populate {| valid := false; protocol := []; hardware := []; last_seen := 0 |}.

(** A cache is the array of its entries. *)
Abbreviation arp_cache_t := (list arp_cache_entry_t).

Definition protocol_valid (address : list Z) : bool :=
  negb (((address.[0] =? 0) && (address.[1] =? 0) && (address.[2] =? 0) && (address.[3] =? 0))
        || ((224 <=? address.[0]) && (address.[0] <=? 239))
        || ((address.[0] =? 255) && (address.[1] =? 255) && (address.[2] =? 255)
            && (address.[3] =? 255))).

Definition hardware_valid (address : list Z) : bool :=
  if negb (Z.land (address.[0]) 1 =? 0) then false
  else match find_z 0 6 (fun i => negb (address.[i] =? 0)) with Some _ => true | None => false end.

Definition arp_cache_initialize (c : arp_cache_t) : arp_cache_t :=
  for_z 0 ARP_CACHE_CAPACITY (fun i c => c.[i <- (c.[i])<| valid := false |>]) c.

(** The entry [i] holds the address [p]. *)
Definition entry_matches (c : arp_cache_t) (p : list Z) (i : Z) : bool :=
  valid (c.[i]) && address_equal (protocol (c.[i])) p.

Definition arp_cache_update (c : arp_cache_t) (p h : list Z) (now : Z) : bool * arp_cache_t :=
  if negb (protocol_valid p) || negb (hardware_valid h) then (false, c)
  else
    let selected := scan_slots ARP_CACHE_CAPACITY (entry_matches c p)
      (fun i => valid (c.[i])) (fun i => last_seen (c.[i])) in
    let entry := c.[selected] in
    let entry := entry<| valid := true |>
                      <| protocol := copy_bytes (protocol entry) 0 p 4 |>
                      <| hardware := copy_bytes (hardware entry) 0 h 6 |>
                      <| last_seen := now |> in
    (true, c.[selected <- entry]).

(** Returns the hardware address found. *)
Definition arp_cache_lookup (c : arp_cache_t) (p : list Z) : option (list Z) :=
  if negb (protocol_valid p) then None
  else
    match find_z 0 ARP_CACHE_CAPACITY (entry_matches c p) with
    | Some i => Some (hardware (c.[i]))
    | None => None
    end.

Definition expired (e : arp_cache_entry_t) (now max_age : Z) : bool :=
  negb (negb (valid e) || (now <? last_seen e) || (now - last_seen e <? max_age)).

Definition arp_cache_expire (c : arp_cache_t) (now max_age : Z) : Z * arp_cache_t :=
  if max_age =? 0 then (0, c)
  else for_z 0 ARP_CACHE_CAPACITY
    (fun i '(count, c) =>
       if expired (c.[i]) now max_age then (u32 (count + 1), c.[i <- (c.[i])<| valid := false |>])
       else (count, c)) (0, c).

(** ** Invariant *)

(** The arrays have their sizes and no address is cached twice. *)
Record cache_ok (c : arp_cache_t) : Prop := {
  ok_length : zlen c = ARP_CACHE_CAPACITY;
  ok_sizes : forall i, 0 <= i < 16 -> zlen (protocol (c.[i])) = 4 /\ zlen (hardware (c.[i])) = 6;
  ok_unique : forall i j, 0 <= i < 16 -> 0 <= j < 16 -> valid (c.[i]) = true ->
    valid (c.[j]) = true -> protocol (c.[i]) = protocol (c.[j]) -> i = j;
}.

Lemma entry_matches_spec c p i :
  cache_ok c -> 0 <= i < 16 -> zlen p = 4 ->
  entry_matches c p i = true <-> valid (c.[i]) = true /\ protocol (c.[i]) = p.
Proof.
  intros Hok Hi Hp. unfold entry_matches.
  by rewrite andb_true_iff, address_equal_spec by (done || by apply Hok).
Qed.

(** [arp_cache_lookup] finds exactly the cached addresses. *)
Lemma lookup_spec c p h :
  cache_ok c -> zlen p = 4 -> protocol_valid p = true ->
  arp_cache_lookup c p = Some h <->
  exists i, 0 <= i < 16 /\ valid (c.[i]) = true /\ protocol (c.[i]) = p /\ hardware (c.[i]) = h.
Proof.
  intros Hok Hp Hv. unfold arp_cache_lookup, ARP_CACHE_CAPACITY. rewrite Hv. simpl.
  destruct (find_z _ _ _) as [i|] eqn:E.
  - apply find_z_Some in E as (Hi & Hm & _). apply entry_matches_spec in Hm as [Hvi Hpi]; [|done..].
    split; [intros [= <-]; by exists i|]. intros (j & Hj & Hvj & Hpj & <-). do 2 f_equal.
    assert (i = j) as ->; [|done]. apply (ok_unique c Hok); congruence || done.
  - split; [done|]. intros (j & Hj & Hvj & Hpj & _).
    rewrite find_z_None in E. specialize (E j Hj).
    by rewrite (proj2 (entry_matches_spec c p j Hok Hj Hp)) in E.
Qed.

Lemma lookup_None c p :
  cache_ok c -> zlen p = 4 -> protocol_valid p = true ->
  (forall i, 0 <= i < 16 -> valid (c.[i]) = true -> protocol (c.[i]) <> p) ->
  arp_cache_lookup c p = None.
Proof.
  intros Hok Hp Hv Hn. destruct (arp_cache_lookup c p) as [h|] eqn:E; [|done].
  apply lookup_spec in E as (i & Hi & Hvi & Hpi & _); [|done..]. by destruct (Hn i Hi Hvi).
Qed.

Lemma cache_get (c : arp_cache_t) i j e :
  zlen c = 16 -> 0 <= i < 16 -> 0 <= j -> (c.[i <- e]).[j] = if i =? j then e else c.[j].
Proof.
  intros Hl Hi Hj. case_if as E.
  - replace j with i by lia. apply arr_get_eq. lia.
  - apply arr_get_ne; lia.
Qed.

(** The slot that [arp_cache_update] writes. *)
Lemma update_slot c p :
  cache_ok c -> zlen p = 4 ->
  let s := scan_slots 16 (entry_matches c p) (fun i => valid (c.[i])) (fun i => last_seen (c.[i])) in
  0 <= s < 16 /\
  (forall j, 0 <= j < 16 -> j <> s -> valid (c.[j]) = true -> protocol (c.[j]) <> p) /\
  (valid (c.[s]) = true -> protocol (c.[s]) <> p ->
   forall j, 0 <= j < 16 -> valid (c.[j]) = true /\ last_seen (c.[s]) <= last_seen (c.[j])).
Proof.
  intros Hok Hp s. destruct (scan_slots_spec 16 (entry_matches c p) (fun i => valid (c.[i]))
    (fun i => last_seen (c.[i])) ltac:(lia)) as [Hs Hcase]. fold s in Hs, Hcase.
  split; [done|]. destruct Hcase as [Hm|[Hnone Hsel]].
  - apply entry_matches_spec in Hm as [Hv Hpr]; [|done..]. split; [|done].
    intros j Hj Hne Hvj Hpj. apply Hne. apply (ok_unique c Hok); congruence || done.
  - split.
    + intros j Hj _ Hvj Hpj. specialize (Hnone j Hj).
      by rewrite (proj2 (entry_matches_spec c p j Hok Hj Hp)) in Hnone.
    + intros Hv _. destruct Hsel as [Hinv|Hall]; [congruence|done].
Qed.

Lemma update_ok c p h s now :
  cache_ok c -> zlen p = 4 -> zlen h = 6 -> 0 <= s < 16 ->
  (forall j, 0 <= j < 16 -> j <> s -> valid (c.[j]) = true -> protocol (c.[j]) <> p) ->
  cache_ok (c.[s <- {| valid := true; protocol := p; hardware := h; last_seen := now |}]).
Proof.
  intros Hok Hp Hh Hs Hne. destruct Hok as [Hl Hsz Hu]. constructor.
  - by rewrite zlen_set.
  - intros i Hi. rewrite cache_get by (done || lia). case_if as E; [done|by apply Hsz].
  - intros i j Hi Hj. rewrite !cache_get by (done || lia).
    destruct (s =? i) eqn:Ei, (s =? j) eqn:Ej; simpl; intros Hvi Hvj Heq; try lia.
    + by destruct (Hne j Hj ltac:(lia)).
    + by destruct (Hne i Hi ltac:(lia)).
    + by apply Hu.
Qed.

(** The slot an update writes. *)
Lemma update_result c p h now :
  cache_ok c -> zlen p = 4 -> zlen h = 6 -> protocol_valid p = true -> hardware_valid h = true ->
  let e := {| valid := true; protocol := p; hardware := h; last_seen := now |} in
  exists s, 0 <= s < 16 /\ arp_cache_update c p h now = (true, c.[s <- e]) /\
    cache_ok (c.[s <- e]) /\ arp_cache_lookup (c.[s <- e]) p = Some h /\
    (valid (c.[s]) = true -> protocol (c.[s]) <> p ->
     forall j, 0 <= j < 16 -> valid (c.[j]) = true /\ last_seen (c.[s]) <= last_seen (c.[j])).
Proof.
  intros Hok Hp Hh Hpv Hhv e. unfold arp_cache_update, ARP_CACHE_CAPACITY. rewrite Hpv, Hhv.
  destruct (update_slot c p Hok Hp) as (Hs & Hne & Hold).
  set (s := scan_slots _ _ _ _) in *. clearbody s. simpl. pose proof (ok_length c Hok) as Hl.
  destruct (ok_sizes c Hok s Hs) as [Hsp Hsh]. rewrite !copy_whole by lia.
  assert (cache_ok (c.[s <- e])) as Hok' by (by apply update_ok).
  exists s. split_and!; try done; try lia.
  apply lookup_spec; [done..|]. exists s. rewrite cache_get, Z.eqb_refl by (done || lia). done.
Qed.

(** ** Theorems *)

(** Updating caches the pair and keeps every other address, except that in a full
    cache without the address the longest unseen one makes room. *)
Theorem arp_update_spec c p h now :
  cache_ok c -> zlen p = 4 -> zlen h = 6 -> protocol_valid p = true -> hardware_valid h = true ->
  let '(b, c') := arp_cache_update c p h now in
  b = true /\ cache_ok c' /\ arp_cache_lookup c' p = Some h /\
  forall q, zlen q = 4 -> protocol_valid q = true -> q <> p ->
    arp_cache_lookup c' q = arp_cache_lookup c q \/
    (arp_cache_lookup c' q = None /\
     exists i, 0 <= i < 16 /\ protocol (c.[i]) = q /\
       forall j, 0 <= j < 16 -> valid (c.[j]) = true /\ last_seen (c.[i]) <= last_seen (c.[j])).
Proof.
  intros Hok Hp Hh Hpv Hhv.
  destruct (update_result c p h now) as (s & Hs & -> & Hok' & Hlk & Hold); [done..|].
  pose proof (ok_length c Hok) as Hl. unfold ARP_CACHE_CAPACITY in Hl. set (c' := c.[s <- _]) in *.
  assert (forall j, 0 <= j < 16 -> c'.[j] = if s =? j then
    {| valid := true; protocol := p; hardware := h; last_seen := now |} else c.[j]) as Hget
    by (intros; apply cache_get; done || lia). clearbody c'.
  split; [done|]. split; [done|]. split; [done|].
  intros q Hq Hqv Hqp.
  assert (forall j, 0 <= j < 16 -> valid (c'.[j]) = true -> protocol (c'.[j]) = q ->
    s <> j /\ c'.[j] = c.[j]) as Hkeep.
  { intros j Hj. rewrite Hget by done. case_if as E; simpl; [by intros _ <-|]. split; [lia|done]. }
  destruct (arp_cache_lookup c q) as [h'|] eqn:Elk.
  - apply lookup_spec in Elk as (i & Hi & Hvi & Hpi & Hhi); [|done..].
    destruct (decide (i = s)) as [->|Hne'].
    + right. split; [|exists s; split_and!; [lia..|done|apply Hold; congruence]].
      apply lookup_None; [done..|]. intros j Hj Hvj Hpj. destruct (Hkeep j Hj Hvj Hpj) as [Hsj Heq].
      rewrite Heq in *. apply Hsj. apply (ok_unique c Hok); congruence || done.
    + left. apply lookup_spec; [done..|]. exists i. rewrite Hget by done.
      by replace (s =? i) with false by lia.
  - left. apply lookup_None; [done..|]. intros j Hj Hvj Hpj.
    destruct (Hkeep j Hj Hvj Hpj) as [Hsj Heq]. rewrite Heq in *.
    assert (arp_cache_lookup c q = Some (hardware (c.[j]))); [|congruence].
    apply lookup_spec; [done..|]. by exists j.
Qed.

(** Expiry removes exactly the entries that were last seen [max_age] or longer ago,
    and counts them. *)
Theorem arp_expire_spec c now max_age :
  cache_ok c -> max_age <> 0 ->
  let '(n, c') := arp_cache_expire c now max_age in
  cache_ok c' /\ n = countb (fun i => expired (c.[i]) now max_age) (seqZ 0 16) /\
  forall i, 0 <= i < 16 ->
    c'.[i] = if expired (c.[i]) now max_age then (c.[i])<| valid := false |> else c.[i].
Proof.
  intros Hok Hm. unfold arp_cache_expire, ARP_CACHE_CAPACITY.
  replace (max_age =? 0) with false by lia. pose proof (ok_length c Hok) as Hl.
  unfold ARP_CACHE_CAPACITY in Hl.
  pose proof (for_z_ind (fun k '(n, c') => zlen c' = 16 /\
    n = countb (fun i => expired (c.[i]) now max_age) (seqZ 0 k) /\
    forall i, 0 <= i < 16 -> c'.[i] =
      if (i <? k) && expired (c.[i]) now max_age then (c.[i])<| valid := false |> else c.[i])
    0 16 (fun i '(count, c) => if expired (c.[i]) now max_age
       then (u32 (count + 1), c.[i <- (c.[i])<| valid := false |>]) else (count, c)) (0, c)
    ltac:(lia)) as Hloop.
  destruct (for_z 0 16 _ _) as [n c']. destruct Hloop as (Hl' & Hn & Hc).
  - split_and!; [done..|]. intros i Hi. by replace (i <? 0) with false by lia.
  - intros k [n' ck] Hk (Hlk & -> & Hck). rewrite seqZ_snoc, countb_app, Z.add_0_l by lia. simpl.
    pose proof (countb_range_bounds (fun i => expired (c.[i]) now max_age) k ltac:(lia)).
    rewrite (Hck k Hk). replace (k <? k) with false by lia. simpl.
    destruct (expired (c.[k]) now max_age) eqn:E; simpl.
    + rewrite zlen_set, wrap_small by (widths; lia). split_and!; [done|lia|].
      intros i Hi. rewrite cache_get by (done || lia). destruct (k =? i) eqn:Eki.
      * replace i with k by lia. by replace (k <? k + 1) with true by lia; rewrite E.
      * rewrite Hck by done. by replace (i <? k + 1) with (i <? k) by lia.
    + split_and!; [done|lia|]. intros i Hi. rewrite Hck by done.
      destruct (decide (i = k)) as [->|]; [by rewrite E, !andb_false_r|].
      by replace (i <? k + 1) with (i <? k) by lia.
  - assert (forall i, 0 <= i < 16 -> c'.[i] =
      if expired (c.[i]) now max_age then (c.[i])<| valid := false |> else c.[i]) as Hc'
      by (intros i Hi; rewrite Hc by done; by replace (i <? 16) with true by lia).
    split; [|done]. destruct Hok as [_ Hsz Hu]. constructor; [done|..].
    + intros i Hi. rewrite Hc' by done. case_if as E; by apply Hsz.
    + intros i j Hi Hj. rewrite !Hc' by done. case_if as E1; case_if as E2; try done. by apply Hu.
Qed.

(** ** Examples *)

Definition example_cache : arp_cache_t :=
  replicate 16 {| valid := false; protocol := [0; 0; 0; 0]; hardware := [0; 0; 0; 0; 0; 0];
                  last_seen := 0 |}.

Lemma arp_example_ok : cache_ok example_cache.
Proof.
  assert (forall i, 0 <= i < 16 -> example_cache.[i] = example_cache.[0]) as Hget
    by (intros i Hi; unfold example_cache; by rewrite !lookup_total_replicate_2 by lia).
  constructor; [done|..]; intros i; [intros Hi; by rewrite Hget|].
  intros j Hi Hj. by rewrite Hget.
Qed.

Lemma arp_update_witness :
  arp_cache_lookup (arp_cache_update example_cache [10; 0; 0; 2] [2; 0; 0; 0; 0; 2] 5).2 [10; 0; 0; 2] =
  Some [2; 0; 0; 0; 0; 2].
Proof.
  pose proof (arp_update_spec example_cache [10; 0; 0; 2] [2; 0; 0; 0; 0; 2] 5 arp_example_ok
    eq_refl eq_refl eq_refl eq_refl) as H.
  destruct (arp_cache_update _ _ _ _) as [b c']. apply H.
Defined.

Lemma arp_expire_witness : cache_ok (arp_cache_expire example_cache 100 10).2.
Proof.
  pose proof (arp_expire_spec example_cache 100 10 arp_example_ok ltac:(done)) as H.
  destruct (arp_cache_expire _ _ _) as [n c']. apply H.
Defined.

End ArpCache.

Module Route.

Definition IPV4_ROUTE_CAPACITY : Z := 16.

Record ipv4_route_entry_t := {
  network : Z;
  gateway : Z;
  interface_id : Z;
  prefix_length : Z;
  metric : Z;
  valid : bool;
}.

#[export] Instance eta_ipv4_route_entry : Eta ipv4_route_entry_t := fun e =>
  {| network := network e; gateway := gateway e; interface_id := interface_id e;
     prefix_length := prefix_length e; metric := metric e; valid := valid e |}.
#[export] Instance ipv4_route_entry_inhabited : Inhabited ipv4_route_entry_t :=
  populate {| network := 0; gateway := 0; interface_id := 0; prefix_length := 0; metric := 0;
              valid := false |}.

Abbreviation ipv4_route_table_t := (list ipv4_route_entry_t).

Definition route_mask (prefix : Z) : Z :=
  if prefix =? 0 then 0 else u32 (Z.shiftl U32_MAX (32 - prefix)).

Definition route_matches (e : ipv4_route_entry_t) (address : Z) : bool :=
  valid e && (Z.land address (route_mask (prefix_length e)) =? network e).

Definition ipv4_route_table_initialize (t : ipv4_route_table_t) : ipv4_route_table_t :=
  for_z 0 IPV4_ROUTE_CAPACITY (fun i t => t.[i <- (t.[i])<| valid := false |>]) t.

(** A valid entry for this network, prefix and interface. *)
Definition same_route (e : ipv4_route_entry_t) (net prefix iface : Z) : bool :=
  valid e && (network e =? net) && (prefix_length e =? prefix) && (interface_id e =? iface).

(** The slot loop of [ipv4_route_add]: stop at the same route, else the first free slot. *)
Definition add_step (t : ipv4_route_table_t) (net prefix iface : Z) (i : Z) (s : Z * bool)
    : Z * bool :=
  let '(selected, found) := s in
  if found then s
  else if same_route (t.[i]) net prefix iface then (i, true)
  else if negb (valid (t.[i])) && (selected =? IPV4_ROUTE_CAPACITY) then (i, false)
  else s.

Definition ipv4_route_add (t : ipv4_route_table_t) (net prefix gw iface met : Z)
    : bool * ipv4_route_table_t :=
  if (32 <? prefix) || (iface =? 0) then (false, t)
  else
    let net := Z.land net (route_mask prefix) in
    let '(selected, _) :=
      for_z 0 IPV4_ROUTE_CAPACITY (add_step t net prefix iface) (IPV4_ROUTE_CAPACITY, false) in
    if selected =? IPV4_ROUTE_CAPACITY then (false, t)
    else (true, t.[selected <- {| network := net; gateway := gw; interface_id := iface;
                                  prefix_length := prefix; metric := met; valid := true |}]).

Definition ipv4_route_remove (t : ipv4_route_table_t) (net prefix iface : Z)
    : bool * ipv4_route_table_t :=
  if (32 <? prefix) || (iface =? 0) then (false, t)
  else
    let net := Z.land net (route_mask prefix) in
    match find_z 0 IPV4_ROUTE_CAPACITY (fun i => same_route (t.[i]) net prefix iface) with
    | Some i => (true, t.[i <- (t.[i])<| valid := false |>])
    | None => (false, t)
    end.

(** The body of the search loop. *)
Definition lookup_step (t : ipv4_route_table_t) (destination : Z) (i selected : Z) : Z :=
  let e := t.[i] in
  if negb (route_matches e destination) then selected
  else if (selected =? IPV4_ROUTE_CAPACITY)
          || (prefix_length (t.[selected]) <? prefix_length e)
          || ((prefix_length e =? prefix_length (t.[selected]))
              && (metric e <? metric (t.[selected]))) then i
  else selected.

Definition ipv4_route_lookup (t : ipv4_route_table_t) (destination : Z)
    : option ipv4_route_entry_t :=
  let selected := for_z 0 IPV4_ROUTE_CAPACITY (lookup_step t destination) IPV4_ROUTE_CAPACITY in
  if selected =? IPV4_ROUTE_CAPACITY then None else Some (t.[selected]).

(** ** Lemmas *)

(** The mask keeps the leading [prefix] bits of an address. *)
Lemma route_mask_spec a prefix :
  is_u32 a -> 0 <= prefix <= 32 ->
  Z.land a (route_mask prefix) = a / 2 ^ (32 - prefix) * 2 ^ (32 - prefix).
Proof.
  intros Ha Hp. unfold route_mask. case_if as E.
  - replace prefix with 0 by lia. change (2 ^ (32 - 0)) with (2 ^ 32).
    unfold in_width in Ha. rewrite Z.div_small, Z.land_0_r by lia. done.
  - set (k := 32 - prefix). rewrite <- Z.shiftr_div_pow2, <- Z.shiftl_mul_pow2 by lia.
    apply Z.bits_inj'. intros n Hn. unfold wrap. change U32_MAX with (Z.ones 32).
    rewrite Z.land_spec, Z.shiftl_spec by lia. destruct (decide (n < 32)) as [Hlt|Hge].
    + rewrite Z.mod_pow2_bits_low, Z.shiftl_spec by lia. destruct (decide (n < k)).
      * by rewrite !(Z.testbit_neg_r _ (n - k)), andb_false_r by lia.
      * rewrite Z.ones_spec_low, Z.shiftr_spec, andb_true_r by lia. f_equal. lia.
    + rewrite Z.mod_pow2_bits_high, andb_false_r by lia.
      destruct (decide (n < k)); [by rewrite Z.testbit_neg_r by lia|].
      rewrite Z.shiftr_spec by lia. unfold in_width in Ha.
      rewrite <- (Z.mod_small a (2 ^ 32)), Z.mod_pow2_bits_high by lia. done.
Qed.

(** Entries as [ipv4_route_add] writes them. *)
Definition entry_ok (e : ipv4_route_entry_t) : Prop :=
  is_u32 (network e) /\ 0 <= prefix_length e <= 32 /\
  network e mod 2 ^ (32 - prefix_length e) = 0.

(** [destination] lies in the network of [e]: the leading bits agree. *)
Definition covers (e : ipv4_route_entry_t) (destination : Z) : Prop :=
  destination / 2 ^ (32 - prefix_length e) = network e / 2 ^ (32 - prefix_length e).

Lemma route_matches_spec e destination :
  entry_ok e -> is_u32 destination ->
  route_matches e destination = true <-> valid e = true /\ covers e destination.
Proof.
  intros (Hn & Hp & Hm) Hd. unfold route_matches, covers.
  rewrite andb_true_iff, Z.eqb_eq, route_mask_spec by done.
  assert (0 < 2 ^ (32 - prefix_length e)) by (apply Z.pow_pos_nonneg; lia).
  set (m := 2 ^ (32 - prefix_length e)) in *. pose proof (Z.div_mod (network e) m ltac:(lia)).
  split; intros [? Heq]; (split; [done|]).
  - rewrite <- Heq. by rewrite Z.div_mul by lia.
  - rewrite Heq. lia.
Qed.

(** [a] is at least as good a route as [b]. *)
Definition as_good (a b : ipv4_route_entry_t) : Prop :=
  prefix_length b < prefix_length a \/
  (prefix_length b = prefix_length a /\ metric a <= metric b).

Lemma lookup_loop t destination :
  let s := for_z 0 16 (lookup_step t destination) 16 in
  (s = 16 /\ forall i, 0 <= i < 16 -> route_matches (t.[i]) destination = false) \/
  (0 <= s < 16 /\ route_matches (t.[s]) destination = true /\
   forall i, 0 <= i < 16 -> route_matches (t.[i]) destination = true -> as_good (t.[s]) (t.[i])).
Proof.
  apply (for_z_ind (fun k s =>
    (s = 16 /\ forall i, 0 <= i < k -> route_matches (t.[i]) destination = false) \/
    (0 <= s < 16 /\ route_matches (t.[s]) destination = true /\
     forall i, 0 <= i < k -> route_matches (t.[i]) destination = true ->
       as_good (t.[s]) (t.[i])))); [lia|left; split; [done|lia]|].
  intros k s Hk Hinv. unfold lookup_step, IPV4_ROUTE_CAPACITY.
  destruct (route_matches (t.[k]) destination) eqn:Em; simpl.
  - destruct Hinv as [[-> Hnone]|(Hs & Hms & Hbest)].
    + right. simpl. split_and!; [lia..|done|]. intros i Hi Hmi.
      destruct (decide (i = k)) as [->|]; [unfold as_good; lia|].
      rewrite Hnone in Hmi by lia. done.
    + right. replace (s =? 16) with false by lia. simpl.
      case_if as E; (split_and!; [lia..|done|]); intros i Hi Hmi;
        (destruct (decide (i = k)) as [->|]; [unfold as_good; lia|]);
        specialize (Hbest i ltac:(lia) Hmi); unfold as_good in *; lia.
  - destruct Hinv as [[-> Hnone]|(Hs & Hms & Hbest)]; [left|right]; split_and!; try done; try lia;
      intros i Hi; (destruct (decide (i = k)) as [->|]; [congruence|]); [apply Hnone|apply Hbest]; lia.
Qed.

(** ** Theorems *)

(** C26. Longest-prefix match: the result is a valid route whose network contains the
    destination, and no other such route has a longer prefix, or the same prefix
    and a smaller metric; without a result no route contains the destination. *)
Theorem route_lookup_longest_prefix t destination :
  zlen t = IPV4_ROUTE_CAPACITY -> Forall entry_ok t -> is_u32 destination ->
  match ipv4_route_lookup t destination with
  | Some e => e ∈ t /\ valid e = true /\ covers e destination /\
      forall e', e' ∈ t -> valid e' = true -> covers e' destination -> as_good e e'
  | None => forall e', e' ∈ t -> valid e' = true -> ~ covers e' destination
  end.
Proof.
  intros Hl Hok Hd. unfold ipv4_route_lookup. unfold IPV4_ROUTE_CAPACITY in *.
  pose proof (lookup_loop t destination) as Hloop. cbv zeta in Hloop.
  set (s := for_z _ _ _ _) in *. rewrite Forall_forall in Hok.
  assert (forall e, e ∈ t -> exists i, 0 <= i < 16 /\ t.[i] = e) as Hin.
  { intros e [i Hi]%list_elem_of_lookup. pose proof (lookup_lt_Some _ _ _ Hi). unfold zlen in Hl.
    exists (Z.of_nat i). split; [lia|]. rewrite Nat2Z.id. by apply list_lookup_total_correct. }
  destruct Hloop as [[-> Hnone]|(Hs & Hms & Hbest)].
  - simpl. intros e He Hv Hc. destruct (Hin e He) as (i & Hi & <-).
    specialize (Hnone i Hi). by rewrite (proj2 (route_matches_spec _ _ (Hok _ He) Hd)) in Hnone.
  - replace (s =? 16) with false by lia.
    assert (t.[s] ∈ t) as Hin_s.
    { apply (list_elem_of_lookup_2 _ (Z.to_nat s)). apply arr_lookup. lia. }
    apply route_matches_spec in Hms as [Hv Hc]; [|by apply Hok|done]. split_and!; [done..|].
    intros e He Hve Hce. destruct (Hin e He) as (i & Hi & <-). apply Hbest; [done|].
    by apply route_matches_spec; [apply Hok|..].
Qed.

(** ** Examples *)

(** A default route and a more specific one. *)
Definition example_table : ipv4_route_table_t :=
  [{| network := 0; gateway := 167772161; interface_id := 1; prefix_length := 0; metric := 1;
      valid := true |};
   {| network := 167772160; gateway := 0; interface_id := 1; prefix_length := 24; metric := 9;
      valid := true |}]
  ++ replicate 14 inhabitant.

Lemma route_lookup_witness :
  exists e, ipv4_route_lookup example_table 167772162 = Some e /\ covers e 167772162.
Proof.
  assert (Forall entry_ok example_table) as Hok.
  { unfold example_table. simpl.
    repeat apply Forall_cons_2; [vm_compute; intuition congruence..|apply Forall_nil_2]. }
  pose proof (route_lookup_longest_prefix example_table 167772162 eq_refl Hok ltac:(concrete)) as H.
  destruct (ipv4_route_lookup example_table 167772162) as [e|] eqn:E; [|by vm_compute in E].
  exists e. split; [done|]. apply H.
Defined.

End Route.
