(* ===== verification/Reassembly.v ===== *)
(** * Reassembly of IPv4 fragments (kernel/drivers/network/reassembly.c)

    A table of four datagrams under construction, each with a bitmap of the bytes
    received so far.  Every operation runs under the table's lock and is one
    atomic step. *)

From S2P Require Import Prelude NetBytes Internet NetTables.

Module Reassembly.

Definition IPV4_REASSEMBLY_SLOTS : Z := 4.
Definition IPV4_REASSEMBLY_MAX_PAYLOAD : Z := 65515.
Definition IPV4_REASSEMBLY_BITMAP_SIZE : Z := 8190.

Record ipv4_reassembly_entry_t := {
  valid : bool;
  first_fragment : bool;
  protocol : Z;
  source : list Z;
  destination : list Z;
  identification : Z;
  total_length : Z;
  received : Z;
  last_seen : Z;
  payload : list Z;
  bitmap : list Z;
}.

#[export] Instance eta_ipv4_reassembly_entry : Eta ipv4_reassembly_entry_t := fun e => {|
  valid := valid e; first_fragment := first_fragment e; protocol := protocol e;
  source := source e; destination := destination e; identification := identification e;
  total_length := total_length e; received := received e; last_seen := last_seen e;
  payload := payload e; bitmap := bitmap e |}.
#[export] Instance ipv4_reassembly_entry_inhabited : Inhabited ipv4_reassembly_entry_t :=
  populate {| valid := false; first_fragment := false; protocol := 0; source := [];
    destination := []; identification := 0; total_length := 0; received := 0; last_seen := 0;
    payload := []; bitmap := [] |}.

Abbreviation ipv4_reassembly_table_t := (list ipv4_reassembly_entry_t).

Definition clear_entry (e : ipv4_reassembly_entry_t) : ipv4_reassembly_entry_t :=
  e<| valid := false |><| first_fragment := false |><| total_length := 0 |><| received := 0 |>.

Definition same_datagram (e : ipv4_reassembly_entry_t) (ident : Z) (src dst : list Z) (proto : Z)
    : bool :=
  valid e && (identification e =? ident) && (protocol e =? proto)
  && address_equal (source e) src && address_equal (destination e) dst.

Definition ipv4_reassembly_initialize (t : ipv4_reassembly_table_t) : ipv4_reassembly_table_t :=
  for_z 0 IPV4_REASSEMBLY_SLOTS (fun i t => t.[i <- clear_entry (t.[i])]) t.

(** The expiry loop, which [ipv4_reassembly_add] repeats. *)
Definition expire_entries (t : ipv4_reassembly_table_t) (now timeout : Z)
    : ipv4_reassembly_table_t :=
  for_z 0 IPV4_REASSEMBLY_SLOTS (fun i t =>
    if valid (t.[i]) && negb (timeout =? 0) && (last_seen (t.[i]) <=? now)
       && (timeout <=? now - last_seen (t.[i])) then t.[i <- clear_entry (t.[i])] else t) t.

Definition ipv4_reassembly_expire (t : ipv4_reassembly_table_t) (now timeout : Z)
    : ipv4_reassembly_table_t :=
  if timeout =? 0 then t else expire_entries t now timeout.

(** The bit of a byte position: [(uint8_t)(1U << (i & 7U))]. *)
Definition bit_mask (i : Z) : Z := u8 (Z.shiftl 1 (Z.land i 7)).

(** A fresh entry for the datagram. *)
Definition start_entry (e : ipv4_reassembly_entry_t) (ident : Z) (src dst : list Z) (proto : Z)
    : ipv4_reassembly_entry_t :=
  e<| valid := true |><| protocol := proto |><| identification := ident |>
   <| source := copy_bytes (source e) 0 src 4 |>
   <| destination := copy_bytes (destination e) 0 dst 4 |>
   <| total_length := 0 |><| received := 0 |><| first_fragment := false |>
   <| bitmap := for_z 0 IPV4_REASSEMBLY_BITMAP_SIZE (fun i bm => bm.[i <- 0]) (bitmap e) |>.

(** The loop that stores the bytes of a fragment and marks them. *)
Definition store_bytes (e : ipv4_reassembly_entry_t) (offset : Z) (pl : list Z) (plen : Z)
    : ipv4_reassembly_entry_t :=
  for_z 0 plen (fun i e =>
    let position := offset + i in
    e<| payload := (payload e).[position <- pl.[i]] |>
     <| bitmap := (bitmap e).[position / 8 <-
          Z.lor ((bitmap e).[position / 8]) (bit_mask position)] |>) e.

(** The rest of [ipv4_reassembly_add] for the selected entry, from the length
    check on: the entry afterwards and the output, if the datagram is complete. *)
Definition add_to_entry (e : ipv4_reassembly_entry_t) (offset : Z) (more : bool) (pl : list Z)
    (plen now : Z) (output : list Z) (capacity : Z)
    : option (list Z * Z) * ipv4_reassembly_entry_t :=
  let end_ := offset + plen in
  if (negb (total_length e =? 0) && (total_length e <? end_))
     || (negb more && negb (total_length e =? 0) && negb (total_length e =? end_))
  then (None, clear_entry e)
  else
    let e := if negb more then e<| total_length := u16 end_ |> else e in
    match find_z offset end_ (fun i =>
            negb (Z.land ((bitmap e).[i / 8]) (bit_mask i) =? 0)) with
    | Some _ => (None, clear_entry e)
    | None =>
        let e := store_bytes e offset pl plen in
        let e := e<| received := u32 (received e + plen) |> in
        let e := if offset =? 0 then e<| first_fragment := true |> else e in
        let e := e<| last_seen := now |> in
        if negb (first_fragment e) || (total_length e =? 0)
           || negb (received e =? total_length e) || (capacity <? total_length e)
        then (None, e)
        else (Some (copy_bytes output 0 (payload e) (total_length e), total_length e),
              clear_entry e)
    end.

Definition ipv4_reassembly_add (t : ipv4_reassembly_table_t) (ident : Z) (src dst : list Z)
    (proto offset : Z) (more : bool) (pl : list Z) (plen now timeout : Z) (output : list Z)
    (capacity : Z) : option (list Z * Z) * ipv4_reassembly_table_t :=
  if (plen =? 0) || (IPV4_REASSEMBLY_MAX_PAYLOAD <=? offset)
     || (IPV4_REASSEMBLY_MAX_PAYLOAD - offset <? plen)
     || (more && negb (Z.land plen 7 =? 0)) then (None, t)
  else
    let t := expire_entries t now timeout in
    let selected := scan_slots IPV4_REASSEMBLY_SLOTS
      (fun i => same_datagram (t.[i]) ident src dst proto)
      (fun i => valid (t.[i])) (fun i => last_seen (t.[i])) in
    let e := t.[selected] in
    let e := if negb (valid e) then start_entry e ident src dst proto else e in
    let '(out, e) := add_to_entry e offset more pl plen now output capacity in
    (out, t.[selected <- e]).

(** ** The bitmap *)

Definition have (e : ipv4_reassembly_entry_t) (i : Z) : bool := bit_at (bitmap e) i.

(** The arrays have their sizes. *)
Definition sized (e : ipv4_reassembly_entry_t) : Prop :=
  zlen (payload e) = IPV4_REASSEMBLY_MAX_PAYLOAD /\ zlen (bitmap e) = IPV4_REASSEMBLY_BITMAP_SIZE /\
  zlen (source e) = 4 /\ zlen (destination e) = 4.

Lemma bit_mask_spec i : 0 <= i -> bit_mask i = Z.shiftl 1 (i mod 8).
Proof.
  intros. unfold bit_mask. destruct (bitmap_index i) as [_ ->]; [done|].
  apply byte_mask_small. apply Z.mod_pos_bound. lia.
Qed.

Lemma have_test e i :
  0 <= i -> negb (Z.land ((bitmap e).[i / 8]) (bit_mask i) =? 0) = have e i.
Proof. intros. rewrite bit_mask_spec, bit_at_land, negb_involutive by done. done. Qed.

(** Only the payload and the bitmap change while bytes are stored. *)
Definition same_header (e e' : ipv4_reassembly_entry_t) : Prop :=
  e' = e<| payload := payload e' |><| bitmap := bitmap e' |>.

Lemma store_bytes_spec e offset pl plen :
  sized e -> 0 <= offset -> 0 <= plen -> offset + plen <= 65515 ->
  let e' := store_bytes e offset pl plen in
  same_header e e' /\ sized e' /\
  forall i, 0 <= i < 65515 ->
    have e' i = have e i || ((offset <=? i) && (i <? offset + plen)) /\
    (payload e').[i] =
      if (offset <=? i) && (i <? offset + plen) then pl.[i - offset] else (payload e).[i].
Proof.
  intros Hsz Ho Hp Hmax.
  apply (for_z_ind (fun k e' => same_header e e' /\ sized e' /\
    forall i, 0 <= i < 65515 ->
      have e' i = have e i || ((offset <=? i) && (i <? offset + k)) /\
      (payload e').[i] =
        if (offset <=? i) && (i <? offset + k) then pl.[i - offset] else (payload e).[i])); [lia|..].
  { split; [by destruct e|]. split; [done|]. intros i Hi. replace (_ && _) with false by lia.
    by rewrite orb_false_r. }
  intros k e' Hk (Hh & (Hs1 & Hs2 & Hs3) & He).
  unfold IPV4_REASSEMBLY_MAX_PAYLOAD, IPV4_REASSEMBLY_BITMAP_SIZE in *.
  split; [by rewrite Hh|]. split; [unfold sized; simpl; by rewrite !zlen_set|].
  intros i Hi. destruct (He i Hi) as [Hb Hv]. unfold have in *. simpl.
  rewrite bit_mask_spec, bit_at_set, Hb by lia. split; [lia|].
  destruct (decide (offset + k = i)) as [Heq|Hne].
  - rewrite Heq, arr_get_eq by lia. replace (_ && _) with true by lia. f_equal. lia.
  - rewrite arr_get_ne, Hv by lia.
    by replace (i <? offset + (k + 1)) with (i <? offset + k) by lia.
Qed.

#[local] Arguments store_bytes : simpl never.
#[local] Arguments have : simpl never.

(** ** One datagram under construction *)

Definition size : Z := 65515.

(** The number of bytes marked. *)
Definition marked (e : ipv4_reassembly_entry_t) : Z := countb (have e) (seqZ 0 size).
#[local] Arguments marked : simpl never.

(** Entry [e] holds part of the datagram [d]: what is marked is right and counted,
    the length is known once the last byte is there, and the first fragment is
    noted once byte 0 is there. *)
Record progress (d : list Z) (e : ipv4_reassembly_entry_t) : Prop := {
  pr_sized : sized e;
  pr_valid : valid e = true;
  pr_bytes : forall i, 0 <= i < size -> have e i = true -> i < zlen d /\ (payload e).[i] = d.[i];
  pr_received : received e = marked e;
  pr_total : total_length e = 0 \/ total_length e = zlen d;
  pr_last : have e (zlen d - 1) = true -> total_length e = zlen d;
  pr_first : have e 0 = true -> first_fragment e = true;
}.

Definition in_fragment (f : Z * Z) (i : Z) : bool := (f.1 <=? i) && (i <? f.1 + f.2).

(** [f] = (offset, length) is a fragment of [d] that a sender may produce. *)
Definition fragment_of (d : list Z) (f : Z * Z) : Prop :=
  0 <= f.1 /\ 0 < f.2 /\ f.1 + f.2 <= zlen d /\ (f.1 + f.2 < zlen d -> f.2 mod 8 = 0).

(** The entry right after the bytes of a fragment were stored. *)
Definition stored (d : list Z) (e : ipv4_reassembly_entry_t) (f : Z * Z) (now : Z)
    : ipv4_reassembly_entry_t :=
  let e1 := if f.1 + f.2 <? zlen d then e else e<| total_length := zlen d |> in
  let e2 := store_bytes e1 f.1 (drop (Z.to_nat f.1) d) f.2 in
  e2<| received := received e + f.2 |>
    <| first_fragment := if f.1 =? 0 then true else first_fragment e |><| last_seen := now |>.

Lemma stored_progress d e f now :
  progress d e -> fragment_of d f -> zlen d <= size ->
  (forall i, in_fragment f i = true -> have e i = false) ->
  progress d (stored d e f now) /\
  (forall i, 0 <= i < size -> have (stored d e f now) i = have e i || in_fragment f i).
Proof.
  intros [Hsz Hv Hb Hr Ht Hl Hf] (Ho & Hlen & Hend & _) Hd Hnew. unfold size in *.
  set (e1 := if f.1 + f.2 <? zlen d then e else e<| total_length := zlen d |>).
  assert (bitmap e1 = bitmap e /\ payload e1 = payload e /\ sized e1) as (Hbm & Hpl & Hsz1)
    by (unfold e1; by destruct (_ <? _)).
  destruct (store_bytes_spec e1 f.1 (drop (Z.to_nat f.1) d) f.2 Hsz1 Ho ltac:(lia) ltac:(lia))
    as (Hh & Hsz2 & Hst).
  assert (forall i, 0 <= i < 65515 -> have (stored d e f now) i = have e i || in_fragment f i) as Hhave.
  { intros i Hi. destruct (Hst i Hi) as [Hx _]. unfold have in *. rewrite Hbm in Hx. exact Hx. }
  set (e2 := store_bytes e1 f.1 (drop (Z.to_nat f.1) d) f.2) in *.
  assert (valid e2 = valid e1 /\ total_length e2 = total_length e1) as [Hv2 Ht2] by (by rewrite Hh).
  split; [|done]. constructor.
  - exact Hsz2.
  - change (valid e2 = true). rewrite Hv2. unfold e1. by destruct (_ <? _).
  - intros i Hi. rewrite Hhave by done. change (payload (stored d e f now)) with (payload e2).
    destruct (Hst i Hi) as [_ Hp]. rewrite Hpl in Hp. rewrite Hp.
    change ((f.1 <=? i) && (i <? f.1 + f.2)) with (in_fragment f i).
    destruct (in_fragment f i) eqn:E; [|rewrite orb_false_r; by apply Hb].
    intros _. unfold in_fragment in E. split; [lia|].
    rewrite !list_lookup_total_alt, lookup_drop. do 2 f_equal. lia.
  - change (received e + f.2 = marked (stored d e f now)). rewrite Hr. unfold marked, size.
    rewrite (countb_ext (have (stored d e f now)) (fun i => have e i || in_fragment f i)).
    + symmetry. apply countb_range_add; [lia..|]. intros i Hi. apply Hnew. unfold in_fragment. lia.
    + intros x Hx%elem_of_seqZ. apply Hhave. lia.
  - change (total_length (stored d e f now)) with (total_length e2). rewrite Ht2. unfold e1.
    case_if as E; [done|by right].
  - change (total_length (stored d e f now)) with (total_length e2). rewrite Ht2.
    rewrite Hhave by lia. intros Hlast. unfold e1. unfold in_fragment in Hlast.
    case_if as E; [|done]. apply Hl. lia.
  - rewrite Hhave by lia. unfold in_fragment.
    change (first_fragment (stored d e f now)) with (if f.1 =? 0 then true else first_fragment e).
    case_if as E; [done|]. intros Hz. apply Hf. lia.
Qed.

(** Complete or not: the count decides. *)
Lemma progress_complete d e :
  progress d e -> 0 < zlen d <= size ->
  received e <= zlen d /\
  (received e = zlen d -> first_fragment e = true /\ total_length e = zlen d /\
     take (Z.to_nat (zlen d)) (payload e) = d).
Proof.
  intros [Hsz Hv Hb Hr Ht Hl Hf] Hd.
  assert (received e <= zlen d) as Hle.
  { rewrite Hr. unfold marked. replace size with (zlen d + (size - zlen d)) by lia.
    rewrite seqZ_app, countb_app by lia.
    rewrite (proj2 (countb_zero _ (seqZ (0 + zlen d) _))).
    - pose proof (countb_range_bounds (have e) (zlen d)). lia.
    - intros j x Hx%lookup_seqZ. destruct (have e x) eqn:E; [|done]. apply Hb in E; lia. }
  split; [done|]. intros Heq. rewrite Hr in Heq. unfold marked in Heq.
  assert (forall i, 0 <= i < zlen d -> have e i = true) as Hall.
  { apply (countb_range_full _ size); [lia| |done]. intros i Hi Hx. by apply Hb. }
  split; [apply Hf, Hall; lia|]. split; [apply Hl, Hall; lia|].
  destruct Hsz as (Hpl & _). unfold IPV4_REASSEMBLY_MAX_PAYLOAD, size in *.
  apply list_eq. intros i. unfold zlen in *.
  destruct (decide (i < length d)%nat) as [Hi|Hi].
  - rewrite lookup_take_lt by lia. rewrite !list_lookup_lookup_total_lt by lia. f_equal.
    destruct (Hb (Z.of_nat i)) as [_ Hx]; [lia|apply Hall; lia|]. by rewrite Nat2Z.id in Hx.
  - rewrite (lookup_ge_None_2 d) by lia. apply lookup_ge_None_2. rewrite length_take. lia.
Qed.

Lemma add_to_entry_spec d e f now output capacity :
  progress d e -> fragment_of d f -> 0 < zlen d <= size ->
  (forall i, in_fragment f i = true -> have e i = false) ->
  zlen d <= capacity <= zlen output ->
  add_to_entry e f.1 (f.1 + f.2 <? zlen d) (drop (Z.to_nat f.1) d) f.2 now output capacity =
  if received e + f.2 =? zlen d
  then (Some (d ++ drop (Z.to_nat (zlen d)) output, zlen d), clear_entry (stored d e f now))
  else (None, stored d e f now).
Proof.
  intros Hpr Hfr Hd Hnew Hcap. destruct (stored_progress d e f now Hpr Hfr ltac:(lia) Hnew) as [Hpr' _].
  destruct (progress_complete d e Hpr Hd) as [Hle _].
  destruct (progress_complete d _ Hpr' Hd) as [Hle' Hdone].
  destruct Hfr as (Ho & Hlen & Hend & Hmod). pose proof (pr_total d e Hpr) as Ht.
  unfold size in *. unfold add_to_entry. cbv zeta.
  replace (_ || _) with false by lia.
  rewrite (wrap_small 16) by (widths; lia).
  assert ((if negb (f.1 + f.2 <? zlen d) then e<| total_length := f.1 + f.2 |> else e) =
          if f.1 + f.2 <? zlen d then e else e<| total_length := zlen d |>) as ->.
  { destruct (f.1 + f.2 <? zlen d) eqn:E; [done|]. simpl. by replace (f.1 + f.2) with (zlen d) by lia. }
  set (e1 := if f.1 + f.2 <? zlen d then e else _).
  assert (received e1 = received e /\ first_fragment e1 = first_fragment e /\
          bitmap e1 = bitmap e /\ sized e1) as (Hr1 & Hf1 & Hb1 & Hsz1).
  { pose proof (pr_sized d e Hpr). unfold e1. by destruct (_ <? _). }
  assert (find_z f.1 (f.1 + f.2)
    (fun i => negb (Z.land ((bitmap e1).[i / 8]) (bit_mask i) =? 0)) = None) as ->.
  { apply find_z_None. intros i Hi. rewrite (have_test e1) by lia. unfold have. rewrite Hb1.
    apply Hnew. unfold in_fragment. lia. }
  destruct (store_bytes_spec e1 f.1 (drop (Z.to_nat f.1) d) f.2 Hsz1 Ho ltac:(lia) ltac:(lia))
    as (Hh & _ & _).
  set (e2 := store_bytes e1 _ _ _) in *. rewrite (wrap_small 32).
  2: { rewrite Hh. simpl. rewrite Hr1, (pr_received d e Hpr). unfold marked.
       pose proof (countb_range_bounds (have e) size). unfold size in *. widths. lia. }
  assert ((if f.1 =? 0 then (e2<| received := received e2 + f.2 |>)<| first_fragment := true |>
           else e2<| received := received e2 + f.2 |>)<| last_seen := now |> = stored d e f now) as ->.
  { unfold stored. fold e1. fold e2. simpl. rewrite Hh. simpl. rewrite Hr1, <- Hf1. by case_if as E. }
  clearbody e1 e2. assert (received (stored d e f now) = received e + f.2) as Hrs by done.
  pose proof (pr_sized d _ Hpr') as [Hpl _]. pose proof (pr_total d _ Hpr') as Htot.
  unfold IPV4_REASSEMBLY_MAX_PAYLOAD in Hpl.
  set (s := stored d e f now) in *. clearbody s. rewrite Hrs.
  destruct (received e + f.2 =? zlen d) eqn:E.
  - destruct Hdone as (-> & Htl & Htk); [lia|]. rewrite Htl, E.
    replace (_ || _) with false by lia. do 3 f_equal. rewrite copy_bytes_spec by lia.
    simpl. by rewrite Htk.
  - replace (_ || _) with true; [done|]. destruct (first_fragment s); lia.
Qed.

(** ** The table *)

(** The fragments of one datagram, given by offset and length, as they arrive. *)
Section datagram.
Context (d : list Z) (ident proto : Z) (src dst : list Z) (now : Z) (output : list Z) (capacity : Z).

Fixpoint feed (t : ipv4_reassembly_table_t) (fs : list (Z * Z)) : list (option (list Z * Z)) :=
  match fs with
  | [] => []
  | f :: fs =>
      let '(out, t) := ipv4_reassembly_add t ident src dst proto f.1 (f.1 + f.2 <? zlen d)
                         (drop (Z.to_nat f.1) d) f.2 now 0 output capacity in
      out :: feed t fs
  end.

Abbreviation is_ours e := (same_datagram e ident src dst proto).

Definition ours (e : ipv4_reassembly_entry_t) : Prop :=
  identification e = ident /\ protocol e = proto /\ source e = src /\ destination e = dst.

(** Slot [s] and no other is for this datagram. *)
Definition slot_of (t : ipv4_reassembly_table_t) (s : Z) : Prop :=
  zlen t = 4 /\ 0 <= s < 4 /\ ours (t.[s]) /\
  forall i, 0 <= i < 4 -> i <> s -> is_ours (t.[i]) = false.

Lemma expire_off t : expire_entries t now 0 = t.
Proof.
  unfold expire_entries. apply (for_z_ind (fun _ t' => t' = t)); [done..|].
  intros i t' _ ->. by replace (_ && _) with false by lia.
Qed.

Lemma ours_test e :
  zlen src = 4 -> zlen dst = 4 -> ours e -> valid e = true -> is_ours e = true.
Proof.
  unfold same_datagram. intros Hs Hd (-> & -> & -> & ->) ->. rewrite !Z.eqb_refl. simpl.
  rewrite (proj2 (address_equal_spec src src Hs Hs) eq_refl).
  by rewrite (proj2 (address_equal_spec dst dst Hd Hd) eq_refl).
Qed.

(** The slot is found again. *)
Lemma scan_ours t s :
  zlen src = 4 -> zlen dst = 4 -> slot_of t s -> valid (t.[s]) = true ->
  scan_slots 4 (fun i => is_ours (t.[i])) (fun i => valid (t.[i])) (fun i => last_seen (t.[i])) = s.
Proof.
  intros Hs Hd (Hl & Hsr & Ho & Hne) Hv.
  destruct (scan_slots_spec 4 (fun i => is_ours (t.[i])) (fun i => valid (t.[i]))
    (fun i => last_seen (t.[i])) ltac:(lia)) as [Hr Hcase].
  destruct (decide (scan_slots 4 (fun i => is_ours (t.[i])) (fun i => valid (t.[i]))
    (fun i => last_seen (t.[i])) = s)) as [|Hne']; [done|].
  destruct Hcase as [Hm|[Hnone _]].
  - rewrite Hne in Hm by done. done.
  - specialize (Hnone s Hsr). by rewrite ours_test in Hnone.
Qed.

(** The entry that the next fragment will be added to, in slot [s]. *)
Record ready (t : ipv4_reassembly_table_t) (s : Z) (e : ipv4_reassembly_entry_t) : Prop := {
  rd_table : zlen t = 4 /\ 0 <= s < 4;
  rd_slot : scan_slots 4 (fun i => is_ours (t.[i])) (fun i => valid (t.[i]))
              (fun i => last_seen (t.[i])) = s;
  rd_entry : (if negb (valid (t.[s])) then start_entry (t.[s]) ident src dst proto else t.[s]) = e;
  rd_others : forall i, 0 <= i < 4 -> i <> s -> is_ours (t.[i]) = false;
  rd_ours : ours e;
}.

Lemma add_ready t s e f :
  ready t s e -> fragment_of d f -> zlen d <= size ->
  ipv4_reassembly_add t ident src dst proto f.1 (f.1 + f.2 <? zlen d)
    (drop (Z.to_nat f.1) d) f.2 now 0 output capacity =
  let '(out, e') := add_to_entry e f.1 (f.1 + f.2 <? zlen d) (drop (Z.to_nat f.1) d) f.2 now
                      output capacity in (out, t.[s <- e']).
Proof.
  intros [_ Hslot He _ _] (Ho & Hlen & Hend & Hmod) Hd.
  unfold ipv4_reassembly_add, IPV4_REASSEMBLY_MAX_PAYLOAD, IPV4_REASSEMBLY_SLOTS, size in *.
  replace (_ || _) with false.
  2: { change 7 with (Z.ones 3). rewrite Z.land_ones by lia. change (2 ^ 3) with 8. lia. }
  rewrite expire_off, Hslot, He. done.
Qed.

Lemma start_progress e :
  sized e -> zlen src = 4 -> zlen dst = 4 -> 0 < zlen d <= size ->
  let e' := start_entry e ident src dst proto in
  progress d e' /\ ours e' /\ received e' = 0 /\ forall i, 0 <= i < size -> have e' i = false.
Proof.
  intros (Hpl & Hbm & Hss & Hsd) Hs Hd Hsize.
  set (e' := start_entry e ident src dst proto).
  assert (forall i, 0 <= i < size -> have e' i = false) as Hno.
  { intros i Hi. unfold have, e', size, IPV4_REASSEMBLY_BITMAP_SIZE in *. simpl.
    unfold IPV4_REASSEMBLY_BITMAP_SIZE. rewrite bit_at_fill by lia. apply Z.testbit_0_l. }
  assert (ours e' /\ sized e') as [Ho Hsz].
  { unfold ours, sized, e', IPV4_REASSEMBLY_BITMAP_SIZE in *. simpl. rewrite !copy_whole by done.
    rewrite fill_loop_len. done. }
  assert (valid e' = true /\ received e' = 0 /\ total_length e' = 0) as (Hv & Hr & Ht)
    by (split_and!; reflexivity).
  clearbody e'. split; [|done]. constructor.
  - exact Hsz.
  - exact Hv.
  - intros i Hi Hx. by rewrite Hno in Hx.
  - rewrite Hr. unfold marked. symmetry. apply countb_zero. intros j x Hx%lookup_seqZ. apply Hno. lia.
  - by left.
  - rewrite Hno by lia. done.
  - rewrite Hno by done. done.
Qed.

Definition disjoint (f g : Z * Z) : Prop := forall i, in_fragment f i && in_fragment g i = false.

Definition total_size (fs : list (Z * Z)) : Z := foldr (fun f n => f.2 + n) 0 fs.

Lemma total_size_pos fs :
  Forall (fragment_of d) fs -> 0 <= total_size fs /\ (fs <> [] -> 0 < total_size fs).
Proof. induction 1 as [|f fs (? & ? & _) _ [IH _]]; simpl; [done|]. split; lia. Qed.

Lemma ready_stored t s e f :
  zlen src = 4 -> zlen dst = 4 -> ready t s e -> progress d e -> fragment_of d f ->
  zlen d <= size -> (forall i, in_fragment f i = true -> have e i = false) ->
  ready (t.[s <- stored d e f now]) s (stored d e f now).
Proof.
  intros Hs Hd [(Hl & Hsr) Hslot He Hoth Ho] Hpr Hfr Hsz Hnew.
  destruct (stored_progress d e f now Hpr Hfr Hsz Hnew) as [Hpr' _].
  pose proof (pr_valid _ _ Hpr') as Hv.
  assert (ours (stored d e f now)) as Ho'.
  { destruct Hfr as (Ho1 & Hlen & Hend & _). pose proof (pr_sized _ _ Hpr) as Hsized. unfold stored, size in *.
    set (e1 := if _ <? _ then _ else _).
    assert (ours e1 /\ sized e1) as [Ho1' Hsz1] by (unfold e1; by destruct (_ <? _)).
    destruct (store_bytes_spec e1 f.1 (drop (Z.to_nat f.1) d) f.2) as (Hh & _); [done|lia..|].
    unfold ours. cbv zeta. by rewrite Hh. }
  set (e' := stored d e f now) in *. clearbody e'.
  assert ((t.[s <- e']).[s] = e') as Hget by (apply arr_get_eq; lia).
  assert (forall i, 0 <= i < 4 -> i <> s -> is_ours ((t.[s <- e']).[i]) = false) as Hoth'
    by (intros i Hi Hne; rewrite arr_get_ne by lia; by apply Hoth).
  constructor; [by rewrite zlen_set| |by rewrite Hget, Hv|done|done].
  apply scan_ours; [done|done| |by rewrite Hget]. split_and!; try lia; [by rewrite zlen_set|..|done].
  by rewrite Hget.
Qed.

Lemma feed_ready fs t s e :
  zlen src = 4 -> zlen dst = 4 -> ready t s e -> progress d e -> 0 < zlen d <= size ->
  zlen d <= capacity <= zlen output ->
  Forall (fragment_of d) fs -> ForallOrdPairs disjoint fs ->
  Forall (fun f => forall i, in_fragment f i = true -> have e i = false) fs ->
  fs <> [] -> received e + total_size fs = zlen d ->
  feed t fs = replicate (length fs - 1) None ++
              [Some (d ++ drop (Z.to_nat (zlen d)) output, zlen d)].
Proof.
  intros Hs Hd Hrd Hpr Hsize Hcap Hfs Hdis Hnew Hne Htot. revert t e Hrd Hpr Hdis Hnew Hne Htot.
  induction Hfs as [|f fs Hf Hfs IH]; intros t e Hrd Hpr Hdis Hnew Hne Htot; [done|].
  inversion Hdis as [|? ? Hdf Hdis']; subst. apply Forall_cons in Hnew as [Hnf Hnfs].
  destruct (total_size_pos fs Hfs) as [Hnn Hpos].
  destruct (stored_progress d e f now Hpr Hf ltac:(lia) Hnf) as [Hpr' Hhave].
  cbn [feed]. rewrite (add_ready t s e f), add_to_entry_spec by (done || lia).
  change (total_size (f :: fs)) with (f.2 + total_size fs) in Htot.
  destruct (decide (fs = [])) as [->|Hfs0].
  { simpl in *. by replace (_ =? _) with true by lia. }
  specialize (Hpos Hfs0). replace (_ =? _) with false by lia.
  rewrite (IH _ (stored d e f now)); [| |done..| |done|].
  - replace (length (f :: fs) - 1)%nat with (S (length fs - 1)); [done|].
    destruct fs; [done|]. simpl. lia.
  - by apply ready_stored; (done || lia).
  - apply Forall_forall. intros g Hg i Hi. rewrite Forall_forall in Hfs, Hdf, Hnfs.
    destruct (Hfs g Hg) as (? & ? & ? & _). unfold size in *.
    rewrite Hhave by (unfold in_fragment in Hi; lia). rewrite (Hnfs g Hg i Hi). simpl.
    specialize (Hdf g Hg i). rewrite Hi in Hdf. by rewrite andb_true_r in Hdf.
  - change (received (stored d e f now)) with (received e + f.2). lia.
Qed.

(** ** Theorem *)


End datagram.

(** ** What the code does not get right *)

(** Only the number of bytes received is compared with the datagram length that the
    final fragment announces, not which bytes they are.  When as many bytes as are
    missing before the final fragment were received elsewhere, the datagram is
    delivered with whatever the buffer held at the positions never received. *)
Theorem reassembly_accepts_gap e offset pl plen now output capacity i :
  sized e -> total_length e = 0 -> first_fragment e = true -> received e = offset ->
  0 < offset -> 0 < plen -> offset + plen <= size ->
  (forall j, offset <= j < offset + plen -> have e j = false) ->
  offset + plen <= capacity <= zlen output ->
  0 <= i < offset -> have e i = false ->
  exists out e',
    add_to_entry e offset false pl plen now output capacity = (Some (out, offset + plen), e') /\
    out.[i] = (payload e).[i].
Proof.
  intros Hsz Ht Hf Hr Ho Hp Hmax Hnew Hcap Hi _. unfold add_to_entry, size in *. rewrite Ht.
  change (0 =? 0) with true. cbn [negb andb orb]. cbv zeta. rewrite (wrap_small 16) by (widths; lia).
  set (e1 := e<| total_length := offset + plen |>).
  rewrite (proj2 (find_z_None _ _ _)).
  2: { intros j Hj. change (bitmap e1) with (bitmap e). rewrite have_test by lia. by apply Hnew. }
  destruct (store_bytes_spec e1 offset pl plen Hsz ltac:(lia) ltac:(lia) ltac:(lia))
    as (Hh & (Hpl & _) & Hst).
  set (e2 := store_bytes e1 offset pl plen) in *.
  assert (received e2 = offset /\ first_fragment e2 = true /\ total_length e2 = offset + plen)
    as (Hr2 & Hf2 & Ht2) by (by rewrite Hh).
  replace (offset =? 0) with false by lia. simpl. rewrite Hr2, Hf2, Ht2.
  rewrite (wrap_small 32) by (widths; lia). simpl. replace (_ || _) with false by lia.
  eexists _, _. split; [done|]. unfold IPV4_REASSEMBLY_MAX_PAYLOAD in Hpl.
  rewrite copy_bytes_spec by lia. simpl. destruct (Hst i ltac:(lia)) as [_ Hpi].
  rewrite lookup_total_app_l by len.
  rewrite list_lookup_total_alt, lookup_take_lt, <- list_lookup_total_alt, Hpi by lia.
  by replace (_ && _) with false by lia.
Qed.


(** ** Examples *)

Definition zeros (n : Z) : list Z := replicate (Z.to_nat n) 0.

Lemma zlen_zeros n : 0 <= n -> zlen (zeros n) = n.
Proof. intros. unfold zlen, zeros. rewrite length_replicate. by apply Z2Nat.id. Qed.

Lemma bit_at_zeros n i : 0 <= i < 8 * n -> bit_at (zeros n) i = false.
Proof.
  intros. unfold bit_at, zeros. rewrite lookup_total_replicate_2 by zlia. apply Z.testbit_0_l.
Qed.
#[local] Opaque zeros store_bytes.

Definition blank (valid_ : bool) (ident : Z) : ipv4_reassembly_entry_t :=
  {| valid := valid_; first_fragment := false; protocol := 17; source := [10; 0; 0; 9];
     destination := [10; 0; 0; 1]; identification := ident; total_length := 0; received := 0;
     last_seen := 0; payload := zeros IPV4_REASSEMBLY_MAX_PAYLOAD;
     bitmap := zeros IPV4_REASSEMBLY_BITMAP_SIZE |}.

Lemma blank_sized v ident : sized (blank v ident).
Proof. unfold sized. simpl. by rewrite !zlen_zeros. Qed.

Lemma blank_have v ident i : 0 <= i < size -> have (blank v ident) i = false.
Proof. intros Hi. apply bit_at_zeros. unfold size, IPV4_REASSEMBLY_BITMAP_SIZE in *. lia. Qed.

Lemma replicate_get (e : ipv4_reassembly_entry_t) i : 0 <= i < 4 -> (replicate 4 e).[i] = e.
Proof. intros. by rewrite lookup_total_replicate_2 by lia. Qed.


(** Bytes 0 to 7 and 24 to 31 received, then a final fragment for 16 to 23. *)
Definition example_gap : ipv4_reassembly_entry_t :=
  (store_bytes (store_bytes (blank true 513) 0 (replicate 8 1) 8) 24 (replicate 8 1) 8)
    <| received := 16 |><| first_fragment := true |>.

Lemma have_fields e r f i : have (e<| received := r |><| first_fragment := f |>) i = have e i.
Proof. done. Qed.

Lemma sized_fields e r f : sized e -> sized (e<| received := r |><| first_fragment := f |>).
Proof. done. Qed.

Lemma total_fields e r f :
  total_length (e<| received := r |><| first_fragment := f |>) = total_length e.
Proof. done. Qed.

Lemma store_total e offset pl plen :
  sized e -> 0 <= offset -> 0 <= plen -> offset + plen <= 65515 ->
  total_length (store_bytes e offset pl plen) = total_length e.
Proof. intros ? ? ? ?. by destruct (store_bytes_spec e offset pl plen) as (-> & _). Qed.

Lemma reassembly_accepts_gap_witness :
  exists out e', have example_gap 8 = false /\
    add_to_entry example_gap 16 false (replicate 8 2) 8 0 (replicate 100 0) 100 = (Some (out, 24), e').
Proof.
  destruct (store_bytes_spec (blank true 513) 0 (replicate 8 1) 8 (blank_sized true 513))
    as (Hh1 & Hs1 & Hb1); [done..|].
  destruct (store_bytes_spec _ 24 (replicate 8 1) 8 Hs1) as (Hh2 & Hs2 & Hb2); [done..|].
  assert (forall i, 0 <= i < 65515 -> have example_gap i =
    ((0 <=? i) && (i <? 8)) || ((24 <=? i) && (i <? 32))) as Hhave.
  { intros i Hi. unfold example_gap. rewrite have_fields.
    destruct (Hb2 i Hi) as [-> _], (Hb1 i Hi) as [-> _]. by rewrite blank_have. }
  assert (total_length example_gap = 0) as Ht.
  { unfold example_gap. rewrite total_fields, !store_total by (done || apply blank_sized).
    reflexivity. }
  destruct (reassembly_accepts_gap example_gap 16 (replicate 8 2) 8 0 (replicate 100 0) 100 8
    (sized_fields _ _ _ Hs2) Ht eq_refl eq_refl) as (out & e' & He & _); [lia|lia| | | |lia| |].
  - unfold size. lia.
  - intros j Hj. rewrite Hhave by lia. lia.
  - split; [lia|]. vm_compute. congruence.
  - rewrite Hhave by lia. reflexivity.
  - exists out, e'. split; [rewrite Hhave by lia; reflexivity|exact He].
Defined.


End Reassembly.
