(* ===== verification/UdpEndpoint.v ===== *)
(** * UDP endpoints (kernel/drivers/network/udp_endpoint.c)

    A table of bound local addresses and ports, each with a ring of received
    datagrams.  Every operation runs under the table's lock and is one atomic
    step.  A handle is the slot number plus one. *)

From S2P Require Import Prelude Ring NetBytes.

Module UdpEndpoint.

Definition UDP_ENDPOINT_CAPACITY : Z := 16.
Definition UDP_ENDPOINT_QUEUE_CAPACITY : Z := 8.
Definition UDP_ENDPOINT_PAYLOAD_MAX : Z := 1500.

Record udp_datagram_t := {
  source_address : list Z;
  source_port : Z;
  length : Z;
  payload : list Z;
}.

#[export] Instance udp_datagram_inhabited : Inhabited udp_datagram_t :=
  populate {| source_address := []; source_port := 0; length := 0; payload := [] |}.

Record udp_endpoint_t := {
  valid : bool;
  local_address : list Z;
  local_port : Z;
  queue : list udp_datagram_t;
  head : Z;
  tail : Z;
  count : Z;
  dropped : Z;
}.

#[export] Instance eta_udp_endpoint : Eta udp_endpoint_t := fun e => {|
  valid := valid e; local_address := local_address e; local_port := local_port e;
  queue := queue e; head := head e; tail := tail e; count := count e; dropped := dropped e |}.
#[export] Instance udp_endpoint_inhabited : Inhabited udp_endpoint_t :=
  populate {| valid := false; local_address := []; local_port := 0; queue := []; head := 0;
              tail := 0; count := 0; dropped := 0 |}.

Abbreviation udp_endpoint_table_t := (list udp_endpoint_t).

(** The slot of a handle. *)
Definition endpoint_for (t : udp_endpoint_table_t) (handle : Z) : option Z :=
  if (handle =? 0) || (UDP_ENDPOINT_CAPACITY <? handle) then None
  else if valid (t.[handle - 1]) then Some (handle - 1) else None.

Definition udp_endpoint_table_initialize (t : udp_endpoint_table_t) : udp_endpoint_table_t :=
  for_z 0 UDP_ENDPOINT_CAPACITY (fun i t => t.[i <- (t.[i])<| valid := false |>]) t.

(** The endpoint already owns the address and port. *)
Definition conflicts (e : udp_endpoint_t) (address : list Z) (port : Z) : bool :=
  valid e && (local_port e =? port)
  && (wildcard address || wildcard (local_address e) || address_equal (local_address e) address).

Definition udp_endpoint_bind (t : udp_endpoint_table_t) (address : list Z) (port : Z)
    : option Z * udp_endpoint_table_t :=
  if port =? 0 then (None, t)
  else
    match find_z 0 UDP_ENDPOINT_CAPACITY (fun i => conflicts (t.[i]) address port) with
    | Some _ => (None, t)
    | None =>
        match find_z 0 UDP_ENDPOINT_CAPACITY (fun i => negb (valid (t.[i]))) with
        | Some i =>
            let e := t.[i] in
            (Some (i + 1),
             t.[i <- e<| valid := true |>
                      <| local_address := copy_bytes (local_address e) 0 address 4 |>
                      <| local_port := port |><| head := 0 |><| tail := 0 |><| count := 0 |>
                      <| dropped := 0 |>])
        | None => (None, t)
        end
    end.

Definition udp_endpoint_unbind (t : udp_endpoint_table_t) (handle : Z)
    : bool * udp_endpoint_table_t :=
  match endpoint_for t handle with
  | None => (false, t)
  | Some i => (true, t.[i <- (t.[i])<| valid := false |>])
  end.

(** The loop that looks for the receiver: an endpoint bound to the address ends it,
    the last wildcard endpoint is remembered. *)
Definition find_step (t : udp_endpoint_table_t) (address : list Z) (port : Z) (i : Z)
    (s : option Z * option Z) : option Z * option Z :=
  let '(endpoint, wild) := s in
  if bool_decide (is_Some endpoint) then s
  else
    let candidate := t.[i] in
    if negb (valid candidate) || negb (local_port candidate =? port) then s
    else if address_equal (local_address candidate) address then (Some i, wild)
    else if wildcard (local_address candidate) then (endpoint, Some i)
    else s.

Definition find_endpoint (t : udp_endpoint_table_t) (address : list Z) (port : Z) : option Z :=
  let '(endpoint, wild) := for_z 0 UDP_ENDPOINT_CAPACITY (find_step t address port) (None, None) in
  if bool_decide (is_Some endpoint) then endpoint else wild.

(** Storing a datagram in the queue of an endpoint. *)
Definition enqueue (e : udp_endpoint_t) (src : list Z) (sport : Z) (pl : list Z) (len : Z)
    : udp_endpoint_t :=
  let datagram := (queue e).[tail e] in
  let datagram := {| source_address := copy_bytes (source_address datagram) 0 src 4;
                     source_port := sport; length := len;
                     payload := copy_bytes (payload datagram) 0 pl len |} in
  e<| queue := (queue e).[tail e <- datagram] |>
   <| tail := u32 (tail e + 1) mod UDP_ENDPOINT_QUEUE_CAPACITY |>
   <| count := u32 (count e + 1) |>.

Definition udp_endpoint_deliver (t : udp_endpoint_table_t) (dst : list Z) (dport : Z)
    (src : list Z) (sport : Z) (pl : option (list Z)) (len : Z) : bool * udp_endpoint_table_t :=
  if bool_decide (pl = None) || (dport =? 0) || (sport =? 0) || (len =? 0)
     || (UDP_ENDPOINT_PAYLOAD_MAX <? len) then (false, t)
  else
    match find_endpoint t dst dport with
    | None => (false, t)
    | Some i =>
        let e := t.[i] in
        if count e =? UDP_ENDPOINT_QUEUE_CAPACITY then
          (false, t.[i <- e<| dropped := u32 (dropped e + 1) |>])
        else (true, t.[i <- enqueue e src sport (data pl) len])
    end.

(** Returns the source address, the source port, the caller's buffer and the length. *)
Definition udp_endpoint_receive (t : udp_endpoint_table_t) (handle : Z) (src : list Z)
    (pl : list Z) (capacity : Z) : option (list Z * Z * list Z * Z) * udp_endpoint_table_t :=
  match endpoint_for t handle with
  | None => (None, t)
  | Some i =>
      let e := t.[i] in
      let datagram := (queue e).[head e] in
      if (count e =? 0) || (capacity <? length datagram) then (None, t)
      else
        (Some (copy_bytes src 0 (source_address datagram) 4, source_port datagram,
               copy_bytes pl 0 (payload datagram) (length datagram), length datagram),
         t.[i <- e<| head := u32 (head e + 1) mod UDP_ENDPOINT_QUEUE_CAPACITY |>
                  <| count := u32 (count e - 1) |>])
  end.

Definition udp_endpoint_dropped (t : udp_endpoint_table_t) (handle : Z) : Z :=
  match endpoint_for t handle with Some i => dropped (t.[i]) | None => 0 end.

(** ** Invariant and abstraction *)

Definition datagram_ok (d : udp_datagram_t) : Prop :=
  zlen (source_address d) = 4 /\ zlen (payload d) = UDP_ENDPOINT_PAYLOAD_MAX /\
  0 <= length d <= UDP_ENDPOINT_PAYLOAD_MAX.

Record endpoint_ok (e : udp_endpoint_t) : Prop := {
  ok_address : zlen (local_address e) = 4;
  ok_queue : zlen (queue e) = UDP_ENDPOINT_QUEUE_CAPACITY;
  ok_datagrams : Forall datagram_ok (queue e);
  ok_ring : valid e = true -> ring_ok 8 (queue e) (head e) (tail e) (count e);
}.

(** Every slot is well formed, and no address and port is owned twice: two endpoints
    on one port have different addresses, neither of them the wildcard. *)
Record table_ok (t : udp_endpoint_table_t) : Prop := {
  ok_length : zlen t = UDP_ENDPOINT_CAPACITY;
  ok_endpoints : Forall endpoint_ok t;
  ok_distinct : forall i j, 0 <= i < 16 -> 0 <= j < 16 -> i <> j ->
    valid (t.[i]) = true -> valid (t.[j]) = true -> local_port (t.[i]) = local_port (t.[j]) ->
    wildcard (local_address (t.[i])) = false /\ local_address (t.[i]) <> local_address (t.[j]);
}.

(** ** The specification: sixteen mailboxes

    A mailbox owns an address and port and holds at most eight messages; a message is
    a source address, a source port and a payload. *)

Record mailbox := {
  mb_address : list Z;
  mb_port : Z;
  mb_messages : list (list Z * Z * list Z);
  mb_dropped : Z;
}.
#[export] Instance eta_mailbox : Eta mailbox := fun b => {|
  mb_address := mb_address b; mb_port := mb_port b; mb_messages := mb_messages b;
  mb_dropped := mb_dropped b |}.

(** The mailbox overlaps the address and port. *)
Definition overlaps (address : list Z) (port : Z) (m : option mailbox) : bool :=
  match m with
  | None => false
  | Some b => (mb_port b =? port) &&
      (wildcard address || wildcard (mb_address b) || bool_decide (mb_address b = address))
  end.

(** The mailbox takes the datagrams for the address and port. *)
Definition takes (address : list Z) (port : Z) (m : option mailbox) : bool :=
  match m with
  | None => false
  | Some b => (mb_port b =? port) &&
      (bool_decide (mb_address b = address) || wildcard (mb_address b))
  end.

Inductive op :=
  | Bind (address : list Z) (port : Z)
  | Unbind (handle : Z)
  | Deliver (dst : list Z) (dport : Z) (src : list Z) (sport : Z) (pl : option (list Z)) (len : Z)
  | Receive (handle : Z) (src pl : list Z) (capacity : Z)
  | Dropped (handle : Z).

Inductive answer :=
  | Handle (h : option Z)
  | Done (ok : bool)
  | Message (m : option (list Z * Z * list Z))
  | Count (n : Z).

Definition box_of (m : list (option mailbox)) (handle : Z) : option (Z * mailbox) :=
  if (1 <=? handle) && (handle <=? 16) then pair (handle - 1) <$> m.[handle - 1] else None.

Definition spec_step (o : op) (m : list (option mailbox)) : answer * list (option mailbox) :=
  match o with
  | Bind address port =>
      if (port =? 0) || existsb (overlaps address port) m then (Handle None, m)
      else
        match find_first (fun b => bool_decide (b = None)) m with
        | None => (Handle None, m)
        | Some i =>
            (Handle (Some (Z.of_nat i + 1)),
             <[i := Some {| mb_address := address; mb_port := port; mb_messages := [];
                            mb_dropped := 0 |}]> m)
        end
  | Unbind handle =>
      match box_of m handle with
      | None => (Done false, m)
      | Some (i, _) => (Done true, m.[i <- None])
      end
  | Deliver dst dport src sport pl len =>
      if bool_decide (pl = None) || (dport =? 0) || (sport =? 0) || (len =? 0) || (1500 <? len)
      then (Done false, m)
      else
        match find_first (takes dst dport) m with
        | None => (Done false, m)
        | Some i =>
            match m !!! i with
            | None => (Done false, m)
            | Some b =>
                if zlen (mb_messages b) <? 8 then
                  (Done true,
                   <[i := Some (b<| mb_messages :=
                                    mb_messages b ++ [(src, sport, take (Z.to_nat len) (data pl))] |>)]> m)
                else (Done false, <[i := Some (b<| mb_dropped := u32 (mb_dropped b + 1) |>)]> m)
            end
        end
  | Receive handle _ _ capacity =>
      match box_of m handle with
      | None => (Message None, m)
      | Some (i, b) =>
          match mb_messages b with
          | [] => (Message None, m)
          | ((_, _, bytes) as x) :: rest =>
              if zlen bytes <=? capacity then
                (Message (Some x), m.[i <- Some (b<| mb_messages := rest |>)])
              else (Message None, m)
          end
      end
  | Dropped handle => (Count (match box_of m handle with Some (_, b) => mb_dropped b | None => 0 end), m)
  end.

Definition impl_step (o : op) (t : udp_endpoint_table_t) : answer * udp_endpoint_table_t :=
  match o with
  | Bind address port => let '(h, t') := udp_endpoint_bind t address port in (Handle h, t')
  | Unbind handle => let '(b, t') := udp_endpoint_unbind t handle in (Done b, t')
  | Deliver dst dport src sport pl len =>
      let '(b, t') := udp_endpoint_deliver t dst dport src sport pl len in (Done b, t')
  | Receive handle src pl capacity =>
      let '(r, t') := udp_endpoint_receive t handle src pl capacity in
      (Message ((fun '(a, p, buf, n) => (a, p, take (Z.to_nat n) buf)) <$> r), t')
  | Dropped handle => (Count (udp_endpoint_dropped t handle), t)
  end.

Fixpoint run {S} (step : op -> S -> answer * S) (ops : list op) (s : S) : list answer :=
  match ops with
  | [] => []
  | o :: ops => let '(a, s') := step o s in a :: run step ops s'
  end.

(** What the callers guarantee: addresses of four bytes, buffers as long as they say. *)
Definition op_ok (o : op) : Prop :=
  match o with
  | Bind address port => zlen address = 4
  | Deliver dst _ src _ pl len =>
      zlen dst = 4 /\ zlen src = 4 /\ 0 <= len /\ (is_Some pl -> len <= zlen (data pl))
  | Receive handle src pl capacity =>
      0 <= handle /\ zlen src = 4 /\ 0 <= capacity <= zlen pl
  | Unbind handle | Dropped handle => 0 <= handle
  end.

(** The messages waiting at an endpoint, and the mailbox it implements. *)
Definition message (d : udp_datagram_t) : list Z * Z * list Z :=
  (source_address d, source_port d, take (Z.to_nat (length d)) (payload d)).
Definition inbox (e : udp_endpoint_t) : list (list Z * Z * list Z) :=
  message <$> ring_list 8 (queue e) (head e) (count e).
Definition mailbox_of (e : udp_endpoint_t) : option mailbox :=
  if valid e then
    Some {| mb_address := local_address e; mb_port := local_port e; mb_messages := inbox e;
            mb_dropped := dropped e |}
  else None.

(** ** Lemmas *)

Definition mailboxes (t : udp_endpoint_table_t) : list (option mailbox) := mailbox_of <$> t.

Lemma udp_slot_ok t i : table_ok t -> 0 <= i < 16 -> endpoint_ok (t.[i]).
Proof.
  intros [Hl He _] Hi. unfold UDP_ENDPOINT_CAPACITY in Hl.
  eapply Forall_lookup_1; [exact He|]. apply arr_lookup. lia.
Qed.

Lemma mailboxes_at t i : table_ok t -> 0 <= i < 16 -> (mailboxes t).[i] = mailbox_of (t.[i]).
Proof.
  intros [Hl _ _] Hi. unfold UDP_ENDPOINT_CAPACITY in Hl. unfold mailboxes.
  apply list_lookup_total_correct. rewrite list_lookup_fmap, arr_lookup by lia. done.
Qed.

(** The other endpoints do not overlap what slot [i] is to own. *)
Definition separate (t : udp_endpoint_table_t) (i : Z) (e : udp_endpoint_t) : Prop :=
  forall j, 0 <= j < 16 -> j <> i -> valid (t.[j]) = true -> local_port (t.[j]) = local_port e ->
  wildcard (local_address e) = false /\ wildcard (local_address (t.[j])) = false /\
  local_address e <> local_address (t.[j]).

Lemma table_update t i e :
  table_ok t -> 0 <= i < 16 -> endpoint_ok e -> (valid e = true -> separate t i e) ->
  table_ok (t.[i <- e]).
Proof.
  intros [Hl He Hd] Hi Hok Hs. split; [by rewrite zlen_set|by apply Forall_insert|].
  unfold UDP_ENDPOINT_CAPACITY in Hl.
  intros a b Ha Hb Hab. destruct (decide (a = i)) as [->|Hai]; [|destruct (decide (b = i)) as [->|Hbi]].
  - rewrite arr_get_eq, arr_get_ne by lia. intros Hv Hvb Hp.
    destruct (Hs Hv b) as (H1 & H2 & H3); auto.
  - rewrite arr_get_eq, arr_get_ne by lia. intros Hv Hve Hp.
    destruct (Hs Hve a) as (H1 & H2 & H3); auto.
  - rewrite !arr_get_ne by lia. by apply Hd.
Qed.

(** An update that keeps the owner of the slot. *)
Lemma table_update_same t i e :
  table_ok t -> 0 <= i < 16 -> endpoint_ok e -> valid (t.[i]) = true ->
  local_port e = local_port (t.[i]) -> local_address e = local_address (t.[i]) ->
  table_ok (t.[i <- e]).
Proof.
  intros Ht Hi He Hv Hp Ha. apply table_update; [done..|]. intros _ j Hj Hji Hvj Hpj.
  rewrite Ha. rewrite Hp in Hpj. split_and!.
  - by apply (ok_distinct t Ht i j).
  - by apply (ok_distinct t Ht j i).
  - by apply (ok_distinct t Ht i j).
Qed.

Lemma mailboxes_update t i e : mailboxes (t.[i <- e]) = (mailboxes t).[i <- mailbox_of e].
Proof. apply list_fmap_insert. Qed.

Lemma mailbox_None e : bool_decide (mailbox_of e = None) = negb (valid e).
Proof. unfold mailbox_of. by destruct (valid e). Qed.

Lemma address_equal_decide a b :
  zlen a = 4 -> zlen b = 4 -> address_equal a b = bool_decide (a = b).
Proof.
  intros Ha Hb. destruct (address_equal a b) eqn:E; symmetry.
  - apply bool_decide_eq_true. by apply address_equal_spec in E.
  - apply bool_decide_eq_false. intros Heq. apply address_equal_spec in Heq; [congruence|done..].
Qed.

Lemma conflicts_overlaps e address port :
  endpoint_ok e -> zlen address = 4 -> conflicts e address port = overlaps address port (mailbox_of e).
Proof.
  intros He Ha. unfold conflicts, mailbox_of, overlaps. destruct (valid e); [|done]. simpl.
  by rewrite address_equal_decide by (apply (ok_address e He) || done).
Qed.

Lemma box_of_spec t handle :
  table_ok t -> 0 <= handle ->
  box_of (mailboxes t) handle =
  match endpoint_for t handle with
  | Some i => pair i <$> mailbox_of (t.[i])
  | None => None
  end.
Proof.
  intros Ht Hh. unfold box_of, endpoint_for, UDP_ENDPOINT_CAPACITY.
  destruct ((handle =? 0) || (16 <? handle)) eqn:E.
  { by replace (_ && _) with false by lia. }
  replace (_ && _) with true by lia. rewrite mailboxes_at by (done || lia).
  unfold mailbox_of. destruct (valid (t.[handle - 1])) eqn:V; simpl; [by rewrite V|done].
Qed.

Lemma udp_endpoint_for_Some t handle i :
  0 <= handle -> endpoint_for t handle = Some i -> 0 <= i < 16 /\ valid (t.[i]) = true.
Proof.
  unfold endpoint_for, UDP_ENDPOINT_CAPACITY. intros Hh. case_if as E0; [done|].
  destruct (valid (t.[handle - 1])) eqn:E; [|done]. intros [= <-]. split; [lia|done].
Qed.

(** At most one endpoint takes the datagrams for an address and port. *)
Lemma takes_unique t a p i j :
  table_ok t -> 0 <= i < 16 -> 0 <= j < 16 ->
  takes a p (mailbox_of (t.[i])) = true -> takes a p (mailbox_of (t.[j])) = true -> i = j.
Proof.
  intros Ht Hi Hj. destruct (decide (i = j)) as [|Hne]; [done|].
  unfold takes, mailbox_of. destruct (valid (t.[i])) eqn:Vi; [|done].
  destruct (valid (t.[j])) eqn:Vj; [|done]. simpl. intros [Pi Ai]%andb_prop [Pj Aj]%andb_prop.
  destruct (ok_distinct t Ht i j Hi Hj Hne Vi Vj ltac:(lia)) as [Wi Ne].
  destruct (ok_distinct t Ht j i Hj Hi ltac:(lia) Vj Vi ltac:(lia)) as [Wj _].
  rewrite Wi, orb_false_r in Ai. rewrite Wj, orb_false_r in Aj.
  apply bool_decide_eq_true in Ai, Aj. congruence.
Qed.

(** What the search loop knows after [k] slots. *)
Definition search_inv (t : udp_endpoint_table_t) (a : list Z) (p k : Z) (s : option Z * option Z) : Prop :=
  (forall i, s.1 = Some i \/ s.2 = Some i -> 0 <= i < k /\ takes a p (mailbox_of (t.[i])) = true) /\
  (s = (None, None) -> forall i, 0 <= i < k -> takes a p (mailbox_of (t.[i])) = false).

Lemma find_step_inv t a p k s :
  table_ok t -> zlen a = 4 -> 0 <= k < 16 -> search_inv t a p k s ->
  search_inv t a p (k + 1) (find_step t a p k s).
Proof.
  intros Ht Ha Hk [Hs Hn]. destruct s as [e w].
  assert (search_inv t a p (k + 1) (e, w) \/
          takes a p (mailbox_of (t.[k])) = true /\ e = None) as Hdone.
  { destruct e as [e|]; [left|destruct (takes a p (mailbox_of (t.[k]))) eqn:E; [by right|left]];
      (split; [intros i Hi; destruct (Hs i Hi); split; [lia|done]|]); [done|].
    intros Heq i Hi. destruct (decide (i = k)) as [->|]; [done|]. apply Hn; [done|lia]. }
  pose proof (address_equal_decide (local_address (t.[k])) a
                (ok_address _ (udp_slot_ok t k Ht Hk)) Ha) as Hae.
  unfold find_step. destruct e as [e|]; simpl; [by destruct Hdone as [|[_ ?]]|].
  unfold takes, mailbox_of in Hdone. rewrite Hae.
  destruct (valid (t.[k])) eqn:V; simpl in *; [|by destruct Hdone as [|[]]].
  destruct (local_port (t.[k]) =? p) eqn:P; simpl in *; [|by destruct Hdone as [|[]]].
  assert (bool_decide (local_address (t.[k]) = a) || wildcard (local_address (t.[k])) = true ->
          takes a p (mailbox_of (t.[k])) = true) as Hk'
    by (unfold takes, mailbox_of; rewrite V; simpl; by rewrite P).
  destruct (bool_decide (local_address (t.[k]) = a)) eqn:A; simpl in *;
    [|destruct (wildcard (local_address (t.[k]))) eqn:W; simpl in *; [|by destruct Hdone as [|[]]]];
    (split; [|done]); simpl; intros i [Hi|Hi]; simplify_eq; try (split; [lia|by apply Hk']).
  destruct (Hs i (or_intror eq_refl)). split; [lia|done].
Qed.

(** The search of the code finds the only mailbox that takes the datagram. *)
Lemma find_endpoint_spec t a p :
  table_ok t -> zlen a = 4 ->
  find_endpoint t a p = Z.of_nat <$> find_first (takes a p) (mailboxes t).
Proof.
  intros Ht Ha. unfold mailboxes. rewrite find_first_fmap.
  rewrite <- (find_z_first (fun e => takes a p (mailbox_of e)) t 16) by apply Ht.
  assert (search_inv t a p 16 (for_z 0 16 (find_step t a p) (None, None))) as Hinv.
  { apply for_z_ind; [lia| |].
    - split; [intros i [[=]|[=]]|lia].
    - intros k s Hk. by apply find_step_inv. }
  unfold find_endpoint, UDP_ENDPOINT_CAPACITY. destruct (for_z 0 16 _ _) as [e w].
  destruct Hinv as [Hs Hn]. simpl in Hs.
  assert (forall i, 0 <= i < 16 -> takes a p (mailbox_of (t.[i])) = true ->
          Some i = find_z 0 16 (fun j => takes a p (mailbox_of (t.[j])))) as Hf.
  { intros i Hi Hti. symmetry. apply find_z_Some. split_and!; [lia..|done|].
    intros j Hj. destruct (takes a p (mailbox_of (t.[j]))) eqn:E; [|done].
    pose proof (takes_unique t a p i j Ht Hi ltac:(lia) Hti E). lia. }
  destruct e as [e|]; simpl; [apply Hf; apply Hs; by left|].
  destruct w as [w|]; [apply Hf; apply Hs; by right|].
  symmetry. apply find_z_None. by apply Hn.
Qed.

(** One operation on a table and the same operation on its mailboxes. *)
Definition refines (o : op) (t : udp_endpoint_table_t) : Prop :=
  let '(a, t') := impl_step o t in
  table_ok t' /\ spec_step o (mailboxes t) = (a, mailboxes t').

Lemma bind_refines t address port :
  table_ok t -> op_ok (Bind address port) -> refines (Bind address port) t.
Proof.
  intros Ht Ha. simpl in Ha. unfold refines, impl_step, spec_step, udp_endpoint_bind,
    UDP_ENDPOINT_CAPACITY. destruct (port =? 0) eqn:P; [done|]. simpl.
  assert (find_z 0 16 (fun i => conflicts (t.[i]) address port) =
          Z.of_nat <$> find_first (overlaps address port) (mailboxes t)) as ->.
  { rewrite (find_z_first (fun e => conflicts e address port)) by apply Ht.
    unfold mailboxes. rewrite find_first_fmap. f_equal. apply find_first_ext. intros e He.
    apply conflicts_overlaps; [|done]. by eapply Forall_forall; [apply (ok_endpoints t Ht)|]. }
  rewrite existsb_find_first. destruct (find_first (overlaps _ _) _) eqn:C; simpl; [done|].
  rewrite (find_z_first (fun e => negb (valid e))) by apply Ht.
  assert (find_first (fun b => bool_decide (b = None)) (mailboxes t) =
          find_first (fun e => negb (valid e)) t) as ->.
  { unfold mailboxes. rewrite find_first_fmap. apply find_first_ext. intros. apply mailbox_None. }
  destruct (find_first _ t) as [n|] eqn:F; simpl; [|done].
  pose proof (find_first_lt _ _ _ F) as Hn. pose proof (ok_length t Ht) as Hl.
  unfold zlen, UDP_ENDPOINT_CAPACITY in Hl.
  pose proof (udp_slot_ok t (Z.of_nat n) Ht ltac:(lia)) as [H1 H2 H3 _].
  rewrite copy_whole by done. split.
  - apply table_update; [done|lia| |].
    + split; simpl; [done..|]. intros _. by apply ring_empty_ok.
    + intros _ j Hj _ Vj Pj. simpl in *. rewrite find_first_None in C.
      specialize (C (Z.to_nat j) (mailbox_of (t.[j]))). unfold mailboxes in C.
      rewrite list_lookup_fmap, arr_lookup in C by (unfold zlen; lia). specialize (C eq_refl).
      unfold overlaps, mailbox_of in C. rewrite Vj in C. simpl in C.
      apply andb_false_iff in C as [?|[[? ?]%orb_false_iff Hne]%orb_false_iff]; [lia|].
      apply bool_decide_eq_false in Hne. split_and!; congruence.
  - rewrite mailboxes_update, Nat2Z.id. done.
Qed.

Lemma unbind_refines t handle :
  table_ok t -> op_ok (Unbind handle) -> refines (Unbind handle) t.
Proof.
  intros Ht Hh. unfold refines, impl_step, spec_step, udp_endpoint_unbind.
  rewrite box_of_spec by done. destruct (endpoint_for t handle) as [i|] eqn:E; [|done].
  apply udp_endpoint_for_Some in E as [Hi V]; [|done]. unfold mailbox_of. rewrite V. simpl.
  destruct (udp_slot_ok t i Ht Hi). split; [|by rewrite mailboxes_update].
  apply table_update; [done..| |done]. by split.
Qed.

(** Storing a datagram appends a message. *)
Lemma enqueue_spec e src sport pl len :
  endpoint_ok e -> valid e = true -> count e < 8 -> zlen src = 4 -> 0 <= len <= 1500 ->
  len <= zlen pl ->
  endpoint_ok (enqueue e src sport pl len) /\
  inbox (enqueue e src sport pl len) = inbox e ++ [(src, sport, take (Z.to_nat len) pl)].
Proof.
  intros [Ha Hq Hd Hr] V Hc Hs Hlen Hpl. specialize (Hr V). pose proof Hr as (_ & Hh & Hcb & Htl).
  unfold UDP_ENDPOINT_QUEUE_CAPACITY, UDP_ENDPOINT_PAYLOAD_MAX in *.
  pose proof (Z.mod_pos_bound (head e + count e) 8).
  assert (datagram_ok ((queue e).[tail e])) as (D1 & D2 & D3).
  { eapply Forall_lookup_1; [exact Hd|]. apply arr_lookup. lia. }
  unfold UDP_ENDPOINT_PAYLOAD_MAX in *. unfold enqueue. set (d := {| source_address := _ |}).
  destruct (ring_push 8 ltac:(lia) (queue e) (head e) (tail e) (count e) d Hr Hc) as [Hr' Hl'].
  unfold UDP_ENDPOINT_QUEUE_CAPACITY. rewrite !(wrap_small 32) by (widths; lia). split.
  - split; simpl; [done|by rewrite zlen_set| |done]. apply Forall_insert; [done|].
    unfold datagram_ok, UDP_ENDPOINT_PAYLOAD_MAX. simpl. by rewrite !length_copy_bytes.
  - unfold inbox. simpl. rewrite Hl', fmap_app. do 2 f_equal. unfold message, d. simpl.
    rewrite copy_whole by done. rewrite copy_bytes_spec by lia. simpl.
    by rewrite take_app_length' by len.
Qed.

Lemma inbox_length e : endpoint_ok e -> valid e = true -> zlen (inbox e) = count e.
Proof.
  intros He V. destruct (ok_ring e He V) as (_ & _ & Hc & _). unfold inbox, zlen.
  rewrite length_fmap. apply (ring_list_length 8). lia.
Qed.

Lemma deliver_refines t dst dport src sport pl len :
  table_ok t -> op_ok (Deliver dst dport src sport pl len) ->
  refines (Deliver dst dport src sport pl len) t.
Proof.
  intros Ht (Hd & Hs & Hlen & Hpl). unfold refines, impl_step, spec_step, udp_endpoint_deliver,
    UDP_ENDPOINT_PAYLOAD_MAX. case_if as G; [done|]. rewrite find_endpoint_spec by done.
  destruct (find_first _ _) as [n|] eqn:F; simpl; [|done].
  pose proof (find_first_lt _ _ _ F) as Hn. unfold mailboxes in Hn. rewrite length_fmap in Hn.
  pose proof (ok_length t Ht) as Hl. unfold zlen, UDP_ENDPOINT_CAPACITY in Hl.
  apply find_first_Some in F as [(b & Hb & Hk) _].
  rewrite (list_lookup_total_correct _ _ _ Hb). unfold mailboxes in Hb.
  rewrite list_lookup_fmap, (list_lookup_lookup_total_lt t n) in Hb by done.
  injection Hb as <-. pose proof (udp_slot_ok t (Z.of_nat n) Ht ltac:(lia)) as Hok.
  pose proof (table_update_same t (Z.of_nat n)) as Hup. rewrite Nat2Z.id in Hok, Hup |- *.
  set (e := t !!! n) in *. unfold mailbox_of in Hk |- *.
  destruct (valid e) eqn:V; [|done]. simpl in Hk |- *. rewrite inbox_length by done.
  destruct (ok_ring e Hok V) as (_ & _ & Hc & _). unfold UDP_ENDPOINT_QUEUE_CAPACITY.
  case_if as C.
  - replace (count e <? 8) with false by lia. split.
    + apply Hup; [done|lia| |done..]. destruct Hok; split; simpl; auto.
    + unfold mailboxes. rewrite list_fmap_insert. unfold mailbox_of. done.
  - replace (count e <? 8) with true by lia.
    apply orb_false_iff in G as [G Hmax]. apply orb_false_iff in G as [G _].
    do 2 apply orb_false_iff in G as [G _]. apply bool_decide_eq_false in G.
    destruct (enqueue_spec e src sport (data pl) len) as [Hok' Hin];
      [done..|lia|done|lia|apply Hpl; by destruct pl; [eexists|]|]. split.
    + by apply Hup; [|lia|..].
    + unfold mailboxes. rewrite list_fmap_insert. unfold mailbox_of at 2. rewrite Hin. simpl.
      by rewrite V.
Qed.

Lemma receive_refines t handle src pl capacity :
  table_ok t -> op_ok (Receive handle src pl capacity) -> refines (Receive handle src pl capacity) t.
Proof.
  intros Ht (Hh & Hs & Hcap). unfold refines, impl_step, spec_step, udp_endpoint_receive.
  rewrite box_of_spec by done. destruct (endpoint_for t handle) as [i|] eqn:E; [|done].
  apply udp_endpoint_for_Some in E as [Hi V]; [|done]. pose proof (udp_slot_ok t i Ht Hi) as Hok.
  pose proof (table_update_same t i) as Hup. pose proof (mailboxes_update t i) as Hmu.
  set (e := t.[i]) in *. unfold mailbox_of at 1. rewrite V. simpl.
  pose proof (inbox_length e Hok V) as Hil.
  pose proof (ok_ring e Hok V) as Hr. pose proof Hr as (Hql & Hhd & Hc & _).
  destruct (count e =? 0) eqn:Z0; simpl.
  { replace (inbox e) with (@nil (list Z * Z * list Z)); [done|].
    symmetry. apply nil_length_inv. unfold zlen in Hil. lia. }
  destruct (ring_pop 8 ltac:(lia) (queue e) (head e) (tail e) (count e) Hr ltac:(lia)) as [Hr' Hl'].
  unfold inbox at 1. rewrite Hl', fmap_cons. set (d := (queue e).[head e]) in *.
  assert (datagram_ok d) as (D1 & D2 & D3).
  { eapply Forall_lookup_1; [apply (ok_datagrams e Hok)|]. apply arr_lookup. lia. }
  unfold UDP_ENDPOINT_PAYLOAD_MAX in *. unfold message at 1.
  assert (zlen (take (Z.to_nat (length d)) (payload d)) = length d) as -> by len.
  case_if as C.
  { by replace (_ <=? _) with false by lia. }
  replace (_ <=? _) with true by lia. unfold UDP_ENDPOINT_QUEUE_CAPACITY.
  rewrite !(wrap_small 32) by (widths; lia). simpl. split.
  - apply Hup; [done|done| |done..]. destruct Hok as [H1 H2 H3 H4]. by split.
  - rewrite Hmu. unfold mailbox_of at 1. simpl. rewrite V. do 4 f_equal.
    rewrite copy_whole by done. do 2 f_equal. rewrite copy_bytes_spec by lia. simpl.
    by rewrite take_app_length' by len.
Qed.

Lemma step_refines t o : table_ok t -> op_ok o -> refines o t.
Proof.
  intros Ht Ho. destruct o.
  - by apply bind_refines.
  - by apply unbind_refines.
  - by apply deliver_refines.
  - by apply receive_refines.
  - split; [done|]. simpl. rewrite box_of_spec by done. unfold udp_endpoint_dropped.
    destruct (endpoint_for t handle) as [i|] eqn:E; [|done].
    apply udp_endpoint_for_Some in E as [Hi V]; [|done]. unfold mailbox_of. by rewrite V.
Qed.

(** The memory of a table before it is initialised: arrays of the declared sizes. *)
Definition endpoint_shape (e : udp_endpoint_t) : Prop :=
  zlen (local_address e) = 4 /\ zlen (queue e) = UDP_ENDPOINT_QUEUE_CAPACITY /\
  Forall datagram_ok (queue e).
Definition table_shape (t : udp_endpoint_table_t) : Prop :=
  zlen t = UDP_ENDPOINT_CAPACITY /\ Forall endpoint_shape t.

Lemma initialize_spec t :
  table_shape t ->
  let t' := udp_endpoint_table_initialize t in
  table_ok t' /\ mailboxes t' = replicate 16 None.
Proof.
  intros [Hl Hs]. unfold UDP_ENDPOINT_CAPACITY in Hl. unfold udp_endpoint_table_initialize.
  assert (let t' := for_z 0 16 (fun i t => t.[i <- (t.[i])<| valid := false |>]) t in
    zlen t' = 16 /\ Forall endpoint_shape t' /\
    forall j, 0 <= j < 16 -> valid (t'.[j]) = false) as (Hl' & Hs' & Hv).
  { apply (for_z_ind (fun k t' => zlen t' = 16 /\ Forall endpoint_shape t' /\
      forall j, 0 <= j < k -> valid (t'.[j]) = false)); [lia|split_and!; [done..|lia]|].
    intros k t' Hk (Hl' & Hs' & Hv). rewrite zlen_set. split_and!; [done| |].
    - apply Forall_insert; [done|]. change (endpoint_shape (t'.[k])).
      eapply Forall_lookup_1; [exact Hs'|]. apply arr_lookup. lia.
    - intros j Hj. destruct (decide (j = k)) as [->|]; [by rewrite arr_get_eq by lia|].
      rewrite arr_get_ne by lia. apply Hv. lia. }
  unfold UDP_ENDPOINT_CAPACITY. set (t' := for_z 0 16 _ t) in *. clearbody t'. split.
  - split; [done| |intros i j Hi Hj Hne Vi; rewrite Hv in Vi by done; done].
    apply Forall_lookup_2. intros n e He. pose proof (lookup_lt_Some _ _ _ He).
    destruct (Forall_lookup_1 _ _ _ _ Hs' He) as (? & ? & ?). split; [done..|].
    specialize (Hv (Z.of_nat n)). rewrite Nat2Z.id, (list_lookup_total_correct _ _ _ He) in Hv.
    intros V. unfold zlen in Hl'. rewrite Hv in V by lia. done.
  - apply list_eq. intros n. unfold mailboxes. rewrite list_lookup_fmap. unfold zlen in Hl'.
    destruct (decide (n < 16)%nat).
    + rewrite list_lookup_lookup_total_lt, lookup_replicate_2 by lia. simpl. unfold mailbox_of.
      specialize (Hv (Z.of_nat n) ltac:(lia)). rewrite Nat2Z.id in Hv. by rewrite Hv.
    + rewrite !lookup_ge_None_2; [done|..]; autorewrite with len; lia.
Qed.

(** ** Theorem *)

(** C15. Refinement: on every sequence of operations a freshly initialised endpoint table
    gives the answers of sixteen mailboxes.  An address and port has at most one
    owner, a datagram goes to the owner of its destination and to no other mailbox,
    and each mailbox hands out its messages once, unchanged and in arrival order. *)
Theorem udp_refines_mailboxes t ops :
  table_shape t -> Forall op_ok ops ->
  run impl_step ops (udp_endpoint_table_initialize t) = run spec_step ops (replicate 16 None).
Proof.
  intros Hs Hops. destruct (initialize_spec t Hs) as [Hok <-]. revert Hok.
  generalize (udp_endpoint_table_initialize t). clear t Hs.
  induction Hops as [|o ops Ho _ IH]; intros t Hok; simpl; [done|].
  pose proof (step_refines t o Hok Ho) as Hr. unfold refines in Hr.
  destruct (impl_step o t) as [a t']. destruct Hr as [Hok' ->]. f_equal. by apply IH.
Qed.

(** ** Examples *)

Definition example_table : udp_endpoint_table_t :=
  replicate 16 {| valid := true; local_address := [9; 9; 9; 9]; local_port := 7;
    queue := replicate 8 {| source_address := [0; 0; 0; 0]; source_port := 0; length := 0;
                            payload := replicate 1500 0 |};
    head := 5; tail := 1; count := 3; dropped := 4 |}.

Lemma udp_refines_mailboxes_witness :
  run impl_step
    [Bind [10; 0; 2; 15] 53; Bind [0; 0; 0; 0] 53; Bind [0; 0; 0; 0] 80;
     Deliver [10; 0; 2; 15] 80 [10; 0; 2; 2] 999 (Some [1; 2; 3]) 3;
     Receive 1 [0; 0; 0; 0] (replicate 8 0) 8; Receive 2 [0; 0; 0; 0] (replicate 8 0) 8]
    (udp_endpoint_table_initialize example_table) =
  [Handle (Some 1); Handle None; Handle (Some 2); Done true; Message None;
   Message (Some ([10; 0; 2; 2], 999, [1; 2; 3]))].
Proof.
  rewrite (udp_refines_mailboxes example_table); [vm_compute; reflexivity|..].
  - split; [done|]. apply Forall_replicate. split_and!; [done..|].
    apply Forall_replicate. vm_compute. intuition congruence.
  - repeat constructor; vm_compute; intuition congruence.
Defined.

End UdpEndpoint.
