(* ===== verification/TcpEndpoint.v ===== *)
(** * TCP endpoints (kernel/drivers/network/tcp_endpoint.c)

    A table of listeners and connections; each slot has a connection of tcp.c and a
    ring of received payloads.  Every operation runs under the table's lock and is one
    atomic step.  A handle is the slot number plus one.  Out parameters are returned
    only when the operation succeeds. *)

From S2P Require Import Prelude Ring NetBytes Tcp.

Module TcpEndpoint.
Import Tcp.

Definition TCP_ENDPOINT_CAPACITY : Z := 8.
Definition TCP_ENDPOINT_QUEUE_CAPACITY : Z := 8.
Definition TCP_ENDPOINT_PAYLOAD_MAX : Z := 1500.

(** The payload field is [bytes] here, [payload] being a field of a segment. *)
Record tcp_stream_data_t := {
  length : Z;
  source_address : list Z;
  bytes : list Z;
}.

#[export] Instance tcp_stream_data_inhabited : Inhabited tcp_stream_data_t :=
  populate {| length := 0; source_address := []; bytes := [] |}.

Record tcp_endpoint_t := {
  valid : bool;
  local_address : list Z;
  remote_address : list Z;
  connection : tcp_connection_t;
  queue : list tcp_stream_data_t;
  head : Z;
  tail : Z;
  count : Z;
  dropped : Z;
}.

#[export] Instance eta_tcp_endpoint : Eta tcp_endpoint_t := fun e => {|
  valid := valid e; local_address := local_address e; remote_address := remote_address e;
  connection := connection e; queue := queue e; head := head e; tail := tail e;
  count := count e; dropped := dropped e |}.
#[export] Instance tcp_endpoint_inhabited : Inhabited tcp_endpoint_t :=
  populate {| valid := false; local_address := []; remote_address := [];
              connection := tcp_connection_initialize 0 0; queue := []; head := 0; tail := 0;
              count := 0; dropped := 0 |}.

Abbreviation tcp_endpoint_table_t := (list tcp_endpoint_t).

Definition endpoint_for (t : tcp_endpoint_table_t) (handle : Z) : option Z :=
  if (handle =? 0) || (TCP_ENDPOINT_CAPACITY <? handle) then None
  else if valid (t.[handle - 1]) then Some (handle - 1) else None.

Definition tcp_endpoint_table_initialize (t : tcp_endpoint_table_t) : tcp_endpoint_table_t :=
  for_z 0 TCP_ENDPOINT_CAPACITY (fun i t => t.[i <- (t.[i])<| valid := false |>]) t.

(** The first slot not in use. *)
Definition free_slot (t : tcp_endpoint_table_t) : option Z :=
  find_z 0 TCP_ENDPOINT_CAPACITY (fun i => negb (valid (t.[i]))).

(** [head = 0; tail = 0; count = 0; dropped = 0] *)
Definition empty_queue (e : tcp_endpoint_t) : tcp_endpoint_t :=
  e<| head := 0 |><| tail := 0 |><| count := 0 |><| dropped := 0 |>.

Definition tcp_endpoint_listen (t : tcp_endpoint_table_t) (address : list Z) (port win : Z)
    : option Z * tcp_endpoint_table_t :=
  if port =? 0 then (None, t)
  else
    match find_z 0 TCP_ENDPOINT_CAPACITY (fun i =>
            let e := t.[i] in
            valid e && (local_port (connection e) =? port)
            && (wildcard address || wildcard (local_address e)
                || address_equal address (local_address e))) with
    | Some _ => (None, t)
    | None =>
        match free_slot t with
        | None => (None, t)
        | Some i =>
            let e := t.[i] in
            let e := e<| valid := true |>
                      <| local_address := copy_bytes (local_address e) 0 address 4 |> in
            let '(ok, c) := tcp_connection_listen (tcp_connection_initialize port win) in
            let e := e<| connection := c |> in
            if negb ok then (None, t.[i <- e<| valid := false |>])
            else (Some (i + 1), t.[i <- empty_queue e])
        end
    end.

(** Returns the handle, the caller's segment buffer and the segment length. *)
Definition tcp_endpoint_connect (t : tcp_endpoint_table_t) (laddr : list Z) (lport : Z)
    (raddr : list Z) (rport seq win : Z) (segment : list Z) (capacity : Z)
    : option (Z * list Z * Z) * tcp_endpoint_table_t :=
  if (lport =? 0) || (rport =? 0) then (None, t)
  else
    match find_z 0 TCP_ENDPOINT_CAPACITY (fun i =>
            let e := t.[i] in
            negb (negb (valid e) || negb (local_port (connection e) =? lport)
                  || negb (remote_port (connection e) =? rport))
            && (address_equal (local_address e) laddr && address_equal (remote_address e) raddr)) with
    | Some _ => (None, t)
    | None =>
        match free_slot t with
        | None => (None, t)
        | Some i =>
            let e := t.[i] in
            let '(ok, c) := tcp_connection_open (tcp_connection_initialize lport win) seq rport in
            let e := e<| connection := c |> in
            if negb ok then (None, t.[i <- e])
            else
              let e := e<| valid := true |>
                        <| local_address := copy_bytes (local_address e) 0 laddr 4 |>
                        <| remote_address := copy_bytes (remote_address e) 0 raddr 4 |>
                        <| connection := (connection e)<| window := win |> |> in
              let e := empty_queue e in
              match tcp_segment_build segment capacity laddr raddr lport rport seq 0
                      TCP_FLAG_SYN win None 0 with
              | None => (None, t.[i <- e<| valid := false |>])
              | Some (segment, segment_length) =>
                  let '(ok, c) := tcp_connection_record_segment (connection e) segment segment_length in
                  let e := e<| connection := c |> in
                  if negb ok then (None, t.[i <- e<| valid := false |>])
                  else (Some (i + 1, segment, segment_length), t.[i <- e])
              end
        end
    end.

Definition tcp_endpoint_unbind (t : tcp_endpoint_table_t) (handle : Z)
    : bool * tcp_endpoint_table_t :=
  match endpoint_for t handle with
  | None => (false, t)
  | Some i => (true, t.[i <- (t.[i])<| valid := false |>])
  end.

Definition tcp_endpoint_accept (t : tcp_endpoint_table_t) (listener : Z) : option Z :=
  match endpoint_for t listener with
  | None => None
  | Some p =>
      if negb (in_state (connection (t.[p])) TCP_CONNECTION_LISTEN) then None
      else
        (fun i => i + 1) <$> find_z 0 TCP_ENDPOINT_CAPACITY (fun i =>
          negb (negb (valid (t.[i])) || (i =? p)
                || negb (local_port (connection (t.[i])) =? local_port (connection (t.[p])))
                || negb (in_state (connection (t.[i])) TCP_CONNECTION_SYN_RECEIVED)))
  end.

(** The slot is bound to the destination of a segment. *)
Definition bound_to (e : tcp_endpoint_t) (dst : list Z) (port : Z) : bool :=
  negb (negb (valid e) || negb (local_port (connection e) =? port)
        || (negb (wildcard (local_address e)) && negb (address_equal (local_address e) dst))).

(** The connection a segment belongs to. *)
Definition find_connection (t : tcp_endpoint_table_t) (dst src : list Z)
    (seg : tcp_segment_view_t) : option Z :=
  find_z 0 TCP_ENDPOINT_CAPACITY (fun i =>
    let e := t.[i] in
    bound_to e dst (destination_port seg)
    && (negb (remote_port (connection e) =? 0)
        && (remote_port (connection e) =? source_port seg)
        && address_equal (remote_address e) src)).

(** The listener for a segment. *)
Definition find_listener (t : tcp_endpoint_table_t) (dst : list Z) (seg : tcp_segment_view_t)
    : option Z :=
  find_z 0 TCP_ENDPOINT_CAPACITY (fun i =>
    let e := t.[i] in
    valid e && in_state (connection e) TCP_CONNECTION_LISTEN
    && bound_to e dst (destination_port seg)).

(** Storing [n] payload bytes in the queue of an endpoint. *)
Definition push_data (e : tcp_endpoint_t) (src : list Z) (pl : list Z) (n : Z) : tcp_endpoint_t :=
  let slot := (queue e).[tail e] in
  let slot := {| length := n; source_address := copy_bytes (source_address slot) 0 src 4;
                 bytes := copy_bytes (bytes slot) 0 pl n |} in
  e<| queue := (queue e).[tail e <- slot] |>
   <| tail := u32 (tail e + 1) mod TCP_ENDPOINT_QUEUE_CAPACITY |>
   <| count := u32 (count e + 1) |>.

(** The end of [tcp_endpoint_deliver]: the segment is given to slot [i]. *)
Definition accept_segment (t : tcp_endpoint_table_t) (i : Z) (created_child : bool)
    (src : list Z) (seg : tcp_segment_view_t)
    : option tcp_connection_result_t * tcp_endpoint_table_t :=
  let e := t.[i] in
  match tcp_connection_receive (connection e) seg with
  | None => (None, if created_child then t.[i <- e<| valid := false |>] else t)
  | Some (c, result) =>
      let result := result<| endpoint_handle := i + 1 |> in
      let e := e<| connection := c |> in
      let e := if remote_port c =? source_port seg
               then e<| remote_address := copy_bytes (remote_address e) 0 src 4 |> else e in
      if accepted_payload result =? 0 then (Some result, t.[i <- e])
      else if count e =? TCP_ENDPOINT_QUEUE_CAPACITY then
        (None, t.[i <- e<| dropped := u32 (dropped e + 1) |>])
      else (Some result, t.[i <- push_data e src (payload seg) (accepted_payload result)])
  end.

Definition tcp_endpoint_deliver (t : tcp_endpoint_table_t) (dst src : list Z)
    (seg : tcp_segment_view_t) : option tcp_connection_result_t * tcp_endpoint_table_t :=
  if TCP_ENDPOINT_PAYLOAD_MAX <? payload_length seg then (None, t)
  else
    let endpoint :=
      match find_connection t dst src seg with
      | Some i => Some i
      | None => if has (flags seg) TCP_FLAG_SYN then find_listener t dst seg else None
      end in
    match endpoint with
    | None => (None, t)
    | Some i =>
        if in_state (connection (t.[i])) TCP_CONNECTION_LISTEN && has (flags seg) TCP_FLAG_SYN then
          match free_slot t with
          | None => (None, t)
          | Some j =>
              let parent := t.[i] in
              let child := t.[j] in
              let child := child<| valid := true |>
                <| local_address := copy_bytes (local_address child) 0 (local_address parent) 4 |> in
              let '(ok, c) := tcp_connection_listen
                (tcp_connection_initialize (local_port (connection parent))
                                           (window (connection parent))) in
              let child := child<| connection := c |> in
              if negb ok then (None, t.[j <- child<| valid := false |>])
              else accept_segment (t.[j <- empty_queue child]) j true src seg
          end
        else accept_segment t i false src seg
    end.

(** Returns the code's result and what was written to the caller's segment buffer. *)
Definition tcp_endpoint_send_segment (t : tcp_endpoint_table_t) (handle : Z)
    (pl : option (list Z)) (plen fl : Z) (segment : list Z) (capacity : Z)
    : bool * option (list Z * Z) * tcp_endpoint_table_t :=
  match endpoint_for t handle with
  | None => (false, None, t)
  | Some i =>
      let e := t.[i] in
      if remote_port (connection e) =? 0 then (false, None, t)
      else
        let '(ok, c, out) := tcp_connection_build (connection e) (local_address e)
                               (remote_address e) fl pl plen segment capacity in
        (ok, out, t.[i <- e<| connection := c |>])
  end.

Definition tcp_endpoint_retransmit_due (t : tcp_endpoint_table_t) (handle now timeout : Z)
    (segment : list Z) (capacity : Z) : option (list Z * Z) * tcp_endpoint_table_t :=
  match endpoint_for t handle with
  | None => (None, t)
  | Some i =>
      match tcp_connection_retransmit_due (connection (t.[i])) now timeout segment capacity with
      | None => (None, t)
      | Some (c, segment, length) => (Some (segment, length), t.[i <- (t.[i])<| connection := c |>])
      end
  end.

(** Returns the two addresses, the segment and its length, and the new cursor. *)
Definition tcp_endpoint_retransmit_next (t : tcp_endpoint_table_t) (cursor now timeout : Z)
    (laddr raddr segment : list Z) (capacity : Z)
    : option (list Z * list Z * list Z * Z) * Z * tcp_endpoint_table_t :=
  if TCP_ENDPOINT_CAPACITY <=? cursor then (None, cursor, t)
  else
    let due i := tcp_connection_retransmit_due (connection (t.[i])) now timeout segment capacity in
    match find_z cursor TCP_ENDPOINT_CAPACITY
            (fun i => valid (t.[i]) && bool_decide (is_Some (due i))) with
    | None => (None, TCP_ENDPOINT_CAPACITY, t)
    | Some i =>
        match due i with
        | None => (None, TCP_ENDPOINT_CAPACITY, t)
        | Some (c, segment, length) =>
            let e := t.[i] in
            (Some (copy_bytes laddr 0 (local_address e) 4, copy_bytes raddr 0 (remote_address e) 4,
                   segment, length),
             i + 1, t.[i <- e<| connection := c |>])
        end
    end.

(** Returns the source address, the caller's buffer and the length. *)
Definition tcp_endpoint_receive (t : tcp_endpoint_table_t) (handle : Z) (src : list Z)
    (pl : list Z) (capacity : Z) : option (list Z * list Z * Z) * tcp_endpoint_table_t :=
  match endpoint_for t handle with
  | None => (None, t)
  | Some i =>
      let e := t.[i] in
      let d := (queue e).[head e] in
      if (count e =? 0) || (capacity <? length d) then (None, t)
      else
        (Some (copy_bytes src 0 (source_address d) 4, copy_bytes pl 0 (bytes d) (length d), length d),
         t.[i <- e<| head := u32 (head e + 1) mod TCP_ENDPOINT_QUEUE_CAPACITY |>
                  <| count := u32 (count e - 1) |>])
  end.

Definition tcp_endpoint_dropped (t : tcp_endpoint_table_t) (handle : Z) : Z :=
  match endpoint_for t handle with Some i => dropped (t.[i]) | None => 0 end.

(** ** Invariant and abstraction *)

Definition slot_data_ok (d : tcp_stream_data_t) : Prop :=
  zlen (source_address d) = 4 /\ zlen (bytes d) = TCP_ENDPOINT_PAYLOAD_MAX /\
  0 <= length d <= TCP_ENDPOINT_PAYLOAD_MAX.

Record endpoint_ok (e : tcp_endpoint_t) : Prop := {
  ok_local : zlen (local_address e) = 4;
  ok_remote : zlen (remote_address e) = 4;
  ok_queue : zlen (queue e) = 8;
  ok_data : Forall slot_data_ok (queue e);
  ok_ring : valid e = true -> ring_ok 8 (queue e) (head e) (tail e) (count e);
}.

Definition table_ok (t : tcp_endpoint_table_t) : Prop := zlen t = 8 /\ Forall endpoint_ok t.

(** The bytes waiting at an endpoint. *)
Definition data_of (d : tcp_stream_data_t) : list Z := take (Z.to_nat (length d)) (bytes d).
Definition pending (e : tcp_endpoint_t) : list Z :=
  concat (data_of <$> ring_list 8 (queue e) (head e) (count e)).

(** The operations that change the table. *)
Inductive op :=
  | Listen (address : list Z) (port win : Z)
  | Connect (laddr : list Z) (lport : Z) (raddr : list Z) (rport seq win : Z)
      (segment : list Z) (capacity : Z)
  | Unbind (handle : Z)
  | Deliver (dst src : list Z) (seg : tcp_segment_view_t)
  | Send (handle : Z) (pl : option (list Z)) (plen fl : Z) (segment : list Z) (capacity : Z)
  | Retransmit (handle now timeout : Z) (segment : list Z) (capacity : Z)
  | RetransmitNext (cursor now timeout : Z) (laddr raddr segment : list Z) (capacity : Z)
  | Receive (handle : Z) (src pl : list Z) (capacity : Z).

(** One operation; the bytes are those it hands to the owner of handle [h]. *)
Definition step (h : Z) (o : op) (t : tcp_endpoint_table_t) : list Z * tcp_endpoint_table_t :=
  match o with
  | Listen address port win => ([], (tcp_endpoint_listen t address port win).2)
  | Connect laddr lport raddr rport seq win segment capacity =>
      ([], (tcp_endpoint_connect t laddr lport raddr rport seq win segment capacity).2)
  | Unbind handle => ([], (tcp_endpoint_unbind t handle).2)
  | Deliver dst src seg => ([], (tcp_endpoint_deliver t dst src seg).2)
  | Send handle pl plen fl segment capacity =>
      ([], (tcp_endpoint_send_segment t handle pl plen fl segment capacity).2)
  | Retransmit handle now timeout segment capacity =>
      ([], (tcp_endpoint_retransmit_due t handle now timeout segment capacity).2)
  | RetransmitNext cursor now timeout laddr raddr segment capacity =>
      ([], (tcp_endpoint_retransmit_next t cursor now timeout laddr raddr segment capacity).2)
  | Receive handle src pl capacity =>
      let '(r, t') := tcp_endpoint_receive t handle src pl capacity in
      (match r with
       | Some (_, buf, n) => if handle =? h then take (Z.to_nat n) buf else []
       | None => []
       end, t')
  end.

Fixpoint run (h : Z) (ops : list op) (t : tcp_endpoint_table_t) : list Z * tcp_endpoint_table_t :=
  match ops with
  | [] => ([], t)
  | o :: ops =>
      let '(d, t') := step h o t in
      let '(ds, t'') := run h ops t' in (d ++ ds, t'')
  end.

(** What the callers guarantee: addresses of four bytes, buffers as long as they say. *)
Definition op_ok (o : op) : Prop :=
  match o with
  | Listen address _ _ => zlen address = 4
  | Connect laddr _ raddr _ _ _ _ _ => zlen laddr = 4 /\ zlen raddr = 4
  | Unbind handle | Send handle _ _ _ _ _ | Retransmit handle _ _ _ _ => 0 <= handle
  | Deliver dst src seg => zlen src = 4 /\ 0 <= payload_length seg <= zlen (payload seg)
  | RetransmitNext cursor _ _ _ _ _ _ => 0 <= cursor
  | Receive handle src pl capacity => 0 <= handle /\ 0 <= capacity <= zlen pl
  end.

(** ** Lemmas: the table *)

Lemma tcp_slot_ok t i : table_ok t -> 0 <= i < 8 -> endpoint_ok (t.[i]).
Proof.
  intros [Hl He] Hi. eapply Forall_lookup_1; [exact He|]. apply arr_lookup. lia.
Qed.

Lemma table_set t i e : table_ok t -> endpoint_ok e -> table_ok (t.[i <- e]).
Proof. intros [Hl He] Hok. split; [by rewrite zlen_set|by apply Forall_insert]. Qed.

Lemma table_get t i j e :
  table_ok t -> 0 <= i < 8 -> 0 <= j < 8 -> t.[i <- e].[j] = if j =? i then e else t.[j].
Proof.
  intros [Hl _] Hi Hj. case_if as E.
  - replace j with i by lia. apply arr_get_eq. lia.
  - apply arr_get_ne; lia.
Qed.

Lemma tcp_endpoint_for_Some t handle i :
  0 <= handle -> endpoint_for t handle = Some i ->
  0 <= i < 8 /\ valid (t.[i]) = true /\ handle = i + 1.
Proof.
  unfold endpoint_for, TCP_ENDPOINT_CAPACITY. intros Hh. case_if as E0; [done|].
  destruct (valid (t.[handle - 1])) eqn:E; [|done]. intros [= <-]. split_and!; [lia..|done|lia].
Qed.

Lemma free_slot_Some t i : free_slot t = Some i -> 0 <= i < 8 /\ valid (t.[i]) = false.
Proof. intros (Hi & Hv & _)%find_z_Some. split; [done|]. by destruct (valid (t.[i])). Qed.

(** Updates that keep a slot well formed. *)
Lemma ok_connection e c : endpoint_ok e -> endpoint_ok (e<| connection := c |>).
Proof. intros []. by split. Qed.

Lemma ok_remote_address e src :
  endpoint_ok e -> zlen src = 4 -> endpoint_ok (e<| remote_address := src |>).
Proof. intros []. by split. Qed.

Lemma ok_invalid e : endpoint_ok e -> endpoint_ok (e<| valid := false |>).
Proof. intros []. by split. Qed.

Lemma ok_empty e :
  zlen (local_address e) = 4 -> zlen (remote_address e) = 4 -> zlen (queue e) = 8 ->
  Forall slot_data_ok (queue e) -> endpoint_ok (empty_queue e).
Proof. intros. split; [done..|]. intros _. by apply ring_empty_ok. Qed.

#[local] Hint Resolve table_set ok_connection ok_invalid tcp_slot_ok : core.

(** ** Lemmas: the queue *)

Lemma push_data_spec e src pl n :
  endpoint_ok e -> valid e = true -> count e <> 8 -> 0 <= n <= 1500 -> n <= zlen pl ->
  endpoint_ok (push_data e src pl n) /\
  pending (push_data e src pl n) = pending e ++ take (Z.to_nat n) pl.
Proof.
  intros [Hlo Hre Hq Hd Hr] V Hc Hn Hpl. specialize (Hr V).
  pose proof Hr as (_ & Hh & Hcb & Htl). pose proof (Z.mod_pos_bound (head e + count e) 8).
  assert (slot_data_ok ((queue e).[tail e])) as (D1 & D2 & D3).
  { eapply Forall_lookup_1; [exact Hd|]. apply arr_lookup. lia. }
  unfold TCP_ENDPOINT_PAYLOAD_MAX in *. unfold push_data. set (d := {| length := _ |}).
  destruct (ring_push 8 ltac:(lia) (queue e) (head e) (tail e) (count e) d Hr ltac:(lia)) as [Hr' Hl'].
  unfold TCP_ENDPOINT_QUEUE_CAPACITY. rewrite !(wrap_small 32) by (widths; lia). split.
  - split; simpl; [done..|by rewrite zlen_set| |done]. apply Forall_insert; [done|].
    unfold slot_data_ok, TCP_ENDPOINT_PAYLOAD_MAX. simpl. by rewrite !length_copy_bytes.
  - unfold pending. simpl. rewrite Hl', fmap_app, concat_app. f_equal. simpl.
    rewrite app_nil_r. unfold data_of, d. simpl. rewrite copy_bytes_spec by lia. simpl.
    by rewrite take_app_length' by len.
Qed.

Lemma pop_data_spec e :
  endpoint_ok e -> valid e = true -> count e <> 0 ->
  let e' := e<| head := u32 (head e + 1) mod TCP_ENDPOINT_QUEUE_CAPACITY |>
             <| count := u32 (count e - 1) |> in
  endpoint_ok e' /\ pending e = data_of ((queue e).[head e]) ++ pending e' /\
  slot_data_ok ((queue e).[head e]).
Proof.
  intros [Hlo Hre Hq Hd Hr] V Hc. specialize (Hr V). pose proof Hr as (_ & Hh & Hcb & _).
  destruct (ring_pop 8 ltac:(lia) (queue e) (head e) (tail e) (count e) Hr ltac:(lia)) as [Hr' Hl'].
  unfold TCP_ENDPOINT_QUEUE_CAPACITY. rewrite !(wrap_small 32) by (widths; lia). split_and!.
  - by split.
  - unfold pending at 1. by rewrite Hl', fmap_cons.
  - eapply Forall_lookup_1; [exact Hd|]. apply arr_lookup. lia.
Qed.

(** ** Lemmas: every operation keeps the table well formed *)

Lemma listen_ok t address port win :
  table_ok t -> zlen address = 4 -> table_ok (tcp_endpoint_listen t address port win).2.
Proof.
  intros Ht Ha. unfold tcp_endpoint_listen. case_if as E0; [done|].
  destruct (find_z _ _ _); [done|]. destruct (free_slot t) as [i|] eqn:F; [|done].
  apply free_slot_Some in F as [Hi _]. destruct (tcp_slot_ok t i Ht Hi).
  destruct (tcp_connection_listen _) as [ok c].
  destruct ok; simpl; apply table_set; auto; [apply ok_empty|split]; simpl; try done;
    by rewrite length_copy_bytes.
Qed.

Lemma connect_ok t laddr lport raddr rport seq win segment capacity :
  table_ok t -> zlen laddr = 4 -> zlen raddr = 4 ->
  table_ok (tcp_endpoint_connect t laddr lport raddr rport seq win segment capacity).2.
Proof.
  intros Ht Hl Hr. unfold tcp_endpoint_connect. case_if as E0; [done|].
  destruct (find_z _ _ _); [done|]. destruct (free_slot t) as [i|] eqn:F; [|done].
  apply free_slot_Some in F as [Hi _]. pose proof (tcp_slot_ok t i Ht Hi) as Hok.
  destruct (tcp_connection_open _ _ _) as [ok c].
  destruct ok; cbn [negb snd]; [|by auto]. set (e1 := empty_queue _).
  assert (endpoint_ok e1) as He1
    by (destruct Hok; apply ok_empty; simpl; try done; by rewrite length_copy_bytes).
  clearbody e1. destruct (tcp_segment_build _ _ _ _ _ _ _ _ _ _ _ _) as [[sg n]|]; cbn [snd]; [|by auto].
  destruct (tcp_connection_record_segment _ _ _) as [ok' c'].
  destruct ok'; cbn [negb snd]; by auto.
Qed.

Lemma accept_segment_ok t i created src seg :
  table_ok t -> 0 <= i < 8 -> valid (t.[i]) = true -> 0 <= payload_length seg <= 1500 ->
  payload_length seg <= zlen (payload seg) ->
  table_ok (accept_segment t i created src seg).2.
Proof.
  intros Ht Hi V Hpl Hlen. unfold accept_segment. pose proof (tcp_slot_ok t i Ht Hi) as Hok.
  destruct (tcp_connection_receive _ _) as [[c r]|] eqn:Hr; cbn [snd]; [|destruct created; by auto].
  apply receive_inv in Hr.
  assert (0 <= accepted_payload r <= payload_length seg) as Hap
    by (destruct Hr; unfold acknowledge; simpl; lia).
  set (e1 := if remote_port c =? _ then _ else _).
  assert (endpoint_ok e1 /\ valid e1 = true) as [H1 V1].
  { unfold e1. case_if as E; [|by auto]. destruct Hok.
    split; [split|]; simpl; try done. by rewrite length_copy_bytes. }
  clearbody e1. case_if as E; cbn [snd]; [by auto|]. case_if as E'; unfold TCP_ENDPOINT_QUEUE_CAPACITY in E'.
  - apply table_set; [done|]. destruct H1. by split.
  - apply table_set; [done|]. apply push_data_spec; simpl; try done; lia.
Qed.

Lemma find_connection_Some t dst src seg i :
  find_connection t dst src seg = Some i ->
  0 <= i < 8 /\ valid (t.[i]) = true /\
  local_port (connection (t.[i])) = destination_port seg /\
  remote_port (connection (t.[i])) = source_port seg /\
  address_equal (remote_address (t.[i])) src = true.
Proof.
  intros (Hi & Hp & _)%find_z_Some. unfold bound_to, TCP_ENDPOINT_CAPACITY in *.
  destruct (valid (t.[i])); [|done]. apply andb_prop in Hp as [Hb Hp].
  apply andb_prop in Hp as [Hr Ha]. simpl in Hb. split_and!; done || lia.
Qed.

Lemma find_listener_Some t dst seg i :
  find_listener t dst seg = Some i ->
  0 <= i < 8 /\ valid (t.[i]) = true /\ state (connection (t.[i])) = TCP_CONNECTION_LISTEN.
Proof.
  intros (Hi & Hp & _)%find_z_Some. apply andb_prop in Hp as [Hp _].
  apply andb_prop in Hp as [Hv Hs]. by apply bool_decide_eq_true in Hs.
Qed.

(** The child of a listener before the segment is given to it. *)
Definition child_of (parent child : tcp_endpoint_t) : tcp_endpoint_t :=
  empty_queue (child<| valid := true |>
    <| local_address := copy_bytes (local_address child) 0 (local_address parent) 4 |>
    <| connection := (tcp_connection_initialize (local_port (connection parent))
                        (window (connection parent)))<| state := TCP_CONNECTION_LISTEN |> |>).

(** The three ways a segment is handled: refused, given to a connection, or to a new
    child of a listener. *)
Inductive handled (t : tcp_endpoint_table_t) (dst src : list Z) (seg : tcp_segment_view_t)
    : option tcp_connection_result_t * tcp_endpoint_table_t -> Prop :=
  | refused t' :
      (forall i, 0 <= i < 8 -> valid (t.[i]) = true -> t'.[i] = t.[i]) ->
      (table_ok t -> table_ok t') -> handled t dst src seg (None, t')
  | to_connection i :
      0 <= i < 8 -> valid (t.[i]) = true -> payload_length seg <= 1500 ->
      local_port (connection (t.[i])) = destination_port seg ->
      remote_port (connection (t.[i])) = source_port seg ->
      address_equal (remote_address (t.[i])) src = true ->
      handled t dst src seg (accept_segment t i false src seg)
  | to_child i j :
      0 <= i < 8 -> 0 <= j < 8 -> valid (t.[i]) = true -> valid (t.[j]) = false ->
      payload_length seg <= 1500 ->
      handled t dst src seg (accept_segment (t.[j <- child_of (t.[i]) (t.[j])]) j true src seg).

Lemma child_ok parent child : endpoint_ok child -> endpoint_ok (child_of parent child).
Proof. intros []. apply ok_empty; simpl; try done. by rewrite length_copy_bytes. Qed.

Lemma deliver_handled t dst src seg :
  table_ok t -> handled t dst src seg (tcp_endpoint_deliver t dst src seg).
Proof.
  intros Ht. unfold tcp_endpoint_deliver, TCP_ENDPOINT_PAYLOAD_MAX.
  case_if as E0; [by apply refused|].
  destruct (match find_connection t dst src seg with Some i => Some i | None => _ end)
    as [i|] eqn:F; [|by apply refused].
  assert (0 <= i < 8 /\ valid (t.[i]) = true) as [Hi V].
  { destruct (find_connection t dst src seg) as [k|] eqn:C; simplify_eq.
    - apply find_connection_Some in C. intuition.
    - destruct (has _ _); [|done]. apply find_listener_Some in F. intuition. }
  case_if as E1.
  - destruct (free_slot t) as [j|] eqn:Fr; [|by apply refused].
    apply free_slot_Some in Fr as [Hj Vj]. unfold tcp_connection_listen.
    destruct (local_port (connection (t.[i])) =? 0) eqn:P; simpl; rewrite P; simpl.
    + apply refused; [|intros _; apply table_set; [done|]].
      * intros k Hk Vk. rewrite table_get by done. case_if as K; [|done].
        replace k with j in Vk by lia. congruence.
      * destruct (tcp_slot_ok t j Ht Hj). split; simpl; try done. by rewrite length_copy_bytes.
    + apply (to_child t dst src seg i j); done || lia.
  - destruct (find_connection t dst src seg) as [k|] eqn:C; simplify_eq.
    + apply find_connection_Some in C as (_ & _ & ? & ? & ?). apply to_connection; done || lia.
    + destruct (has _ _) eqn:S; [|done]. apply find_listener_Some in F as (_ & _ & F).
      rewrite F in E1. done.
Qed.

Lemma deliver_ok t dst src seg :
  table_ok t -> op_ok (Deliver dst src seg) -> table_ok (tcp_endpoint_deliver t dst src seg).2.
Proof.
  intros Ht [Hs Hp]. destruct (deliver_handled t dst src seg Ht) as [t' _ Hok|i Hi V Hm|i j Hi Hj V Vj Hm].
  - by apply Hok.
  - apply accept_segment_ok; done || lia.
  - assert (endpoint_ok (child_of (t.[i]) (t.[j]))) as Hc by (by apply child_ok, tcp_slot_ok).
    apply accept_segment_ok; [by apply table_set|lia| |lia..].
    rewrite table_get, Z.eqb_refl by done. done.
Qed.

Lemma step_ok h o t : table_ok t -> op_ok o -> table_ok (step h o t).2.
Proof.
  intros Ht Ho. destruct o; simpl in *.
  - by apply listen_ok.
  - destruct Ho. by apply connect_ok.
  - unfold tcp_endpoint_unbind. destruct (endpoint_for t handle) eqn:E; [|done].
    apply tcp_endpoint_for_Some in E as (? & _ & _); [|done]. cbn [snd]. by auto.
  - by apply deliver_ok.
  - unfold tcp_endpoint_send_segment. destruct (endpoint_for t handle) eqn:E; [|done].
    apply tcp_endpoint_for_Some in E as (? & _ & _); [|done]. case_if as R; [done|].
    destruct (tcp_connection_build _ _ _ _ _ _ _ _) as [[ok c] out]. cbn [snd]. by auto.
  - unfold tcp_endpoint_retransmit_due. destruct (endpoint_for t handle) eqn:E; [|done].
    apply tcp_endpoint_for_Some in E as (? & _ & _); [|done].
    destruct (tcp_connection_retransmit_due _ _ _ _ _) as [[[c sg] n]|]; cbn [snd]; by auto.
  - unfold tcp_endpoint_retransmit_next. case_if as C; [done|].
    destruct (find_z _ _ _) as [i|] eqn:F; [|done]. apply find_z_Some in F as (Hi & _).
    unfold TCP_ENDPOINT_CAPACITY in Hi.
    destruct (tcp_connection_retransmit_due _ _ _ _ _) as [[[c sg] n]|]; cbn [snd]; [|done].
    apply table_set; [done|]. apply ok_connection, tcp_slot_ok; [done|lia].
  - unfold tcp_endpoint_receive. destruct (endpoint_for t handle) as [i|] eqn:E; [|done].
    apply tcp_endpoint_for_Some in E as (Hi & V & _); [|lia]. case_if as C; [done|]. cbn [snd].
    apply table_set; [done|]. apply pop_data_spec; [by auto|done|lia].
Qed.

(** ** Lemmas: the stream of one connection *)

(** The sending side does not touch what the receiving side depends on. *)
Record same_receiver (c c' : tcp_connection_t) : Prop := {
  same_next : receive_next c' = receive_next c;
  same_local : local_port c' = local_port c;
  same_remote : remote_port c' = remote_port c;
  same_peer : has_peer c -> has_peer c';
}.

Lemma build_same c src dst fl pl plen packet capacity ok c' out :
  tcp_connection_build c src dst fl pl plen packet capacity = (ok, c', out) -> same_receiver c c'.
Proof.
  unfold tcp_connection_build. case_if as E0; [intros; simplify_eq; done|].
  destruct (_ || _) in |- *; [intros; simplify_eq; done|].
  destruct (tcp_segment_build _ _ _ _ _ _ _ _ _ _ _ _) as [[b n]|]; [|intros; simplify_eq; done].
  unfold tcp_connection_record_segment. destruct ((n =? 0) || _); simpl.
  - intros; simplify_eq. by split.
  - destruct (has _ TCP_FLAG_FIN); intros; simplify_eq; split; try done.
    intros _. unfold has_peer. simpl. case_if as S; done.
Qed.

Lemma retransmit_same c now timeout segment capacity c' sg n :
  tcp_connection_retransmit_due c now timeout segment capacity = Some (c', sg, n) ->
  same_receiver c c'.
Proof.
  unfold tcp_connection_retransmit_due. case_if as E0; [done|]. intros; simplify_eq. by split.
Qed.

(** The state of slot [i] after [k] operations that handed out [out]: the connection
    is the one to the given peer, and unless data was dropped, what was handed out
    and what is queued is the stream from [start] up to the next expected byte. *)
Record stream_inv (stream : Z -> Z) (start lp rp : Z) (ra : list Z) (i k : Z)
    (t : tcp_endpoint_table_t) (out : list Z) : Prop := {
  si_valid : valid (t.[i]) = true;
  si_peer : has_peer (connection (t.[i]));
  si_next : is_u32 (receive_next (connection (t.[i])));
  si_local : local_port (connection (t.[i])) = lp;
  si_remote : remote_port (connection (t.[i])) = rp;
  si_address : remote_address (t.[i]) = ra;
  si_dropped : 0 <= dropped (t.[i]) <= k;
  si_stream : dropped (t.[i]) = 0 ->
    stream_slice stream start (out ++ pending (t.[i])) /\
    receive_next (connection (t.[i])) = u32 (start + zlen (out ++ pending (t.[i])));
}.

Section stream.
Context (stream : Z -> Z) (start lp rp : Z) (ra : list Z) (i : Z) (Hi : 0 <= i < 8).
Context (Hra : zlen ra = 4).

(** A step that leaves the queue and the receiving side alone. *)
Lemma stream_quiet k t t' out :
  stream_inv stream start lp rp ra i k t out ->
  (exists c, t'.[i] = (t.[i])<| connection := c |> /\ same_receiver (connection (t.[i])) c) ->
  stream_inv stream start lp rp ra i (k + 1) t' out.
Proof.
  intros [Hv Hp Hn Hl Hr Ha Hd Hs] (c & Hc & [S1 S2 S3 S4]).
  split; rewrite Hc; simpl; rewrite ?S1, ?S2, ?S3; try done; [by apply S4|lia].
Qed.

Lemma stream_same k t t' out :
  stream_inv stream start lp rp ra i k t out -> t'.[i] = t.[i] ->
  stream_inv stream start lp rp ra i (k + 1) t' out.
Proof.
  intros Hinv Heq. apply (stream_quiet k t); [done|]. exists (connection (t.[i])).
  split; [|by split]. rewrite Heq. by destruct (t.[i]).
Qed.

Lemma accept_segment_other t j created src seg :
  0 <= j -> i <> j -> (accept_segment t j created src seg).2.[i] = t.[i].
Proof.
  intros Hj Hne. unfold accept_segment.
  destruct (tcp_connection_receive _ _) as [[c r]|]; cbn [snd].
  - split_ifs; cbn [snd]; by rewrite arr_get_ne by lia.
  - destruct created; [|done]. by rewrite arr_get_ne by lia.
Qed.

(** An honest segment of the peer. *)
Lemma stream_accept k t out seg :
  table_ok t -> stream_inv stream start lp rp ra i k t out -> k + 1 < 2 ^ 32 ->
  honest stream seg -> payload_length seg <= 1500 ->
  source_port seg = rp ->
  stream_inv stream start lp rp ra i (k + 1) (accept_segment t i false ra seg).2 out.
Proof.
  intros Ht Hinv Hk Hh Hpl Hsp. pose proof (tcp_slot_ok t i Ht Hi) as Hok.
  unfold accept_segment.
  destruct (tcp_connection_receive _ _) as [[c r]|] eqn:Hr; cbn [snd]; [|by eapply stream_same].
  destruct Hinv as [Hv Hp Hn Hl Hrm Ha Hd Hs].
  destruct (received_stream _ _ _ _ _ Hp Hn Hh Hr) as (P' & N' & S' & L' & R' & A').
  rewrite R', Hrm, Hsp, Z.eqb_refl. rewrite copy_whole by (apply (ok_remote _ Hok) || done).
  set (e1 := (t.[i])<| connection := c |><| remote_address := ra |>).
  assert (endpoint_ok e1) as H1 by (destruct Hok; by split).
  destruct Hh as (_ & _ & Hw & Hlen & _).
  set (d := take (Z.to_nat (accepted_payload r)) (payload seg)) in *.
  change (accepted_payload (r<| endpoint_handle := i + 1 |>)) with (accepted_payload r).
  assert (is_u32 (receive_next c)) by (rewrite N'; apply u32_ok).
  case_if as E; [|case_if as E']; cbn [snd];
    (split; rewrite table_get, Z.eqb_refl by done); try (simpl; done || congruence || lia).
  - assert (d = []) as Hd0 by (unfold d; by replace (accepted_payload r) with 0 by lia).
    intros D0. destruct (Hs D0) as [Hs1 Hs2]. split; [done|]. simpl.
    rewrite N', Hs2, Hd0. change (zlen []) with 0. rewrite Z.add_0_r. by apply wrap_idem.
  - simpl. rewrite wrap_small by (widths; lia). lia.
  - simpl. rewrite wrap_small by (widths; lia). lia.
  - unfold TCP_ENDPOINT_QUEUE_CAPACITY in E'. 
    destruct (push_data_spec e1 ra (payload seg) (accepted_payload r)) as [_ Hpd];
      [done|done|lia|lia|lia|]. rewrite Hpd.
    change (pending e1) with (pending (t.[i])). intros D0. destruct (Hs D0) as [Hs1 Hs2].
    rewrite app_assoc. split.
    + apply stream_slice_app; [done|]. by rewrite <- Hs2.
    + simpl. rewrite N', Hs2, wrap_add_l. f_equal. fold d. unfold zlen. rewrite !length_app. lia.
Qed.

(** What is known of the segments: those that carry the connection's addresses and
    ports are honest. *)
Definition from_peer (o : op) : Prop :=
  match o with
  | Deliver _ src seg =>
      src = ra -> source_port seg = rp -> destination_port seg = lp -> honest stream seg
  | Unbind handle => handle <> i + 1
  | _ => True
  end.

Lemma stream_update k t out j e c :
  table_ok t -> stream_inv stream start lp rp ra i k t out -> 0 <= j < 8 ->
  (j = i -> e = (t.[i])<| connection := c |> /\ same_receiver (connection (t.[i])) c) ->
  stream_inv stream start lp rp ra i (k + 1) (t.[j <- e]) out.
Proof.
  intros Ht Hinv Hj He. destruct (decide (j = i)) as [->|Hne].
  - destruct He as [-> Hs]; [done|]. apply (stream_quiet k t); [done|]. exists c.
    by rewrite table_get, Z.eqb_refl.
  - apply (stream_same k t); [done|]. rewrite table_get by done. by replace (i =? j) with false by lia.
Qed.

Lemma stream_deliver k t out dst src seg :
  table_ok t -> stream_inv stream start lp rp ra i k t out -> k + 1 < 2 ^ 32 ->
  op_ok (Deliver dst src seg) -> from_peer (Deliver dst src seg) ->
  stream_inv stream start lp rp ra i (k + 1) (tcp_endpoint_deliver t dst src seg).2 out.
Proof.
  intros Ht Hinv Hk [Hs Hp] Hf. simpl in Hf.
  destruct (deliver_handled t dst src seg Ht) as [t' Heq _|j Hj V Hm L R A|p j Hp' Hj V Vj Hm].
  - apply (stream_same k t); [done|]. apply Heq; [done|]. apply Hinv.
  - destruct (decide (j = i)) as [->|Hne].
    + assert (src = ra) as ->.
      { rewrite (si_address _ _ _ _ _ _ _ _ _ Hinv) in A. symmetry. by apply address_equal_spec. }
      rewrite (si_local _ _ _ _ _ _ _ _ _ Hinv) in L.
      rewrite (si_remote _ _ _ _ _ _ _ _ _ Hinv) in R.
      apply stream_accept; [done..| |done|done]. by apply Hf.
    + apply (stream_same k t); [done|]. apply accept_segment_other; lia.
  - assert (i <> j) by (intros ->; pose proof (si_valid _ _ _ _ _ _ _ _ _ Hinv); congruence).
    apply (stream_same k t); [done|]. rewrite accept_segment_other by lia.
    rewrite table_get by done. by replace (i =? j) with false by lia.
Qed.

Lemma stream_receive k t out handle src pl capacity :
  table_ok t -> stream_inv stream start lp rp ra i k t out ->
  op_ok (Receive handle src pl capacity) ->
  let '(d, t') := step (i + 1) (Receive handle src pl capacity) t in
  stream_inv stream start lp rp ra i (k + 1) t' (out ++ d).
Proof.
  intros Ht Hinv [Hh Hc]. simpl. unfold tcp_endpoint_receive.
  assert (stream_inv stream start lp rp ra i (k + 1) t (out ++ [])) as Hnone
    by (rewrite app_nil_r; by apply (stream_same k t)).
  destruct (endpoint_for t handle) as [j|] eqn:E; [|done].
  apply tcp_endpoint_for_Some in E as (Hj & V & ->); [|done]. case_if as C; [done|].
  destruct (decide (j = i)) as [->|Hne].
  - rewrite Z.eqb_refl. destruct (pop_data_spec (t.[i])) as (_ & Hpd & D1 & D2 & D3);
      [by apply tcp_slot_ok|done|lia|]. unfold TCP_ENDPOINT_PAYLOAD_MAX in *.
    destruct Hinv as [I1 I2 I3 I4 I5 I6 I7 I8].
    assert (take (Z.to_nat (length ((queue (t.[i])).[head (t.[i])])))
              (copy_bytes pl 0 (bytes ((queue (t.[i])).[head (t.[i])]))
                 (length ((queue (t.[i])).[head (t.[i])]))) =
            data_of ((queue (t.[i])).[head (t.[i])])) as ->.
    { rewrite copy_bytes_spec by lia. simpl. unfold data_of. by rewrite take_app_length' by len. }
    split; rewrite table_get, Z.eqb_refl by done; try done; [simpl; lia|].
    intros D0. rewrite <- app_assoc, <- Hpd. by apply I8.
  - replace (j + 1 =? i + 1) with false by lia. rewrite app_nil_r.
    apply (stream_update k t out j _ (connection (t.[i]))); [done..|]. intros; lia.
Qed.

Lemma stream_step k t out o :
  table_ok t -> stream_inv stream start lp rp ra i k t out -> k + 1 < 2 ^ 32 ->
  op_ok o -> from_peer o ->
  let '(d, t') := step (i + 1) o t in stream_inv stream start lp rp ra i (k + 1) t' (out ++ d).
Proof.
  intros Ht Hinv Hk Ho Hf. pose proof (si_valid _ _ _ _ _ _ _ _ _ Hinv) as V.
  assert (forall j e, 0 <= j < 8 -> valid (t.[j]) = false ->
    stream_inv stream start lp rp ra i (k + 1) (t.[j <- e]) out) as Hfree.
  { intros j e Hj Vj. apply (stream_update k t out j e (connection e)); [done..|].
    intros ->. congruence. }
  destruct o; [..|by apply stream_receive]; simpl in *; rewrite app_nil_r.
  - unfold tcp_endpoint_listen. case_if as E0; [by apply (stream_same k t)|].
    destruct (find_z _ _ _); [by apply (stream_same k t)|].
    destruct (free_slot t) as [j|] eqn:F; [|by apply (stream_same k t)].
    apply free_slot_Some in F as [Hj Vj]. destruct (tcp_connection_listen _) as [[] c];
      cbn [negb snd]; by apply Hfree.
  - unfold tcp_endpoint_connect. case_if as E0; [by apply (stream_same k t)|].
    destruct (find_z _ _ _); [by apply (stream_same k t)|].
    destruct (free_slot t) as [j|] eqn:F; [|by apply (stream_same k t)].
    apply free_slot_Some in F as [Hj Vj].
    destruct (tcp_connection_open _ _ _) as [[] c]; cbn [negb snd]; [|by apply Hfree].
    destruct (tcp_segment_build _ _ _ _ _ _ _ _ _ _ _ _) as [[sg n]|]; [|by apply Hfree].
    destruct (tcp_connection_record_segment _ _ _) as [[] c']; by apply Hfree.
  - unfold tcp_endpoint_unbind. destruct (endpoint_for t handle) as [j|] eqn:E;
      [|by apply (stream_same k t)]. apply tcp_endpoint_for_Some in E as (Hj & _ & ->); [|done].
    apply (stream_update k t out j _ (connection (t.[i]))); [done..|]. intros; lia.
  - by apply stream_deliver.
  - unfold tcp_endpoint_send_segment. destruct (endpoint_for t handle) as [j|] eqn:E;
      [|by apply (stream_same k t)]. apply tcp_endpoint_for_Some in E as (Hj & _ & ->); [|done].
    case_if as R; [by apply (stream_same k t)|].
    destruct (tcp_connection_build _ _ _ _ _ _ _ _) as [[ok c] out'] eqn:B.
    apply (stream_update k t out j _ c); [done..|]. intros ->. split; [done|]. by eapply build_same.
  - unfold tcp_endpoint_retransmit_due. destruct (endpoint_for t handle) as [j|] eqn:E;
      [|by apply (stream_same k t)]. apply tcp_endpoint_for_Some in E as (Hj & _ & ->); [|done].
    destruct (tcp_connection_retransmit_due _ _ _ _ _) as [[[c sg] n]|] eqn:R;
      [|by apply (stream_same k t)].
    apply (stream_update k t out j _ c); [done..|]. intros ->. split; [done|]. by eapply retransmit_same.
  - unfold tcp_endpoint_retransmit_next. case_if as C; [by apply (stream_same k t)|].
    destruct (find_z _ _ _) as [j|] eqn:F; [|by apply (stream_same k t)].
    apply find_z_Some in F as (Hj & _). unfold TCP_ENDPOINT_CAPACITY in Hj.
    destruct (tcp_connection_retransmit_due _ _ _ _ _) as [[[c sg] n]|] eqn:R;
      [|by apply (stream_same k t)].
    apply (stream_update k t out j _ c); [done..|lia|]. intros ->. split; [done|]. by eapply retransmit_same.
Qed.

Lemma stream_run k t out ops :
  table_ok t -> stream_inv stream start lp rp ra i k t out -> k + zlen ops < 2 ^ 32 ->
  Forall op_ok ops -> Forall from_peer ops ->
  let '(d, t') := run (i + 1) ops t in
  stream_inv stream start lp rp ra i (k + zlen ops) t' (out ++ d).
Proof.
  intros Ht Hinv Hk Hops. revert k t out Ht Hinv Hk.
  induction Hops as [|o ops Ho _ IH]; intros k t out Ht Hinv Hk Hf; cbn [run].
  { change (zlen []) with 0. by rewrite Z.add_0_r, app_nil_r. }
  apply Forall_cons in Hf as [Hf Hfs]. unfold zlen in Hk. rewrite length_cons in Hk.
  pose proof (stream_step k t out o Ht Hinv ltac:(lia) Ho Hf) as Hs.
  pose proof (step_ok (i + 1) o t Ht Ho) as Ht'.
  destruct (step (i + 1) o t) as [d t']. cbn [snd] in Ht'.
  specialize (IH (k + 1) t' (out ++ d) Ht' Hs ltac:(unfold zlen; lia) Hfs).
  destruct (run (i + 1) ops t') as [ds t'']. rewrite app_assoc.
  by replace (k + zlen (o :: ops)) with (k + 1 + zlen ops) by (unfold zlen; rewrite length_cons; lia).
Qed.

End stream.

(** ** Lemmas: opening and overflow *)

(** The connection of a listener after a SYN. *)
Definition syn_received (c : tcp_connection_t) (syn : tcp_segment_view_t) : tcp_connection_t :=
  c<| remote_port := source_port syn |><| receive_next := u32 (sequence syn + 1) |>
   <| send_next := 1 |><| send_unacknowledged := 0 |><| peer_window := window_ syn |>
   <| state := TCP_CONNECTION_SYN_RECEIVED |>.

Lemma receive_syn c syn :
  state c = TCP_CONNECTION_LISTEN -> remote_port c = 0 -> local_port c = destination_port syn ->
  has (flags syn) TCP_FLAG_SYN = true -> has (flags syn) TCP_FLAG_RST = false ->
  tcp_connection_receive c syn =
  Some (syn_received c syn, result_zero<| response_flags := Z.lor TCP_FLAG_SYN TCP_FLAG_ACK |>
          <| response_acknowledgment := u32 (sequence syn + 1) |>).
Proof.
  intros Hs Hr Hl Hsyn Hrst. unfold tcp_connection_receive.
  rewrite Hr, Hl, Hsyn, Hrst, Hs, !Z.eqb_refl. done.
Qed.

Lemma receive_handshake_ack c ack :
  state c = TCP_CONNECTION_SYN_RECEIVED -> remote_port c = source_port ack ->
  local_port c = destination_port ack -> flags ack = TCP_FLAG_ACK ->
  acknowledgment ack = send_next c ->
  tcp_connection_receive c ack =
  Some (c<| send_unacknowledged := send_next c |><| peer_window := window_ ack |>
         <| retransmission_pending := 0 |><| state := TCP_CONNECTION_ESTABLISHED |>, result_zero).
Proof.
  intros Hs Hr Hl Hf Ha. unfold tcp_connection_receive.
  rewrite Hr, Hl, Hf, Hs, Ha, !Z.eqb_refl, andb_false_r. done.
Qed.

(** A slot without data for it takes the segment's connection state and address. *)
Lemma accept_control t i created src seg c r :
  table_ok t -> 0 <= i < 8 -> zlen src = 4 ->
  tcp_connection_receive (connection (t.[i])) seg = Some (c, r) ->
  remote_port c = source_port seg -> accepted_payload r = 0 ->
  accept_segment t i created src seg =
  (Some (r<| endpoint_handle := i + 1 |>),
   t.[i <- (t.[i])<| connection := c |><| remote_address := src |>]).
Proof.
  intros Ht Hi Hs Hr Hp Ha. unfold accept_segment. rewrite Hr. simpl. rewrite Hp, Ha, !Z.eqb_refl.
  simpl. rewrite copy_whole; [done| |done]. apply (ok_remote _ (tcp_slot_ok t i Ht Hi)).
Qed.

(** A slot whose queue is full counts the segment as dropped. *)
Lemma accept_full t i created src seg c r :
  table_ok t -> 0 <= i < 8 -> zlen src = 4 -> count (t.[i]) = 8 ->
  tcp_connection_receive (connection (t.[i])) seg = Some (c, r) ->
  remote_port c = source_port seg -> accepted_payload r <> 0 ->
  accept_segment t i created src seg =
  (None, t.[i <- (t.[i])<| connection := c |><| remote_address := src |>
                  <| dropped := u32 (dropped (t.[i]) + 1) |>]).
Proof.
  intros Ht Hi Hs Hc Hr Hp Ha. unfold accept_segment. rewrite Hr. simpl.
  replace (accepted_payload r =? 0) with false by lia. rewrite Hp, !Z.eqb_refl. simpl. rewrite Hc.
  simpl. rewrite copy_whole; [done| |done]. apply (ok_remote _ (tcp_slot_ok t i Ht Hi)).
Qed.

(** The slot of the new connection. *)
Definition opened (parent child : tcp_endpoint_t) (src : list Z) (syn : tcp_segment_view_t)
    : tcp_endpoint_t :=
  let e := child_of parent child in
  e<| connection := syn_received (connection e) syn |><| remote_address := src |>.

Section passive_open.
Context (t : tcp_endpoint_table_t) (dst src : list Z) (syn : tcp_segment_view_t) (l j : Z).
Context (Ht : table_ok t) (Hsrc : zlen src = 4) (Hpl : payload_length syn = 0).
Context (Hsyn : has (flags syn) TCP_FLAG_SYN = true) (Hrst : has (flags syn) TCP_FLAG_RST = false).
Context (Hsp : source_port syn <> 0) (Hdp : destination_port syn <> 0).
Context (Hfc : find_connection t dst src syn = None) (Hfl : find_listener t dst syn = Some l).
Context (Hfs : free_slot t = Some j).

Lemma listener_facts :
  0 <= l < 8 /\ 0 <= j < 8 /\ l <> j /\ valid (t.[l]) = true /\
  state (connection (t.[l])) = TCP_CONNECTION_LISTEN /\
  local_port (connection (t.[l])) = destination_port syn /\
  bound_to (t.[l]) dst (destination_port syn) = true.
Proof.
  destruct (free_slot_Some _ _ Hfs) as [Hj Vj].
  destruct (find_listener_Some _ _ _ _ Hfl) as (Hl & Vl & Sl).
  apply find_z_Some in Hfl as (_ & Hb & _). apply andb_prop in Hb as [_ Hb].
  split_and!; try done; try lia; [congruence|].
  unfold bound_to in Hb. rewrite Vl in Hb. simpl in Hb. lia.
Qed.

Lemma deliver_syn :
  tcp_endpoint_deliver t dst src syn =
  (Some (result_zero<| endpoint_handle := j + 1 |>
           <| response_flags := Z.lor TCP_FLAG_SYN TCP_FLAG_ACK |>
           <| response_acknowledgment := u32 (sequence syn + 1) |>),
   t.[j <- opened (t.[l]) (t.[j]) src syn]).
Proof.
  destruct listener_facts as (Hl & Hj & Hlj & Vl & Sl & Pl & _).
  unfold tcp_endpoint_deliver. rewrite Hpl. simpl. rewrite Hfc, Hsyn, Hfl. simpl.
  rewrite Sl. simpl. rewrite Hfs. unfold tcp_connection_listen. simpl.
  replace (local_port (connection (t.[l])) =? 0) with false by lia. simpl.
  change (empty_queue _) with (child_of (t.[l]) (t.[j])).
  assert (table_ok (t.[j <- child_of (t.[l]) (t.[j])])) as Ht'
    by (apply table_set; [done|]; by apply child_ok, tcp_slot_ok).
  assert (t.[j <- child_of (t.[l]) (t.[j])].[j] = child_of (t.[l]) (t.[j])) as Hget
    by (rewrite table_get by done; by rewrite Z.eqb_refl).
  pose proof (receive_syn (connection (child_of (t.[l]) (t.[j]))) syn) as R.
  rewrite <- Hget in R. rewrite (accept_control _ _ _ _ _ _ _ Ht' Hj Hsrc (R ltac:(by rewrite Hget)
    ltac:(by rewrite Hget) ltac:(by rewrite Hget) Hsyn Hrst)) by done.
  by rewrite Hget, list_insert_insert_eq.
Qed.

(** The new slot is the one that later segments of the peer find. *)
Lemma opened_found ack :
  source_port ack = source_port syn -> destination_port ack = destination_port syn ->
  find_connection (t.[j <- opened (t.[l]) (t.[j]) src syn]) dst src ack = Some j.
Proof.
  intros Hs Hd. destruct listener_facts as (Hl & Hj & Hlj & Vl & Sl & Pl & Bl).
  apply find_z_Some. unfold TCP_ENDPOINT_CAPACITY. split; [done|].
  assert (copy_bytes (local_address (t.[j])) 0 (local_address (t.[l])) 4 = local_address (t.[l]))
    as Hcp by (apply copy_whole; [apply (ok_local _ (tcp_slot_ok t j Ht Hj))|
               apply (ok_local _ (tcp_slot_ok t l Ht Hl))]).
  split.
  - rewrite table_get, Z.eqb_refl by done. unfold bound_to in Bl |- *. rewrite Vl in Bl.
    simpl in Bl |- *. rewrite Hcp, Hd, Hs, Z.eqb_refl.
    assert (address_equal src src = true) as -> by (by apply address_equal_spec).
    rewrite Bl. simpl. lia.
  - intros k Hk. rewrite table_get by (done || lia). replace (k =? j) with false by lia.
    unfold find_connection in Hfc. rewrite find_z_None in Hfc.
    rewrite Hs, Hd. apply Hfc. unfold TCP_ENDPOINT_CAPACITY. lia.
Qed.

Lemma accept_finds_child :
  is_Some (tcp_endpoint_accept (t.[j <- opened (t.[l]) (t.[j]) src syn]) (l + 1)).
Proof.
  destruct listener_facts as (Hl & Hj & Hlj & Vl & Sl & Pl & Bl).
  unfold tcp_endpoint_accept, endpoint_for, TCP_ENDPOINT_CAPACITY.
  replace ((l + 1 =? 0) || (8 <? l + 1)) with false by lia. replace (l + 1 - 1) with l by lia.
  assert (t.[j <- opened (t.[l]) (t.[j]) src syn].[l] = t.[l]) as Hg
    by (rewrite table_get by done; by replace (l =? j) with false by lia).
  rewrite Hg, Vl, Hg, Sl. simpl. apply fmap_is_Some.
  destruct (find_z _ _ _) eqn:F; [done|]. rewrite find_z_None in F.
  specialize (F j Hj). rewrite table_get, Z.eqb_refl in F by done. simpl in F.
  replace (j =? l) with false in F by lia. rewrite Z.eqb_refl in F. done.
Qed.

End passive_open.

(** ** Theorems *)

(** C22. Whatever else happens in the table, the owner of an established connection is
    handed the peer's stream from the byte expected at the start: in order, without
    gap or repetition, as long as the connection counts no dropped segment. *)
Theorem tcp_endpoint_stream stream t i ops :
  table_ok t -> 0 <= i < 8 -> valid (t.[i]) = true ->
  state (connection (t.[i])) = TCP_CONNECTION_ESTABLISHED ->
  is_u32 (receive_next (connection (t.[i]))) -> count (t.[i]) = 0 -> dropped (t.[i]) = 0 ->
  Forall op_ok ops -> zlen ops < 2 ^ 32 ->
  Forall (from_peer stream (local_port (connection (t.[i]))) (remote_port (connection (t.[i])))
            (remote_address (t.[i])) i) ops ->
  let '(d, t') := run (i + 1) ops t in
  dropped (t'.[i]) = 0 ->
  stream_slice stream (receive_next (connection (t.[i]))) (d ++ pending (t'.[i])).
Proof.
  intros Ht Hi V S N C D Hops Hlen Hf.
  assert (pending (t.[i]) = []) as Hp by (unfold pending, ring_list; by rewrite C).
  set (n := receive_next (connection (t.[i]))) in *.
  assert (stream_inv stream n (local_port (connection (t.[i]))) (remote_port (connection (t.[i])))
            (remote_address (t.[i])) i 0 t []) as Hinv.
  { split; try done; [|lia|].
    - unfold has_peer. by rewrite S.
    - intros _. rewrite Hp. split; [intros j Hj; unfold zlen in Hj; simpl in Hj; lia|].
      change (zlen _) with 0. rewrite Z.add_0_r. by rewrite wrap_small. }
  pose proof (stream_run _ _ _ _ _ i Hi (ok_remote _ (tcp_slot_ok t i Ht Hi)) 0 t [] ops Ht Hinv
                Hlen Hops Hf) as Hrun.
  destruct (run (i + 1) ops t) as [d t']. intros D'. by apply Hrun.
Qed.

(** A SYN for a listener takes a free slot for the new connection and leaves the
    listener and every other slot alone; the acknowledgment of the answer makes the
    new connection established. *)
Theorem tcp_endpoint_passive_open t dst src syn ack l j :
  table_ok t -> zlen src = 4 ->
  payload_length syn = 0 -> has (flags syn) TCP_FLAG_SYN = true ->
  has (flags syn) TCP_FLAG_RST = false -> source_port syn <> 0 -> destination_port syn <> 0 ->
  find_connection t dst src syn = None -> find_listener t dst syn = Some l ->
  free_slot t = Some j ->
  source_port ack = source_port syn -> destination_port ack = destination_port syn ->
  flags ack = TCP_FLAG_ACK -> acknowledgment ack = 1 -> payload_length ack = 0 ->
  exists r t1 r' t2,
    tcp_endpoint_deliver t dst src syn = (Some r, t1) /\
    response_flags r = Z.lor TCP_FLAG_SYN TCP_FLAG_ACK /\
    response_acknowledgment r = u32 (sequence syn + 1) /\ endpoint_handle r = j + 1 /\
    state (connection (t1.[j])) = TCP_CONNECTION_SYN_RECEIVED /\
    is_Some (tcp_endpoint_accept t1 (l + 1)) /\
    tcp_endpoint_deliver t1 dst src ack = (Some r', t2) /\ endpoint_handle r' = j + 1 /\
    state (connection (t2.[j])) = TCP_CONNECTION_ESTABLISHED /\
    remote_address (t2.[j]) = src /\ remote_port (connection (t2.[j])) = source_port syn /\
    receive_next (connection (t2.[j])) = u32 (sequence syn + 1) /\
    forall k, 0 <= k < 8 -> k <> j -> t2.[k] = t.[k].
Proof.
  intros Ht Hsrc Hpl Hsyn Hrst Hsp Hdp Hfc Hfl Hfs Hsa Hda Hfa Haa Hpa.
  destruct (listener_facts t dst syn l j) as (Hl & Hj & Hlj & _ & _ & Pl & _); [done..|].
  set (t1 := t.[j <- opened (t.[l]) (t.[j]) src syn]).
  assert (t1.[j] = opened (t.[l]) (t.[j]) src syn) as G1
    by (unfold t1; rewrite table_get by done; by rewrite Z.eqb_refl).
  assert (table_ok t1) as Ht1.
  { apply table_set; [done|]. unfold opened. apply ok_remote_address; [|done].
    by apply ok_connection, child_ok, tcp_slot_ok. }
  eexists _, t1, _, _. split; [by apply deliver_syn|].
  assert (tcp_endpoint_deliver t1 dst src ack = accept_segment t1 j false src ack) as ->.
  { unfold tcp_endpoint_deliver. rewrite Hpa. simpl. unfold t1.
    rewrite (opened_found t dst src syn l j) by done. fold t1. by rewrite G1. }
  split_and!; [done..|by rewrite G1|by apply (accept_finds_child t dst src syn)| | | | | | |].
  1: { apply accept_control; [done..| | |].
       - rewrite G1. apply receive_handshake_ack; simpl; congruence.
       - done.
       - done. }
  all: rewrite ?table_get, ?Z.eqb_refl by done; rewrite ?G1; try done.
  intros k Hk Hkj. rewrite table_get by done. replace (k =? j) with false by lia.
  unfold t1. rewrite table_get by done. by replace (k =? j) with false by lia.
Qed.

(** C37. A segment that arrives while the queue is full is lost although the connection
    counts it as received: when the peer sends it again it is acknowledged and
    discarded. *)
Theorem tcp_endpoint_overflow t i src seg :
  table_ok t -> zlen src = 4 -> 0 <= i < 8 -> valid (t.[i]) = true -> count (t.[i]) = 8 ->
  state (connection (t.[i])) = TCP_CONNECTION_ESTABLISHED ->
  is_u32 (receive_next (connection (t.[i]))) ->
  destination_port seg = local_port (connection (t.[i])) ->
  source_port seg = remote_port (connection (t.[i])) ->
  flags seg = TCP_FLAG_ACK -> sequence seg = receive_next (connection (t.[i])) ->
  send_unacknowledged (connection (t.[i])) <= acknowledgment seg <= send_next (connection (t.[i])) ->
  0 < payload_length seg <= 1500 ->
  let '(r, t1) := accept_segment t i false src seg in
  let '(r', t2) := accept_segment t1 i false src seg in
  r = None /\ pending (t1.[i]) = pending (t.[i]) /\
  (exists a, r' = Some a /\ response_flags a = TCP_FLAG_ACK /\ accepted_payload a = 0 /\
     response_acknowledgment a = u32 (sequence seg + payload_length seg)) /\
  pending (t2.[i]) = pending (t.[i]).
Proof.
  intros Ht Hsrc Hi V C S N Hd Hs Hf Hq Ha Hp.
  assert (tcp_connection_receive (connection (t.[i])) seg =
          Some (after_data (connection (t.[i])) seg,
                (acknowledge (after_data (connection (t.[i])) seg))
                  <| accepted_payload := payload_length seg |>)) as R1.
  { by apply receive_in_order; rewrite ?Hf. }
  set (c1 := after_data (connection (t.[i])) seg) in *.
  assert (receive_next c1 = u32 (sequence seg + payload_length seg)) as N1.
  { unfold c1, after_data. simpl. rewrite Hf. change (has TCP_FLAG_ACK TCP_FLAG_FIN) with false.
    simpl. rewrite Z.add_0_r, (wrap_small 32 (payload_length seg)) by (widths; lia). congruence. }
  assert (tcp_connection_receive c1 seg = Some (c1, acknowledge c1)) as R2.
  { apply receive_out_of_order; rewrite ?Hf; try done.
    - unfold c1, after_data. simpl. by rewrite Hf.
    - unfold c1, after_data. simpl. lia.
    - rewrite N1. clear -Hp N Hq. rewrite Hq. zlia. }
  assert (remote_port c1 = source_port seg) as P1 by done.
  clearbody c1. rewrite (accept_full t i false src seg _ _ Ht Hi Hsrc C R1 P1) by (simpl; lia).
  set (e1 := (t.[i])<| connection := c1 |><| remote_address := src |>
              <| dropped := u32 (dropped (t.[i]) + 1) |>).
  assert (table_ok (t.[i <- e1])) as Ht1
    by (apply table_set; [done|]; destruct (tcp_slot_ok t i Ht Hi); by split).
  assert (t.[i <- e1].[i] = e1) as G1 by (rewrite table_get by done; by rewrite Z.eqb_refl).
  rewrite (accept_control (t.[i <- e1]) i false src seg c1 (acknowledge c1))
    by (done || by rewrite G1). rewrite G1. split_and!; [done..| |].
  - eexists. split; [done|]. simpl. by rewrite N1.
  - by rewrite table_get, Z.eqb_refl by done.
Qed.

(** ** Examples *)

Definition example_slot : tcp_endpoint_t :=
  {| valid := false; local_address := [0; 0; 0; 0]; remote_address := [0; 0; 0; 0];
     connection := tcp_connection_initialize 0 0;
     queue := replicate 8 {| length := 0; source_address := [0; 0; 0; 0];
                             bytes := replicate 1500 0 |};
     head := 0; tail := 0; count := 0; dropped := 0 |}.

(** A connection with the first payload byte 1000 expected from port 80 of 10.0.2.2. *)
Definition example_connected : tcp_endpoint_t :=
  example_slot<| valid := true |><| remote_address := [10; 0; 2; 2] |>
    <| connection := (tcp_connection_initialize 4000 8192)<| state := TCP_CONNECTION_ESTABLISHED |>
         <| remote_port := 80 |><| send_next := 1 |><| send_unacknowledged := 1 |>
         <| receive_next := 1000 |> |>.

Definition example_table : tcp_endpoint_table_t :=
  example_connected :: replicate 7 example_slot.

Definition example_data (seq : Z) (pl : list Z) : tcp_segment_view_t :=
  {| source_port := 80; destination_port := 4000; sequence := seq; acknowledgment := 1;
     data_offset := 5; flags := TCP_FLAG_ACK; window_ := 8192; urgent := 0; payload := pl;
     payload_length := zlen pl |}.

Lemma example_slot_ok : endpoint_ok example_slot.
Proof.
  split; try done. apply Forall_replicate. vm_compute. intuition congruence.
Qed.

Lemma example_table_ok : table_ok example_table.
Proof.
  split; [done|]. constructor; [|apply Forall_replicate; exact example_slot_ok].
  destruct example_slot_ok as [_ _ H1 H2 _]. split; [done..|]. intros _. by apply ring_empty_ok.
Qed.

Definition example_stream (n : Z) : Z := n mod 256.

(** A segment from the future, the expected one, a duplicate, and a read. *)
Definition example_ops : list op :=
  [Deliver [10; 0; 2; 15] [10; 0; 2; 2] (example_data 1002 [234]);
   Deliver [10; 0; 2; 15] [10; 0; 2; 2] (example_data 1000 [232; 233]);
   Deliver [10; 0; 2; 15] [10; 0; 2; 2] (example_data 1000 [232; 233]);
   Receive 1 [0; 0; 0; 0] (replicate 10 0) 10].

Lemma tcp_endpoint_stream_witness :
  let '(d, t') := run 1 example_ops example_table in
  d = [232; 233] /\ stream_slice example_stream 1000 (d ++ pending (t'.[0])).
Proof.
  assert (Forall op_ok example_ops) as Hops
    by (repeat constructor; vm_compute; intuition congruence).
  assert (forall seq pl, is_u32 seq -> is_u16 (zlen pl) ->
    (forall j, 0 <= j < zlen pl -> pl.[j] = example_stream (u32 (seq + j))) ->
    honest example_stream (example_data seq pl)) as Hh by (intros; split_and!; done).
  assert (Forall (from_peer example_stream 4000 80 [10; 0; 2; 2] 0) example_ops) as Hf.
  { unfold example_ops. rewrite !Forall_cons, Forall_nil.
    split_and!; try exact I; intros _ _ _; apply Hh; try done; unfold zlen; simpl; intros j Hj;
      (assert (j = 0 \/ j = 1) as [-> | ->] by lia); done || lia. }
  assert ((let '(d, t') := run 1 example_ops example_table in (d, dropped (t'.[0]))) = ([232; 233], 0))
    as He by (vm_compute; reflexivity).
  pose proof (tcp_endpoint_stream example_stream example_table 0 example_ops example_table_ok
    ltac:(lia) eq_refl eq_refl ltac:(vm_compute; split; congruence) eq_refl eq_refl Hops
    ltac:(vm_compute; reflexivity) Hf) as H.
  change (0 + 1) with 1 in H. destruct (run 1 example_ops example_table) as [d t'].
  injection He as -> D. split; [done|]. by apply H.
Defined.

Definition example_listening : tcp_endpoint_table_t :=
  (tcp_endpoint_listen (replicate 8 example_slot) [10; 0; 2; 15] 80 8192).2.

Definition example_syn : tcp_segment_view_t :=
  {| source_port := 5000; destination_port := 80; sequence := 77; acknowledgment := 0;
     data_offset := 5; flags := TCP_FLAG_SYN; window_ := 4096; urgent := 0; payload := [];
     payload_length := 0 |}.
Definition example_ack : tcp_segment_view_t :=
  {| source_port := 5000; destination_port := 80; sequence := 78; acknowledgment := 1;
     data_offset := 5; flags := TCP_FLAG_ACK; window_ := 4096; urgent := 0; payload := [];
     payload_length := 0 |}.

Lemma tcp_endpoint_passive_open_witness :
  exists (t1 : tcp_endpoint_table_t) r (t2 : tcp_endpoint_table_t),
    tcp_endpoint_deliver example_listening [10; 0; 2; 15] [10; 0; 2; 2] example_syn = (Some r, t1) /\
    state (connection (t2.[1])) = TCP_CONNECTION_ESTABLISHED /\ t2.[0] = example_listening.[0].
Proof.
  assert (table_ok example_listening) as Hok.
  { apply listen_ok; [|done]. split; [done|]. apply Forall_replicate. exact example_slot_ok. }
  destruct (tcp_endpoint_passive_open example_listening [10; 0; 2; 15] [10; 0; 2; 2]
    example_syn example_ack 0 1) as (r & t1 & r' & t2 & H1 & _ & _ & _ & _ & _ & _ & _ & H2 & _ & _ & _ & H3);
    try exact Hok; try (vm_compute; congruence).
  exists t1, r, t2. split; [exact H1|]. split; [exact H2|]. apply H3; lia.
Defined.

Definition example_full : tcp_endpoint_table_t :=
  example_connected<| count := 8 |> :: replicate 7 example_slot.

Lemma tcp_endpoint_overflow_witness :
  (accept_segment example_full 0 false [10; 0; 2; 2] (example_data 1000 [232; 233])).1 = None.
Proof.
  assert (table_ok example_full) as Hok.
  { split; [done|]. constructor; [|apply Forall_replicate; exact example_slot_ok].
    destruct example_slot_ok as [_ _ H1 H2 _]. split; [done..|]. intros _. by vm_compute. }
  pose proof (tcp_endpoint_overflow example_full 0 [10; 0; 2; 2] (example_data 1000 [232; 233])
    Hok eq_refl ltac:(lia) eq_refl eq_refl eq_refl ltac:(done) eq_refl eq_refl eq_refl eq_refl
    ltac:(vm_compute; split; congruence) ltac:(vm_compute; split; congruence)) as H.
  destruct (accept_segment example_full _ _ _ _) as [r t1].
  destruct (accept_segment t1 _ _ _ _) as [r' t2]. by destruct H as [-> _].
Defined.

End TcpEndpoint.
