(* ===== verification/Network.v ===== *)
(** * The network stack (kernel/drivers/network/network.c)

    Decoding a frame through the protocol layers, building the answers (ARP, ICMP
    echo, TCP response and reset) and the service loop that connects the packet
    queue with the tables of the other files.

    A pointer passed as [uint8_t[4]] or [uint8_t[6]] is the list of the bytes the
    callee may read.  The contents of an uninitialised local array of [n] bytes are
    [uninit n], a parameter.  The frames the driver has received are an input and
    the frames handed to [e1000_transmit] are an output: the driver itself
    (kernel/drivers/network/e1000.c) is not modelled. *)

From S2P Require Import Prelude NetBytes Link Internet Udp Tcp PacketQueue.
From S2P Require Import NetTables Reassembly UdpEndpoint TcpEndpoint.

Module Network.
Import Ethernet Arp Ipv4 Icmp Udp Tcp PacketQueue ArpCache Reassembly UdpEndpoint TcpEndpoint.

(** [network_frame_kind_t] with the views that [network_decode_frame] has filled in
    for each kind, that is [network_frame_view_t]. *)
Inductive network_frame_view_t :=
  | NETWORK_FRAME_ETHERNET (ethernet : ethernet_frame_view_t)
  | NETWORK_FRAME_ARP (ethernet : ethernet_frame_view_t) (arp : arp_packet_view_t)
  | NETWORK_FRAME_IPV4 (ethernet : ethernet_frame_view_t) (ipv4 : ipv4_packet_view_t)
  | NETWORK_FRAME_UDP (ethernet : ethernet_frame_view_t) (ipv4 : ipv4_packet_view_t)
      (udp : udp_packet_view_t)
  | NETWORK_FRAME_TCP (ethernet : ethernet_frame_view_t) (ipv4 : ipv4_packet_view_t)
      (tcp : tcp_segment_view_t)
  | NETWORK_FRAME_ICMP (ethernet : ethernet_frame_view_t) (ipv4 : ipv4_packet_view_t)
      (icmp : icmp_echo_view_t).

Definition network_decode_frame (frame : list Z) (length : Z) : option network_frame_view_t :=
  match ethernet_frame_parse frame length with
  | None => None
  | Some e =>
      if ether_type e =? 2054 then
        match arp_packet_parse (Ethernet.payload e) (Ethernet.payload_length e) with
        | None => None
        | Some a => Some (NETWORK_FRAME_ARP e a)
        end
      else if negb (ether_type e =? 2048) then None
      else
        match ipv4_packet_parse (Ethernet.payload e) (Ethernet.payload_length e) with
        | None => None
        | Some ip =>
            let src := take 4 (Ipv4.source ip) in
            let dst := take 4 (Ipv4.destination ip) in
            if Ipv4.protocol ip =? 17 then
              match udp_packet_parse (Ipv4.payload ip) (Ipv4.payload_length ip) src dst with
              | None => None
              | Some u => Some (NETWORK_FRAME_UDP e ip u)
              end
            else if Ipv4.protocol ip =? 6 then
              match tcp_segment_parse (Ipv4.payload ip) (Ipv4.payload_length ip) src dst with
              | None => None
              | Some s => Some (NETWORK_FRAME_TCP e ip s)
              end
            else if Ipv4.protocol ip =? 1 then
              match icmp_echo_parse (Ipv4.payload ip) (Ipv4.payload_length ip) with
              | None => None
              | Some i => Some (NETWORK_FRAME_ICMP e ip i)
              end
            else Some (NETWORK_FRAME_IPV4 e ip)
        end
  end.

(** The tables the service loop works on; a null table is [None]. *)
Record net_state := {
  queue : network_packet_queue_t;
  cache : arp_cache_t;
  udp_table : option udp_endpoint_table_t;
  tcp_table : option tcp_endpoint_table_t;
  reassembly : option ipv4_reassembly_table_t;
  reassembly_output : option (list Z);
}.
#[export] Instance eta_net_state : Eta net_state := fun s => {|
  queue := queue s; cache := cache s; udp_table := udp_table s; tcp_table := tcp_table s;
  reassembly := reassembly s; reassembly_output := reassembly_output s |}.

Section network.
Context (uninit : Z -> list Z).

(** A fragment is stored; when it completes a datagram the frame is replaced by an
    unfragmented one.  Returns the code's result, the frame, its length and the state. *)
Definition prepare_network_frame (frame : list Z) (length : Z) (s : net_state)
    (reassembly_capacity now : Z) : bool * list Z * Z * net_state :=
  match ethernet_frame_parse frame length with
  | None => (true, frame, length, s)
  | Some e =>
      if negb (ether_type e =? 2048) then (true, frame, length, s)
      else
        match ipv4_packet_parse (Ethernet.payload e) (Ethernet.payload_length e) with
        | None => (true, frame, length, s)
        | Some ip =>
            if (Ipv4.fragment_offset ip =? 0) && (Ipv4.more_fragments ip =? 0)
            then (true, frame, length, s)
            else
              match reassembly s, reassembly_output s with
              | Some t, Some output =>
                  let src := take 4 (Ipv4.source ip) in
                  let dst := take 4 (Ipv4.destination ip) in
                  let '(r, t') := ipv4_reassembly_add t (Ipv4.identification ip) src dst
                    (Ipv4.protocol ip) (Ipv4.fragment_offset ip)
                    (negb (Ipv4.more_fragments ip =? 0)) (Ipv4.payload ip)
                    (Ipv4.payload_length ip) now 1000 output reassembly_capacity in
                  let s := s<| reassembly := Some t' |> in
                  match r with
                  | None => (false, frame, length, s)
                  | Some (output, plen) =>
                      let s := s<| reassembly_output := Some output |> in
                      match ipv4_packet_build (uninit ETHERNET_MAX_PAYLOAD_SIZE)
                              ETHERNET_MAX_PAYLOAD_SIZE src dst (Ipv4.protocol ip) (Ipv4.ttl ip)
                              (Ipv4.identification ip) (Some output) plen with
                      | None => (false, frame, length, s)
                      | Some (rebuilt_ip, ip_length) =>
                          match ethernet_frame_build (uninit ETHERNET_MAX_FRAME_SIZE)
                                  ETHERNET_MAX_FRAME_SIZE (take 6 (Ethernet.destination e))
                                  (take 6 (Ethernet.source e)) 2048 (Some rebuilt_ip) ip_length with
                          | None => (false, frame, length, s)
                          | Some (rebuilt, rebuilt_length) =>
                              (true, copy_bytes frame 0 rebuilt rebuilt_length, rebuilt_length, s)
                          end
                      end
                  end
              | _, _ => (false, frame, length, s)
              end
        end
  end.

Definition network_build_icmp_echo_reply (frame : list Z) (length : Z) (reply : list Z)
    (capacity : Z) : option (list Z * Z) :=
  match network_decode_frame frame length with
  | Some (NETWORK_FRAME_ICMP e ip i) =>
      if negb (Icmp.type i =? ICMP_TYPE_ECHO_REQUEST) then None
      else
        let size := ICMP_ECHO_HEADER_SIZE + ETHERNET_MAX_PAYLOAD_SIZE in
        match icmp_echo_build (uninit size) size ICMP_TYPE_ECHO_REPLY (Icmp.identifier i)
                (Icmp.sequence i) (Some (Icmp.payload i)) (Icmp.payload_length i) with
        | None => None
        | Some (icmp_packet, icmp_length) =>
            match ipv4_packet_build (uninit ETHERNET_MAX_PAYLOAD_SIZE) ETHERNET_MAX_PAYLOAD_SIZE
                    (take 4 (Ipv4.destination ip)) (take 4 (Ipv4.source ip)) 1 64
                    (Ipv4.identification ip) (Some icmp_packet) icmp_length with
            | None => None
            | Some (ipv4_packet, ipv4_length) =>
                ethernet_frame_build reply capacity (take 6 (Ethernet.source e))
                  (take 6 (Ethernet.destination e)) 2048 (Some ipv4_packet) ipv4_length
            end
        end
  | _ => None
  end.

(** [for (i = 0; i < n; ++i) if (left[i] != right[i]) return 0;] *)
Definition bytes_differ (left right : list Z) (n : Z) : bool :=
  match find_z 0 n (fun i => negb (left.[i] =? right.[i])) with Some _ => true | None => false end.

Definition network_build_arp_reply (frame : list Z) (length : Z)
    (local_hardware local_protocol reply : list Z) (capacity : Z) : option (list Z * Z) :=
  match network_decode_frame frame length with
  | Some (NETWORK_FRAME_ARP e a) =>
      if negb (operation a =? ARP_OPERATION_REQUEST) then None
      else if bytes_differ (Ethernet.source e) (sender_hardware a) ETHERNET_ADDRESS_SIZE then None
      else if bytes_differ (target_protocol a) local_protocol 4 then None
      else
        match arp_packet_build (uninit ARP_PACKET_SIZE) ARP_PACKET_SIZE ARP_OPERATION_REPLY
                local_hardware local_protocol (take 6 (sender_hardware a))
                (take 4 (sender_protocol a)) with
        | None => None
        | Some (packet, packet_length) =>
            ethernet_frame_build reply capacity (take 6 (sender_hardware a)) local_hardware 2054
              (Some packet) packet_length
        end
  | _ => None
  end.

(** The tail shared by the two TCP answers: a segment without payload from the local
    address to the sender of the frame. *)
Definition build_tcp_frame (e : ethernet_frame_view_t) (ip : ipv4_packet_view_t)
    (tcp : tcp_segment_view_t) (local_hardware local_protocol : list Z)
    (seq ack fl win : Z) (reply : list Z) (capacity : Z) : option (list Z * Z) :=
  match tcp_segment_build (uninit TCP_HEADER_SIZE) TCP_HEADER_SIZE local_protocol
          (take 4 (Ipv4.source ip)) (Tcp.destination_port tcp) (Tcp.source_port tcp) seq ack fl win
          None 0 with
  | None => None
  | Some (segment, segment_length) =>
      match ipv4_packet_build (uninit ETHERNET_MAX_PAYLOAD_SIZE) ETHERNET_MAX_PAYLOAD_SIZE
              local_protocol (take 4 (Ipv4.source ip)) 6 64 (Ipv4.identification ip)
              (Some segment) segment_length with
      | None => None
      | Some (ip_packet, ip_length) =>
          ethernet_frame_build reply capacity (take 6 (Ethernet.source e)) local_hardware 2048
            (Some ip_packet) ip_length
      end
  end.

Definition network_build_tcp_response (frame : list Z) (length : Z)
    (local_hardware local_protocol : list Z) (result : tcp_connection_result_t)
    (reply : list Z) (capacity : Z) : option (list Z * Z) :=
  if response_flags result =? 0 then None
  else
    match network_decode_frame frame length with
    | Some (NETWORK_FRAME_TCP e ip tcp) =>
        build_tcp_frame e ip tcp local_hardware local_protocol (response_sequence result)
          (response_acknowledgment result) (response_flags result) (window_ tcp) reply capacity
    | _ => None
    end.

(** The sequence number, the acknowledgment and the flags of a reset. *)
Definition reset_fields (tcp : tcp_segment_view_t) : Z * Z * Z :=
  if has (flags tcp) TCP_FLAG_ACK then (Tcp.acknowledgment tcp, 0, TCP_FLAG_RST)
  else
    let ack := u32 (Tcp.sequence tcp + Tcp.payload_length tcp) in
    let ack := if has (flags tcp) TCP_FLAG_SYN then u32 (ack + 1) else ack in
    let ack := if has (flags tcp) TCP_FLAG_FIN then u32 (ack + 1) else ack in
    (0, ack, Z.lor TCP_FLAG_RST TCP_FLAG_ACK).

Definition network_build_tcp_reset (frame : list Z) (length : Z)
    (local_hardware local_protocol reply : list Z) (capacity : Z) : option (list Z * Z) :=
  match network_decode_frame frame length with
  | Some (NETWORK_FRAME_TCP e ip tcp) =>
      if has (flags tcp) TCP_FLAG_RST then None
      else
        let '(seq, ack, fl) := reset_fields tcp in
        build_tcp_frame e ip tcp local_hardware local_protocol seq ack fl 0 reply capacity
  | _ => None
  end.

(** The frames handed to the driver. *)
Definition network_e1000_transmit (frame : list Z) (length : Z) : list (list Z) :=
  match ethernet_frame_parse frame length with
  | None => []
  | Some _ => [take (Z.to_nat length) frame]
  end.

Definition transmit_reply (r : option (list Z * Z)) : list (list Z) :=
  match r with Some (reply, n) => network_e1000_transmit reply n | None => [] end.

(** [rx] are the frames the driver returns, in order. *)
Fixpoint poll_loop (rx : list (list Z)) (q : network_packet_queue_t) (processed budget : Z)
    : Z * network_packet_queue_t :=
  match rx with
  | [] => (processed, q)
  | frame :: rx =>
      if budget <=? processed then (processed, q)
      else
        let '(ok, q) := network_packet_queue_push q frame (zlen frame) in
        poll_loop rx q (if ok then u32 (processed + 1) else processed) budget
  end.

Definition network_e1000_poll (controllers : Z) (rx : list (list Z))
    (q : network_packet_queue_t) (budget : Z) : Z * network_packet_queue_t :=
  if (budget =? 0) || (controllers =? 0) then (0, q) else poll_loop rx q 0 budget.

Section service.
Context (local_hardware local_protocol : list Z) (reassembly_capacity now : Z).

(** What the service loop does with a decoded frame. *)
Definition handle_frame (frame : list Z) (length : Z) (view : network_frame_view_t)
    (s : net_state) : list (list Z) * net_state :=
  let reply := uninit ETHERNET_MAX_FRAME_SIZE in
  match view with
  | NETWORK_FRAME_ARP e a =>
      let '(_, c) := arp_cache_update (cache s) (take 4 (sender_protocol a))
                       (take 6 (sender_hardware a)) now in
      (transmit_reply (network_build_arp_reply frame length local_hardware local_protocol reply
                         ETHERNET_MAX_FRAME_SIZE),
       s<| cache := c |>)
  | NETWORK_FRAME_ICMP e ip i =>
      if Icmp.type i =? ICMP_TYPE_ECHO_REQUEST then
        (transmit_reply (network_build_icmp_echo_reply frame length reply ETHERNET_MAX_FRAME_SIZE), s)
      else ([], s)
  | NETWORK_FRAME_UDP e ip u =>
      match udp_table s with
      | None => ([], s)
      | Some t =>
          let '(_, t) := udp_endpoint_deliver t (take 4 (Ipv4.destination ip))
            (Udp.destination_port u) (take 4 (Ipv4.source ip)) (Udp.source_port u)
            (Some (Udp.payload u)) (Udp.payload_length u) in
          ([], s<| udp_table := Some t |>)
      end
  | NETWORK_FRAME_TCP e ip tcp =>
      match tcp_table s with
      | None => ([], s)
      | Some t =>
          let '(r, t) := tcp_endpoint_deliver t (take 4 (Ipv4.destination ip))
                           (take 4 (Ipv4.source ip)) tcp in
          let s := s<| tcp_table := Some t |> in
          match r with
          | Some result =>
              if negb (response_flags result =? 0) && negb (response_flags result =? TCP_FLAG_RST)
              then (transmit_reply (network_build_tcp_response frame length local_hardware
                                      local_protocol result reply ETHERNET_MAX_FRAME_SIZE), s)
              else ([], s)
          | None =>
              if has (flags tcp) TCP_FLAG_RST then ([], s)
              else (transmit_reply (network_build_tcp_reset frame length local_hardware
                                      local_protocol reply ETHERNET_MAX_FRAME_SIZE), s)
          end
      end
  | _ => ([], s)
  end.

(** The receive loop; [n] is what is left of the budget.  Returns the number of
    frames serviced, the frames sent and the state. *)
Fixpoint service_loop (n : nat) (s : net_state) : Z * list (list Z) * net_state :=
  match n with
  | O => (0, [], s)
  | S n =>
      let '(r, q) := network_packet_queue_pop (queue s) (uninit ETHERNET_MAX_FRAME_SIZE)
                       ETHERNET_MAX_FRAME_SIZE in
      let s := s<| queue := q |> in
      match r with
      | None => (0, [], s)
      | Some (frame, length) =>
          let '(ok, frame, length, s) := prepare_network_frame frame length s reassembly_capacity now in
          let '(sent, s) :=
            match (if ok then network_decode_frame frame length else None) with
            | None => ([], s)
            | Some view => handle_frame frame length view s
            end in
          let '(serviced, sent', s) := service_loop n s in
          (serviced + 1, sent ++ sent', s)
      end
  end.

(** The retransmission loop; [n] is the number of attempts left. *)
Fixpoint retransmit_loop (n : nat) (t : tcp_endpoint_table_t) (c : arp_cache_t) (cursor : Z)
    : list (list Z) * tcp_endpoint_table_t :=
  match n with
  | O => ([], t)
  | S n =>
      let '(r, cursor, t) := tcp_endpoint_retransmit_next t cursor now 1000 (uninit 4) (uninit 4)
                               (uninit TCP_RETRANSMIT_MAX_SIZE) TCP_RETRANSMIT_MAX_SIZE in
      match r with
      | None => ([], t)
      | Some (local_address, remote_address, segment, segment_length) =>
          let sent :=
            match arp_cache_lookup c remote_address with
            | None => []
            | Some remote_hardware =>
                match ipv4_packet_build (uninit ETHERNET_MAX_PAYLOAD_SIZE) ETHERNET_MAX_PAYLOAD_SIZE
                        local_address remote_address 6 64 0 (Some segment) segment_length with
                | None => []
                | Some (ip_packet, ip_length) =>
                    transmit_reply (ethernet_frame_build (uninit ETHERNET_MAX_FRAME_SIZE)
                      ETHERNET_MAX_FRAME_SIZE remote_hardware local_hardware 2048
                      (Some ip_packet) ip_length)
                end
            end in
          let '(sent', t) := retransmit_loop n t c cursor in
          (sent ++ sent', t)
      end
  end.

(** Returns the number of frames serviced, the frames sent and the state. *)
Definition network_service (controllers : Z) (rx : list (list Z)) (budget : Z) (s : net_state)
    : Z * list (list Z) * net_state :=
  if budget =? 0 then (0, [], s)
  else
    let s := match reassembly s with
             | Some t => s<| reassembly := Some (ipv4_reassembly_expire t now 1000) |>
             | None => s
             end in
    let '(_, q) := network_e1000_poll controllers rx (queue s) budget in
    let s := s<| queue := q |> in
    let '(serviced, sent, s) := service_loop (Z.to_nat budget) s in
    match tcp_table s with
    | None => (serviced, sent, s)
    | Some t =>
        let '(sent', t) := retransmit_loop (Z.to_nat TCP_ENDPOINT_CAPACITY) t (cache s) 0 in
        (serviced, sent ++ sent', s<| tcp_table := Some t |>)
    end.

End service.

Definition network_deliver_frame (frame : list Z) (length : Z) (t : option udp_endpoint_table_t)
    : bool * option udp_endpoint_table_t :=
  match t, network_decode_frame frame length with
  | Some t, Some (NETWORK_FRAME_UDP e ip u) =>
      let '(ok, t) := udp_endpoint_deliver t (take 4 (Ipv4.destination ip)) (Udp.destination_port u)
        (take 4 (Ipv4.source ip)) (Udp.source_port u) (Some (Udp.payload u))
        (Udp.payload_length u) in
      (ok, Some t)
  | _, _ => (false, t)
  end.

Definition network_deliver_tcp_frame (frame : list Z) (length : Z)
    (t : option tcp_endpoint_table_t)
    : option tcp_connection_result_t * option tcp_endpoint_table_t :=
  match t, network_decode_frame frame length with
  | Some t, Some (NETWORK_FRAME_TCP e ip tcp) =>
      let '(r, t) := tcp_endpoint_deliver t (take 4 (Ipv4.destination ip))
                       (take 4 (Ipv4.source ip)) tcp in
      (r, Some t)
  | _, _ => (None, t)
  end.

End network.

(** ** Lemmas *)

(** An IPv4 packet in an Ethernet frame, as both ends see it. *)
Record ip_frame (frame : list Z) (n : Z) (hdst hsrc src dst : list Z) (proto ident : Z)
    (tp : list Z) (tlen : Z) (e : ethernet_frame_view_t) (ip : ipv4_packet_view_t) : Prop := {
  if_ethernet : ethernet_frame_parse frame n = Some e;
  if_type : ether_type e = 2048;
  if_hdst : take 6 (Ethernet.destination e) = hdst;
  if_hsrc : take 6 (Ethernet.source e) = hsrc;
  if_ipv4 : ipv4_packet_parse (Ethernet.payload e) (Ethernet.payload_length e) = Some ip;
  if_src : take 4 (Ipv4.source ip) = src;
  if_dst : take 4 (Ipv4.destination ip) = dst;
  if_proto : Ipv4.protocol ip = proto;
  if_ident : Ipv4.identification ip = ident;
  if_whole : Ipv4.fragment_offset ip = 0 /\ Ipv4.more_fragments ip = 0;
  if_length : Ipv4.payload_length ip = tlen;
  if_payload : agree tlen tp (Ipv4.payload ip);
  if_bounds : tlen <= zlen (Ipv4.payload ip);
  if_suffix : Ipv4.payload ip = drop 34 frame;
}.

(** Building a frame and parsing what arrives of it. *)
Lemma eth_frame_build fbuf fcap hdst hsrc etype pl plen :
  zlen hdst = 6 -> zlen hsrc = 6 -> bytes_ok hdst -> bytes_ok hsrc -> bytes_ok fbuf ->
  is_u16 etype -> 1536 <= etype -> 0 <= plen <= 1500 -> bytes_ok pl -> plen <= zlen pl ->
  frame_size plen <= fcap <= zlen fbuf ->
  exists frame,
    ethernet_frame_build fbuf fcap hdst hsrc etype (Some pl) plen = Some (frame, frame_size plen) /\
    bytes_ok frame /\ zlen frame = zlen fbuf /\
    forall received, agree (frame_size plen) frame received -> frame_size plen <= zlen received ->
      exists e, ethernet_frame_parse received (frame_size plen) = Some e /\
        ether_type e = etype /\ take 6 (Ethernet.destination e) = hdst /\
        take 6 (Ethernet.source e) = hsrc /\ Ethernet.source e = drop 6 received /\
        Ethernet.payload e = drop 14 received /\ Ethernet.payload_length e = Z.max 46 plen /\
        agree plen pl (drop 14 received).
Proof.
  intros Hhd Hhs Hbhd Hbhs Hbf Het Het' Hlen Hbp Hpl Hfc.
  assert (data_ok (Some pl) plen) as Hdata by (by apply data_ok_Some).
  destruct (ethernet_roundtrip fbuf fcap hdst hsrc etype (Some pl) plen)
    as (frame & e0 & Hf & He0 & E1 & E2 & E3 & E4 & E5 & El); try done.
  exists frame. split; [done|]. split; [eapply ethernet_build_ok; [..|exact Hf]; done|]. split; [done|].
  intros frame' Hag Hl'. set (n := frame_size plen) in *.
  assert (60 <= n /\ 14 + plen <= n) as Hn
    by (unfold n, frame_size, ETHERNET_MIN_FRAME_SIZE, ETHERNET_HEADER_SIZE; lia).
  destruct (ethernet_parse_inv _ _ _ He0) as (_ & D0 & S0 & P0 & _).
  eexists. split; [by eapply ethernet_parse_agree|]. simpl. split; [done|]. split_and!; try done.
  - rewrite <- E1, D0. symmetry. apply (agree_take 6); [|lia..]. apply (agree_le n); [done|lia].
  - rewrite <- E2, S0. symmetry. apply (agree_take 6); [|len..].
    apply (agree_le (n - 6)); [by apply (agree_drop n 6)|lia].
  - apply (agree_trans _ _ (drop 14 frame)).
    + apply take_agree. rewrite <- P0.
      assert (take (Z.to_nat plen) (take (Z.to_nat (Ethernet.payload_length e0))
        (Ethernet.payload e0)) = take (Z.to_nat plen) (Ethernet.payload e0)) as <-
        by (rewrite take_take; f_equal; lia).
      rewrite E5. simpl. rewrite take_app_le by len. by rewrite take_take, Nat.min_id.
    + apply (agree_le (n - 14)); [|lia]. by apply (agree_drop n 14).
Qed.

Lemma ip_frame_build ibuf icap src dst proto ttl_ ident tp tlen fbuf fcap hdst hsrc :
  zlen src = 4 -> zlen dst = 4 -> bytes_ok src -> bytes_ok dst -> is_u8 proto -> is_u8 ttl_ ->
  ttl_ <> 0 -> is_u16 ident -> 0 <= tlen <= 1480 -> bytes_ok tp -> tlen <= zlen tp ->
  bytes_ok ibuf -> 20 + tlen <= icap <= zlen ibuf ->
  zlen hdst = 6 -> zlen hsrc = 6 -> bytes_ok hdst -> bytes_ok hsrc -> bytes_ok fbuf ->
  frame_size (20 + tlen) <= fcap <= zlen fbuf ->
  exists ipp frame,
    ipv4_packet_build ibuf icap src dst proto ttl_ ident (Some tp) tlen = Some (ipp, 20 + tlen) /\
    ethernet_frame_build fbuf fcap hdst hsrc 2048 (Some ipp) (20 + tlen) =
      Some (frame, frame_size (20 + tlen)) /\ bytes_ok frame /\ zlen frame = zlen fbuf /\
    forall received, agree (frame_size (20 + tlen)) frame received ->
      frame_size (20 + tlen) <= zlen received ->
      exists e ip,
        ip_frame received (frame_size (20 + tlen)) hdst hsrc src dst proto ident tp tlen e ip.
Proof.
  intros Hs Hd Hbs Hbd Hp Ht Ht0 Hid Hlen Hbt Htl Hbi Hcap Hhd Hhs Hbhd Hbhs Hbf Hfc.
  destruct (ipv4_roundtrip ibuf icap src dst proto ttl_ ident (Some tp) tlen 0)
    as (ipp & v & Hb & Hv & V1 & V2 & V3 & V4 & V5 & V6 & V7 & V8 & V9 & V10 & Vb & Vl); try done; try lia.
  rewrite Z.add_0_r in Hv.
  destruct (eth_frame_build fbuf fcap hdst hsrc 2048 ipp (20 + tlen))
    as (frame & Hf & Hbfr & Hlf & Hdec); try done; try lia.
  exists ipp, frame. split_and!; try done. intros frame' Hag' Hl'.
  destruct (Hdec frame' Hag' Hl') as (e & He & E1 & E2 & E3 & _ & E5 & E6 & Hag).
  assert (34 + tlen <= zlen frame')
    by (unfold frame_size, ETHERNET_HEADER_SIZE in Hl'; lia).
  destruct (ipv4_parse_safe ipp (20 + tlen) v) as (_ & _ & _ & Pv & Sv & Dv & _);
    [widths; lia|lia|done|].
  pose proof (ipv4_parse_agree ipp (drop 14 frame') (20 + tlen) (Ethernet.payload_length e) v
    Hag ltac:(lia) Hv) as Hip.
  rewrite V1 in Pv, Hip. change (Z.to_nat (4 * 5)) with 20%nat in *.
  assert (forall o m, 0 <= o -> 0 <= m -> o + m <= 20 + tlen ->
    take (Z.to_nat m) (drop (Z.to_nat o) (drop 14 frame')) =
    take (Z.to_nat m) (drop (Z.to_nat o) ipp)) as Hpart.
  { intros o m Ho Hm Hom. symmetry. apply agree_take; [|len..].
    apply (agree_le (20 + tlen - o)); [by apply agree_drop|lia]. }
  rewrite <- E5 in Hip at 1. exists e. eexists.
  split; [exact He|exact E1|exact E2|exact E3|exact Hip|..]; simpl; try done.
  - rewrite <- V7, Sv. apply (Hpart 12 4); lia.
  - rewrite <- V8, Dv. apply (Hpart 16 4); lia.
  - apply (agree_trans _ _ (Ipv4.payload v)).
    + apply agree_sym, take_agree. by rewrite V10.
    + rewrite Pv. apply (agree_le (20 + tlen - 20)); [|lia]. by apply (agree_drop (20 + tlen) 20).
  - len.
  - by rewrite drop_drop.
Qed.

(** An ARP packet in an Ethernet frame, as both ends see it. *)
Record arp_view (frame : list Z) (n : Z) (hdst sha spa tha tpa : list Z) (op : Z)
    (e : ethernet_frame_view_t) (a : arp_packet_view_t) : Prop := {
  av_ethernet : ethernet_frame_parse frame n = Some e;
  av_type : ether_type e = 2054;
  av_hdst : take 6 (Ethernet.destination e) = hdst;
  av_hsrc : take 6 (Ethernet.source e) = sha;
  av_arp : arp_packet_parse (Ethernet.payload e) (Ethernet.payload_length e) = Some a;
  av_op : operation a = op;
  av_sha : take 6 (sender_hardware a) = sha;
  av_spa : take 4 (sender_protocol a) = spa;
  av_tha : take 6 (target_hardware a) = tha;
  av_tpa : take 4 (target_protocol a) = tpa;
}.

Lemma arp_frame_build pbuf pcap fbuf fcap hdst op sha spa tha tpa :
  op = 1 \/ op = 2 -> zlen sha = 6 -> zlen spa = 4 -> zlen tha = 6 -> zlen tpa = 4 ->
  bytes_ok sha -> bytes_ok spa -> bytes_ok tha -> bytes_ok tpa -> zlen hdst = 6 -> bytes_ok hdst ->
  bytes_ok pbuf -> 28 <= pcap <= zlen pbuf -> bytes_ok fbuf -> 60 <= fcap <= zlen fbuf ->
  exists packet frame,
    arp_packet_build pbuf pcap op sha spa tha tpa = Some (packet, 28) /\
    ethernet_frame_build fbuf fcap hdst sha 2054 (Some packet) 28 = Some (frame, 60) /\
    bytes_ok frame /\ zlen frame = zlen fbuf /\
    forall received, agree 60 frame received -> 60 <= zlen received ->
      exists e a, arp_view received 60 hdst sha spa tha tpa op e a.
Proof.
  intros Hop Hsha Hspa Htha Htpa Hbsha Hbspa Hbtha Hbtpa Hhd Hbhd Hbpb Hpcap Hbfb Hfcap.
  destruct (arp_roundtrip pbuf pcap op sha spa tha tpa 0)
    as (packet & a0 & Hb & Hp & A1 & A2 & A3 & A4 & A5 & Al); try done; try lia.
  assert (bytes_ok packet) as Hbp by (eapply arp_build_ok; [..|exact Hb]; done || lia).
  rewrite Z.add_0_r in Hp.
  destruct (eth_frame_build fbuf fcap hdst sha 2054 packet 28)
    as (frame & Hf & Hbf & Hlf & Hdec); try done; try lia.
  change (frame_size 28) with 60 in *. exists packet, frame. split_and!; try done.
  intros f Hag Hlr. destruct (Hdec f Hag Hlr) as (e & He & E1 & E2 & E3 & E4 & E5 & E6 & E7).
  pose proof (arp_parse_agree packet (drop 14 f) 28 46 a0 E7 ltac:(lia) Hp) as Ha.
  assert (forall o m, 0 <= o -> 0 <= m -> o + m <= 28 ->
    take (Z.to_nat m) (drop (Z.to_nat o) (drop 14 f)) =
    take (Z.to_nat m) (drop (Z.to_nat o) packet)) as Hpart.
  { intros o m Ho Hm Hom. symmetry. apply agree_take; [|len..].
    apply (agree_le (28 - o)); [by apply agree_drop|lia]. }
  destruct (arp_parse_views _ _ _ Hp) as (W1 & W2 & W3 & W4).
  rewrite W1 in A2. rewrite W2 in A3. rewrite W3 in A4. rewrite W4 in A5.
  rewrite <- E5, <- E6 in Ha at 1. exists e. eexists.
  split; [exact He|exact E1|exact E2|exact E3|exact Ha|done|..]; simpl.
  - rewrite <- A2. apply (Hpart 8 6); lia.
  - rewrite <- A3. apply (Hpart 14 4); lia.
  - rewrite <- A4. apply (Hpart 18 6); lia.
  - rewrite <- A5. apply (Hpart 24 4); lia.
Qed.

(** ** One frame through the service loop *)

Section single.
Context (uninit : Z -> list Z).
Context (uninit_len : forall n, 0 <= n -> zlen (uninit n) = n).
Context (uninit_bytes : forall n, bytes_ok (uninit n)).
Context (local_hardware local_protocol : list Z) (reassembly_capacity now : Z).

Lemma handle_frame_queue frame n view s :
  queue (handle_frame uninit local_hardware local_protocol now frame n view s).2 = queue s.
Proof.
  unfold handle_frame. destruct view; simpl; try done.
  - by destruct (arp_cache_update _ _ _ _).
  - destruct (udp_table s); [|done]. by destruct (udp_endpoint_deliver _ _ _ _ _ _ _).
  - destruct (tcp_table s); [|done]. destruct (tcp_endpoint_deliver _ _ _ _) as [[r|] t]; by case_if as E.
  - by case_if as E.
Qed.

Lemma poll_single controllers budget q f :
  controllers <> 0 -> 1 <= budget -> queue_ok q -> contents q = [] -> 60 <= zlen f <= 1518 ->
  exists q', network_e1000_poll controllers [f] q budget = (1, q') /\ queue_ok q' /\ contents q' = [f].
Proof.
  intros Hc Hb Hok He Hf. unfold network_e1000_poll.
  replace (_ || _) with false by lia. simpl. replace (budget <=? 0) with false by lia.
  pose proof (push_refines q f (zlen f) Hok ltac:(split; [widths; lia|lia])) as Hp.
  destruct (network_packet_queue_push q f (zlen f)) as [ok q']. destruct Hp as [Hok' Hp].
  unfold PacketQueue.spec_step in Hp. rewrite He in Hp. change (zlen (@nil (list Z))) with 0 in Hp.
  replace (_ && _) with true in Hp by lia. injection Hp as <- Hq.
  exists q'. split; [done|]. split; [done|]. rewrite <- Hq. simpl.
  unfold zlen. rewrite Nat2Z.id. by rewrite take_ge by lia.
Qed.

(** The local buffer that holds a received frame. *)
Definition received (f : list Z) : list Z := f ++ drop (Z.to_nat (zlen f)) (uninit 1518).

(** The frame is not a fragment. *)
Definition unfragmented (f : list Z) : Prop :=
  forall s, prepare_network_frame uninit (received f) (zlen f) s reassembly_capacity now =
    (true, received f, zlen f, s).

(** What the loop does with a received copy of the frame. *)
Definition handled_as (f : list Z) (s : net_state) : list (list Z) * net_state :=
  match network_decode_frame (received f) (zlen f) with
  | None => ([], s)
  | Some view =>
      handle_frame uninit local_hardware local_protocol now (received f) (zlen f) view s
  end.

Lemma service_loop_single m s f :
  queue_ok (queue s) -> contents (queue s) = [f] -> 60 <= zlen f <= 1518 -> unfragmented f ->
  exists q',
    let '(sent, s') := handled_as f (s<| queue := q' |>) in
    service_loop uninit local_hardware local_protocol reassembly_capacity now (S m) s = (1, sent, s').
Proof.
  intros Hok Hc Hf Hu. cbn [service_loop]. unfold ETHERNET_MAX_FRAME_SIZE.
  destruct (pop_frame (queue s) (uninit 1518) 1518 f []) as (q' & -> & Hok' & Hc');
    [done|done|rewrite uninit_len by lia; lia|lia|].
  exists q'. fold (received f). rewrite Hu. unfold handled_as.
  destruct (match network_decode_frame (received f) (zlen f) with Some _ => _ | None => _ end)
    as [sent s'] eqn:Hh.
  assert (queue s' = q') as Hq.
  { destruct (network_decode_frame (received f) (zlen f)) as [view|]; [|by injection Hh as <- <-].
    pose proof (handle_frame_queue (received f) (zlen f) view (s<| queue := q' |>)) as Hq.
    by rewrite Hh in Hq. }
  destruct m as [|m]; simpl; [by rewrite app_nil_r|].
  rewrite Hq, pop_empty by done. rewrite app_nil_r. do 2 f_equal. rewrite <- Hq. by destruct s'.
Qed.

(** The whole service call when one frame arrives at an empty queue. *)
Lemma service_single controllers budget s f :
  controllers <> 0 -> 1 <= budget -> queue_ok (queue s) -> contents (queue s) = [] ->
  60 <= zlen f <= 1518 -> unfragmented f ->
  exists s0 sent s1 more s2,
    network_service uninit local_hardware local_protocol reassembly_capacity now controllers [f]
      budget s = (1, sent ++ more, s2) /\
    udp_table s0 = udp_table s /\ tcp_table s0 = tcp_table s /\ cache s0 = cache s /\
    handled_as f s0 = (sent, s1) /\ udp_table s2 = udp_table s1 /\ cache s2 = cache s1.
Proof.
  intros Hc Hb Hok He Hf Hu. unfold network_service. replace (budget =? 0) with false by lia.
  set (sa := match reassembly s with Some _ => _ | None => s end).
  assert (queue sa = queue s /\ udp_table sa = udp_table s /\ tcp_table sa = tcp_table s /\
          cache sa = cache s) as (Q & U & T & C) by (unfold sa; by destruct (reassembly s)).
  clearbody sa. rewrite Q.
  destruct (poll_single controllers budget (queue s) f) as (q' & -> & Hok' & Hc'); [done..|].
  replace (Z.to_nat budget) with (S (Z.to_nat (budget - 1))) by lia.
  destruct (service_loop_single (Z.to_nat (budget - 1)) (sa<| queue := q' |>) f)
    as (q'' & Hs); [done..|].
  destruct (handled_as f _) as [sent s1] eqn:Hh. rewrite Hs.
  exists (sa<| queue := q' |><| queue := q'' |>), sent, s1.
  destruct (tcp_table s1) as [t|]; [|exists [], s1; rewrite app_nil_r; done].
  destruct (retransmit_loop _ _ _ _ _ _ _) as [more t']. by eexists more, _.
Qed.

(** The bytes of a built frame as they arrive. *)
Lemma received_built frame n :
  0 <= n <= 1518 -> n <= zlen frame -> bytes_ok frame ->
  let f := take (Z.to_nat n) frame in
  zlen f = n /\ agree n frame (received f) /\ n <= zlen (received f) /\ bytes_ok (received f).
Proof.
  intros Hn Hl Hb f. assert (zlen f = n) as Hf by (unfold f; len).
  assert (zlen (received f) = 1518) as Hr.
  { pose proof (uninit_len 1518 ltac:(lia)). unfold received. len. }
  split_and!; [done| |lia|].
  - apply take_agree. unfold received. rewrite take_app_length'; [done|]. unfold zlen in Hf. lia.
  - unfold received, f. auto with bytes.
Qed.

Lemma ip_frame_unfragmented f hdst hsrc src dst proto ident tp tlen e ip :
  ip_frame (received f) (zlen f) hdst hsrc src dst proto ident tp tlen e ip -> unfragmented f.
Proof.
  intros [He Ht _ _ Hip _ _ _ _ [Ho Hm] _ _ _ _] s. unfold prepare_network_frame.
  rewrite He, Ht. simpl. by rewrite Hip, Ho, Hm.
Qed.

(** The services of the stack act on the bytes [f] of the frame that a peer built.
    What the peer's buffers held before does not matter. *)
Context (ubuf ibuf fbuf : list Z) (ucap icap fcap : Z).
Context (Hubuf : bytes_ok ubuf) (Hibuf : bytes_ok ibuf) (Hfbuf : bytes_ok fbuf).
Context (Hucap : 1480 <= ucap <= zlen ubuf) (Hicap : 1500 <= icap <= zlen ibuf).
Context (Hfcap : 1518 <= fcap <= zlen fbuf).
Context (hdst hsrc src dst : list Z) (Hhdst : zlen hdst = 6) (Hhsrc : zlen hsrc = 6).
Context (Hbhdst : bytes_ok hdst) (Hbhsrc : bytes_ok hsrc).
Context (Hsrc : zlen src = 4) (Hdst : zlen dst = 4) (Hbsrc : bytes_ok src) (Hbdst : bytes_ok dst).
Context (ttl_ ident : Z) (Httl : is_u8 ttl_) (Httl0 : ttl_ <> 0) (Hident : is_u16 ident).

(** The frame that carries a transport packet. *)
Definition encapsulate (proto : Z) (tp : list Z) (tlen : Z) : option (list Z) :=
  match ipv4_packet_build ibuf icap src dst proto ttl_ ident (Some tp) tlen with
  | None => None
  | Some (ipp, n) =>
      match ethernet_frame_build fbuf fcap hdst hsrc 2048 (Some ipp) n with
      | None => None
      | Some (frame, m) => Some (take (Z.to_nat m) frame)
      end
  end.

Lemma encapsulate_spec proto tp tlen :
  is_u8 proto -> 0 <= tlen <= 1480 -> bytes_ok tp -> tlen <= zlen tp ->
  exists f e ip, encapsulate proto tp tlen = Some f /\ 60 <= zlen f <= 1518 /\
    bytes_ok (received f) /\
    ip_frame (received f) (zlen f) hdst hsrc src dst proto ident tp tlen e ip.
Proof.
  intros Hp Hl Hb Htl.
  assert (frame_size (20 + tlen) <= 1518 /\ 60 <= frame_size (20 + tlen)) as [Hfs Hfs']
    by (unfold frame_size, ETHERNET_MIN_FRAME_SIZE, ETHERNET_HEADER_SIZE; lia).
  destruct (ip_frame_build ibuf icap src dst proto ttl_ ident tp tlen fbuf fcap hdst hsrc)
    as (ipp & frame & Hi & Hf & Hbf & Hlf & Hdec); try done; try lia.
  destruct (received_built frame (frame_size (20 + tlen))) as (Hz & Hag & Hlr & Hbr);
    [lia|lia|done|].
  destruct (Hdec _ Hag Hlr) as (e & ip & Hframe).
  eexists _, e, ip. unfold encapsulate. rewrite Hi, Hf. split; [done|]. rewrite Hz. by split; [lia|].
Qed.

(** C12. A UDP datagram that a peer sends is handed to the mailbox that owns its
    destination, and to no other: servicing the frame has the effect of one delivery
    of the payload on the mailboxes of UdpEndpoint.v. *)
Theorem network_udp_delivery controllers budget s t sport dport pl plen :
  controllers <> 0 -> 1 <= budget -> queue_ok (queue s) -> contents (queue s) = [] ->
  udp_table s = Some t -> UdpEndpoint.table_ok t ->
  is_u16 sport -> is_u16 dport -> sport <> 0 -> dport <> 0 ->
  0 <= plen <= 1472 -> bytes_ok pl -> plen <= zlen pl ->
  exists up f sent s' t' ok,
    udp_packet_build ubuf ucap src dst sport dport (Some pl) plen = Some (up, 8 + plen) /\
    encapsulate 17 up (8 + plen) = Some f /\
    network_service uninit local_hardware local_protocol reassembly_capacity now controllers [f]
      budget s = (1, sent, s') /\
    udp_table s' = Some t' /\ UdpEndpoint.table_ok t' /\
    UdpEndpoint.spec_step (UdpEndpoint.Deliver dst dport src sport (Some pl) plen) (mailboxes t) =
      (UdpEndpoint.Done ok, mailboxes t').
Proof.
  intros Hc Hbud Hq He Hut Ht Hsp Hdp Hsp0 Hdp0 Hpl Hbpl Hlpl.
  destruct (udp_roundtrip ubuf ucap src dst sport dport (Some pl) plen 0)
    as (up & u & Hub & Hup & U1 & U2 & U3 & U4 & Ub & Ul); try done; try lia.
  rewrite Z.add_0_r in Hup.
  destruct (encapsulate_spec 17 up (8 + plen)) as (f & e & ip & Hf & Hfl & _ & Hframe);
    [done|lia|done|lia|].
  destruct (service_single controllers budget s f) as (s0 & sent & s1 & more & s2 & Hs & S1 & _ & _ &
    Hh & S2 & _); [done..|by eapply ip_frame_unfragmented|].
  destruct Hframe as [F1 F2 _ _ F3 F4 F5 F6 _ _ F7 F8 F9 _].
  assert (network_decode_frame (received f) (zlen f) = Some (NETWORK_FRAME_UDP e ip
    {| Udp.source_port := sport; Udp.destination_port := dport;
       Udp.payload := drop 8 (Ipv4.payload ip); Udp.payload_length := plen |})) as Hdec.
  { unfold network_decode_frame. rewrite F1, F2. simpl. rewrite F3, F6. simpl. rewrite F4, F5, F7.
    by rewrite (udp_parse_agree _ _ _ _ _ _ F8 Hup), U1, U2, U3. }
  unfold handled_as in Hh. rewrite Hdec in Hh. simpl in Hh. rewrite S1, Hut, F4, F5 in Hh.
  set (pl' := drop 8 (Ipv4.payload ip)) in *.
  assert (take (Z.to_nat plen) pl' = take (Z.to_nat plen) pl) as Htk.
  { change pl with (data (Some pl)). rewrite <- U4.
    destruct (udp_parse_inv _ _ _ _ _ Hup) as (-> & _). symmetry. unfold pl'.
    apply agree_take; [|len..]. replace plen with (8 + plen - 8) by lia. by apply (agree_drop _ 8). }
  pose proof (deliver_refines t dst dport src sport (Some pl') plen Ht) as Hd.
  unfold UdpEndpoint.refines, UdpEndpoint.impl_step in Hd.
  destruct (udp_endpoint_deliver t dst dport src sport (Some pl') plen) as [ok t'].
  destruct Hd as [Ht' Hspec]; [split_and!; [done|done|lia|intros _; unfold pl'; simpl; len]|].
  injection Hh as <- <-. exists up, f, more, s2, t', ok. split_and!; try done.
  unfold UdpEndpoint.spec_step in Hspec |- *. simpl in Hspec |- *. by rewrite Htk in Hspec.
Qed.

(** An answer in an IPv4 packet, built in the stack's own buffers. *)
Lemma reply_ip proto id tp tlen a b ha hb :
  zlen a = 4 -> zlen b = 4 -> bytes_ok a -> bytes_ok b -> zlen ha = 6 -> zlen hb = 6 ->
  bytes_ok ha -> bytes_ok hb -> is_u8 proto -> is_u16 id ->
  0 <= tlen <= 1480 -> bytes_ok tp -> tlen <= zlen tp ->
  exists ipp reply n e ip,
    ipv4_packet_build (uninit 1500) 1500 a b proto 64 id (Some tp) tlen = Some (ipp, 20 + tlen) /\
    ethernet_frame_build (uninit 1518) 1518 ha hb 2048 (Some ipp) (20 + tlen) = Some (reply, n) /\
    network_e1000_transmit reply n = [take (Z.to_nat n) reply] /\
    zlen (take (Z.to_nat n) reply) = n /\
    ip_frame (take (Z.to_nat n) reply) n ha hb a b proto id tp tlen e ip.
Proof.
  intros Ha Hb Hba Hbb Hha Hhb Hbha Hbhb Hp Hid Hl Hbt Htl.
  set (n := frame_size (20 + tlen)).
  assert (n <= 1518 /\ 60 <= n) as [Hn Hn']
    by (unfold n, frame_size, ETHERNET_MIN_FRAME_SIZE, ETHERNET_HEADER_SIZE; lia).
  pose proof (uninit_len 1500 ltac:(lia)) as L1. pose proof (uninit_len 1518 ltac:(lia)) as L2.
  destruct (ip_frame_build (uninit 1500) 1500 a b proto 64 id tp tlen (uninit 1518) 1518 ha hb)
    as (ipp & reply & Hi & Hf & Hbf & Hlf & Hdec); try done; try (fold n; lia).
  fold n in Hf, Hdec. assert (zlen (take (Z.to_nat n) reply) = n) as Hz by len.
  destruct (Hdec (take (Z.to_nat n) reply)) as (e & ip & Hframe); [|lia|].
  { apply take_agree. by rewrite take_take, Nat.min_id. }
  exists ipp, reply, n, e, ip. split_and!; try done.
  unfold network_e1000_transmit.
  rewrite (ethernet_parse_agree (take (Z.to_nat n) reply) reply n e); [done| |apply Hframe].
  apply take_agree. by rewrite take_take, Nat.min_id.
Qed.

(** C30. An echo request is answered: the reply goes back to the sender with the same
    identifier, sequence number and payload. *)
Theorem network_icmp_echo controllers budget s id seq pl plen :
  controllers <> 0 -> 1 <= budget -> queue_ok (queue s) -> contents (queue s) = [] ->
  is_u16 id -> is_u16 seq -> 0 <= plen <= 1472 -> bytes_ok pl -> plen <= zlen pl ->
  exists request f reply more s' e ip i,
    icmp_echo_build ubuf ucap ICMP_TYPE_ECHO_REQUEST id seq (Some pl) plen =
      Some (request, 8 + plen) /\
    encapsulate 1 request (8 + plen) = Some f /\
    network_service uninit local_hardware local_protocol reassembly_capacity now controllers [f]
      budget s = (1, reply :: more, s') /\
    network_decode_frame reply (zlen reply) = Some (NETWORK_FRAME_ICMP e ip i) /\
    Icmp.type i = ICMP_TYPE_ECHO_REPLY /\ Icmp.identifier i = id /\ Icmp.sequence i = seq /\
    Icmp.payload_length i = plen /\
    take (Z.to_nat plen) (Icmp.payload i) = take (Z.to_nat plen) pl /\
    take 4 (Ipv4.source ip) = dst /\ take 4 (Ipv4.destination ip) = src /\
    take 6 (Ethernet.destination e) = hsrc /\ take 6 (Ethernet.source e) = hdst.
Proof.
  intros Hc Hbud Hq He Hid Hseq Hpl Hbpl Hlpl.
  destruct (icmp_roundtrip ubuf ucap 8 id seq (Some pl) plen)
    as (request & i & Hb & Hp & I1 & I2 & I3 & I4 & I5 & Ib & Il); try done; try lia.
  destruct (encapsulate_spec 1 request (8 + plen)) as (f & e & ip & Hf & Hfl & Hbr & Hframe);
    [done|lia|done|lia|].
  destruct (service_single controllers budget s f) as (s0 & sent & s1 & more & s2 & Hs & _ & _ & _ &
    Hh & _); [done..|by eapply ip_frame_unfragmented|].
  destruct Hframe as [F1 F2 Fd Fs F3 F4 F5 F6 F10 _ F7 F8 F9 F11].
  set (v := {| Icmp.type := 8; code := code i; identifier := id; Icmp.sequence := seq;
               Icmp.payload := drop 8 (Ipv4.payload ip); Icmp.payload_length := plen |}).
  assert (network_decode_frame (received f) (zlen f) = Some (NETWORK_FRAME_ICMP e ip v)) as Hdec.
  { unfold network_decode_frame. rewrite F1, F2. simpl. rewrite F3, F6. simpl. rewrite F7.
    by rewrite (icmp_parse_agree _ _ _ _ F8 Hp), I1, I2, I3, I4. }
  unfold handled_as in Hh. rewrite Hdec in Hh. simpl in Hh.
  unfold network_build_icmp_echo_reply in Hh. rewrite Hdec in Hh. simpl in Hh.
  destruct (icmp_roundtrip (uninit 1508) 1508 0 id seq (Some (drop 8 (Ipv4.payload ip))) plen)
    as (rep & j & Hrb & Hrp & J1 & J2 & J3 & J4 & J5 & Jb & Jl); try done; try lia.
  { apply data_ok_Some; [rewrite F11; auto with bytes|len]. }
  { rewrite uninit_len; lia. }
  rewrite uninit_len in Jl by lia.
  destruct (reply_ip 1 ident rep (8 + plen) dst src hsrc hdst)
    as (ipp & reply & n & e' & ip' & R1 & R2 & R3 & R4 & R5); try done; try lia.
  change (ICMP_ECHO_HEADER_SIZE + ETHERNET_MAX_PAYLOAD_SIZE) with 1508 in Hh.
  unfold ICMP_TYPE_ECHO_REPLY, ETHERNET_MAX_PAYLOAD_SIZE, ETHERNET_MAX_FRAME_SIZE in Hh.
  rewrite Hrb, F4, F5, F10, R1, Fd, Fs, R2 in Hh. simpl in Hh. rewrite R3 in Hh.
  injection Hh as <- <-.
  destruct R5 as [G1 G2 Gd Gs G3 G4 G5 G6 _ _ G7 G8 G9 _].
  exists request, f, (take (Z.to_nat n) reply), more, s2, e', ip'.
  eexists. split; [done|]. split; [done|]. split; [exact Hs|]. rewrite R4. split.
  { unfold network_decode_frame. rewrite G1, G2. simpl. rewrite G3, G6. simpl. rewrite G7.
    by rewrite (icmp_parse_agree _ _ _ _ G8 Hrp). }
  simpl. split_and!; try done. symmetry. apply agree_take; [|lia|len].
  destruct (icmp_parse_inv _ _ _ Hp) as [Pi _]. destruct (icmp_parse_inv _ _ _ Hrp) as [Pj _].
  rewrite Pi in I5. rewrite Pj in J5. replace plen with (8 + plen - 8) in I5, J5 |- * by lia.
  apply (agree_trans _ _ (drop 8 request)); [by apply agree_sym, take_agree|].
  apply (agree_trans _ _ (drop 8 (Ipv4.payload ip))); [by apply (agree_drop _ 8)|].
  apply (agree_trans _ _ (drop 8 rep)); [by apply agree_sym, take_agree|]. by apply (agree_drop _ 8).
Qed.

Lemma bytes_same l k n : agree n l k -> bytes_differ l k n = false.
Proof.
  intros H. unfold bytes_differ. rewrite (proj2 (find_z_None _ _ _)); [done|].
  intros j Hj. rewrite H by done. by rewrite Z.eqb_refl.
Qed.

(** The frame that carries an ARP packet. *)
Definition arp_frame (op : Z) (sha spa tha tpa : list Z) : option (list Z) :=
  match arp_packet_build ubuf ucap op sha spa tha tpa with
  | None => None
  | Some (packet, n) =>
      match ethernet_frame_build fbuf fcap hdst sha 2054 (Some packet) n with
      | None => None
      | Some (frame, m) => Some (take (Z.to_nat m) frame)
      end
  end.

(** Who has the local address is answered to the asker with the local hardware
    address, and the asker's own pair of addresses is remembered. *)
Theorem network_arp_reply controllers budget s tha :
  controllers <> 0 -> 1 <= budget -> queue_ok (queue s) -> contents (queue s) = [] ->
  cache_ok (cache s) -> protocol_valid src = true -> hardware_valid hsrc = true ->
  zlen local_hardware = 6 -> zlen local_protocol = 4 -> bytes_ok local_hardware ->
  bytes_ok local_protocol -> zlen tha = 6 -> bytes_ok tha ->
  exists f reply more s' e a,
    arp_frame ARP_OPERATION_REQUEST hsrc src tha local_protocol = Some f /\
    network_service uninit local_hardware local_protocol reassembly_capacity now controllers [f]
      budget s = (1, reply :: more, s') /\
    network_decode_frame reply (zlen reply) = Some (NETWORK_FRAME_ARP e a) /\
    operation a = ARP_OPERATION_REPLY /\
    take 6 (sender_hardware a) = local_hardware /\ take 4 (sender_protocol a) = local_protocol /\
    take 6 (target_hardware a) = hsrc /\ take 4 (target_protocol a) = src /\
    take 6 (Ethernet.destination e) = hsrc /\ take 6 (Ethernet.source e) = local_hardware /\
    arp_cache_lookup (cache s') src = Some hsrc /\ cache_ok (cache s').
Proof.
  intros Hc Hbud Hq He Hcok Hpv Hhv Hlh Hlp Hblh Hblp Htha Hbtha.
  destruct (arp_frame_build ubuf ucap fbuf fcap hdst 1 hsrc src tha local_protocol)
    as (packet & frame & Hb & Hf & Hbf & Hlf & Hdec); try done; try lia.
  destruct (received_built frame 60) as (Hz & Hag & Hlr & _); [lia|lia|done|].
  set (f := take (Z.to_nat 60) frame) in *.
  destruct (Hdec (received f) Hag Hlr) as (e & a & [F1 F2 F3 F4 F5 F6 F7 F8 F9 F10]).
  assert (network_decode_frame (received f) (zlen f) = Some (NETWORK_FRAME_ARP e a)) as Hd
    by (unfold network_decode_frame; rewrite Hz, F1, F2; simpl; by rewrite F5).
  assert (unfragmented f) as Hu
    by (intros s0; unfold prepare_network_frame; rewrite Hz, F1, F2; done).
  destruct (service_single controllers budget s f) as (s0 & sent & s1 & more & s2 & Hs & _ & _ & S1 &
    Hh & _ & S2); [done..|lia|done|].
  unfold handled_as in Hh. rewrite Hd in Hh. unfold handle_frame in Hh. rewrite F7, F8, S1 in Hh.
  destruct (update_result (cache s) src hsrc now Hcok Hsrc Hhsrc Hpv Hhv)
    as (slot & _ & Hup & Hcok' & Hlk & _). rewrite Hup in Hh.
  pose proof (uninit_len 28 ltac:(lia)) as L1. pose proof (uninit_len 1518 ltac:(lia)) as L2.
  destruct (arp_frame_build (uninit 28) 28 (uninit 1518) 1518 hsrc 2 local_hardware local_protocol
    hsrc src) as (rp & reply & Rb & Rf & Rbf & Rlf & Rdec); try done; try lia.
  unfold network_build_arp_reply in Hh. rewrite Hd, F6 in Hh.
  change (negb (1 =? ARP_OPERATION_REQUEST)) with false in Hh. unfold ETHERNET_ADDRESS_SIZE in Hh.
  rewrite (bytes_same (Ethernet.source e)) in Hh by (apply (take_agree 6); etrans; [exact F4|done]).
  rewrite (bytes_same (target_protocol a)) in Hh by
    (apply (take_agree 4); etrans; [exact F10|by rewrite take_ge by len]).
  unfold ARP_PACKET_SIZE, ARP_OPERATION_REPLY, ETHERNET_MAX_FRAME_SIZE in Hh.
  rewrite F7, F8, Rb, Rf in Hh. simpl in Hh.
  set (r := take (Z.to_nat 60) reply). assert (zlen r = 60) as Hrz by (unfold r; len).
  assert (agree 60 reply r) as Hra by (apply take_agree; unfold r; by rewrite take_take, Nat.min_id).
  destruct (Rdec r Hra ltac:(lia)) as (e' & a' & [G1 G2 G3 G4 G5 G6 G7 G8 G9 G10]).
  unfold network_e1000_transmit in Hh.
  rewrite (ethernet_parse_agree r reply 60 e') in Hh by (done || by apply agree_sym).
  injection Hh as <- <-. exists f, r, more, s2, e', a'. unfold arp_frame, ARP_OPERATION_REQUEST. rewrite Hb, Hf.
  split_and!; try done.
  - unfold network_decode_frame. rewrite Hrz, G1, G2. simpl. by rewrite G5.
  - by rewrite S2.
  - by rewrite S2.
Qed.

Lemma deliver_unbound (t : tcp_endpoint_table_t) (a b : list Z) seg :
  (forall j, 0 <= j < 8 -> TcpEndpoint.valid (t.[j]) = true ->
     Tcp.local_port (connection (t.[j])) <> Tcp.destination_port seg) ->
  tcp_endpoint_deliver t a b seg = (None, t).
Proof.
  intros Hno. unfold tcp_endpoint_deliver. case_if as E; [done|].
  assert (forall j, 0 <= j < 8 -> bound_to (t.[j]) a (Tcp.destination_port seg) = false) as Hb.
  { intros j Hj. unfold bound_to. destruct (TcpEndpoint.valid (t.[j])) eqn:V; [|done].
    specialize (Hno j Hj V). lia. }
  assert (find_connection t a b seg = None) as ->.
  { apply find_z_None. intros j Hj. cbv beta zeta. by rewrite Hb. }
  assert (find_listener t a seg = None) as ->.
  { apply find_z_None. intros j Hj. cbv beta zeta. by rewrite Hb, andb_false_r. }
  by case_if as E'.
Qed.

(** The sequence number, acknowledgment and flags that answer a segment to a port
    nobody has bound. *)
Definition refusal (fl seq ack plen : Z) : Z * Z * Z :=
  if has fl TCP_FLAG_ACK then (ack, 0, TCP_FLAG_RST)
  else (0, u32 (seq + plen + Z.b2z (has fl TCP_FLAG_SYN) + Z.b2z (has fl TCP_FLAG_FIN)),
        Z.lor TCP_FLAG_RST TCP_FLAG_ACK).

Lemma reset_fields_spec v :
  reset_fields v =
  refusal (flags v) (Tcp.sequence v) (Tcp.acknowledgment v) (Tcp.payload_length v).
Proof.
  unfold reset_fields, refusal. case_if as E; [done|].
  destruct (has (flags v) TCP_FLAG_SYN), (has (flags v) TCP_FLAG_FIN); simpl;
    rewrite ?wrap_add_l, <- ?Z.add_assoc, ?wrap_add_l; do 3 f_equal; lia.
Qed.

Lemma refusal_ok fl seq ack plen :
  is_u32 ack ->
  let '(rs, ra, rf) := refusal fl seq ack plen in
  is_u32 rs /\ is_u32 ra /\ is_u8 rf /\ syn_and_fin rf = false.
Proof.
  intros Ha. unfold refusal. case_if as E; split_and!; try done.
  by apply wrap_range.
Qed.

(** A segment to a port that no endpoint has bound is refused with a reset that the
    sender recognises as an answer to it. *)
Theorem network_tcp_reset controllers budget s t sport dport seq ack fl win pl plen :
  controllers <> 0 -> 1 <= budget -> queue_ok (queue s) -> contents (queue s) = [] ->
  tcp_table s = Some t ->
  (forall j, 0 <= j < 8 -> TcpEndpoint.valid (t.[j]) = true ->
     Tcp.local_port (connection (t.[j])) <> dport) ->
  zlen local_hardware = 6 -> zlen local_protocol = 4 -> bytes_ok local_hardware ->
  bytes_ok local_protocol -> is_u16 sport -> is_u16 dport -> sport <> 0 -> dport <> 0 ->
  is_u32 seq -> is_u32 ack -> is_u8 fl -> syn_and_fin fl = false ->
  has fl TCP_FLAG_RST = false -> is_u16 win -> 0 <= plen <= 1460 -> bytes_ok pl ->
  plen <= zlen pl ->
  exists segment f reply more s' e ip r,
    tcp_segment_build ubuf ucap src dst sport dport seq ack fl win (Some pl) plen =
      Some (segment, 20 + plen) /\
    encapsulate 6 segment (20 + plen) = Some f /\
    network_service uninit local_hardware local_protocol reassembly_capacity now controllers [f]
      budget s = (1, reply :: more, s') /\
    network_decode_frame reply (zlen reply) = Some (NETWORK_FRAME_TCP e ip r) /\
    (Tcp.sequence r, Tcp.acknowledgment r, flags r) = refusal fl seq ack plen /\
    Tcp.source_port r = dport /\ Tcp.destination_port r = sport /\
    take 4 (Ipv4.source ip) = local_protocol /\ take 4 (Ipv4.destination ip) = src /\
    take 6 (Ethernet.destination e) = hsrc.
Proof.
  intros Hc Hbud Hq He Htt Hno Hlh Hlp Hblh Hblp Hsp Hdp Hsp0 Hdp0 Hseq Hack Hfl Hsf Hrst Hwin
    Hpl Hbpl Hlpl.
  destruct (tcp_roundtrip ubuf ucap src dst sport dport seq ack fl win (Some pl) plen)
    as (segment & v & Hb & Hp & V1 & V2 & V3 & V4 & V5 & V6 & V7 & _ & Vb & Vl); try done; try lia.
  destruct (encapsulate_spec 6 segment (20 + plen)) as (f & e & ip & Hf & Hfl' & _ & Hframe);
    [done|lia|done|lia|].
  destruct (service_single controllers budget s f) as (s0 & sent & s1 & more & s2 & Hs & _ & S1 & _ &
    Hh & _); [done..|by eapply ip_frame_unfragmented|].
  destruct Hframe as [F1 F2 Fd Fs F3 F4 F5 F6 F10 _ F7 F8 F9 F11].
  pose proof (tcp_parse_agree _ _ _ _ _ _ F8 Hp) as Hv. set (w := {| Tcp.source_port := _ |}) in Hv.
  assert (network_decode_frame (received f) (zlen f) = Some (NETWORK_FRAME_TCP e ip w)) as Hdec.
  { unfold network_decode_frame. rewrite F1, F2. simpl. rewrite F3, F6. simpl. rewrite F4, F5, F7.
    by rewrite Hv. }
  unfold handled_as in Hh. rewrite Hdec in Hh. unfold handle_frame in Hh. rewrite S1, Htt in Hh.
  rewrite deliver_unbound in Hh by (intros j Hj Vj; simpl; rewrite V2; by apply Hno).
  change (flags w) with (flags v) in Hh. rewrite V5, Hrst in Hh.
  unfold network_build_tcp_reset in Hh. rewrite Hdec in Hh. change (flags w) with (flags v) in Hh.
  rewrite V5, Hrst, reset_fields_spec in Hh. simpl in Hh. rewrite V3, V4, V5, V7 in Hh.
  pose proof (refusal_ok fl seq ack plen Hack) as Hok.
  destruct (refusal fl seq ack plen) as [[rs ra] rf]. destruct Hok as (Hrs & Hra & Hrf & Hrsf).
  unfold build_tcp_frame in Hh. rewrite F4, F10 in Hh. simpl in Hh. rewrite V1, V2 in Hh.
  pose proof (uninit_len 20 ltac:(lia)) as L0.
  destruct (tcp_roundtrip (uninit 20) 20 local_protocol src dport sport rs ra rf 0 None 0)
    as (rseg & r & Rb & Rp & R1 & R2 & R3 & R4 & R5 & _ & _ & _ & Rbb & Rl); try done; try lia.
  { split; [apply Forall_nil_2|]. by split. }
  destruct (reply_ip 6 ident rseg 20 local_protocol src hsrc local_hardware)
    as (ipp & reply & n & e' & ip' & B1 & B2 & B3 & B4 & B5); try done; try lia.
  unfold TCP_HEADER_SIZE, ETHERNET_MAX_PAYLOAD_SIZE, ETHERNET_MAX_FRAME_SIZE in Hh.
  rewrite Rb in Hh. change (20 + 0) with 20 in *. rewrite B1, Fs, B2 in Hh. simpl in Hh.
  rewrite B3 in Hh. injection Hh as <- <-.
  destruct B5 as [G1 G2 Gd Gs G3 G4 G5 G6 _ _ G7 G8 _ _].
  exists segment, f, (take (Z.to_nat n) reply), more, s2, e', ip'. eexists.
  split; [done|]. split; [done|]. split; [exact Hs|]. rewrite B4. split.
  { unfold network_decode_frame. rewrite G1, G2. simpl. rewrite G3, G6. simpl. rewrite G4, G5, G7.
    by rewrite (tcp_parse_agree _ _ _ _ _ _ G8 Rp). }
  simpl. rewrite R3, R4, R5. split_and!; done.
Qed.

End single.

(** ** Examples *)

Definition example_uninit (n : Z) : list Z := replicate (Z.to_nat n) 0.
Definition example_buffer : list Z := replicate 1518 0.

Lemma example_uninit_len n : 0 <= n -> zlen (example_uninit n) = n.
Proof. intros Hn. unfold example_uninit. len. Qed.

Lemma example_uninit_bytes n : bytes_ok (example_uninit n).
Proof. apply bytes_ok_replicate. widths; lia. Qed.

Definition example_state : net_state :=
  {| queue := network_packet_queue_initialize example_queue;
     cache := example_cache;
     udp_table := Some (udp_endpoint_table_initialize UdpEndpoint.example_table);
     tcp_table := Some TcpEndpoint.example_table;
     reassembly := None; reassembly_output := None |}.

Lemma example_queue_ok : queue_ok (queue example_state) /\ contents (queue example_state) = [].
Proof.
  split; [|done]. constructor; try done. apply Forall_replicate. vm_compute. intuition congruence.
Qed.

Lemma example_udp_ok : UdpEndpoint.table_ok (udp_endpoint_table_initialize UdpEndpoint.example_table).
Proof.
  apply initialize_spec. split; [done|]. apply Forall_replicate. split_and!; [done..|].
  apply Forall_replicate. vm_compute. intuition congruence.
Qed.

(** The stack at 10.0.2.15 with hardware address 2:0:0:0:0:1 services one frame. *)
Definition example_service (f : list Z) : Z * list (list Z) * net_state :=
  network_service example_uninit [2; 0; 0; 0; 0; 1] [10; 0; 2; 15] 0 5 1 [f] 4 example_state.

(** A frame from 10.0.2.2 to the stack. *)
Definition example_encapsulate : Z -> list Z -> Z -> option (list Z) :=
  encapsulate example_buffer example_buffer 1518 1518 [2; 0; 0; 0; 0; 1] [2; 0; 0; 0; 0; 2]
    [10; 0; 2; 2] [10; 0; 2; 15] 64 7.

(** Apply a theorem of the section above at the example peer and stack. *)
Ltac at_example thm H :=
  pose proof (thm example_uninit example_uninit_len example_uninit_bytes
    [2; 0; 0; 0; 0; 1] [10; 0; 2; 15] 0 5) as H;
  specialize H with (ubuf := example_buffer) (ibuf := example_buffer) (fbuf := example_buffer)
    (ucap := 1518) (fcap := 1518)
    (hdst := [2; 0; 0; 0; 0; 1]) (hsrc := [2; 0; 0; 0; 0; 2])
    (src := [10; 0; 2; 2]) (dst := [10; 0; 2; 15])
    (controllers := 1) (budget := 4) (s := example_state);
  try specialize H with (icap := 1518) (ttl_ := 64) (ident := 7).

(** The hypotheses of these theorems hold there. *)
Ltac example :=
  lazymatch goal with
  | |- queue_ok _ => exact (proj1 example_queue_ok)
  | |- contents _ = _ => exact (proj2 example_queue_ok)
  | |- cache_ok _ => exact arp_example_ok
  | |- UdpEndpoint.table_ok _ => exact example_udp_ok
  | |- bytes_ok example_buffer => exact (example_uninit_bytes 1518)
  | |- _ /\ _ => split; vm_compute; intuition congruence
  | |- udp_table _ = _ => reflexivity
  | |- tcp_table _ = _ => reflexivity
  | |- _ => concrete
  end.

Lemma network_udp_delivery_witness :
  exists up f sent s' t' ok,
    udp_packet_build example_buffer 1518 [10; 0; 2; 2] [10; 0; 2; 15] 53 4000 (Some [1; 2; 3]) 3 =
      Some (up, 11) /\
    example_encapsulate 17 up 11 = Some f /\ example_service f = (1, sent, s') /\
    udp_table s' = Some t' /\ UdpEndpoint.table_ok t' /\
    UdpEndpoint.spec_step
      (UdpEndpoint.Deliver [10; 0; 2; 15] 4000 [10; 0; 2; 2] 53 (Some [1; 2; 3]) 3)
      (replicate 16 None) = (UdpEndpoint.Done ok, mailboxes t').
Proof.
  at_example network_udp_delivery H.
  specialize H with (sport := 53) (dport := 4000) (pl := [1; 2; 3]) (plen := 3)
    (t := udp_endpoint_table_initialize UdpEndpoint.example_table).
  apply H; example.
Defined.

Lemma network_icmp_echo_witness :
  exists request f reply more s' e ip i,
    icmp_echo_build example_buffer 1518 ICMP_TYPE_ECHO_REQUEST 9 1 (Some [1; 2; 3]) 3 =
      Some (request, 11) /\
    example_encapsulate 1 request 11 = Some f /\ example_service f = (1, reply :: more, s') /\
    network_decode_frame reply (zlen reply) = Some (NETWORK_FRAME_ICMP e ip i) /\
    Icmp.type i = ICMP_TYPE_ECHO_REPLY /\ Icmp.identifier i = 9 /\ Icmp.sequence i = 1 /\
    Icmp.payload_length i = 3 /\ take 3 (Icmp.payload i) = [1; 2; 3] /\
    take 4 (Ipv4.source ip) = [10; 0; 2; 15] /\ take 4 (Ipv4.destination ip) = [10; 0; 2; 2] /\
    take 6 (Ethernet.destination e) = [2; 0; 0; 0; 0; 2] /\
    take 6 (Ethernet.source e) = [2; 0; 0; 0; 0; 1].
Proof.
  at_example network_icmp_echo H.
  specialize H with (id := 9) (seq := 1) (pl := [1; 2; 3]) (plen := 3).
  apply H; example.
Defined.

Lemma network_arp_reply_witness :
  exists f reply more s' e a,
    arp_frame example_buffer example_buffer 1518 1518 [2; 0; 0; 0; 0; 1] ARP_OPERATION_REQUEST
      [2; 0; 0; 0; 0; 2] [10; 0; 2; 2] [0; 0; 0; 0; 0; 0] [10; 0; 2; 15] = Some f /\
    example_service f = (1, reply :: more, s') /\
    network_decode_frame reply (zlen reply) = Some (NETWORK_FRAME_ARP e a) /\
    operation a = ARP_OPERATION_REPLY /\
    take 6 (sender_hardware a) = [2; 0; 0; 0; 0; 1] /\
    take 4 (sender_protocol a) = [10; 0; 2; 15] /\
    take 6 (target_hardware a) = [2; 0; 0; 0; 0; 2] /\
    take 4 (target_protocol a) = [10; 0; 2; 2] /\
    take 6 (Ethernet.destination e) = [2; 0; 0; 0; 0; 2] /\
    take 6 (Ethernet.source e) = [2; 0; 0; 0; 0; 1] /\
    arp_cache_lookup (cache s') [10; 0; 2; 2] = Some [2; 0; 0; 0; 0; 2] /\ cache_ok (cache s').
Proof.
  at_example network_arp_reply H. specialize H with (tha := [0; 0; 0; 0; 0; 0]).
  apply H; example.
Defined.

Lemma network_tcp_reset_witness :
  exists segment f reply more s' e ip r,
    tcp_segment_build example_buffer 1518 [10; 0; 2; 2] [10; 0; 2; 15] 99 81 500 0 TCP_FLAG_SYN
      8192 (Some [1; 2; 3]) 3 = Some (segment, 23) /\
    example_encapsulate 6 segment 23 = Some f /\ example_service f = (1, reply :: more, s') /\
    network_decode_frame reply (zlen reply) = Some (NETWORK_FRAME_TCP e ip r) /\
    (Tcp.sequence r, Tcp.acknowledgment r, flags r) = refusal TCP_FLAG_SYN 500 0 3 /\
    Tcp.source_port r = 81 /\ Tcp.destination_port r = 99 /\
    take 4 (Ipv4.source ip) = [10; 0; 2; 15] /\ take 4 (Ipv4.destination ip) = [10; 0; 2; 2] /\
    take 6 (Ethernet.destination e) = [2; 0; 0; 0; 0; 2].
Proof.
  at_example network_tcp_reset H.
  specialize H with (sport := 99) (dport := 81) (seq := 500) (ack := 0) (fl := TCP_FLAG_SYN)
    (win := 8192) (pl := [1; 2; 3]) (plen := 3) (t := TcpEndpoint.example_table).
  apply H; try example.
  intros j Hj.
  assert (j = 0 \/ 1 <= j < 8) as [->|Hj'] by lia; [done|].
  unfold TcpEndpoint.example_table. rewrite (lookup_total_cons_ne_0 _ _ (Z.to_nat j)) by lia.
  by rewrite lookup_total_replicate_2 by lia.
Defined.

End Network.
