(* ===== verification/Handle.v ===== *)
(** * Process handles (kernel/core/process/handle.c)

    A process names kernel objects by 32-bit handles: a slot of its handle table and
    the generation the slot had when the handle was issued.  An object pointer and
    the function pointers [release] and [retain] are numbers, null is 0; the calls
    that an operation makes through them are returned in order as a list of [call].
    The table lock makes each operation one atomic step. *)

From S2P Require Import Prelude.

Module Handle.

Definition PROCESS_HANDLE_CAPACITY : Z := 32.
Definition PROCESS_HANDLE_SLOT_BITS : Z := 5.
Definition PROCESS_HANDLE_SLOT_MASK : Z := 31.
Definition PROCESS_HANDLE_OBJECT_GENERIC : Z := 0.
Definition PROCESS_HANDLE_OBJECT_PIPE_READ : Z := 1.
Definition PROCESS_HANDLE_OBJECT_PIPE_WRITE : Z := 2.

Record process_handle_t := {
  object : Z;
  rights : Z;
  release : Z;
  retain : Z;
  retained_references : Z;
  closing : bool;
  inheritable : bool;
  kind : Z;
}.
#[export] Instance eta_process_handle : Eta process_handle_t := fun e => {|
  object := object e; rights := rights e; release := release e; retain := retain e;
  retained_references := retained_references e; closing := closing e;
  inheritable := inheritable e; kind := kind e |}.

Definition cleared : process_handle_t :=
  {| object := 0; rights := 0; release := 0; retain := 0; retained_references := 0;
     closing := false; inheritable := true; kind := PROCESS_HANDLE_OBJECT_GENERIC |}.
#[export] Instance process_handle_inhabited : Inhabited process_handle_t := populate cleared.

Record process_handle_table_t := {
  entries : list process_handle_t;
  generations : list Z;
  table_retained : Z;
}.
#[export] Instance eta_process_handle_table : Eta process_handle_table_t := fun t => {|
  entries := entries t; generations := generations t; table_retained := table_retained t |}.

(** A counted reference to a slot; [ref_table] tells whether the table pointer is
    set and [entry] is the index of the slot. *)
Record process_handle_ref_t := {
  ref_table : bool;
  entry : option Z;
  ref_object : Z;
  ref_release : Z;
  ref_kind : Z;
  active : bool;
}.
#[export] Instance eta_process_handle_ref : Eta process_handle_ref_t := fun r => {|
  ref_table := ref_table r; entry := entry r; ref_object := ref_object r;
  ref_release := ref_release r; ref_kind := ref_kind r; active := active r |}.

Inductive call := Retain (fn obj : Z) | Release (fn obj : Z).

Definition set_entry (t : process_handle_table_t) (i : Z) (e : process_handle_t) :=
  t<| entries := (entries t).[i <- e] |>.

Definition process_handle_table_initialize (t : process_handle_table_t) : process_handle_table_t :=
  let t := for_z 0 PROCESS_HANDLE_CAPACITY (fun i t =>
    (set_entry t i cleared)<| generations := (generations t).[i <- 1] |>) t in
  t<| table_retained := 0 |>.

Definition make_handle (slot generation : Z) : Z :=
  Z.lor (u32 (Z.shiftl generation PROCESS_HANDLE_SLOT_BITS)) (u32 (slot + 1)).

Definition decode_handle (handle : Z) : option (Z * Z) :=
  let encoded_slot := Z.land handle PROCESS_HANDLE_SLOT_MASK in
  let encoded_generation := Z.shiftr handle PROCESS_HANDLE_SLOT_BITS in
  if (handle =? 0) || (encoded_slot =? 0) || (encoded_generation =? 0) ||
     (PROCESS_HANDLE_CAPACITY <? encoded_slot) || (U16_MAX <? encoded_generation)
  then None
  else Some (encoded_slot - 1, u16 encoded_generation).

(** The entry takes part in inheritance. *)
Definition inherited (e : process_handle_t) : bool :=
  negb (object e =? 0) && negb (closing e) && inheritable e.

(** The two tables are different objects. *)
Definition process_handle_table_inherit (destination source : process_handle_table_t)
    : bool * list call * process_handle_table_t :=
  match find_z 0 PROCESS_HANDLE_CAPACITY (fun i =>
          negb (object ((entries destination).[i]) =? 0) ||
          (inherited ((entries source).[i]) && (retain ((entries source).[i]) =? 0))) with
  | Some _ => (false, [], destination)
  | None =>
      let '(calls, destination) :=
        for_z 0 PROCESS_HANDLE_CAPACITY (fun i '(calls, d) =>
          let s := (entries source).[i] in
          if negb (inherited s) then (calls, d)
          else
            (calls ++ [Retain (retain s) (object s)],
             set_entry d i ((entries d).[i]<| object := object s |><| rights := rights s |>
               <| release := release s |><| retain := retain s |><| retained_references := 0 |>
               <| closing := false |><| inheritable := inheritable s |><| kind := kind s |>)))
          ([], destination) in
      (true, calls, destination)
  end.

Definition find_free (t : process_handle_table_t) : option Z :=
  find_z 0 PROCESS_HANDLE_CAPACITY (fun i => object ((entries t).[i]) =? 0).

(** [rights & ~7U] *)
Definition unknown_rights (r : Z) : bool := negb (Z.land r (U32_MAX - 7) =? 0).

Definition process_handle_open_owned_kind (t : process_handle_table_t)
    (obj r rel ret knd : Z) : Z * process_handle_table_t :=
  if (obj =? 0) || (r =? 0) || unknown_rights r || (PROCESS_HANDLE_OBJECT_PIPE_WRITE <? knd)
  then (0, t)
  else
    match find_free t with
    | None => (0, t)
    | Some i =>
        let e := (entries t).[i]<| object := obj |><| rights := r |><| release := rel |>
                   <| retain := ret |><| closing := false |><| inheritable := true |>
                   <| kind := knd |> in
        (make_handle i ((generations t).[i]), set_entry t i e)
    end.

Definition process_handle_open_owned_retain (t : process_handle_table_t) (obj r rel ret : Z) :=
  process_handle_open_owned_kind t obj r rel ret PROCESS_HANDLE_OBJECT_GENERIC.
Definition process_handle_open_owned (t : process_handle_table_t) (obj r rel : Z) :=
  process_handle_open_owned_retain t obj r rel 0.
Definition process_handle_open (t : process_handle_table_t) (obj r : Z) :=
  process_handle_open_owned t obj r 0.

(** The slot is not what the handle names. *)
Definition stale (t : process_handle_table_t) (slot generation : Z) : bool :=
  negb ((generations t).[slot] =? generation) || closing ((entries t).[slot]) ||
  (object ((entries t).[slot]) =? 0).

Definition process_handle_duplicate (t : process_handle_table_t) (handle r : Z)
    : Z * list call * process_handle_table_t :=
  match decode_handle handle with
  | None => (0, [], t)
  | Some (slot, generation) =>
      let source := (entries t).[slot] in
      if stale t slot generation || (retain source =? 0) ||
         (negb (r =? 0) && negb (Z.land r (U32_MAX - rights source) =? 0))
      then (0, [], t)
      else
        match find_free t with
        | None => (0, [], t)
        | Some i =>
            let e := (entries t).[i]<| object := object source |>
                       <| rights := if r =? 0 then rights source else r |>
                       <| release := release source |><| retain := retain source |>
                       <| closing := false |><| inheritable := inheritable source |>
                       <| kind := kind source |> in
            (make_handle i ((generations t).[i]), [Retain (retain source) (object source)],
             set_entry t i e)
        end
  end.

Definition process_handle_set_inheritable (t : process_handle_table_t) (handle inh : Z)
    : bool * process_handle_table_t :=
  if negb (inh =? 0) && negb (inh =? 1) then (false, t)
  else
    match decode_handle handle with
    | None => (false, t)
    | Some (slot, generation) =>
        if stale t slot generation then (false, t)
        else (true, set_entry t slot ((entries t).[slot]<| inheritable := negb (inh =? 0) |>))
    end.

Definition process_handle_get (t : process_handle_table_t) (handle required : Z) : Z :=
  match decode_handle handle with
  | None => 0
  | Some (slot, generation) =>
      if unknown_rights required then 0
      else if stale t slot generation then 0
      else if Z.land (rights ((entries t).[slot])) required =? required
           then object ((entries t).[slot]) else 0
  end.

Definition next_generation (g : Z) : Z := if g =? U16_MAX then 1 else u16 (g + 1).

(** The entry after a close; the object stays while references are retained. *)
Definition close_entry (e : process_handle_t) : process_handle_t :=
  let e := e<| rights := 0 |><| closing := true |> in
  if retained_references e =? 0 then e<| object := 0 |><| release := 0 |><| retain := 0 |> else e.

(** The release call a close makes. *)
Definition close_calls (e : process_handle_t) : list call :=
  if (retained_references e =? 0) && negb (release e =? 0) then [Release (release e) (object e)]
  else [].

Definition close_slot (t : process_handle_table_t) (slot : Z) : process_handle_table_t :=
  (set_entry t slot (close_entry ((entries t).[slot])))
    <| generations := (generations t).[slot <- next_generation ((generations t).[slot])] |>.

Definition process_handle_close (t : process_handle_table_t) (handle : Z)
    : bool * list call * process_handle_table_t :=
  match decode_handle handle with
  | None => (false, [], t)
  | Some (slot, generation) =>
      if stale t slot generation then (false, [], t)
      else (true, close_calls ((entries t).[slot]), close_slot t slot)
  end.

Definition process_handle_table_close_all (t : process_handle_table_t)
    : list call * process_handle_table_t :=
  for_z 0 PROCESS_HANDLE_CAPACITY (fun i '(calls, t) =>
    (calls ++ close_calls ((entries t).[i]), close_slot t i)) ([], t).

Definition process_handle_get_retain (t : process_handle_table_t) (handle required : Z)
    (ref : process_handle_ref_t) : bool * process_handle_ref_t * process_handle_table_t :=
  match decode_handle handle with
  | None => (false, ref, t)
  | Some (slot, generation) =>
      if unknown_rights required then (false, ref, t)
      else
        let ref := {| ref_table := false; entry := None; ref_object := 0; ref_release := 0;
                      ref_kind := PROCESS_HANDLE_OBJECT_GENERIC; active := false |} in
        let e := (entries t).[slot] in
        if stale t slot generation || negb (Z.land (rights e) required =? required) ||
           (retained_references e =? U32_MAX) || (table_retained t =? U32_MAX)
        then (false, ref, t)
        else
          (true,
           {| ref_table := true; entry := Some slot; ref_object := object e;
              ref_release := release e; ref_kind := kind e; active := true |},
           (set_entry t slot (e<| retained_references := u32 (retained_references e + 1) |>))
             <| table_retained := u32 (table_retained t + 1) |>)
  end.

Definition process_handle_release_ref (t : process_handle_table_t) (ref : process_handle_ref_t)
    : list call * process_handle_ref_t * process_handle_table_t :=
  match entry ref with
  | Some slot =>
      if negb (active ref) || negb (ref_table ref) then ([], ref, t)
      else
        let e := (entries t).[slot] in
        let '(calls, t) :=
          if negb (retained_references e =? 0) && negb (table_retained t =? 0) then
            let e := e<| retained_references := u32 (retained_references e - 1) |> in
            let t := t<| table_retained := u32 (table_retained t - 1) |> in
            if closing e && (retained_references e =? 0) then
              (if negb (release e =? 0) then [Release (release e) (object e)] else [],
               set_entry t slot (e<| object := 0 |><| release := 0 |>))
            else ([], set_entry t slot e)
          else ([], t) in
        (calls, ref<| active := false |><| ref_table := false |><| entry := None |>
                  <| ref_object := 0 |><| ref_release := 0 |>, t)
  | None => ([], ref, t)
  end.

Definition process_handle_table_has_retained (t : process_handle_table_t) : bool :=
  negb (table_retained t =? 0).

#[global] Arguments process_handle_table_initialize : simpl never.
#[global] Arguments process_handle_table_inherit : simpl never.
#[global] Arguments process_handle_table_close_all : simpl never.

(** ** Handles *)

Lemma make_handle_value slot g :
  0 <= slot <= 30 -> 1 <= g <= 65535 -> make_handle slot g = g * 32 + slot + 1.
Proof.
  intros Hs Hg. unfold make_handle, PROCESS_HANDLE_SLOT_BITS.
  rewrite Z.shiftl_mul_pow2 by lia. rewrite !wrap_small by (widths; lia).
  rewrite <- Z.shiftl_mul_pow2, lor_shift_add by lia. lia.
Qed.

(** The last slot shares its bit with the generation. *)
Lemma make_handle_last g : 1 <= g <= 65535 -> Z.land (make_handle 31 g) 31 = 0.
Proof.
  intros Hg. unfold make_handle, PROCESS_HANDLE_SLOT_BITS.
  rewrite Z.land_lor_distr_l, Z.shiftl_mul_pow2 by lia. rewrite (wrap_small 32 (g * 2 ^ 5)) by (widths; lia).
  change 31 with (Z.ones 5) at 1. rewrite Z.land_ones by lia. by rewrite Z.mod_mul.
Qed.

Lemma decode_handle_Some h slot g :
  0 <= h ->
  decode_handle h = Some (slot, g) <->
  h = g * 32 + slot + 1 /\ 0 <= slot <= 30 /\ 1 <= g <= 65535.
Proof.
  intros Hh. unfold decode_handle, PROCESS_HANDLE_SLOT_MASK, PROCESS_HANDLE_SLOT_BITS,
    PROCESS_HANDLE_CAPACITY, U16_MAX.
  change 31 with (Z.ones 5). rewrite Z.land_ones, Z.shiftr_div_pow2 by lia. change (2 ^ 5) with 32.
  split.
  - case_if as E; [done|]. intros [= <- <-]. rewrite wrap_small by zlia. zlia.
  - intros (-> & Hs & Hg). replace (_ / 32) with g by zlia. replace (_ mod 32) with (slot + 1) by zlia.
    replace (_ || _) with false by lia. rewrite wrap_small by (widths; lia). do 2 f_equal. lia.
Qed.

Lemma decode_make_handle slot g :
  0 <= slot <= 30 -> 1 <= g <= 65535 -> decode_handle (make_handle slot g) = Some (slot, g).
Proof.
  intros. rewrite make_handle_value by lia. by apply decode_handle_Some; [lia|].
Qed.

(** ** The system: a table and the references taken from it *)

Record sys := { table : process_handle_table_t; refs : list process_handle_ref_t }.

Inductive op :=
  | Open (obj r rel ret knd : Z)
  | Duplicate (handle r : Z)
  | SetInheritable (handle inh : Z)
  | Close (handle : Z)
  | CloseAll
  | GetRetain (handle required : Z)
  | ReleaseRef (k : Z).

Definition no_ref : process_handle_ref_t :=
  {| ref_table := false; entry := None; ref_object := 0; ref_release := 0; ref_kind := 0;
     active := false |}.
#[export] Instance process_handle_ref_inhabited : Inhabited process_handle_ref_t := populate no_ref.

(** One operation: its result (0 is failure), the calls it makes and the state after
    it.  [GetRetain] stores its reference at the end of [refs]; [ReleaseRef k]
    releases the [k]-th of them. *)
Definition step (o : op) (s : sys) : Z * list call * sys :=
  let '{| table := t; refs := refs |} := s in
  match o with
  | Open obj r rel ret knd =>
      let '(h, t) := process_handle_open_owned_kind t obj r rel ret knd in
      (h, [], {| table := t; refs := refs |})
  | Duplicate handle r =>
      let '(h, calls, t) := process_handle_duplicate t handle r in
      (h, calls, {| table := t; refs := refs |})
  | SetInheritable handle inh =>
      let '(b, t) := process_handle_set_inheritable t handle inh in
      (Z.b2z b, [], {| table := t; refs := refs |})
  | Close handle =>
      let '(b, calls, t) := process_handle_close t handle in
      (Z.b2z b, calls, {| table := t; refs := refs |})
  | CloseAll =>
      let '(calls, t) := process_handle_table_close_all t in
      (1, calls, {| table := t; refs := refs |})
  | GetRetain handle required =>
      let '(b, ref, t) := process_handle_get_retain t handle required no_ref in
      (Z.b2z b, [], {| table := t; refs := refs ++ [ref] |})
  | ReleaseRef k =>
      let '(calls, ref, t) := process_handle_release_ref t (refs.[k]) in
      (1, calls, {| table := t; refs := refs.[k <- ref] |})
  end.

(** The arguments have their C types. *)
Definition op_ok (o : op) : Prop :=
  match o with
  | Open _ r _ _ _ => is_u32 r
  | Duplicate handle r => is_u32 handle /\ is_u32 r
  | SetInheritable handle _ | Close handle | GetRetain handle _ => is_u32 handle
  | CloseAll => True
  | ReleaseRef k => 0 <= k
  end.

Fixpoint run (ops : list op) (s : sys) : list (op * Z * list call * sys) * sys :=
  match ops with
  | [] => ([], s)
  | o :: ops =>
      let '(r, calls, s') := step o s in
      let '(log, s'') := run ops s' in
      ((o, r, calls, s) :: log, s'')
  end.

Record entry_ok (e : process_handle_t) : Prop := {
  ok_empty : object e = 0 -> release e = 0 /\ retained_references e = 0;
  ok_closed : closing e = true -> retained_references e = 0 -> object e = 0;
  ok_rights : 0 <= rights e <= 7;
}.

Definition refers (i : Z) (r : process_handle_ref_t) : bool :=
  active r && match entry r with Some j => j =? i | None => false end.

(** The counters of the table count the active references, and the object of an
    active reference is still held by its slot. *)
Record sys_ok (s : sys) : Prop := {
  ok_entries : zlen (entries (table s)) = 32;
  ok_generations : zlen (generations (table s)) = 32;
  ok_generation : forall i, 0 <= i < 32 -> 1 <= (generations (table s)).[i] <= 65535;
  ok_entry : forall i, 0 <= i < 32 -> entry_ok ((entries (table s)).[i]);
  ok_counts : forall i, 0 <= i < 32 ->
    retained_references ((entries (table s)).[i]) = countb (refers i) (refs s);
  ok_total : table_retained (table s) = countb active (refs s);
  ok_width : countb active (refs s) <= U32_MAX;
  ok_active : forall r, r ∈ refs s -> active r = true ->
    ref_table r = true /\ exists i, entry r = Some i /\ 0 <= i < 32 /\
      ref_object r = object ((entries (table s)).[i]);
}.

(** ** Every operation keeps the invariant *)

Lemma entries_get t i e j :
  zlen (entries t) = 32 -> 0 <= i < 32 -> 0 <= j ->
  (entries (set_entry t i e)).[j] = if j =? i then e else (entries t).[j].
Proof.
  intros Hl Hi Hj. simpl. case_if as E.
  - replace j with i by lia. apply arr_get_eq. lia.
  - apply arr_get_ne; lia.
Qed.

Lemma active_refers (l : list process_handle_ref_t) r i :
  r ∈ l -> active r = true -> entry r = Some i -> 0 < countb (refers i) l.
Proof.
  intros [k Hk]%list_elem_of_lookup Ha He. apply (countb_pos _ _ k r Hk).
  unfold refers. rewrite Ha, He. simpl. lia.
Qed.

(** One slot, the total and the references change together. *)
Lemma sys_ok_change t rs i e total rs' :
  sys_ok {| table := t; refs := rs |} -> 0 <= i < 32 -> entry_ok e ->
  retained_references e = countb (refers i) rs' ->
  (forall j, j <> i -> countb (refers j) rs' = countb (refers j) rs) ->
  total = countb active rs' -> total <= U32_MAX ->
  (forall r, r ∈ rs' -> active r = true ->
     (r ∈ rs /\ (entry r = Some i -> object e = object ((entries t).[i]))) \/
     (ref_table r = true /\ entry r = Some i /\ ref_object r = object e)) ->
  sys_ok {| table := (set_entry t i e)<| table_retained := total |>; refs := rs' |}.
Proof.
  intros [L G Hg Hent Hc Ht Hw Ha] Hi He Hr Hother Htot Hmax Hrs. simpl in *.
  pose proof (fun j => entries_get t i e j L Hi) as Hget.
  split; cbn [table refs]; try done; try lia.
  - simpl. by rewrite zlen_set.
  - intros j Hj. change (entries _) with (entries (set_entry t i e)).
    rewrite Hget by lia. case_if as E; auto.
  - intros j Hj. change (entries _) with (entries (set_entry t i e)).
    rewrite Hget by lia. case_if as E; [by replace j with i by lia|].
    rewrite Hother by lia. auto.
  - intros r Hin Hact. change (entries _) with (entries (set_entry t i e)).
    destruct (Hrs r Hin Hact) as [[Hin' Ho]|(H1 & H2 & H3)].
    + destruct (Ha r Hin' Hact) as (Htb & j & Hj & Hjr & Hob).
      split; [done|]. exists j. split_and!; [done|lia..|]. rewrite Hget by lia.
      case_if as E; [|done]. assert (j = i) as -> by lia. by rewrite Ho.
    + split; [done|]. exists i. split_and!; [done|lia..|]. rewrite Hget by lia. by rewrite Z.eqb_refl.
Qed.

Lemma sys_ok_set t rs i e :
  sys_ok {| table := t; refs := rs |} -> 0 <= i < 32 -> entry_ok e ->
  retained_references e = retained_references ((entries t).[i]) ->
  (retained_references e <> 0 -> object e = object ((entries t).[i])) ->
  sys_ok {| table := set_entry t i e; refs := rs |}.
Proof.
  intros Hok Hi He Hr Ho. pose proof Hok as [_ _ _ _ Hc Ht Hw _]. simpl in *.
  apply (sys_ok_change t rs i e (table_retained t) rs); try done; [|lia|].
  - rewrite Hr. auto.
  - intros r Hin Hact. left. split; [done|]. intros Hj. apply Ho.
    pose proof (active_refers _ _ _ Hin Hact Hj). rewrite Hr, Hc; lia.
Qed.

Lemma sys_ok_generation t rs i g :
  sys_ok {| table := t; refs := rs |} -> 0 <= i < 32 -> 1 <= g <= 65535 ->
  sys_ok {| table := t<| generations := (generations t).[i <- g] |>; refs := rs |}.
Proof.
  intros [L G Hg Hent Hc Ht Hw Ha] Hi Hgr. simpl in *. split; simpl; try done.
  - by rewrite zlen_set.
  - intros j Hj. destruct (decide (i = j)) as [<-|]; [rewrite arr_get_eq; lia|].
    rewrite arr_get_ne by lia. auto.
Qed.

Lemma stale_false t slot g :
  stale t slot g = false ->
  (generations t).[slot] = g /\ closing ((entries t).[slot]) = false /\ object ((entries t).[slot]) <> 0.
Proof. unfold stale. destruct (closing _); lia. Qed.

Lemma find_free_Some t i :
  find_free t = Some i ->
  0 <= i < 32 /\ object ((entries t).[i]) = 0 /\
  forall j, 0 <= j < i -> object ((entries t).[j]) <> 0.
Proof.
  intros (Hi & Ho & Hj)%find_z_Some. unfold PROCESS_HANDLE_CAPACITY in *.
  split_and!; [lia..|]. intros j Hlt. specialize (Hj j Hlt). lia.
Qed.

Lemma known_rights r : is_u32 r -> unknown_rights r = false -> 0 <= r <= 7.
Proof.
  unfold unknown_rights. intros Hr Hu.
  assert (Z.land r (U32_MAX - 7) = Z.shiftl (Z.shiftr r 3) 3) as Heq.
  { rewrite <- Z.ldiff_ones_r by lia. apply Z.bits_inj'. intros n Hn.
    rewrite Z.land_spec, Z.ldiff_spec.
    replace (U32_MAX - 7) with (Z.ldiff (Z.ones 32) (Z.ones 3)) by done.
    rewrite Z.ldiff_spec. destruct (decide (n < 32)).
    - by rewrite Z.ones_spec_low by lia.
    - assert (Z.testbit r n = false) as ->; [|done].
      rewrite <- (wrap_small 32 r) by done. apply Z.mod_pow2_bits_high. lia. }
  rewrite Heq, Z.shiftl_mul_pow2, Z.shiftr_div_pow2 in Hu by lia. change (2 ^ 3) with 8 in Hu. zlia.
Qed.

Lemma next_generation_range g : 1 <= g <= 65535 -> 1 <= next_generation g <= 65535.
Proof. intros. unfold next_generation, U16_MAX. case_if as E; [lia|]. rewrite wrap_small; widths; lia. Qed.

Lemma handle_open_ok t rs obj r rel ret knd :
  sys_ok {| table := t; refs := rs |} -> is_u32 r ->
  sys_ok {| table := (process_handle_open_owned_kind t obj r rel ret knd).2; refs := rs |}.
Proof.
  intros Hok Hr. unfold process_handle_open_owned_kind. case_if as E; [done|].
  destruct (find_free t) as [i|] eqn:F; [|done].
  apply find_free_Some in F as (Hi & Hz & _). pose proof (ok_entry _ Hok i Hi) as [E1 _ _].
  destruct (E1 Hz) as [_ R0]. simpl in R0.
  pose proof (known_rights r Hr ltac:(destruct (unknown_rights r); [lia|done])).
  apply sys_ok_set; simpl; [done..| |done|by rewrite R0].
  split; simpl; [lia|done|done].
Qed.

Lemma duplicate_rights_subset r old :
  0 <= old <= 7 -> is_u32 r -> Z.land r (U32_MAX - old) = 0 -> Z.land r old = r.
Proof.
  intros Ho Hr Hz. apply Z.bits_inj'. intros n Hn. rewrite Z.land_spec.
  apply (f_equal (fun x => Z.testbit x n)) in Hz. rewrite Z.land_spec, Z.bits_0 in Hz.
  destruct (decide (n < 32)).
  - replace (Z.testbit (U32_MAX - old) n) with (negb (Z.testbit old n)) in Hz;
      [by destruct (Z.testbit r n), (Z.testbit old n)|].
    replace (U32_MAX - old) with (wrap 32 (Z.lnot old)).
    + unfold wrap. by rewrite Z.mod_pow2_bits_low, Z.lnot_spec by lia.
    + unfold Z.lnot. zlia.
  - assert (Z.testbit r n = false) as ->; [|done].
    rewrite <- (wrap_small 32 r) by done. apply Z.mod_pow2_bits_high. lia.
Qed.

Lemma subset_le r old : 0 <= old -> 0 <= r -> Z.land r old = r -> r <= old.
Proof.
  intros Ho Hr <-. rewrite <- (Z2N.id r), <- (Z2N.id old), <- N2Z.inj_land by lia.
  apply N2Z.inj_le, N.land_le_r.
Qed.

Lemma duplicate_ok t rs h r :
  sys_ok {| table := t; refs := rs |} -> is_u32 h -> is_u32 r ->
  sys_ok {| table := (process_handle_duplicate t h r).2; refs := rs |}.
Proof.
  intros Hok Hh Hr. unfold process_handle_duplicate.
  destruct (decode_handle h) as [[slot g]|] eqn:D; [|done]. case_if as E; [done|].
  destruct (find_free t) as [i|] eqn:F; [|done].
  apply decode_handle_Some in D as (_ & Hslot & _); [|widths; lia].
  apply find_free_Some in F as (Hi & Hz & _). pose proof (ok_entry _ Hok i Hi) as [E1 _ _].
  pose proof (ok_entry _ Hok slot ltac:(lia)) as [_ _ E3].
  destruct (E1 Hz) as [_ R0]. simpl in R0, E3.
  destruct (stale t slot g) eqn:S; [done|]. apply stale_false in S as (_ & _ & Hobj).
  apply sys_ok_set; simpl; [done..| |done|by rewrite R0].
  split; simpl; [done|done|]. case_if as Er; [done|].
  pose proof (duplicate_rights_subset r _ E3 Hr ltac:(lia)) as Hsub.
  pose proof (subset_le _ _ (proj1 E3) (proj1 Hr) Hsub). widths. lia.
Qed.

Lemma set_inheritable_ok t rs h i :
  sys_ok {| table := t; refs := rs |} -> is_u32 h ->
  sys_ok {| table := (process_handle_set_inheritable t h i).2; refs := rs |}.
Proof.
  intros Hok Hh. unfold process_handle_set_inheritable. case_if as E; [done|].
  destruct (decode_handle h) as [[slot g]|] eqn:D; [|done]. case_if as E'; [done|].
  apply decode_handle_Some in D as (_ & Hslot & _); [|widths; lia].
  pose proof (ok_entry _ Hok slot ltac:(lia)) as [E1 E2 E3].
  apply sys_ok_set; simpl; [done|lia| |done|done]. by split.
Qed.

Lemma close_entry_ok e : entry_ok e -> entry_ok (close_entry e).
Proof.
  intros [E1 E2 E3]. unfold close_entry. simpl. case_if as E; split; simpl; try lia; try done.
Qed.

Lemma close_entry_refs e : retained_references (close_entry e) = retained_references e.
Proof. unfold close_entry. simpl. by case_if as E. Qed.

Lemma close_slot_ok t rs i :
  sys_ok {| table := t; refs := rs |} -> 0 <= i < 32 ->
  sys_ok {| table := close_slot t i; refs := rs |}.
Proof.
  intros Hok Hi. apply (sys_ok_generation (set_entry t i _)); [|done|].
  - apply sys_ok_set; [done..| |apply close_entry_refs|].
    + apply close_entry_ok. exact (ok_entry _ Hok i Hi).
    + rewrite close_entry_refs. intros Hr. unfold close_entry. simpl. by case_if as E; [lia|].
  - apply next_generation_range. exact (ok_generation _ Hok i Hi).
Qed.

Lemma handle_close_ok t rs h :
  sys_ok {| table := t; refs := rs |} -> is_u32 h ->
  sys_ok {| table := (process_handle_close t h).2; refs := rs |}.
Proof.
  intros Hok Hh. unfold process_handle_close.
  destruct (decode_handle h) as [[slot g]|] eqn:D; [|done]. case_if as E; [done|].
  apply decode_handle_Some in D as (_ & Hslot & _); [|widths; lia]. apply close_slot_ok; [done|lia].
Qed.

(** The closing loop keeps what closing one slot keeps. *)
Lemma close_all_ind (P : list call -> process_handle_table_t -> Prop) t :
  P [] t ->
  (forall i calls t, 0 <= i < 32 -> P calls t ->
     P (calls ++ close_calls ((entries t).[i])) (close_slot t i)) ->
  let '(calls, t') := process_handle_table_close_all t in P calls t'.
Proof.
  intros H0 HS. unfold process_handle_table_close_all, PROCESS_HANDLE_CAPACITY.
  apply (for_z_ind (fun _ '(calls, t) => P calls t)); [lia|done|].
  intros i [calls t'] Hi HP. by apply HS.
Qed.

Lemma count_refers_le i rs : countb (refers i) rs <= countb active rs.
Proof. apply countb_mono. intros x. unfold refers. by destruct (active x). Qed.

Lemma sys_ok_inactive t rs r :
  sys_ok {| table := t; refs := rs |} -> active r = false ->
  sys_ok {| table := t; refs := rs ++ [r] |}.
Proof.
  intros [L G Hg Hent Hc Ht Hw Ha] Hr. simpl in *.
  split; simpl; try done; try (rewrite countb_app; simpl; rewrite Hr; lia).
  - intros i Hi. rewrite countb_app. simpl. unfold refers at 2. rewrite Hr, Hc by done. simpl. lia.
  - intros r' [Hin|Hin]%elem_of_app Hact; [auto|].
    apply list_elem_of_singleton in Hin as ->. congruence.
Qed.

Lemma get_retain_ok t rs h req :
  sys_ok {| table := t; refs := rs |} -> is_u32 h ->
  let '(b, ref, t') := process_handle_get_retain t h req no_ref in
  sys_ok {| table := t'; refs := rs ++ [ref] |}.
Proof.
  intros Hok Hh. unfold process_handle_get_retain.
  destruct (decode_handle h) as [[slot g]|] eqn:D; [|by apply sys_ok_inactive].
  case_if as E1; [by apply sys_ok_inactive|]. case_if as E2; [by apply sys_ok_inactive|].
  apply decode_handle_Some in D as (_ & Hslot & _); [|widths; lia].
  destruct (stale t slot g) eqn:S; [done|]. apply stale_false in S as (_ & Hcl & Hobj).
  pose proof Hok as [L G Hg Hent Hc Ht Hw Ha]. simpl in *.
  pose proof (count_refers_le slot rs). pose proof (countb_bounds (refers slot) rs).
  pose proof (countb_bounds active rs). pose proof (Hc slot ltac:(lia)) as Hcs.
  rewrite !wrap_small by (widths; lia).
  apply (sys_ok_change t rs); try (rewrite countb_app; simpl; lia); try done; [lia|..].
  - destruct (Hent slot ltac:(lia)) as [F1 F2 F3]. split; simpl; [done|congruence|done].
  - rewrite countb_app. simpl. unfold refers at 2. simpl. rewrite Z.eqb_refl. lia.
  - intros j Hj. rewrite countb_app. simpl. unfold refers at 2. simpl.
    replace (slot =? j) with false by lia. lia.
  - lia.
  - intros r [Hin|Hin]%elem_of_app Hact; [by left|].
    apply list_elem_of_singleton in Hin as ->. by right.
Qed.

(** What an active reference says about the table. *)
Lemma active_ref t rs k slot :
  sys_ok {| table := t; refs := rs |} -> 0 <= k -> active (rs.[k]) = true ->
  entry (rs.[k]) = Some slot ->
  rs !! Z.to_nat k = Some (rs.[k]) /\ 0 <= slot < 32 /\
  0 < retained_references ((entries t).[slot]) <= table_retained t.
Proof.
  intros Hok Hk Hact En.
  destruct (decide (k < zlen rs)) as [Hlt|Hge].
  2: { rewrite list_lookup_total_alt, lookup_ge_None_2 in Hact by (unfold zlen in *; lia). done. }
  pose proof (arr_lookup rs k ltac:(lia)) as Hlk.
  pose proof Hok as [_ _ _ _ Hc Ht _ Ha]. simpl in *.
  pose proof (list_elem_of_lookup_2 _ _ _ Hlk) as Hin.
  destruct (Ha _ Hin Hact) as (_ & j & Hj & Hjr & _). rewrite En in Hj. injection Hj as <-.
  pose proof (active_refers _ _ _ Hin Hact En). pose proof (count_refers_le slot rs).
  rewrite Ht, Hc by done. split_and!; [done|lia..].
Qed.

Lemma release_ref_ok t rs k :
  sys_ok {| table := t; refs := rs |} -> 0 <= k ->
  let '(calls, ref, t') := process_handle_release_ref t (rs.[k]) in
  sys_ok {| table := t'; refs := rs.[k <- ref] |}.
Proof.
  intros Hok Hk. unfold process_handle_release_ref.
  destruct (entry (rs.[k])) as [slot|] eqn:En; [|by rewrite arr_set_get].
  case_if as E1; [by rewrite arr_set_get|].
  assert (active (rs.[k]) = true) as Hact by (destruct (active _); done).
  destruct (active_ref t rs k slot Hok Hk Hact En) as (Hlk & Hjr & Hcnt).
  pose proof Hok as [L G Hg Hent Hc Ht Hw Ha]. simpl in *. pose proof (Hc slot Hjr) as Hcs.
  replace (_ && _) with true by lia. rewrite !wrap_small by (widths; lia).
  set (ref := (rs.[k])<| active := false |><| ref_table := false |><| entry := None |>
                <| ref_object := 0 |><| ref_release := 0 |>).
  assert (forall j, countb (refers j) (rs.[k <- ref]) =
                    countb (refers j) rs - (if j =? slot then 1 else 0)) as Hcount.
  { intros j. rewrite (countb_insert _ _ _ _ _ Hlk). unfold refers at 2 3. rewrite Hact, En. simpl.
    rewrite (Z.eqb_sym slot). case_if as E; lia. }
  assert (countb active (rs.[k <- ref]) = countb active rs - 1) as Htotal
    by (rewrite (countb_insert _ _ _ _ _ Hlk), Hact; simpl; lia).
  pose proof (Hcount slot) as Hs. rewrite Z.eqb_refl in Hs.
  assert (forall r, r ∈ rs.[k <- ref] -> active r = true -> r ∈ rs) as Hsub.
  { intros r [j Hr]%list_elem_of_lookup Ha'.
    apply list_lookup_insert_Some in Hr as [(_ & <- & _)|[_ Hr]]; [done|]. by eapply list_elem_of_lookup_2. }
  destruct (Hent slot Hjr) as [F1 F2 F3].
  assert (forall e, entry_ok e -> retained_references e = retained_references (entries t).[slot] - 1 ->
    (retained_references e <> 0 -> object e = object (entries t).[slot]) ->
    sys_ok {| table := (set_entry t slot e)<| table_retained := table_retained t - 1 |>;
              refs := rs.[k <- ref] |}) as Hset.
  { intros e He Hre Hoe. apply (sys_ok_change t rs); try done; try lia.
    - intros j Hj. rewrite Hcount. replace (j =? slot) with false by lia. lia.
    - intros r Hr Hra. left. split; [auto|]. intros Hrs. apply Hoe.
      pose proof (active_refers _ _ _ Hr Hra Hrs). lia. }
  case_if as E2; [change (sys_ok {| table := (set_entry t slot ((entries t).[slot]
      <| retained_references := retained_references (entries t).[slot] - 1 |><| object := 0 |>
      <| release := 0 |>))<| table_retained := table_retained t - 1 |>; refs := rs.[k <- ref] |})|];
    apply Hset; simpl; try lia; split; simpl; try done; try lia.
Qed.

Lemma close_all_ok t rs :
  sys_ok {| table := t; refs := rs |} ->
  sys_ok {| table := (process_handle_table_close_all t).2; refs := rs |}.
Proof.
  intros Hok. pose proof (close_all_ind (fun _ t => sys_ok {| table := t; refs := rs |}) t Hok) as H.
  destruct (process_handle_table_close_all t) as [calls t']. apply H. intros. by apply close_slot_ok.
Qed.

Lemma handle_step_ok o s : sys_ok s -> op_ok o -> sys_ok (step o s).2.
Proof.
  destruct s as [t rs]. intros Hok Ho.
  destruct o as [obj r rel ret knd|h r|h i|h| |h req|k]; cbn [op_ok step] in Ho |- *.
  - pose proof (handle_open_ok t rs obj r rel ret knd Hok Ho).
    by destruct (process_handle_open_owned_kind t obj r rel ret knd).
  - pose proof (duplicate_ok t rs h r Hok (proj1 Ho) (proj2 Ho)).
    by destruct (process_handle_duplicate t h r) as [[? ?] ?].
  - pose proof (set_inheritable_ok t rs h i Hok Ho).
    by destruct (process_handle_set_inheritable t h i).
  - pose proof (handle_close_ok t rs h Hok Ho). by destruct (process_handle_close t h) as [[? ?] ?].
  - pose proof (close_all_ok t rs Hok). by destruct (process_handle_table_close_all t).
  - pose proof (get_retain_ok t rs h req Hok Ho).
    by destruct (process_handle_get_retain t h req no_ref) as [[? ?] ?].
  - pose proof (release_ref_ok t rs k Hok Ho).
    by destruct (process_handle_release_ref t (rs.[k])) as [[? ?] ?].
Qed.

(** ** Accounting for the objects *)

(** The slots that hold the object [o] with the release function [f]. *)
Definition holds (f o : Z) (e : process_handle_t) : bool := (object e =? o) && (release e =? f).
Definition owned (f o : Z) (s : sys) : Z := countb (holds f o) (entries (table s)).

Definition releases (f o : Z) (calls : list call) : Z :=
  countb (fun c => match c with Release f' o' => (f' =? f) && (o' =? o) | _ => false end) calls.

(** The operation stored the object in a slot: it opened it, or duplicated a handle
    that names it. *)
Definition acquired (f o : Z) (x : op) (result : Z) (s : sys) : Z :=
  match x with
  | Open obj _ rel _ _ => Z.b2z (negb (result =? 0) && (obj =? o) && (rel =? f))
  | Duplicate h _ =>
      match decode_handle h with
      | Some (slot, _) => Z.b2z (negb (result =? 0) && holds f o ((entries (table s)).[slot]))
      | None => 0
      end
  | _ => 0
  end.

Lemma owned_set f o t rs i e :
  sys_ok {| table := t; refs := rs |} -> 0 <= i < 32 ->
  countb (holds f o) (entries (set_entry t i e)) =
  countb (holds f o) (entries t) - Z.b2z (holds f o ((entries t).[i])) + Z.b2z (holds f o e).
Proof.
  intros Hok Hi. pose proof (ok_entries _ Hok). simpl in *.
  rewrite (countb_insert _ _ _ ((entries t).[i])) by (apply arr_lookup; lia).
  by destruct (holds f o (entries t).[i]), (holds f o e).
Qed.

Lemma holds_empty f o e : o <> 0 -> object e = 0 -> holds f o e = false.
Proof. unfold holds. lia. Qed.

Lemma make_handle_nonzero i g : 0 <= i < 32 -> 1 <= g <= 65535 -> make_handle i g <> 0.
Proof.
  intros Hi Hg Hz. unfold make_handle in Hz. apply Z.lor_eq_0_iff in Hz as [_ Hz].
  rewrite wrap_small in Hz; widths; lia.
Qed.

Lemma close_slot_owned f o t rs i :
  sys_ok {| table := t; refs := rs |} -> 0 <= i < 32 -> f <> 0 -> o <> 0 ->
  countb (holds f o) (entries (close_slot t i)) + releases f o (close_calls ((entries t).[i])) =
  countb (holds f o) (entries t).
Proof.
  intros Hok Hi Hf Ho. change (entries (close_slot t i)) with
    (entries (set_entry t i (close_entry (entries t).[i]))).
  rewrite (owned_set f o t rs) by done.
  unfold close_calls, close_entry. simpl retained_references.
  destruct (retained_references (entries t).[i] =? 0); [|unfold releases, holds; simpl; lia].
  rewrite (holds_empty f o (_<| retain := 0 |>)) by done. unfold releases, holds. simpl.
  destruct (release (entries t).[i] =? 0) eqn:R; simpl; [lia|].
  destruct (object _ =? o), (release _ =? f); simpl; lia.
Qed.

Lemma step_owned f o x s :
  sys_ok s -> op_ok x -> f <> 0 -> o <> 0 ->
  let '(r, calls, s') := step x s in
  owned f o s' + releases f o calls = owned f o s + acquired f o x r s.
Proof.
  destruct s as [t rs]. intros Hok Hx Hf Ho. unfold owned. assert (releases f o [] = 0) as R0 by done.
  destruct x as [obj r rel ret knd|h r|h i|h| |h req|k]; cbn [step op_ok] in Hx |- *.
  - unfold process_handle_open_owned_kind. case_if as E; [simpl; lia|].
    destruct (find_free t) as [i|] eqn:F; [|simpl; lia].
    apply find_free_Some in F as (Hi & Hz & _). cbn [table].
    pose proof (make_handle_nonzero i _ Hi (ok_generation _ Hok i Hi)) as Hnz. simpl in Hnz.
    rewrite (owned_set f o t rs), (holds_empty f o (entries t).[i]) by done. unfold holds. simpl. lia.
  - unfold process_handle_duplicate. unfold acquired.
    destruct (decode_handle h) as [[slot g]|]; [|simpl; lia].
    case_if as E; [simpl; lia|]. destruct (find_free t) as [i|] eqn:F; [|simpl; lia].
    apply find_free_Some in F as (Hi & Hz & _). cbn [table].
    pose proof (make_handle_nonzero i _ Hi (ok_generation _ Hok i Hi)) as Hnz. simpl in Hnz.
    rewrite (owned_set f o t rs), (holds_empty f o (entries t).[i]) by done. unfold releases, holds. simpl. lia.
  - unfold process_handle_set_inheritable. case_if as E; [simpl; lia|].
    destruct (decode_handle h) as [[slot g]|] eqn:D; [|simpl; lia]. case_if as E'; [simpl; lia|].
    apply decode_handle_Some in D as (_ & Hslot & _); [|widths; lia]. cbn [table].
    rewrite (owned_set f o t rs) by (done || lia). unfold holds. simpl. lia.
  - unfold process_handle_close.
    destruct (decode_handle h) as [[slot g]|] eqn:D; [|simpl; lia]. case_if as E'; [simpl; lia|].
    apply decode_handle_Some in D as (_ & Hslot & _); [|widths; lia]. cbn [table acquired].
    pose proof (close_slot_owned f o t rs slot Hok ltac:(lia) Hf Ho). lia.
  - pose proof (close_all_ind (fun calls t' => sys_ok {| table := t'; refs := rs |} /\
      countb (holds f o) (entries t') + releases f o calls = countb (holds f o) (entries t)) t) as H.
    destruct (process_handle_table_close_all t) as [calls t']. cbn [table acquired].
    rewrite Z.add_0_r. apply H; [by split; [|simpl; lia]|]. clear H calls t'. intros i calls t' Hi [Hok' H].
    split; [by apply close_slot_ok|]. unfold releases in *. rewrite countb_app.
    pose proof (close_slot_owned f o t' rs i Hok' Hi Hf Ho). unfold releases in *. lia.
  - unfold process_handle_get_retain. destruct (decode_handle h) as [[slot g]|] eqn:D; [|simpl; lia].
    case_if as E; [simpl; lia|]. case_if as E'; [simpl; lia|].
    apply decode_handle_Some in D as (_ & Hslot & _); [|widths; lia]. cbn [table].
    change (entries _) with (entries (set_entry t slot ((entries t).[slot]
      <| retained_references := u32 (retained_references (entries t).[slot] + 1) |>))) at 1.
    rewrite (owned_set f o t rs) by (done || lia). unfold holds. simpl. lia.
  - unfold process_handle_release_ref. destruct (entry (rs.[k])) as [slot|] eqn:En; [|simpl; lia].
    case_if as E; [simpl; lia|].
    destruct (active_ref t rs k slot Hok Hx ltac:(destruct (active _); done) En) as (_ & Hs & Hc).
    replace (_ && _) with true by lia.
    case_if as E'; cbn [table acquired];
      change (entries (set_entry _ slot ?e)) with (entries (set_entry t slot e));
      rewrite (owned_set f o t rs) by done; [|unfold holds; simpl; lia].
    rewrite (holds_empty f o (_<| release := 0 |>)) by done. unfold releases, holds. simpl.
    destruct (release (entries t).[slot] =? 0) eqn:R; simpl; [lia|].
    destruct (object _ =? o), (release _ =? f); simpl; lia.
Qed.

(** ** What a handle denotes *)

(** The object and the rights a handle gives access to. *)
Definition capability (s : sys) (h : Z) : option (Z * Z) :=
  match decode_handle h with
  | Some (slot, g) =>
      let e := (entries (table s)).[slot] in
      if stale (table s) slot g then None else Some (object e, rights e)
  | None => None
  end.

(** The abstract table: a partial map from handles to objects with rights.
    [usable] excludes the handle that an entry of the last slot gets. *)
Definition usable (h : Z) : bool := negb (Z.land h 31 =? 0).

Definition spec_ok (x : op) (result : Z) (m m' : Z -> option (Z * Z)) : Prop :=
  match x with
  | Open obj r _ _ _ =>
      (result = 0 /\ forall h, 0 <= h -> m' h = m h) \/
      (m result = None /\
       forall h, 0 <= h -> m' h = if (h =? result) && usable h then Some (obj, r) else m h)
  | Duplicate h0 r =>
      (result = 0 /\ forall h, 0 <= h -> m' h = m h) \/
      (m result = None /\ exists obj old new, m h0 = Some (obj, old) /\ Z.land new old = new /\
       (r <> 0 -> new = r) /\
       forall h, 0 <= h -> m' h = if (h =? result) && usable h then Some (obj, new) else m h)
  | Close h0 =>
      result = match m h0 with Some _ => 1 | None => 0 end /\
      forall h, 0 <= h -> m' h = if h =? h0 then None else m h
  | CloseAll => forall h, 0 <= h -> m' h = None
  | _ => forall h, 0 <= h -> m' h = m h
  end.

(** Changing a slot changes what the handles of the slot denote. *)
Lemma capability_set t rs rs' i e h :
  sys_ok {| table := t; refs := rs |} -> 0 <= i < 32 -> 0 <= h ->
  capability {| table := set_entry t i e; refs := rs' |} h =
  match decode_handle h with
  | Some (slot, g) =>
      if slot =? i then
        if negb ((generations t).[i] =? g) || closing e || (object e =? 0) then None
        else Some (object e, rights e)
      else capability {| table := t; refs := rs |} h
  | None => None
  end.
Proof.
  intros Hok Hi Hh. pose proof (ok_entries _ Hok) as L. simpl in L. unfold capability.
  destruct (decode_handle h) as [[slot g]|] eqn:D; [|done].
  apply decode_handle_Some in D as (_ & Hs & _); [|done]. unfold stale. cbn [table].
  rewrite entries_get by lia. case_if as E; [by replace slot with i by lia|done].
Qed.

Lemma make_handle_nonneg i g : 0 <= make_handle i g.
Proof. unfold make_handle. apply Z.lor_nonneg. split; apply wrap_range; lia. Qed.

(** The handle of a slot names the slot, unless it is the last one. *)
Lemma decode_own_handle i g :
  0 <= i < 32 -> 1 <= g <= 65535 ->
  decode_handle (make_handle i g) = (if i =? 31 then None else Some (i, g)) /\
  usable (make_handle i g) = negb (i =? 31).
Proof.
  intros Hi Hg. destruct (i =? 31) eqn:E.
  - replace i with 31 by lia. unfold usable. rewrite make_handle_last by done. split; [|done].
    unfold decode_handle, PROCESS_HANDLE_SLOT_MASK. rewrite make_handle_last by done. simpl.
    by rewrite orb_true_r.
  - split; [apply decode_make_handle; lia|]. unfold usable. rewrite make_handle_value by lia.
    change 31 with (Z.ones 5). rewrite Z.land_ones by lia. change (2 ^ 5) with 32. zlia.
Qed.

(** Filling a free slot gives a meaning to one handle, which had none. *)
Lemma capability_fill t rs i e :
  sys_ok {| table := t; refs := rs |} -> 0 <= i < 32 -> object ((entries t).[i]) = 0 ->
  object e <> 0 -> closing e = false ->
  let r := make_handle i ((generations t).[i]) in
  capability {| table := t; refs := rs |} r = None /\
  forall h, 0 <= h ->
    capability {| table := set_entry t i e; refs := rs |} h =
    if (h =? r) && usable h then Some (object e, rights e)
    else capability {| table := t; refs := rs |} h.
Proof.
  intros Hok Hi Hz Ho Hc r. pose proof (ok_generation _ Hok i Hi) as Hg. simpl in Hg.
  destruct (decode_own_handle i _ Hi Hg) as [Dr Ur]. fold r in Dr, Ur.
  assert (forall h g, decode_handle h = Some (i, g) -> capability {| table := t; refs := rs |} h = None)
    as Hnone.
  { intros h g D. unfold capability, stale. rewrite D. cbn [table]. rewrite Hz. simpl.
    by rewrite orb_true_r. }
  split.
  { destruct (i =? 31); [by unfold capability; rewrite Dr|by eapply Hnone]. }
  intros h Hh. rewrite (capability_set t rs rs i e h) by done.
  destruct (decide (h = r)) as [->|Hne].
  - rewrite Z.eqb_refl, Ur, Dr. case_if as E; simpl; [by unfold capability; rewrite Dr|].
    rewrite !Z.eqb_refl, Hc. simpl. by replace (object e =? 0) with false by lia.
  - replace (h =? r) with false by lia. simpl.
    destruct (decode_handle h) as [[slot g]|] eqn:D; [|by unfold capability; rewrite D].
    case_if as E; [|done]. assert (slot = i) as -> by lia. rewrite (Hnone h g D).
    apply decode_handle_Some in D as (-> & Hs & Hg'); [|done].
    destruct ((generations t).[i] =? g) eqn:Eg; [|done]. exfalso. apply Hne. unfold r.
    rewrite make_handle_value; lia.
Qed.

(** Closing a slot takes the meaning from its handles. *)
Lemma capability_close t rs i h :
  sys_ok {| table := t; refs := rs |} -> 0 <= i < 32 -> 0 <= h ->
  capability {| table := close_slot t i; refs := rs |} h =
  match decode_handle h with
  | Some (slot, _) => if slot =? i then None else capability {| table := t; refs := rs |} h
  | None => None
  end.
Proof.
  intros Hok Hi Hh. pose proof (ok_entries _ Hok) as L. simpl in L. unfold capability, stale.
  destruct (decode_handle h) as [[slot g]|] eqn:D; [|done].
  apply decode_handle_Some in D as (_ & Hs & _); [|done]. cbn [table].
  change (entries (close_slot t i)) with (entries (set_entry t i (close_entry (entries t).[i]))).
  rewrite entries_get by lia. case_if as E.
  - assert (closing (close_entry (entries t).[i]) = true) as -> by (unfold close_entry; by case_if as E').
    by rewrite orb_true_r.
  - simpl. by rewrite arr_get_ne by lia.
Qed.

(** An entry whose object, rights and closing mark stay is denoted as before. *)
Lemma capability_same t rs rs' i e h :
  sys_ok {| table := t; refs := rs |} -> 0 <= i < 32 -> 0 <= h ->
  (closing ((entries t).[i]) = false -> object e = object ((entries t).[i])) ->
  rights e = rights ((entries t).[i]) -> closing e = closing ((entries t).[i]) ->
  capability {| table := set_entry t i e; refs := rs' |} h =
  capability {| table := t; refs := rs |} h.
Proof.
  intros Hok Hi Hh Ho Hr Hc. rewrite (capability_set t rs rs' i e h) by done.
  unfold capability, stale. destruct (decode_handle h) as [[slot g]|]; [|done]. cbn [table].
  case_if as E; [|done]. replace slot with i by lia. rewrite Hc, Hr.
  destruct (closing (entries t).[i]); [by rewrite !orb_true_r|]. by rewrite Ho.
Qed.

Lemma handle_open_spec t rs obj r rel ret knd :
  sys_ok {| table := t; refs := rs |} ->
  let '(h, t') := process_handle_open_owned_kind t obj r rel ret knd in
  spec_ok (Open obj r rel ret knd) h (capability {| table := t; refs := rs |})
    (capability {| table := t'; refs := rs |}).
Proof.
  intros Hok. unfold process_handle_open_owned_kind. case_if as E; [by left|].
  destruct (find_free t) as [i|] eqn:F; [|by left].
  apply find_free_Some in F as (Hi & Hz & _). right. apply capability_fill; simpl; [done..|lia|done].
Qed.

Lemma duplicate_spec t rs h0 r :
  sys_ok {| table := t; refs := rs |} -> is_u32 h0 -> is_u32 r ->
  let '(h, _, t') := process_handle_duplicate t h0 r in
  spec_ok (Duplicate h0 r) h (capability {| table := t; refs := rs |})
    (capability {| table := t'; refs := rs |}).
Proof.
  intros Hok Hh0 Hr. unfold process_handle_duplicate.
  destruct (decode_handle h0) as [[slot g]|] eqn:D; [|by left]. case_if as E; [by left|].
  destruct (find_free t) as [i|] eqn:F; [|by left].
  apply find_free_Some in F as (Hi & Hz & _).
  pose proof D as (_ & Hslot & _)%decode_handle_Some; [|widths; lia].
  pose proof (ok_entry _ Hok slot ltac:(lia)) as [_ _ E3]. cbn [table] in E3.
  destruct (stale t slot g) eqn:S; [done|]. pose proof (stale_false _ _ _ S) as (_ & _ & Hobj).
  set (new := if r =? 0 then rights (entries t).[slot] else r).
  right. destruct (capability_fill t rs i ((entries t).[i]<| object := object (entries t).[slot] |>
    <| rights := new |><| release := release (entries t).[slot] |>
    <| retain := retain (entries t).[slot] |><| closing := false |>
    <| inheritable := inheritable (entries t).[slot] |><| kind := kind (entries t).[slot] |>))
    as [Hn Hs]; [done..|].
  split; [done|]. exists (object (entries t).[slot]), (rights (entries t).[slot]), new.
  split_and!; [|..|exact Hs].
  - unfold capability. rewrite D. cbn [table]. by rewrite S.
  - unfold new. case_if as Er; [apply Z.land_diag|]. apply duplicate_rights_subset; [done..|lia].
  - intros Hr0. unfold new. by replace (r =? 0) with false by lia.
Qed.

Lemma handle_close_spec t rs h0 :
  sys_ok {| table := t; refs := rs |} -> is_u32 h0 ->
  let '(b, _, t') := process_handle_close t h0 in
  spec_ok (Close h0) (Z.b2z b) (capability {| table := t; refs := rs |})
    (capability {| table := t'; refs := rs |}).
Proof.
  intros Hok Hh0. unfold process_handle_close, spec_ok.
  assert (capability {| table := t; refs := rs |} h0 = None -> forall h, 0 <= h ->
    capability {| table := t; refs := rs |} h =
    if h =? h0 then None else capability {| table := t; refs := rs |} h) as Hsame.
  { intros Hn h Hh. case_if as E; [by replace h with h0 by lia|done]. }
  destruct (decode_handle h0) as [[slot g]|] eqn:D.
  2: { assert (capability {| table := t; refs := rs |} h0 = None) as Hn
         by (unfold capability; by rewrite D). rewrite Hn. auto. }
  destruct (stale t slot g) eqn:S.
  { assert (capability {| table := t; refs := rs |} h0 = None) as Hn
      by (unfold capability; rewrite D; cbn [table]; by rewrite S). rewrite Hn. auto. }
  pose proof D as (Hv & Hslot & _)%decode_handle_Some; [|widths; lia].
  split; [unfold capability; rewrite D; cbn [table]; by rewrite S|].
  intros h Hh. rewrite capability_close by (done || lia).
  destruct (decode_handle h) as [[slot' g']|] eqn:D'; [|unfold capability; rewrite D'; by case_if as E].
  pose proof D' as (Hv' & Hslot' & _)%decode_handle_Some; [|done].
  case_if as E; case_if as E'; try done; [|exfalso; congruence || lia].
  unfold capability. rewrite D'. cbn [table]. replace slot' with slot by lia.
  apply stale_false in S as (Hg & _ & _). unfold stale. rewrite Hg.
  replace (g =? g') with false by lia. done.
Qed.

(** After the closing loop no handle denotes anything, and a slot keeps its object
    only for the references that are still active. *)
Lemma close_all_spec t rs :
  sys_ok {| table := t; refs := rs |} ->
  let '(_, t') := process_handle_table_close_all t in
  (forall h, 0 <= h -> capability {| table := t'; refs := rs |} h = None) /\
  (table_retained t = 0 -> forall i, 0 <= i < 32 -> object ((entries t').[i]) = 0).
Proof.
  intros Hok. unfold process_handle_table_close_all.
  pose proof (for_z_ind (fun k '(_, t') => sys_ok {| table := t'; refs := rs |} /\
    forall i, 0 <= i < k -> closing ((entries t').[i]) = true) 0 32
    (fun i '(calls, t) => (calls ++ close_calls ((entries t).[i]), close_slot t i)) ([], t)) as H.
  unfold PROCESS_HANDLE_CAPACITY. destruct (for_z 0 32 _ _) as [calls t'].
  destruct H as [Hok' Hc]; [lia|split; [done|lia]|..].
  { clear calls t'. intros i [calls t'] Hi [Hok' Hc]. split; [by apply close_slot_ok|].
    intros j Hj. pose proof (ok_entries _ Hok') as L. simpl in L.
    change (entries (close_slot t' i)) with (entries (set_entry t' i (close_entry (entries t').[i]))).
    rewrite entries_get by lia. case_if as E; [unfold close_entry; by case_if as E'|]. apply Hc; lia. }
  split.
  - intros h Hh. unfold capability, stale.
    destruct (decode_handle h) as [[slot g]|] eqn:D; [|done].
    apply decode_handle_Some in D as (_ & Hs & _); [|done]. cbn [table].
    rewrite Hc by lia. by rewrite orb_true_r.
  - intros Hz i Hi. apply (ok_closed _ (ok_entry _ Hok' i Hi)); [by apply Hc|].
    rewrite (ok_counts _ Hok' i Hi). pose proof (count_refers_le i rs).
    pose proof (countb_bounds (refers i) rs). pose proof (ok_total _ Hok). simpl in *. lia.
Qed.

Lemma handle_step_spec x s :
  sys_ok s -> op_ok x ->
  let '(r, _, s') := step x s in spec_ok x r (capability s) (capability s').
Proof.
  destruct s as [t rs]. intros Hok Hx.
  destruct x as [obj r rel ret knd|h r|h i|h| |h req|k]; cbn [step op_ok] in Hx |- *.
  - pose proof (handle_open_spec t rs obj r rel ret knd Hok).
    by destruct (process_handle_open_owned_kind t obj r rel ret knd).
  - pose proof (duplicate_spec t rs h r Hok (proj1 Hx) (proj2 Hx)).
    by destruct (process_handle_duplicate t h r) as [[? ?] ?].
  - unfold process_handle_set_inheritable. case_if as E; [done|].
    destruct (decode_handle h) as [[slot g]|] eqn:D; [|done]. case_if as E'; [done|].
    apply decode_handle_Some in D as (_ & Hslot & _); [|widths; lia]. intros h' Hh'.
    apply capability_same; done || lia.
  - pose proof (handle_close_spec t rs h Hok Hx). by destruct (process_handle_close t h) as [[? ?] ?].
  - pose proof (close_all_spec t rs Hok) as Hc. destruct (process_handle_table_close_all t).
    exact (proj1 Hc).
  - unfold process_handle_get_retain. destruct (decode_handle h) as [[slot g]|] eqn:D; [|done].
    case_if as E; [done|]. case_if as E'; [done|].
    apply decode_handle_Some in D as (_ & Hslot & _); [|widths; lia]. intros h' Hh'.
    apply (capability_same t rs [] slot ((entries t).[slot]
      <| retained_references := u32 (retained_references (entries t).[slot] + 1) |>)); done || lia.
  - unfold process_handle_release_ref. destruct (entry (rs.[k])) as [slot|] eqn:En; [|done].
    case_if as E; [done|].
    destruct (active_ref t rs k slot Hok Hx ltac:(destruct (active _); done) En) as (_ & Hs & Hc).
    replace (_ && _) with true by lia. set (e := (entries t).[slot]<| retained_references := _ |>).
    case_if as E'; intros h' Hh'.
    + apply (capability_same t rs [] slot (e<| object := 0 |><| release := 0 |>)); try done.
      simpl in E'. simpl. destruct (closing (entries t).[slot]); done.
    + by apply (capability_same t rs [] slot e).
Qed.

(** ** Generations *)

(** The generation of a slot, counted from 0. *)
Lemma next_generation_mod g :
  1 <= g <= 65535 -> next_generation g - 1 = (g - 1 + 1) mod 65535.
Proof. intros. unfold next_generation, U16_MAX. case_if as E; [|rewrite wrap_small by (widths; lia)]; zlia. Qed.

Lemma close_slot_generation t i j :
  zlen (generations t) = 32 -> 0 <= i < 32 -> 0 <= j < 32 ->
  (generations (close_slot t i)).[j] =
  if j =? i then next_generation ((generations t).[i]) else (generations t).[j].
Proof.
  intros L Hi Hj. simpl. case_if as E; [replace j with i by lia; apply arr_get_eq; lia|].
  apply arr_get_ne; lia.
Qed.

(** An operation moves a generation by at most one. *)
Lemma step_generation x s i :
  sys_ok s -> op_ok x -> 0 <= i < 32 ->
  let g := (generations (table s)).[i] in
  let g' := (generations (table (step x s).2)).[i] in
  g' = g \/ g' = next_generation g.
Proof.
  destruct s as [t rs]. intros Hok Hx Hi. pose proof (ok_generations _ Hok) as L.
  destruct x as [obj r rel ret knd|h r|h inh|h| |h req|k]; cbn [step op_ok table] in Hx, L |- *.
  - unfold process_handle_open_owned_kind. case_if as E; [by left|].
    destruct (find_free t); by left.
  - unfold process_handle_duplicate. destruct (decode_handle h) as [[slot g]|]; [|by left].
    case_if as E; [by left|]. destruct (find_free t); by left.
  - unfold process_handle_set_inheritable. case_if as E; [by left|].
    destruct (decode_handle h) as [[slot g]|]; [|by left]. case_if as E'; by left.
  - unfold process_handle_close. destruct (decode_handle h) as [[slot g]|] eqn:D; [|by left].
    apply decode_handle_Some in D as (_ & Hslot & _); [|widths; lia].
    case_if as E; [by left|]. cbn [table snd]. rewrite close_slot_generation by lia.
    case_if as E'; [replace i with slot by lia; by right|by left].
  - unfold process_handle_table_close_all, PROCESS_HANDLE_CAPACITY.
    pose proof (for_z_ind (fun k '(_, t') => zlen (generations t') = 32 /\
      (generations t').[i] = if i <? k then next_generation ((generations t).[i])
                             else (generations t).[i]) 0 32
      (fun i '(calls, t) => (calls ++ close_calls ((entries t).[i]), close_slot t i)) ([], t)) as H.
    destruct (for_z 0 32 _ _) as [calls t']. cbn [table snd].
    right. destruct H as [_ ->]; [lia|..|by replace (i <? 32) with true by lia].
    { split; [done|]. by replace (i <? 0) with false by lia. }
    clear calls t'. intros k [calls t'] Hk [L' Hg]. split; [simpl; by rewrite zlen_set|].
    rewrite close_slot_generation by lia. case_if as E.
    + replace k with i by lia. replace (i <? i + 1) with true by lia. rewrite Hg.
      by replace (i <? k) with false by lia.
    + rewrite Hg. by replace (i <? k + 1) with (i <? k) by lia.
  - unfold process_handle_get_retain. destruct (decode_handle h) as [[slot g]|]; [|by left].
    case_if as E; [by left|]. case_if as E'; by left.
  - unfold process_handle_release_ref. destruct (entry (rs.[k])) as [slot|]; [|by left].
    case_if as E; [by left|]. case_if as E'; [|by left]. case_if as E''; by left.
Qed.

(** ** Theorems *)

Definition fresh (t : process_handle_table_t) : sys :=
  {| table := process_handle_table_initialize t; refs := [] |}.

Lemma handle_initialize_spec t :
  zlen (entries t) = 32 -> zlen (generations t) = 32 ->
  let t' := process_handle_table_initialize t in
  entries t' = replicate 32 cleared /\ generations t' = replicate 32 1 /\ table_retained t' = 0.
Proof.
  intros Le Lg t'. unfold t', process_handle_table_initialize, PROCESS_HANDLE_CAPACITY.
  pose proof (for_z_ind (fun k t' => entries t' = for_z 0 k (fun i a => a.[i <- cleared]) (entries t) /\
    generations t' = for_z 0 k (fun i a => a.[i <- 1]) (generations t)) 0 32
    (fun i t => (set_entry t i cleared)<| generations := (generations t).[i <- 1] |>) t) as H.
  destruct H as [He Hg]; [lia|by rewrite !for_z_empty by lia|..].
  { intros i t1 Hi [He Hg]. simpl. by rewrite He, Hg, !for_z_last by lia. }
  set (x := for_z 0 32 _ t) in *. clearbody x. cbn [entries generations table_retained set_field].
  rewrite He, Hg, !fill_window by lia. split_and!; [| |done]; simpl;
    by rewrite drop_ge by (unfold zlen in *; lia).
Qed.

Lemma handle_fresh_ok t :
  zlen (entries t) = 32 -> zlen (generations t) = 32 -> sys_ok (fresh t).
Proof.
  intros Le Lg. destruct (handle_initialize_spec t Le Lg) as (He & Hg & Hr).
  unfold fresh. destruct (process_handle_table_initialize t) as [es gs tr].
  cbn [entries generations table_retained] in *. subst.
  split; cbn [table refs entries generations table_retained]; try done.
  1-3: intros i Hi; rewrite (lookup_total_replicate_2 32) by lia; done.
  intros r Hr. set_solver.
Qed.

Lemma handle_run_ok ops s : sys_ok s -> Forall op_ok ops -> sys_ok (run ops s).2.
Proof.
  intros Hok Hops. revert s Hok. induction Hops as [|o ops Ho _ IH]; intros s Hok; simpl; [done|].
  pose proof (handle_step_ok o s Hok Ho) as Hs. destruct (step o s) as [[r calls] s'].
  specialize (IH s' Hs). by destruct (run ops s') as [log s''].
Qed.

Definition released (f o : Z) (log : list (op * Z * list call * sys)) : Z :=
  foldr (fun '(_, _, calls, _) n => releases f o calls + n) 0 log.
Definition stored (f o : Z) (log : list (op * Z * list call * sys)) : Z :=
  foldr (fun '(x, r, _, s) n => acquired f o x r s + n) 0 log.

Lemma run_owned f o ops s :
  sys_ok s -> Forall op_ok ops -> f <> 0 -> o <> 0 ->
  let '(log, s') := run ops s in
  released f o log + owned f o s' = owned f o s + stored f o log.
Proof.
  intros Hok Hops Hf Ho. revert s Hok. induction Hops as [|x ops Hx _ IH]; intros s Hok; simpl; [lia|].
  pose proof (handle_step_ok x s Hok Hx) as Hs. pose proof (step_owned f o x s Hok Hx Hf Ho) as Hown.
  destruct (step x s) as [[r calls] s']. specialize (IH s' Hs).
  destruct (run ops s') as [log s'']. simpl. lia.
Qed.

Lemma owned_nonneg f o s : 0 <= owned f o s.
Proof. apply countb_bounds. Qed.

Lemma fresh_owned f o t :
  zlen (entries t) = 32 -> zlen (generations t) = 32 -> o <> 0 -> owned f o (fresh t) = 0.
Proof.
  intros Le Lg Ho. destruct (handle_initialize_spec t Le Lg) as (He & _ & _).
  unfold owned, fresh. cbn [table]. rewrite He. apply countb_zero.
  intros i e [-> _]%lookup_replicate. by apply holds_empty.
Qed.

(** What closing the table leaves behind when no reference is retained. *)
Lemma close_all_owned f o s :
  sys_ok s -> o <> 0 -> table_retained (table s) = 0 -> owned f o (step CloseAll s).2 = 0.
Proof.
  destruct s as [t rs]. intros Hok Ho Hz. cbn [step]. pose proof (close_all_spec t rs Hok) as Hc.
  pose proof (close_all_ok t rs Hok) as Hok'.
  destruct (process_handle_table_close_all t) as [calls t']. destruct Hc as [_ Hc].
  unfold owned. cbn [table snd]. apply countb_zero. intros i e Hi.
  pose proof (ok_entries _ Hok') as L. cbn [table snd] in L. pose proof (lookup_lt_Some _ _ _ Hi).
  apply holds_empty; [done|]. rewrite <- (Hc Hz (Z.of_nat i)) by (unfold zlen in L; lia).
  rewrite Nat2Z.id. by rewrite (list_lookup_total_correct _ _ _ Hi).
Qed.

(** C24. The handle table neither leaks nor releases twice.  For every release function
    and object, the number of release calls never exceeds the number of times the
    object was stored, the difference is what the slots still hold, and when the table
    is closed while no reference is retained, every stored object has been released
    exactly once. *)
Theorem handle_release_once t ops f o :
  zlen (entries t) = 32 -> zlen (generations t) = 32 -> Forall op_ok ops -> f <> 0 -> o <> 0 ->
  let '(log, s) := run ops (fresh t) in
  released f o log + owned f o s = stored f o log /\
  (process_handle_table_has_retained (table s) = false ->
   released f o log + releases f o (process_handle_table_close_all (table s)).1 = stored f o log).
Proof.
  intros Le Lg Hops Hf Ho. pose proof (handle_fresh_ok t Le Lg) as Hok.
  pose proof (run_owned f o ops (fresh t) Hok Hops Hf Ho) as Hrun.
  pose proof (handle_run_ok ops (fresh t) Hok Hops) as Hok'. rewrite fresh_owned in Hrun by done.
  destruct (run ops (fresh t)) as [log s]. split; [lia|]. intros Hr.
  pose proof (step_owned f o CloseAll s Hok' I Hf Ho) as Hs.
  pose proof (close_all_owned f o s Hok' Ho) as Hz. destruct s as [t' rs]. cbn [step table] in *.
  unfold process_handle_table_has_retained in Hr.
  destruct (process_handle_table_close_all t') as [calls t'']. cbn [fst snd acquired] in *.
  rewrite Hz in Hs by lia. lia.
Qed.

(** The behaviours of the abstract table: operations with their results. *)
Inductive spec_run : list op -> list Z -> (Z -> option (Z * Z)) -> (Z -> option (Z * Z)) -> Prop :=
  | spec_nil m : spec_run [] [] m m
  | spec_cons x ops r rs m m' m'' :
      spec_ok x r m m' -> spec_run ops rs m' m'' -> spec_run (x :: ops) (r :: rs) m m''.

Definition results (log : list (op * Z * list call * sys)) : list Z := (fun '(_, r, _, _) => r) <$> log.

Lemma run_refines ops s :
  sys_ok s -> Forall op_ok ops ->
  let '(log, s') := run ops s in spec_run ops (results log) (capability s) (capability s').
Proof.
  intros Hok Hops. revert s Hok. induction Hops as [|x ops Hx _ IH]; intros s Hok; simpl; [constructor|].
  pose proof (handle_step_ok x s Hok Hx) as Hs. pose proof (handle_step_spec x s Hok Hx) as Hspec.
  destruct (step x s) as [[r calls] s']. specialize (IH s' Hs).
  destruct (run ops s') as [log s'']. by econstructor.
Qed.


(** C29. While a reference is active its object stays in its slot, and the counters of the
    table are the numbers of active references: in every state that the operations
    reach. *)
Theorem handle_references_held t ops :
  zlen (entries t) = 32 -> zlen (generations t) = 32 -> Forall op_ok ops ->
  sys_ok (run ops (fresh t)).2.
Proof. intros. apply handle_run_ok; [by apply handle_fresh_ok|done]. Qed.

(** The distance a generation moves in a run. *)
Lemma run_generation ops s i :
  sys_ok s -> Forall op_ok ops -> 0 <= i < 32 ->
  exists k, 0 <= k <= zlen ops /\
    (generations (table (run ops s).2)).[i] - 1 = ((generations (table s)).[i] - 1 + k) mod 65535.
Proof.
  intros Hok Hops Hi. revert s Hok. induction Hops as [|x ops Hx _ IH]; intros s Hok; simpl.
  - exists 0. pose proof (ok_generation _ Hok i Hi). split; [done|]. rewrite Z.mod_small; lia.
  - pose proof (handle_step_ok x s Hok Hx) as Hs. pose proof (step_generation x s i Hok Hx Hi) as Hg.
    cbv zeta in Hg. destruct (step x s) as [[r calls] s']. cbn [snd] in *.
    destruct (IH s' Hs) as (k & Hk & Heq). destruct (run ops s') as [log s'']. cbn [snd] in *.
    pose proof (ok_generation _ Hok i Hi) as Hr. rewrite Heq. unfold zlen in *. simpl length.
    destruct Hg as [-> | ->]; [exists k; split; [lia|done]|].
    exists (k + 1). split; [lia|]. rewrite next_generation_mod by done.
    rewrite Zplus_mod_idemp_l. f_equal. lia.
Qed.

(** A closed handle stays dead: whatever the next 65533 operations are, it denotes
    nothing after them. *)
Theorem handle_not_revived s h ops :
  sys_ok s -> is_u32 h -> Forall op_ok ops -> zlen ops <= 65533 ->
  let '(r, _, s') := step (Close h) s in
  r = 1 -> capability (run ops s').2 h = None.
Proof.
  intros Hok Hh Hops Hlen. pose proof (handle_step_ok (Close h) s Hok Hh) as Hok'.
  destruct s as [t rs]. cbn [step] in *. unfold process_handle_close in *.
  destruct (decode_handle h) as [[slot g]|] eqn:D; [|done].
  pose proof D as (_ & Hs & Hg)%decode_handle_Some; [|widths; lia].
  destruct (stale t slot g) eqn:S; [done|]. intros _. cbn [snd] in Hok'.
  apply stale_false in S as (Hgen & _ & _). pose proof (ok_generations _ Hok) as L. cbn [table] in L.
  destruct (run_generation ops _ slot Hok' Hops ltac:(lia)) as (k & Hk & Heq). cbn [table] in Heq.
  rewrite close_slot_generation, Z.eqb_refl, Hgen, next_generation_mod, Zplus_mod_idemp_l in Heq by lia.
  unfold capability, stale. rewrite D.
  set (g' := (generations (table (run ops _).2)).[slot]) in *.
  assert (g' <> g) by (intros ->; zlia).
  by replace (g' =? g) with false by lia.
Qed.

(** C34. When only the last slot is free, an open succeeds and stores the object, but its
    handle does not name the slot: it gives no access and cannot be closed. *)
Theorem handle_last_slot_unusable t rs obj r rel ret knd :
  sys_ok {| table := t; refs := rs |} ->
  (forall i, 0 <= i < 31 -> object ((entries t).[i]) <> 0) -> object ((entries t).[31]) = 0 ->
  obj <> 0 -> 1 <= r <= 7 -> 0 <= knd <= 2 ->
  let '(h, t') := process_handle_open_owned_kind t obj r rel ret knd in
  h <> 0 /\ object ((entries t').[31]) = obj /\
  (forall required, process_handle_get t' h required = 0) /\
  process_handle_close t' h = (false, [], t').
Proof.
  intros Hok Hfull Hfree Hobj Hr Hk. unfold process_handle_open_owned_kind.
  assert (unknown_rights r = false) as Hu.
  { assert (r = 1 \/ r = 2 \/ r = 3 \/ r = 4 \/ r = 5 \/ r = 6 \/ r = 7) as Hv by lia.
    by destruct Hv as [->|[->|[->|[->|[->|[->| ->]]]]]]. }
  rewrite Hu. unfold PROCESS_HANDLE_OBJECT_PIPE_WRITE. replace (_ || _) with false by lia.
  assert (find_free t = Some 31) as ->.
  { apply find_z_Some. split; [done|]. split; [by apply Z.eqb_eq|].
    intros j Hj. apply Z.eqb_neq. by apply Hfull. }
  pose proof (ok_generation _ Hok 31 ltac:(lia)) as Hg. cbn [table] in Hg.
  destruct (decode_own_handle 31 _ ltac:(lia) Hg) as [D _].
  split; [apply make_handle_nonzero; lia|]. split.
  { rewrite entries_get; [done|exact (ok_entries _ Hok)|lia..]. }
  unfold process_handle_get, process_handle_close. rewrite D. done.
Qed.

(** The entry of the child for an entry of the parent. *)
Definition child_entry (e : process_handle_t) : process_handle_t :=
  if inherited e then e<| retained_references := 0 |><| closing := false |> else cleared.

Lemma inherit_loop source d n :
  zlen (entries d) = 32 -> (forall i, 0 <= i < 32 -> (entries d).[i] = cleared) -> 0 <= n <= 32 ->
  let '(calls, d') := for_z 0 n (fun i '(calls, d) =>
    let s := (entries source).[i] in
    if negb (inherited s) then (calls, d)
    else
      (calls ++ [Retain (retain s) (object s)],
       set_entry d i ((entries d).[i]<| object := object s |><| rights := rights s |>
         <| release := release s |><| retain := retain s |><| retained_references := 0 |>
         <| closing := false |><| inheritable := inheritable s |><| kind := kind s |>)))
    ([], d) in
  zlen (entries d') = 32 /\ generations d' = generations d /\ table_retained d' = table_retained d /\
  calls = (fun e => Retain (retain e) (object e)) <$>
            filter (fun e => inherited e = true) ((fun i => (entries source).[i]) <$> seqZ 0 n) /\
  forall i, 0 <= i < 32 ->
    (entries d').[i] = if i <? n then child_entry ((entries source).[i]) else cleared.
Proof.
  intros L Hd Hn.
  apply (for_z_ind (fun k '(calls, d') => zlen (entries d') = 32 /\ generations d' = generations d /\
    table_retained d' = table_retained d /\
    calls = (fun e => Retain (retain e) (object e)) <$>
            filter (fun e => inherited e = true) ((fun i => (entries source).[i]) <$> seqZ 0 k) /\
    forall i, 0 <= i < 32 ->
      (entries d').[i] = if i <? k then child_entry ((entries source).[i]) else cleared)); [lia|..].
  { split_and!; try done. intros i Hi. replace (i <? 0) with false by lia. auto. }
  intros k [calls d'] Hk (L' & Hg & Hr & Hc & He). cbv zeta.
  rewrite seqZ_snoc, Z.add_0_l, fmap_app, filter_app, fmap_app by lia. simpl.
  unfold child_entry in *. destruct (inherited (entries source).[k]) eqn:Ei; cbn [negb].
  - rewrite filter_cons_True by done. split_and!; [simpl; by rewrite zlen_set|done..|by rewrite Hc|].
    intros i Hi. rewrite entries_get by lia. case_if as E.
    + replace i with k by lia. replace (k <? k + 1) with true by lia. rewrite Ei. unfold inherited in Ei.
      destruct ((entries source).[k]) as [? ? ? ? ? ? [] ?]; [done|]. simpl in Ei. lia.
    + rewrite He by lia. by replace (i <? k + 1) with (i <? k) by lia.
  - rewrite filter_cons_False by congruence. rewrite app_nil_r. split_and!; try done.
    intros i Hi. rewrite He by lia. destruct (decide (i = k)) as [->|].
    + replace (k <? k) with false by lia. replace (k <? k + 1) with true by lia. by rewrite Ei.
    + by replace (i <? k + 1) with (i <? k) by lia.
Qed.

(** Inheritance into a fresh table: it fails, without effect, when an inheritable
    object cannot be retained; otherwise every inheritable object is retained once
    and the child's handle of the slot denotes it with the same rights, while the
    other handles denote nothing. *)
Theorem handle_inherit_spec td t rs :
  zlen (entries td) = 32 -> zlen (generations td) = 32 -> sys_ok {| table := t; refs := rs |} ->
  let d := process_handle_table_initialize td in
  let '(ok, calls, d') := process_handle_table_inherit d t in
  if ok then
    calls = (fun e => Retain (retain e) (object e)) <$>
              filter (fun e => inherited e = true) (entries t) /\
    sys_ok {| table := d'; refs := [] |} /\
    forall i, 0 <= i < 31 ->
      capability {| table := d'; refs := [] |} (make_handle i 1) =
      if inherited ((entries t).[i]) then Some (object ((entries t).[i]), rights ((entries t).[i]))
      else None
  else calls = [] /\ d' = d /\
    exists i, 0 <= i < 32 /\ inherited ((entries t).[i]) = true /\ retain ((entries t).[i]) = 0.
Proof.
  intros Le Lg Hok d. destruct (handle_initialize_spec td Le Lg) as (He & Hg & Hr). fold d in He, Hg, Hr.
  assert (forall i, 0 <= i < 32 -> (entries d).[i] = cleared) as Hd.
  { intros i Hi. by rewrite He, (lookup_total_replicate_2 32) by lia. }
  clearbody d. unfold process_handle_table_inherit, PROCESS_HANDLE_CAPACITY.
  destruct (find_z 0 32 _) as [i|] eqn:F.
  { apply find_z_Some in F as (Hi & Hp & _). cbv beta in Hp. rewrite Hd in Hp by done.
    cbn [object cleared] in Hp. split_and!; [done..|]. exists i.
    destruct (inherited (entries t).[i]); [split_and!; [lia..|done|lia]|done]. }
  pose proof (inherit_loop t d 32) as Hl. destruct (for_z 0 32 _ ([], d)) as [calls d'].
  destruct Hl as (L' & Hg' & Hr' & Hc & Hent); [by rewrite He|done|lia|].
  pose proof (ok_entries _ Hok) as Lt. cbn [table] in Lt.
  assert (forall i, 0 <= i < 32 -> (entries d').[i] = child_entry (entries t).[i]) as Hchild.
  { intros i Hi. rewrite Hent by done. by replace (i <? 32) with true by lia. }
  split_and!.
  - by rewrite Hc, arr_seq.
  - split; cbn [table refs]; try done; rewrite ?Hg', ?Hg; try done.
    + intros i Hi. by rewrite (lookup_total_replicate_2 32) by lia.
    + intros i Hi. rewrite Hchild by done. unfold child_entry. destruct (inherited _) eqn:Ei; [|done].
      destruct (ok_entry _ Hok i Hi) as [_ _ E3]. unfold inherited in Ei. cbn [table] in *.
      split; simpl; [lia|done|done].
    + intros i Hi. rewrite Hchild by done. unfold child_entry. by destruct (inherited _).
    + by rewrite Hr'.
    + intros r Hin. set_solver.
  - intros i Hi. unfold capability, stale. rewrite decode_make_handle by lia. cbn [table].
    rewrite Hg', Hg, (lookup_total_replicate_2 32), Hchild by lia. unfold child_entry.
    destruct (inherited (entries t).[i]) eqn:Ei; [|done]. cbn. unfold inherited in Ei.
    by replace (object (entries t).[i] =? 0) with false by lia.
Qed.

(** ** Examples *)

Definition example_handles : process_handle_table_t :=
  {| entries := replicate 32 cleared<| object := 9 |>; generations := replicate 32 0;
     table_retained := 4 |}.

(** Open object 100 with release function 7 and retain function 8, duplicate the
    handle, retain a reference, close the handle and drop the reference. *)
Definition example_use : list op :=
  [Open 100 3 7 8 0; Duplicate 33 1; GetRetain 33 2; Close 33; ReleaseRef 0].

Lemma example_use_ok : Forall op_ok example_use.
Proof. repeat constructor; vm_compute; intuition congruence. Qed.

Lemma handle_release_once_witness :
  let '(log, s) := run example_use (fresh example_handles) in
  released 7 100 log = 1 /\ owned 7 100 s = 1 /\ stored 7 100 log = 2 /\
  released 7 100 log + releases 7 100 (process_handle_table_close_all (table s)).1 = 2.
Proof.
  pose proof (handle_release_once example_handles example_use 7 100 eq_refl eq_refl example_use_ok
    ltac:(done) ltac:(done)) as H.
  destruct (run example_use (fresh example_handles)) as [log s] eqn:E.
  vm_compute in E. injection E as <- <-. split; [reflexivity|]. split; [reflexivity|].
  split; [reflexivity|]. apply H. reflexivity.
Defined.


Lemma handle_references_witness : sys_ok (run example_use (fresh example_handles)).2.
Proof. exact (handle_references_held example_handles example_use eq_refl eq_refl example_use_ok). Defined.

Lemma example_fresh_ok : sys_ok (fresh example_handles).
Proof. by apply handle_fresh_ok. Qed.

Lemma handle_not_revived_witness :
  capability (run [Open 5 1 0 0 0; Open 6 1 0 0 0]
    (step (Close 33) (run [Open 100 3 7 8 0] (fresh example_handles)).2).2).2 33 = None.
Proof.
  pose proof (handle_not_revived (run [Open 100 3 7 8 0] (fresh example_handles)).2 33
    [Open 5 1 0 0 0; Open 6 1 0 0 0]) as H.
  destruct (step (Close 33) _) as [[r calls] s'] eqn:E. apply H.
  - apply handle_run_ok; [exact example_fresh_ok|]. repeat constructor; vm_compute; intuition congruence.
  - vm_compute. intuition congruence.
  - repeat constructor; vm_compute; intuition congruence.
  - vm_compute. congruence.
  - vm_compute in E. by injection E as <- <- <-.
Defined.

(** Thirty-one handles are open. *)
Definition example_nearly_full : process_handle_table_t :=
  {| entries := replicate 31 (cleared<| object := 5 |><| rights := 1 |>) ++ [cleared];
     generations := replicate 32 1; table_retained := 0 |}.

Lemma example_nearly_full_reached :
  (run (replicate 31 (Open 5 1 0 0 0)) (fresh example_handles)).2 =
  {| table := example_nearly_full; refs := [] |}.
Proof. vm_compute. reflexivity. Qed.

Lemma handle_last_slot_witness :
  let '(h, t') := process_handle_open_owned_kind example_nearly_full 77 1 7 8 0 in
  h <> 0 /\ object ((entries t').[31]) = 77 /\ process_handle_get t' h 1 = 0 /\
  process_handle_close t' h = (false, [], t').
Proof.
  pose proof (handle_last_slot_unusable example_nearly_full [] 77 1 7 8 0) as H.
  destruct (process_handle_open_owned_kind _ 77 1 7 8 0) as [h t'].
  destruct H as (H1 & H2 & H3 & H4); [..|by split_and!]; try done.
  - rewrite <- example_nearly_full_reached. apply handle_run_ok; [exact example_fresh_ok|].
    apply Forall_replicate. vm_compute. intuition congruence.
  - intros i Hi. unfold example_nearly_full. cbn [entries].
    rewrite lookup_total_app_l by (rewrite length_replicate; lia).
    by rewrite lookup_total_replicate_2 by lia.
Defined.

Lemma handle_inherit_witness :
  let '(ok, calls, d') := process_handle_table_inherit
    (process_handle_table_initialize example_handles) (table (run example_use (fresh example_handles)).2) in
  ok = true /\ calls = [Retain 8 100] /\ capability {| table := d'; refs := [] |} 34 = Some (100, 1).
Proof.
  pose proof (handle_inherit_spec example_handles (table (run example_use (fresh example_handles)).2)
    (refs (run example_use (fresh example_handles)).2) eq_refl eq_refl) as H.
  cbv zeta in H. destruct (process_handle_table_inherit _ _) as [[ok calls] d'] eqn:E.
  assert (ok = true) as Hk by (apply (f_equal (fun x => x.1.1)) in E; by vm_compute in E).
  rewrite Hk in H. destruct H as (H1 & H2 & H3).
  - pose proof (handle_run_ok example_use (fresh example_handles) example_fresh_ok example_use_ok) as Hok.
    clear -Hok. by destruct (run _ _).2.
  - split; [exact Hk|]. split; [rewrite H1; reflexivity|]. exact (H3 1 ltac:(lia)).
Defined.

End Handle.
