(* ===== verification/Storage.v ===== *)
(** * Storage devices (kernel/drivers/storage/storage.c)

    The registry of the disks that the drivers found.  A driver is reached through
    function pointers, which are numbers (null is 0); what calling one does to the
    hardware is the interface [Driver].  A name is the list of the bytes from the
    pointer on, with the terminating 0 or at least 32 of them; the null pointer is
    [None].  The registry lock makes the table lookups atomic. *)

From S2P Require Import Prelude.

(** The functions behind the pointers of a driver, over the state [W] of the
    hardware.  A read returns the buffer with what the driver stored in it. *)
Class Driver (W : Type) := {
  fn_read : forall (fn lba count : Z) (buffer : list Z), W -> bool * list Z * W;
  fn_write : forall (fn lba count : Z) (buffer : list Z), W -> bool * W;
  fn_read_context : forall (fn lba count : Z) (buffer : list Z) (context : Z), W -> bool * list Z * W;
  fn_write_context : forall (fn lba count : Z) (buffer : list Z) (context : Z), W -> bool * W;
  fn_flush : forall (fn context : Z), W -> bool * W;
}.

Module Storage.

Definition STORAGE_DEVICE_CAPACITY : Z := 8.
Definition STORAGE_NAME_LIMIT : Z := 32.

Record storage_device_t := {
  name : option (list Z);
  block_size : Z;
  block_count : Z;
  read : Z;
  write : Z;
  context : Z;
  read_context : Z;
  write_context : Z;
  flush : Z;
}.
#[global] Instance storage_device_inhabited : Inhabited storage_device_t := populate
  {| name := None; block_size := 0; block_count := 0; read := 0; write := 0; context := 0;
     read_context := 0; write_context := 0; flush := 0 |}.

Record storage_t := { devices : list storage_device_t; device_count : Z }.
#[export] Instance eta_storage : Eta storage_t := fun s =>
  {| devices := devices s; device_count := device_count s |}.

Definition storage_initialize (s : storage_t) : storage_t := s<| device_count := 0 |>.

Definition same_name (left right : list Z) : bool :=
  match find_z 0 STORAGE_NAME_LIMIT (fun i => negb (left.[i] =? right.[i]) || (left.[i] =? 0)) with
  | Some i => left.[i] =? right.[i]
  | None => false
  end.

Definition valid_name (name : option (list Z)) : bool :=
  match name with
  | None => false
  | Some name =>
      if name.[0] =? 0 then false
      else match find_z 0 STORAGE_NAME_LIMIT (fun i => name.[i] =? 0) with
           | Some _ => true
           | None => false
           end
  end.

(** The bytes a name pointer points to. *)
Definition name_bytes (d : storage_device_t) : list Z := default [] (name d).

Definition storage_register (s : storage_t) (d : storage_device_t) : bool * storage_t :=
  if negb (valid_name (name d)) ||
     (((read d =? 0) || (write d =? 0)) && ((read_context d =? 0) || (write_context d =? 0))) ||
     (block_size d =? 0) || (block_count d =? 0) || (U64_MAX / block_size d <? block_count d)
  then (false, s)
  else if STORAGE_DEVICE_CAPACITY <=? device_count s then (false, s)
  else
    match find_z 0 (device_count s) (fun i =>
            same_name (name_bytes ((devices s).[i])) (name_bytes d)) with
    | Some _ => (false, s)
    | None =>
        (true, s<| devices := (devices s).[device_count s <- d] |>
                <| device_count := u32 (device_count s + 1) |>)
    end.

Definition storage_device_count (s : storage_t) : Z := device_count s.

Definition storage_device_at (s : storage_t) (index : Z) : option storage_device_t :=
  if index <? device_count s then Some ((devices s).[index]) else None.

(** The request is rejected before a driver is called. *)
Definition out_of_range (s : storage_t) (device lba count : Z) : bool :=
  (device_count s <=? device) || (count =? 0) ||
  (block_count ((devices s).[device]) <=? lba) ||
  (block_count ((devices s).[device]) - lba <? count).

Section operations.
Context {W : Type} `{Driver W}.

Definition storage_read (s : storage_t) (device lba count : Z) (buffer : list Z) (w : W)
    : bool * list Z * W :=
  if out_of_range s device lba count then (false, buffer, w)
  else
    let d := (devices s).[device] in
    if negb (read_context d =? 0) then fn_read_context (read_context d) lba count buffer (context d) w
    else fn_read (read d) lba count buffer w.

Definition storage_write (s : storage_t) (device lba count : Z) (buffer : list Z) (w : W)
    : bool * W :=
  if out_of_range s device lba count then (false, w)
  else
    let d := (devices s).[device] in
    if negb (write_context d =? 0) then fn_write_context (write_context d) lba count buffer (context d) w
    else fn_write (write d) lba count buffer w.

Definition storage_flush (s : storage_t) (device : Z) (w : W) : bool * W :=
  if (device_count s <=? device) || (flush ((devices s).[device]) =? 0) then (false, w)
  else fn_flush (flush ((devices s).[device])) (context ((devices s).[device])) w.

End operations.

(** ** Invariant *)

(** A registered device can be called for reads and for writes, and the address of
    its last byte fits in 64 bits. *)
Definition device_ok (d : storage_device_t) : Prop :=
  valid_name (name d) = true /\
  (read_context d <> 0 \/ read d <> 0) /\ (write_context d <> 0 \/ write d <> 0) /\
  0 < block_size d /\ 0 < block_count d /\ block_count d * block_size d <= U64_MAX.

Record storage_ok (s : storage_t) : Prop := {
  ok_devices : zlen (devices s) = 8;
  ok_count : 0 <= device_count s <= 8;
  ok_device : forall i, 0 <= i < device_count s -> device_ok ((devices s).[i]);
  ok_names : forall i j, 0 <= i < device_count s -> 0 <= j < device_count s -> i <> j ->
    same_name (name_bytes ((devices s).[i])) (name_bytes ((devices s).[j])) = false;
}.

Lemma same_name_sym l r : same_name l r = same_name r l.
Proof.
  unfold same_name. rewrite (find_z_ext _ _ _ (fun i => negb (r.[i] =? l.[i]) || (r.[i] =? 0))) by lia.
  destruct (find_z _ _ _); [apply Z.eqb_sym|done].
Qed.

(** The validity test of the registration decides [device_ok]. *)
Lemma device_ok_test d :
  0 <= block_size d -> 0 <= block_count d ->
  negb (valid_name (name d)) ||
     (((read d =? 0) || (write d =? 0)) && ((read_context d =? 0) || (write_context d =? 0))) ||
     (block_size d =? 0) || (block_count d =? 0) || (U64_MAX / block_size d <? block_count d) = false ->
  device_ok d.
Proof.
  intros Hs Hc Ht. unfold device_ok. assert (valid_name (name d) = true) as ->
    by (by destruct (valid_name (name d))).
  assert (block_count d <= U64_MAX / block_size d) as Hq by lia.
  pose proof (Z.mul_div_le U64_MAX (block_size d) ltac:(lia)).
  split_and!; try done; try lia. nia.
Qed.

Lemma device_ok_test_fails d :
  0 <= block_size d -> 0 <= block_count d ->
  negb (valid_name (name d)) ||
     (((read d =? 0) || (write d =? 0)) && ((read_context d =? 0) || (write_context d =? 0))) ||
     (block_size d =? 0) || (block_count d =? 0) || (U64_MAX / block_size d <? block_count d) = true ->
  valid_name (name d) = false \/
  ((read d = 0 \/ write d = 0) /\ (read_context d = 0 \/ write_context d = 0)) \/
  block_size d = 0 \/ block_count d = 0 \/ U64_MAX < block_count d * block_size d.
Proof.
  intros Hs Hc Ht. destruct (valid_name (name d)); [|by left]. right.
  destruct (decide (block_size d = 0)); [lia|].
  destruct (decide (block_count d <= U64_MAX / block_size d)); [lia|]. do 3 right.
  destruct (decide (U64_MAX < block_count d * block_size d)); [done|].
  pose proof (Z.div_le_lower_bound U64_MAX (block_size d) (block_count d) ltac:(lia) ltac:(lia)). lia.
Qed.

Lemma storage_append_ok s d :
  storage_ok s -> device_ok d -> device_count s < 8 ->
  (forall i, 0 <= i < device_count s ->
     same_name (name_bytes ((devices s).[i])) (name_bytes d) = false) ->
  storage_ok (s<| devices := (devices s).[device_count s <- d] |>
               <| device_count := device_count s + 1 |>).
Proof.
  intros [L Hc Hd Hn] Hok Hlt Hnew.
  assert (forall i, 0 <= i < device_count s + 1 ->
    (devices s).[device_count s <- d].[i] = if i =? device_count s then d else (devices s).[i]) as Hget.
  { intros i Hi. case_if as E; [replace i with (device_count s) by lia; apply arr_get_eq; lia|].
    apply arr_get_ne; lia. }
  split; simpl; [by rewrite zlen_set|lia|..].
  - intros i Hi. rewrite Hget by done. case_if as E; [done|]. apply Hd. lia.
  - intros i j Hi Hj Hij. rewrite !Hget by done. case_if as E1; case_if as E2; try lia.
    + rewrite same_name_sym. apply Hnew. lia.
    + apply Hnew. lia.
    + apply Hn; lia.
Qed.

(** Registration is refused for an invalid device, for a name that is taken and when
    the table is full; otherwise it appends the device.  The table stays well-formed:
    the names are distinct, and every device has a function for reads and one for
    writes. *)
Theorem storage_register_spec s d :
  storage_ok s -> 0 <= block_size d -> 0 <= block_count d ->
  let '(ok, s') := storage_register s d in
  storage_ok s' /\
  if ok then
    device_count s' = device_count s + 1 /\ storage_device_at s' (device_count s) = Some d /\
    (forall i, 0 <= i < device_count s -> storage_device_at s' i = storage_device_at s i)
  else s' = s /\
    (device_count s = 8 \/
     valid_name (name d) = false \/
     ((read d = 0 \/ write d = 0) /\ (read_context d = 0 \/ write_context d = 0)) \/
     block_size d = 0 \/ block_count d = 0 \/ U64_MAX < block_count d * block_size d \/
     exists i, 0 <= i < device_count s /\
       same_name (name_bytes ((devices s).[i])) (name_bytes d) = true).
Proof.
  intros Hok Hs Hc. unfold storage_register, STORAGE_DEVICE_CAPACITY. pose proof (ok_count _ Hok) as Hn.
  case_if as E.
  { split_and!; [done..|]. right. apply device_ok_test_fails in E; [tauto|done..]. }
  case_if as E'; [split_and!; [done..|]; left; lia|].
  destruct (find_z 0 (device_count s) _) as [i|] eqn:F.
  { apply find_z_Some in F as (Hi & Hp & _). split_and!; [done..|]. do 6 right. by exists i. }
  rewrite find_z_None in F. rewrite wrap_small by (widths; lia).
  pose proof (ok_devices _ Hok) as L. split; [apply storage_append_ok; [done| |lia|done]|].
  { by apply device_ok_test. }
  unfold storage_device_at. simpl. split_and!; [done|..].
  - replace (_ <? _) with true by lia. rewrite arr_get_eq by lia. done.
  - intros i Hi. replace (i <? device_count s + 1) with true by lia.
    replace (i <? device_count s) with true by lia. by rewrite arr_get_ne by lia.
Qed.

(** A request reaches the driver exactly when it lies within the device, and then
    through a function that is not null. *)
Theorem storage_request_spec {W} `{Driver W} s device lba count buffer (w : W) :
  storage_ok s -> 0 <= device -> 0 <= lba -> is_u32 count ->
  let d := (devices s).[device] in
  (storage_read s device lba count buffer w =
   if (device <? device_count s) && (0 <? count) && (lba + count <=? block_count d) then
     if read_context d =? 0 then fn_read (read d) lba count buffer w
     else fn_read_context (read_context d) lba count buffer (context d) w
   else (false, buffer, w)) /\
  (storage_write s device lba count buffer w =
   if (device <? device_count s) && (0 <? count) && (lba + count <=? block_count d) then
     if write_context d =? 0 then fn_write (write d) lba count buffer w
     else fn_write_context (write_context d) lba count buffer (context d) w
   else (false, w)) /\
  (device < device_count s ->
   (read_context d = 0 -> read d <> 0) /\ (write_context d = 0 -> write d <> 0)).
Proof.
  intros Hok Hd Hl Hc d. unfold storage_read, storage_write, out_of_range. fold d.
  assert ((device_count s <=? device) || (count =? 0) || (block_count d <=? lba) ||
    (block_count d - lba <? count) = negb ((device <? device_count s) && (0 <? count) &&
      (lba + count <=? block_count d))) as -> by (widths; lia).
  split_and!.
  - destruct (_ && _); [|done]. by destruct (read_context d =? 0).
  - destruct (_ && _); [|done]. by destruct (write_context d =? 0).
  - intros Hlt. destruct (ok_device _ Hok device ltac:(lia)) as (_ & H1 & H2 & _). fold d in H1, H2.
    intuition.
Qed.

(** ** Examples: disks in memory *)

(** The bytes of each sector of each disk; the context of a driver is its disk. *)
Definition ram : Type := Z -> Z -> Z -> Z.

Definition ram_sector (w : ram) (disk lba : Z) : list Z := w disk lba <$> seqZ 0 512.

(** A driver that moves one sector of 512 bytes. *)
#[global] Instance ram_driver : Driver ram := {
  fn_read _ _ _ buffer w := (false, buffer, w);
  fn_write _ _ _ _ w := (false, w);
  fn_read_context _ lba _ buffer context w :=
    (true, copy_bytes buffer 0 (ram_sector w context lba) 512, w);
  fn_write_context _ lba _ buffer context w :=
    (true, fun d l o => if (d =? context) && (l =? lba) then buffer.[o] else w d l o);
  fn_flush _ _ w := (true, w);
}.

Definition ram_device : storage_device_t :=
  {| name := Some [114; 97; 109; 0]; block_size := 512; block_count := 64; read := 0; write := 0;
     context := 7; read_context := 11; write_context := 12; flush := 13 |}.

Definition ram_storage : storage_t :=
  {| devices := ram_device :: replicate 7 inhabitant; device_count := 1 |}.

Definition empty_storage : storage_t := {| devices := replicate 8 inhabitant; device_count := 0 |}.

Lemma empty_storage_ok : storage_ok empty_storage.
Proof. split; [done|done|intros i Hi; simpl in Hi; lia|intros i j Hi; simpl in Hi; lia]. Qed.

Lemma ram_storage_ok : storage_ok ram_storage.
Proof.
  split; [done|done|..].
  - intros i Hi. simpl in Hi. replace i with 0 by lia. vm_compute. intuition congruence.
  - intros i j Hi Hj Hij. simpl in Hi, Hj. lia.
Qed.

Lemma storage_register_witness :
  let '(ok, s') := storage_register empty_storage ram_device in
  ok = true /\ storage_ok s' /\ storage_device_at s' 0 = Some ram_device.
Proof.
  pose proof (storage_register_spec empty_storage ram_device empty_storage_ok ltac:(done) ltac:(done)) as H.
  destruct (storage_register empty_storage ram_device) as [ok s'] eqn:E.
  assert (ok = true) as -> by (apply (f_equal fst) in E; by vm_compute in E).
  destruct H as (H1 & _ & H2 & _). done.
Defined.

Lemma storage_request_witness :
  (storage_read ram_storage 0 64 1 [] (fun _ _ _ => 0)).1.1 = false /\
  (storage_read ram_storage 0 63 1 (replicate 512 5) (fun _ _ _ => 0)).1.1 = true.
Proof.
  destruct (storage_request_spec ram_storage 0 64 1 [] (fun _ _ _ => 0) ram_storage_ok) as (H1 & _);
    [lia|lia|done|].
  destruct (storage_request_spec ram_storage 0 63 1 (replicate 512 5) (fun _ _ _ => 0) ram_storage_ok)
    as (H2 & _); [lia|lia|done|].
  rewrite H1, H2. split; reflexivity.
Defined.

End Storage.
