(* ===== verification/Block.v ===== *)
(** * Block devices (kernel/fs/block/block.c, storage_block.c)

    The file systems reach a disk through the block registry.  A block device has
    functions for reading, writing and flushing, which are numbers (null is 0); what
    calling one does is the interface [BlockIO], over the state [W] of everything
    below.  [storage_block.c] implements that interface on the storage devices of
    Storage.v, and is an instance of it here. *)

From S2P Require Import Prelude Storage.

Class BlockIO (W : Type) := {
  io_read : forall (fn context sector count : Z) (buffer : list Z), W -> bool * list Z * W;
  io_write : forall (fn context sector count : Z) (buffer : list Z), W -> bool * W;
  io_flush : forall (fn context : Z), W -> bool * W;
}.

Module Block.

Definition BLOCK_MAX_DEVICES : Z := 16.

Record block_device_t := {
  name : list Z;
  sector_count : Z;
  sector_size : Z;
  context : Z;
  read : Z;
  write : Z;
  flush : Z;
  registered : bool;
}.
#[export] Instance eta_block_device : Eta block_device_t := fun d => {|
  name := name d; sector_count := sector_count d; sector_size := sector_size d;
  context := context d; read := read d; write := write d; flush := flush d;
  registered := registered d |}.
#[export] Instance block_device_inhabited : Inhabited block_device_t := populate
  {| name := []; sector_count := 0; sector_size := 0; context := 0; read := 0; write := 0;
     flush := 0; registered := false |}.

(** The array [devices] of a [block_registry_t]. *)
Abbreviation block_registry_t := (list block_device_t).

(** The number of bytes before the terminating 0. *)
Definition name_length (name : list Z) : Z :=
  match find_first (fun c => c =? 0) name with Some i => Z.of_nat i | None => zlen name end.

(** The terminator is there. *)
Definition terminated (l : list Z) : Prop := 0 ∈ l.

Lemma name_length_unique (l : list Z) n :
  0 <= n < zlen l -> l.[n] = 0 -> (forall j, 0 <= j < n -> l.[j] <> 0) -> name_length l = n.
Proof.
  intros Hn Hz Hnz. unfold name_length.
  assert (find_first (fun c => c =? 0) l = Some (Z.to_nat n)) as ->; [|lia].
  apply find_first_Some. split.
  - exists (l.[n]). split; [by apply arr_lookup|lia].
  - intros j x Hj Hx. specialize (Hnz (Z.of_nat j) ltac:(lia)). rewrite Nat2Z.id in Hnz.
    rewrite (list_lookup_total_correct _ _ _ Hx) in Hnz. lia.
Qed.

Lemma name_length_spec (l : list Z) :
  terminated l ->
  0 <= name_length l < zlen l /\ l.[name_length l] = 0 /\
  forall j, 0 <= j < name_length l -> l.[j] <> 0.
Proof.
  intros [k Hk]%list_elem_of_lookup. unfold name_length. destruct (find_first _ l) as [i|] eqn:E.
  - pose proof (find_first_lt _ _ _ E). apply find_first_Some in E as [(x & Hx & Hp) Hj].
    rewrite Nat2Z.id. unfold zlen.
    split_and!; [lia..|rewrite (list_lookup_total_correct _ _ _ Hx); lia|].
    intros j Hlt. specialize (Hj (Z.to_nat j) (l.[j]) ltac:(lia)).
    rewrite list_lookup_lookup_total_lt in Hj by lia. specialize (Hj eq_refl). lia.
  - rewrite find_first_None in E. specialize (E k 0 Hk). done.
Qed.

Definition block_registry_initialize (r : block_registry_t) : block_registry_t :=
  for_z 0 BLOCK_MAX_DEVICES (fun i r => r.[i <- (r.[i])<| registered := false |>]) r.

(** The inner loop of the registration: the first [length] bytes agree. *)
Definition same_prefix (left right : list Z) (length : Z) : bool :=
  match find_z 0 length (fun j => negb (left.[j] =? right.[j])) with
  | Some _ => false
  | None => true
  end.

(** The slots from [i] on, [n] of them. *)
Fixpoint register_loop (n : nat) (i : Z) (r : block_registry_t) (d : block_device_t) (length : Z)
    : bool * block_registry_t :=
  match n with
  | O => (false, r)
  | S n =>
      let e := r.[i] in
      if registered e && (name_length (name e) =? length) && same_prefix (name e) (name d) length
      then (false, r)
      else if registered e then register_loop n (i + 1) r d length
      else (true, r.[i <- d<| registered := true |>])
  end.

Definition block_registry_register (r : block_registry_t) (d : block_device_t)
    : bool * block_registry_t :=
  let length := name_length (name d) in
  if (length =? 0) || (32 <=? length) || (sector_count d =? 0) || (sector_size d =? 0) ||
     (read d =? 0) || (write d =? 0)
  then (false, r)
  else register_loop (Z.to_nat BLOCK_MAX_DEVICES) 0 r d length.

Definition block_registry_at (r : block_registry_t) (index : Z) : option block_device_t :=
  if BLOCK_MAX_DEVICES <=? index then None
  else if registered (r.[index]) then Some (r.[index]) else None.

Definition valid_request (d : block_device_t) (sector count : Z) : bool :=
  negb (count =? 0) && (sector <? sector_count d) && (count <=? sector_count d - sector).

Section operations.
Context {W : Type} `{BlockIO W}.

Definition block_registry_read (r : block_registry_t) (index sector count : Z) (buffer : list Z)
    (w : W) : bool * list Z * W :=
  if BLOCK_MAX_DEVICES <=? index then (false, buffer, w)
  else
    let d := r.[index] in
    let valid := registered d && valid_request d sector count in
    let rd := if valid then read d else 0 in
    let ctx := if valid then context d else 0 in
    if negb (rd =? 0) then io_read rd ctx sector count buffer w else (false, buffer, w).

Definition block_registry_write (r : block_registry_t) (index sector count : Z) (buffer : list Z)
    (w : W) : bool * W :=
  if BLOCK_MAX_DEVICES <=? index then (false, w)
  else
    let d := r.[index] in
    let valid := registered d && valid_request d sector count in
    let wr := if valid then write d else 0 in
    let ctx := if valid then context d else 0 in
    if negb (wr =? 0) then io_write wr ctx sector count buffer w else (false, w).

Definition block_registry_flush (r : block_registry_t) (index : Z) (w : W) : bool * W :=
  if BLOCK_MAX_DEVICES <=? index then (false, w)
  else
    let d := r.[index] in
    let fl := if registered d then flush d else 0 in
    let ctx := if registered d then context d else 0 in
    if negb (fl =? 0) then io_flush fl ctx w else (false, w).

End operations.

(** ** Media

    What the layers above may rely on: behind the functions of an attached device
    there is a medium, an array of sectors.  [place] identifies the medium of a
    device.  A read or a write that fails leaves the media unchanged. *)
Class BlockMedium (W : Type) `{BlockIO W} := {
  attached : W -> block_device_t -> Prop;
  place : W -> block_device_t -> Z;
  medium : W -> Z -> Z -> list Z;
  medium_size w d sector :
    attached w d -> 0 <= sector < sector_count d ->
    zlen (medium w (place w d) sector) = sector_size d;
  medium_read w d sector buffer :
    attached w d -> 0 <= sector < sector_count d -> sector_size d <= zlen buffer ->
    let '(ok, buffer', w') := io_read (read d) (context d) sector 1 buffer w in
    (forall d', attached w d' -> attached w' d' /\ place w' d' = place w d') /\
    medium w' = medium w /\ zlen buffer' = zlen buffer /\
    (ok = true -> take (Z.to_nat (sector_size d)) buffer' = medium w (place w d) sector);
  medium_write w d sector buffer :
    attached w d -> 0 <= sector < sector_count d -> sector_size d <= zlen buffer ->
    let '(ok, w') := io_write (write d) (context d) sector 1 buffer w in
    (forall d', attached w d' -> attached w' d' /\ place w' d' = place w d') /\
    forall p s, medium w' p s =
      if ok && (p =? place w d) && (s =? sector)
      then take (Z.to_nat (sector_size d)) buffer else medium w p s;
  medium_flush w d :
    attached w d ->
    let '(_, w') := io_flush (flush d) (context d) w in
    (forall d', attached w d' -> attached w' d' /\ place w' d' = place w d') /\
    medium w' = medium w;
}.

(** ** The registry *)

(** The names of two entries are taken to be the same. *)
Definition same_device (d e : block_device_t) : bool :=
  (name_length (name e) =? name_length (name d)) &&
  same_prefix (name e) (name d) (name_length (name d)).

Definition device_valid (d : block_device_t) : bool :=
  negb ((name_length (name d) =? 0) || (32 <=? name_length (name d)) || (sector_count d =? 0) ||
        (sector_size d =? 0) || (read d =? 0) || (write d =? 0)).

(** The registered devices fill a prefix of the table, are valid and have distinct
    names. *)
Record registry_ok (r : block_registry_t) : Prop := {
  ok_slots : zlen r = 16;
  ok_prefix : forall i j, 0 <= i <= j -> j < 16 -> registered (r.[j]) = true -> registered (r.[i]) = true;
  ok_valid : forall i, 0 <= i < 16 -> registered (r.[i]) = true -> device_valid (r.[i]) = true;
  ok_distinct : forall i j, 0 <= i < 16 -> 0 <= j < 16 -> i <> j ->
    registered (r.[i]) = true -> registered (r.[j]) = true -> same_device (r.[i]) (r.[j]) = false;
}.

Lemma same_prefix_sym l k n : same_prefix l k n = same_prefix k l n.
Proof.
  unfold same_prefix. erewrite find_z_ext; [done|]. intros i _. cbv beta. by rewrite Z.eqb_sym.
Qed.

Lemma same_device_sym d e : same_device d e = same_device e d.
Proof.
  unfold same_device. destruct (name_length (name e) =? name_length (name d)) eqn:E; [|lia].
  replace (name_length (name d)) with (name_length (name e)) by lia.
  rewrite Z.eqb_refl. simpl. apply same_prefix_sym.
Qed.

(** The loop stops at the first slot that is free or has the name. *)
Lemma register_loop_spec n i r d :
  0 <= i -> i + Z.of_nat n = 16 ->
  (forall j, 0 <= j < i -> registered (r.[j]) = true /\ same_device d (r.[j]) = false) ->
  (exists k, 0 <= k < 16 /\ registered (r.[k]) = false /\
     (forall j, 0 <= j < k -> registered (r.[j]) = true /\ same_device d (r.[j]) = false) /\
     register_loop n i r d (name_length (name d)) = (true, r.[k <- d<| registered := true |>])) \/
  ((forall j, 0 <= j < 16 -> registered (r.[j]) = true) \/
     (exists j, 0 <= j < 16 /\ registered (r.[j]) = true /\ same_device d (r.[j]) = true)) /\
  register_loop n i r d (name_length (name d)) = (false, r).
Proof.
  revert i. induction n as [|n IH]; intros i Hi Hn Hpre; simpl.
  - right. split; [|done]. left. intros j Hj. apply Hpre. lia.
  - rewrite <- andb_assoc. fold (same_device d (r.[i])).
    destruct (registered (r.[i])) eqn:R; simpl.
    + destruct (same_device d (r.[i])) eqn:S.
      * right. split; [|done]. right. exists i. split_and!; [lia..|done|done].
      * apply IH; [lia..|]. intros j Hj. destruct (decide (j = i)) as [->|]; [done|]. apply Hpre. lia.
    + left. exists i. split_and!; [lia..|done|done|done].
Qed.

Lemma registry_get (r : block_registry_t) k d j :
  zlen r = 16 -> 0 <= k < 16 -> 0 <= j < 16 -> r.[k <- d].[j] = if j =? k then d else r.[j].
Proof.
  intros L Hk Hj. case_if as Ej; [replace j with k by lia; apply arr_get_eq; lia|].
  apply arr_get_ne; lia.
Qed.

Lemma registry_store_ok r d k :
  registry_ok r -> device_valid d = true -> 0 <= k < 16 -> registered (r.[k]) = false ->
  (forall j, 0 <= j < k -> registered (r.[j]) = true /\ same_device d (r.[j]) = false) ->
  registry_ok (r.[k <- d<| registered := true |>]).
Proof.
  intros [L Hpre Hval Hdis] V Hk Hfree Hbefore.
  assert (forall j, 0 <= j < 16 -> j <> k -> registered (r.[j]) = true -> j < k) as Hlt.
  { intros j Hj Hjk Rj. destruct (decide (j < k)); [done|].
    rewrite (Hpre k j) in Hfree by (lia || done). done. }
  split; [by rewrite zlen_set|..].
  - intros i j Hi Hj. rewrite !registry_get by lia. case_if as E1; case_if as E2; try done.
    + intros _. apply Hbefore. lia.
    + intros Rj. apply (Hpre i j); done || lia.
  - intros i Hi. rewrite !registry_get by lia. case_if as E1; [done|by apply Hval].
  - intros i j Hi Hj Hij. rewrite !registry_get by lia. case_if as E1; case_if as E2; try lia.
    + intros _ Rj. apply (Hbefore j). pose proof (Hlt j Hj ltac:(lia) Rj). lia.
    + intros Ri _. rewrite same_device_sym. apply (Hbefore i).
      pose proof (Hlt i Hi ltac:(lia) Ri). lia.
    + intros Ri Rj. by apply Hdis.
Qed.

Lemma registry_at_get r j :
  0 <= j < 16 -> block_registry_at r j = if registered (r.[j]) then Some (r.[j]) else None.
Proof.
  intros Hj. unfold block_registry_at, BLOCK_MAX_DEVICES. by replace (16 <=? j) with false by lia.
Qed.

Lemma register_keeps_ok r d : registry_ok r -> registry_ok (block_registry_register r d).2.
Proof.
  intros Hok. unfold block_registry_register.
  destruct (device_valid d) eqn:V; pose proof V as V'; unfold device_valid in V;
    [apply negb_true_iff in V|apply negb_false_iff in V]; rewrite V; [|done].
  destruct (register_loop_spec 16 0 r d) as [(k & Hk & Hfree & Hbefore & E)|[_ E]];
    [lia|lia|intros; lia|..]; unfold BLOCK_MAX_DEVICES; change (Z.to_nat 16) with 16%nat; rewrite E;
    [|done]. by apply registry_store_ok.
Qed.

(** Registration fails, without effect, exactly when the descriptor is invalid, the
    name is taken or the table is full; otherwise the device is stored in the first
    free slot and the other slots stay as they are. *)
Theorem block_register_spec r d :
  registry_ok r ->
  let '(ok, r') := block_registry_register r d in
  registry_ok r' /\
  if ok then
    device_valid d = true /\
    exists k, 0 <= k < 16 /\ block_registry_at r k = None /\
      block_registry_at r' k = Some (d<| registered := true |>) /\
      forall j, 0 <= j < 16 -> j <> k -> block_registry_at r' j = block_registry_at r j
  else
    r' = r /\
    (device_valid d = false \/ (forall j, 0 <= j < 16 -> block_registry_at r j <> None) \/
     exists j e, block_registry_at r j = Some e /\ same_device d e = true).
Proof.
  intros Hok. pose proof (ok_slots _ Hok) as L. pose proof (register_keeps_ok r d Hok) as Hok'.
  unfold block_registry_register in *. destruct (device_valid d) eqn:V; pose proof V as V'; unfold device_valid in V;
    [apply negb_true_iff in V|apply negb_false_iff in V]; rewrite V in *; [|by split; [|split; [|left]]].
  destruct (register_loop_spec 16 0 r d) as [(k & Hk & Hfree & Hbefore & E)|[Hc E]];
    [lia|lia|intros; lia|..]; change (Z.to_nat BLOCK_MAX_DEVICES) with 16%nat in *; rewrite E in *;
    (split; [exact Hok'|]).
  - split; [done|]. exists k.
    rewrite !registry_at_get, registry_get, Hfree, Z.eqb_refl by done.
    split_and!; [lia..|done|done|]. intros j Hj Hjk. rewrite !registry_at_get, registry_get by done.
    by replace (j =? k) with false by lia.
  - split; [done|]. right. destruct Hc as [Hfull|(j & Hj & Rj & Sj)].
    + left. intros j Hj. by rewrite registry_at_get, Hfull by done.
    + right. exists j, (r.[j]). by rewrite registry_at_get, Rj by done.
Qed.

(** ** The contents of the registered devices *)

Section contents.
Context {W : Type} `{BlockMedium W} (r : block_registry_t) (Hr : registry_ok r).

(** The devices are attached, each to a medium of its own. *)
Record media_ok (w : W) : Prop := {
  media_attached : forall k d, 0 <= k -> block_registry_at r k = Some d -> attached w d;
  media_distinct : forall k k' d d', 0 <= k -> 0 <= k' ->
    block_registry_at r k = Some d -> block_registry_at r k' = Some d' ->
    place w d = place w d' -> k = k';
}.

Definition contents (w : W) (k sector : Z) : list Z :=
  match block_registry_at r k with
  | Some d => medium w (place w d) sector
  | None => []
  end.

Lemma registry_at_Some k d :
  0 <= k -> block_registry_at r k = Some d ->
  0 <= k < 16 /\ d = r.[k] /\ registered d = true /\ device_valid d = true.
Proof.
  intros Hk. unfold block_registry_at, BLOCK_MAX_DEVICES.
  destruct (16 <=? k) eqn:E; [done|]. destruct (registered (r.[k])) eqn:R; [|done]. intros [= <-].
  split_and!; [lia..|done|done|]. apply (ok_valid _ Hr); [lia|done].
Qed.

(** Operations that keep the devices attached keep the registry's view of them. *)
Lemma media_ok_step w w' :
  media_ok w -> (forall d, attached w d -> attached w' d /\ place w' d = place w d) -> media_ok w'.
Proof.
  intros [Ha Hd] Hstep. split.
  - intros k d Hk Hat. by apply Hstep, (Ha k).
  - intros k k' d d' Hk Hk' Hat Hat'.
    rewrite (proj2 (Hstep d (Ha k d Hk Hat))), (proj2 (Hstep d' (Ha k' d' Hk' Hat'))). by apply Hd.
Qed.

Lemma contents_step w w' :
  media_ok w -> (forall d, attached w d -> attached w' d /\ place w' d = place w d) ->
  medium w' = medium w -> forall k s, 0 <= k -> contents w' k s = contents w k s.
Proof.
  intros [Ha _] Hstep Hm k s Hk. unfold contents. destruct (block_registry_at r k) as [d|] eqn:E; [|done].
  by rewrite (proj2 (Hstep d (Ha k d Hk E))), Hm.
Qed.

Lemma contents_size w k d sector :
  media_ok w -> 0 <= k -> block_registry_at r k = Some d -> 0 <= sector < sector_count d ->
  zlen (contents w k sector) = sector_size d.
Proof.
  intros Hm Hk Hat Hs. unfold contents. rewrite Hat. apply medium_size; [|done].
  by apply (media_attached _ Hm k).
Qed.

(** Reading one sector of a registered device. *)
Lemma registry_read_spec w k d sector buffer :
  media_ok w -> 0 <= k -> 0 <= sector -> block_registry_at r k = Some d -> sector_size d <= zlen buffer ->
  let '(ok, buffer', w') := block_registry_read r k sector 1 buffer w in
  media_ok w' /\ (forall k s, 0 <= k -> contents w' k s = contents w k s) /\
  (ok = true -> sector < sector_count d /\
     take (Z.to_nat (sector_size d)) buffer' = contents w k sector).
Proof.
  intros Hm Hk Hsec Hat Hbuf. destruct (registry_at_Some k d Hk Hat) as (Hk' & -> & R & V).
  unfold block_registry_read, BLOCK_MAX_DEVICES. replace (16 <=? k) with false by lia.
  rewrite R. unfold device_valid in V. unfold valid_request.
  destruct ((sector <? sector_count (r.[k])) && (1 <=? sector_count (r.[k]) - sector)) eqn:Hv;
    rewrite <- andb_assoc, Hv; cbn [negb Z.eqb andb]; [|done].
  replace (read (r.[k]) =? 0) with false by lia. cbn [negb].
  pose proof (medium_read w (r.[k]) sector buffer (media_attached _ Hm k _ Hk Hat)
    ltac:(lia) Hbuf) as Hl.
  destruct (io_read _ _ _ _ _ _) as [[ok buffer'] w']. destruct Hl as (L1 & L2 & L3 & L4).
  split; [by eapply media_ok_step|]. split; [by eapply contents_step|].
  intros Hok. split; [lia|]. unfold contents. rewrite Hat. auto.
Qed.

(** Writing one sector. *)
Lemma registry_write_spec w k d sector buffer :
  media_ok w -> 0 <= k -> 0 <= sector -> block_registry_at r k = Some d -> sector_size d <= zlen buffer ->
  let '(ok, w') := block_registry_write r k sector 1 buffer w in
  media_ok w' /\
  (forall k' s, 0 <= k' -> contents w' k' s =
     if ok && (k' =? k) && (s =? sector) then take (Z.to_nat (sector_size d)) buffer
     else contents w k' s) /\
  (ok = true -> sector < sector_count d).
Proof.
  intros Hm Hk Hsec Hat Hbuf. destruct (registry_at_Some k d Hk Hat) as (Hk' & -> & R & V).
  unfold block_registry_write, BLOCK_MAX_DEVICES. replace (16 <=? k) with false by lia.
  rewrite R. unfold device_valid in V. unfold valid_request.
  destruct ((sector <? sector_count (r.[k])) && (1 <=? sector_count (r.[k]) - sector)) eqn:Hv;
    rewrite <- andb_assoc, Hv; cbn [negb Z.eqb andb]; [|done].
  replace (write (r.[k]) =? 0) with false by lia. cbn [negb].
  pose proof (medium_write w (r.[k]) sector buffer (media_attached _ Hm k _ Hk Hat)
    ltac:(lia) Hbuf) as Hl.
  destruct (io_write _ _ _ _ _ _) as [ok w']. destruct Hl as [L1 L2].
  split; [by eapply media_ok_step|]. split; [|lia]. intros k' s Hk''. unfold contents.
  destruct (block_registry_at r k') as [d'|] eqn:E.
  - rewrite (proj2 (L1 d' (media_attached _ Hm k' d' Hk'' E))), L2.
    assert ((place w d' =? place w (r.[k])) = (k' =? k)) as ->; [|done].
    destruct (k' =? k) eqn:Ek.
    + replace k' with k in E by lia. rewrite Hat in E. injection E as <-. apply Z.eqb_refl.
    + apply Z.eqb_neq. intros Hp. apply (media_distinct _ Hm k' k) in Hp; [lia|done..].
  - destruct (k' =? k) eqn:Ek; [|by rewrite andb_false_r].
    replace k' with k in E by lia. congruence.
Qed.

Lemma registry_flush_spec w k :
  media_ok w -> 0 <= k ->
  let '(_, w') := block_registry_flush r k w in
  media_ok w' /\ forall k s, 0 <= k -> contents w' k s = contents w k s.
Proof.
  intros Hm Hk. unfold block_registry_flush. destruct (BLOCK_MAX_DEVICES <=? k) eqn:E; [done|].
  destruct (registered (r.[k])) eqn:R; [|done]. destruct (negb (flush (r.[k]) =? 0)); [|done].
  assert (block_registry_at r k = Some (r.[k])) as Hat
    by (unfold block_registry_at; by rewrite E, R).
  pose proof (medium_flush w (r.[k]) (media_attached _ Hm k _ Hk Hat)) as Hl.
  destruct (io_flush _ _ _) as [ok w']. destruct Hl as [L1 L2].
  split; [by eapply media_ok_step|by eapply contents_step].
Qed.

End contents.

(** ** Example *)

Definition example_device : block_device_t :=
  {| name := [100; 0]; sector_count := 64; sector_size := 512; context := 9; read := 1; write := 2;
     flush := 3; registered := false |}.

Lemma empty_registry_ok : registry_ok (replicate 16 inhabitant).
Proof.
  assert (forall i, 0 <= i < 16 -> registered ((replicate 16 inhabitant : block_registry_t).[i]) = false)
    as Hno by (intros i Hi; by rewrite (lookup_total_replicate_2 16) by lia).
  split; [done|..].
  - intros i j Hi Hj. by rewrite Hno by lia.
  - intros i Hi. by rewrite Hno.
  - intros i j Hi Hj Hij. by rewrite Hno.
Qed.

Lemma block_register_witness :
  let '(ok, r') := block_registry_register (replicate 16 inhabitant) example_device in
  ok = true /\ registry_ok r'.
Proof.
  pose proof (block_register_spec (replicate 16 inhabitant) example_device empty_registry_ok) as H.
  destruct (block_registry_register (replicate 16 inhabitant) example_device) as [ok r'] eqn:E.
  assert (ok = true) as -> by (apply (f_equal fst) in E; by vm_compute in E).
  split; [reflexivity|]. apply H.
Defined.

End Block.

(** ** Block devices on storage devices *)

Module StorageBlock.
Import Block.

(** The state below the block registry: the storage registry, the contexts
    ([storage_block_context_t] by address, with the storage device each one names) and
    the hardware. *)
Record stack (W : Type) := {
  storage : Storage.storage_t;
  contexts : Z -> Z;
  hardware : W;
}.
Arguments storage {W}. Arguments contexts {W}. Arguments hardware {W}.
Arguments Build_stack {W}.
#[export] Instance eta_stack W : Eta (stack W) := fun s =>
  {| storage := storage s; contexts := contexts s; hardware := hardware s |}.

(** The addresses of the three functions. *)
Definition STORAGE_BLOCK_READ : Z := 1.
Definition STORAGE_BLOCK_WRITE : Z := 2.
Definition STORAGE_BLOCK_FLUSH : Z := 3.

Section operations.
Context {W : Type} `{Driver W}.

Definition storage_block_read (opaque sector count : Z) (buffer : list Z) (s : stack W)
    : bool * list Z * stack W :=
  if opaque =? 0 then (false, buffer, s)
  else
    let '(ok, buffer, w) :=
      Storage.storage_read (storage s) (contexts s opaque) sector count buffer (hardware s) in
    (ok, buffer, s<| hardware := w |>).

Definition storage_block_write (opaque sector count : Z) (buffer : list Z) (s : stack W)
    : bool * stack W :=
  if opaque =? 0 then (false, s)
  else
    let '(ok, w) :=
      Storage.storage_write (storage s) (contexts s opaque) sector count buffer (hardware s) in
    (ok, s<| hardware := w |>).

Definition storage_block_flush (opaque : Z) (s : stack W) : bool * stack W :=
  if opaque =? 0 then (false, s)
  else
    let '(ok, w) := Storage.storage_flush (storage s) (contexts s opaque) (hardware s) in
    (ok, s<| hardware := w |>).

(** Calling through a pointer calls the function it is the address of. *)
#[export] Instance storage_block_io : BlockIO (stack W) := {
  io_read fn ctx sector count buffer s :=
    if fn =? STORAGE_BLOCK_READ then storage_block_read ctx sector count buffer s
    else (false, buffer, s);
  io_write fn ctx sector count buffer s :=
    if fn =? STORAGE_BLOCK_WRITE then storage_block_write ctx sector count buffer s else (false, s);
  io_flush fn ctx s :=
    if fn =? STORAGE_BLOCK_FLUSH then storage_block_flush ctx s else (false, s);
}.

(** Fills in the block device [b] and the context at the address [ctx]. *)
Definition storage_block_bind (b : block_device_t) (ctx : Z) (nm : list Z) (device : Z)
    (s : stack W) : option (block_device_t * stack W) :=
  if nm.[0] =? 0 then None
  else
    match Storage.storage_device_at (storage s) device with
    | None => None
    | Some source =>
        if (Storage.block_size source =? 0) || (U32_MAX <? Storage.block_size source) then None
        else
          let length := match find_z 0 31 (fun i => nm.[i] =? 0) with Some i => i | None => 31 end in
          if negb (nm.[length] =? 0) then None
          else
            Some ({| name := copy_bytes (name b) 0 nm (length + 1);
                     sector_count := Storage.block_count source;
                     sector_size := Storage.block_size source;
                     context := ctx;
                     read := STORAGE_BLOCK_READ;
                     write := STORAGE_BLOCK_WRITE;
                     flush := if negb (Storage.flush source =? 0) then STORAGE_BLOCK_FLUSH else 0;
                     registered := false |},
                  s<| contexts := fupd (contexts s) ctx device |>)
    end.

End operations.

(** ** The medium behind a bound device

    [disk w i] are the sectors of the [i]-th device of the storage table [t].  The laws
    say what the read and write functions that a driver registers do: they transfer
    one sector between the buffer and the disk of the device, or fail and leave every
    disk as it is. *)
Class DriverDisk (W : Type) `{Driver W} (t : Storage.storage_t) := {
  disk : W -> Z -> Z -> list Z;
  disk_size w i lba :
    0 <= i < Storage.device_count t -> 0 <= lba < Storage.block_count ((Storage.devices t).[i]) ->
    zlen (disk w i lba) = Storage.block_size ((Storage.devices t).[i]);
  disk_read w i lba buffer :
    0 <= i < Storage.device_count t -> 0 <= lba < Storage.block_count ((Storage.devices t).[i]) ->
    Storage.block_size ((Storage.devices t).[i]) <= zlen buffer ->
    let '(ok, buffer', w') := Storage.storage_read t i lba 1 buffer w in
    disk w' = disk w /\ zlen buffer' = zlen buffer /\
    (ok = true ->
     take (Z.to_nat (Storage.block_size ((Storage.devices t).[i]))) buffer' = disk w i lba);
  disk_write w i lba buffer :
    0 <= i < Storage.device_count t -> 0 <= lba < Storage.block_count ((Storage.devices t).[i]) ->
    Storage.block_size ((Storage.devices t).[i]) <= zlen buffer ->
    let '(ok, w') := Storage.storage_write t i lba 1 buffer w in
    forall j s, disk w' j s =
      if ok && (j =? i) && (s =? lba)
      then take (Z.to_nat (Storage.block_size ((Storage.devices t).[i]))) buffer else disk w j s;
  disk_flush w i : disk (Storage.storage_flush t i w).2 = disk w;
}.

Section medium.
Context {W : Type} `{Driver W} (t : Storage.storage_t) `{!DriverDisk W t}.

(** What [storage_block_bind] leaves. *)
Record bound (s : stack W) (d : block_device_t) : Prop := {
  bound_storage : storage s = t;
  bound_context : context d <> 0;
  bound_device : 0 <= contexts s (context d) < Storage.device_count t;
  bound_count : sector_count d = Storage.block_count ((Storage.devices t).[contexts s (context d)]);
  bound_size : sector_size d = Storage.block_size ((Storage.devices t).[contexts s (context d)]);
  bound_read : read d = STORAGE_BLOCK_READ;
  bound_write : write d = STORAGE_BLOCK_WRITE;
}.

Lemma bound_hardware s w d : bound s d -> bound (s<| hardware := w |>) d.
Proof. by intros []. Qed.

#[export] Program Instance storage_block_medium : BlockMedium (stack W) := {
  attached := bound;
  place s d := contexts s (context d);
  medium s := disk (hardware s);
}.
Next Obligation.
  intros s d sector [<- Hc Hd Hn Hs Hr Hw] Hsec. rewrite Hs. apply disk_size; [done|lia].
Qed.
Next Obligation.
  intros s d sector buffer Hb Hsec Hbuf. pose proof Hb as [Ht Hc Hd Hn Hs Hr Hw].
  unfold io_read, storage_block_io, storage_block_read. rewrite Hr, Ht. simpl.
  replace (context d =? 0) with false by lia.
  pose proof (disk_read (hardware s) (contexts s (context d)) sector buffer Hd ltac:(lia) ltac:(lia)) as Hl.
  destruct (Storage.storage_read _ _ _ _ _ _) as [[ok buffer'] w']. destruct Hl as (H1 & H2 & H3).
  split_and!; [|done|done|by rewrite Hs]. intros d' Hb'. split; [by apply bound_hardware|done].
Qed.
Next Obligation.
  intros s d sector buffer Hb Hsec Hbuf. pose proof Hb as [Ht Hc Hd Hn Hs Hr Hw].
  unfold io_write, storage_block_io, storage_block_write. rewrite Hw, Ht. simpl.
  replace (context d =? 0) with false by lia.
  pose proof (disk_write (hardware s) (contexts s (context d)) sector buffer Hd ltac:(lia) ltac:(lia)) as Hl.
  destruct (Storage.storage_write _ _ _ _ _ _) as [ok w'].
  split; [intros d' Hb'; split; [by apply bound_hardware|done]|]. simpl. by rewrite Hs.
Qed.
Next Obligation.
  intros s d Hb. pose proof Hb as [Ht Hc Hd Hn Hs Hr Hw].
  unfold io_flush, storage_block_io, storage_block_flush. rewrite Ht.
  case_if as E; [|split; [by intros|done]]. replace (context d =? 0) with false by lia.
  pose proof (disk_flush (hardware s) (contexts s (context d))) as Hl.
  destruct (Storage.storage_flush _ _ _) as [ok w'].
  split; [intros d' Hb'; split; [by apply bound_hardware|done]|done].
Qed.

(** The length the name is scanned for: it stops at the terminator or after 31 bytes. *)
Lemma bind_name_scan (nm : list Z) :
  terminated nm ->
  let n := match find_z 0 31 (fun i => nm.[i] =? 0) with Some i => i | None => 31 end in
  0 <= n <= 31 /\ (nm.[n] = 0 -> name_length nm = n) /\ (nm.[n] <> 0 -> 32 <= name_length nm).
Proof.
  intros Ht. destruct (name_length_spec nm Ht) as (N1 & N2 & N3).
  destruct (find_z 0 31 _) as [n|] eqn:F.
  - apply find_z_Some in F as (Hn & Hz & Hj).
    assert (forall j, 0 <= j < n -> nm.[j] <> 0) as Hnz by (intros j Hlt; specialize (Hj j Hlt); lia).
    split_and!; [lia..| |lia]. intros _. destruct (decide (n < zlen nm)); [by apply name_length_unique; [lia..|]|].
    exfalso. apply (Hnz (name_length nm)); [lia|done].
  - rewrite find_z_None in F. assert (forall j, 0 <= j < 31 -> nm.[j] <> 0) as Hnz.
    { intros j Hj. specialize (F j Hj). lia. }
    split_and!; [lia..| |]; intros H31.
    { destruct (decide (31 < zlen nm)); [by apply name_length_unique; [lia|..]|].
      exfalso. apply (Hnz (name_length nm)); [lia|done]. }
    destruct (decide (name_length nm <= 31)); [|lia]. exfalso.
    destruct (decide (name_length nm = 31)) as [E|]; [by rewrite E in N2|]. apply (Hnz (name_length nm)); lia.
Qed.

Lemma copied_name_length (b nm : list Z) n :
  terminated nm -> zlen b = 32 -> 0 <= n <= 31 -> name_length nm = n -> name_length (copy_bytes b 0 nm (n + 1)) = n.
Proof.
  intros Ht Hb Hn Hl. destruct (name_length_spec nm Ht) as (_ & N2 & N3). rewrite Hl in N2, N3.
  apply name_length_unique; [rewrite length_copy_bytes; lia|..].
  - rewrite copy_bytes_get by lia. replace (_ && _) with true by lia. by rewrite Z.sub_0_r.
  - intros j Hlt. rewrite copy_bytes_get by lia. replace (_ && _) with true by lia.
    rewrite Z.sub_0_r. auto.
Qed.

(** Binding a storage device gives a block device of the same name and size that is
    attached to its disk; the devices with other contexts stay attached.  It is
    refused for an empty or overlong name, a missing device and a block size beyond
    32 bits. *)
Theorem storage_block_bind_spec b ctx nm device s :
  storage s = t -> Storage.storage_ok t -> ctx <> 0 -> 0 <= device -> zlen (name b) = 32 ->
  terminated nm ->
  match storage_block_bind b ctx nm device s with
  | Some (d, s') =>
      attached s' d /\ place s' d = device /\ registered d = false /\
      name_length (name d) = name_length nm /\ 0 < name_length nm < 32 /\
      forall d', context d' <> ctx -> attached s d' -> attached s' d' /\ place s' d' = place s d'
  | None =>
      name_length nm = 0 \/ 32 <= name_length nm \/ Storage.device_count t <= device \/
      U32_MAX < Storage.block_size ((Storage.devices t).[device])
  end.
Proof.
  intros Ht Hok Hctx Hdev Hb Hnm. unfold storage_block_bind.
  pose proof (name_length_spec nm Hnm) as (N1 & _).
  case_if as E0; [left; apply name_length_unique; lia|].
  rewrite Ht. unfold Storage.storage_device_at. destruct (device <? _) eqn:Ed; [|right; right; left; lia].
  destruct (Storage.ok_device _ Hok device ltac:(lia)) as (_ & _ & _ & Hs & Hc & _).
  case_if as E1; [right; right; right; lia|]. destruct (bind_name_scan nm Hnm) as (Hn & Hz & Hnz).
  set (n := match find_z 0 31 _ with Some i => i | None => 31 end) in *. clearbody n.
  case_if as E2; [right; left; apply Hnz; lia|]. rewrite (Hz ltac:(lia)) in *.
  assert (n <> 0) by (intros ->; lia). unfold attached, place, storage_block_medium. split_and!.
  - split; simpl; unfold fupd; rewrite ?Z.eqb_refl; done || lia.
  - simpl. unfold fupd. by rewrite Z.eqb_refl.
  - done.
  - simpl. apply copied_name_length; [done..|]. apply Hz. lia.
  - lia.
  - lia.
  - intros d' Hd' [B1 B2 B3 B4 B5 B6 B7]. simpl. unfold fupd.
    split; [split; simpl; try done; unfold fupd|];
      by replace (context d' =? ctx) with false by lia.
Qed.

End medium.

(** ** Example: a disk in memory *)

Import Storage(ram, ram_sector, ram_driver, ram_device, ram_storage, ram_storage_ok).

Lemma ram_sector_len w d l : zlen (ram_sector w d l) = 512.
Proof. unfold ram_sector, zlen. by rewrite length_fmap, length_seqZ. Qed.

Lemma ram_device_0 i :
  0 <= i < Storage.device_count ram_storage -> (Storage.devices ram_storage).[i] = ram_device.
Proof. intros Hi. simpl in Hi. by replace i with 0 by lia. Qed.

#[export] Program Instance ram_disk : DriverDisk ram ram_storage := {
  disk w i lba := if i =? 0 then ram_sector w 7 lba else [];
}.
Next Obligation.
  intros w i lba Hi _. rewrite ram_device_0 by done. simpl in Hi. replace (i =? 0) with true by lia.
  apply ram_sector_len.
Qed.
Next Obligation.
  intros w i lba buffer Hi Hl Hb. rewrite ram_device_0 in * by done.
  unfold Storage.storage_read, Storage.out_of_range. rewrite ram_device_0 by done.
  cbn [Storage.block_count Storage.block_size Storage.device_count ram_device ram_storage] in *.
  replace (_ || _) with false by lia. replace (i =? 0) with true by lia.
  cbn [negb Z.eqb Storage.read_context Storage.context fn_read_context ram_driver ram_device].
  rewrite length_copy_bytes. split_and!; [done..|]. intros _.
  pose proof (ram_sector_len w 7 lba) as L. rewrite copy_bytes_spec by lia. rewrite take_0, app_nil_l.
  unfold zlen in *. rewrite take_app_le by (rewrite length_take; lia).
  rewrite take_take. apply take_ge. lia.
Qed.
Next Obligation.
  intros w i lba buffer Hi Hl Hb. rewrite ram_device_0 in * by done.
  unfold Storage.storage_write, Storage.out_of_range. rewrite ram_device_0 by done.
  cbn [Storage.block_count Storage.block_size Storage.device_count ram_device ram_storage] in *.
  replace (_ || _) with false by lia. replace i with 0 by lia.
  cbn [negb Z.eqb Storage.write_context Storage.context fn_write_context ram_driver ram_device].
  intros j s. destruct (j =? 0); [|done]. cbn [andb]. unfold ram_sector. rewrite Z.eqb_refl. cbn [andb].
  destruct (s =? lba); [|done]. change (Z.to_nat 512) with 512%nat.
  rewrite <- (arr_seq (take 512 buffer) 512) by len.
  apply list_fmap_ext. intros k o Ho%lookup_seqZ. symmetry. apply lookup_total_take_lt. lia.
Qed.
Next Obligation.
  intros w i. unfold Storage.storage_flush. by case_if as E.
Qed.

Definition ram_stack : stack ram :=
  {| storage := ram_storage; contexts := fun _ => 0; hardware := fun _ _ _ => 0 |}.

Definition blank_device : block_device_t := Block.example_device<| name := replicate 32 0 |>.

Lemma storage_block_bind_witness :
  match storage_block_bind blank_device 500 [114; 97; 109; 0] 0 ram_stack with
  | Some (d, s') => attached s' d /\ place s' d = 0 /\ name_length (name d) = 3
  | None => False
  end.
Proof.
  pose proof (storage_block_bind_spec ram_storage blank_device 500 [114; 97; 109; 0] 0 ram_stack
    eq_refl ram_storage_ok ltac:(done) ltac:(done) eq_refl) as H.
  destruct (storage_block_bind _ _ _ _ _) as [[d s']|] eqn:E; [|by vm_compute in E].
  destruct H as (H1 & H2 & _ & H3 & _); [unfold terminated; set_solver|]. by rewrite H3.
Defined.

(** The registry with that device. *)
Definition ram_block : block_device_t :=
  {| name := [114; 97; 109; 0] ++ replicate 28 0; sector_count := 64; sector_size := 512;
     context := 500; read := STORAGE_BLOCK_READ; write := STORAGE_BLOCK_WRITE;
     flush := STORAGE_BLOCK_FLUSH; registered := true |}.

Definition ram_registry : block_registry_t := ram_block :: replicate 15 inhabitant.

Lemma ram_registry_eq :
  match storage_block_bind blank_device 500 [114; 97; 109; 0] 0 ram_stack with
  | Some (d, _) => block_registry_register (replicate 16 inhabitant) d = (true, ram_registry)
  | None => False
  end.
Proof. vm_compute. reflexivity. Qed.

Lemma ram_registry_ok : registry_ok ram_registry.
Proof.
  pose proof ram_registry_eq as H. destruct (storage_block_bind _ _ _ _ _) as [[d s']|]; [|done].
  pose proof (register_keeps_ok (replicate 16 inhabitant) d empty_registry_ok) as Hok. by rewrite H in Hok.
Qed.

Lemma ram_registry_at k d : 0 <= k -> block_registry_at ram_registry k = Some d -> k = 0 /\ d = ram_block.
Proof.
  intros Hk. unfold block_registry_at. case_if as E; [done|]. unfold BLOCK_MAX_DEVICES in E.
  destruct (decide (k = 0)) as [->|]; [by intros [= <-]|].
  unfold ram_registry. rewrite (lookup_total_cons_ne_0 _ _ (Z.to_nat k)) by lia.
  by rewrite (lookup_total_replicate_2 15) by lia.
Qed.

Lemma ram_media_ok : media_ok ram_registry ram_stack.
Proof.
  split.
  - intros k d Hk [_ ->]%ram_registry_at; [|done]. split; done.
  - intros k k' d d' Hk Hk' [-> _]%ram_registry_at [-> _]%ram_registry_at; done.
Qed.

End StorageBlock.
