(* ===== verification/BlockCache.v ===== *)
(** * The block cache (kernel/fs/cache/cache.c)

    A write-through cache of sixteen sectors in front of the block registry of
    Block.v.  A registry pointer is a number; the operations get the table of the
    registry they are called with.  A read or a write takes the cache lock twice, and
    the device is accessed in between: each critical section is a definition of its
    own.  The contents of an uninitialised local array of [n] bytes are [uninit n].

    The theorems rely on the medium behind a device only through the interface
    [BlockMedium]. *)

From S2P Require Import Prelude Block.

Module BlockCache.
Import Block.

Definition BLOCK_CACHE_ENTRIES : Z := 16.
Definition BLOCK_CACHE_SECTOR_MAX : Z := 512.

Record block_cache_entry_t := {
  registry : Z;
  device : Z;
  sector : Z;
  entry_size : Z;
  age : Z;
  valid : bool;
  data : list Z;
}.
#[export] Instance eta_block_cache_entry : Eta block_cache_entry_t := fun e => {|
  registry := registry e; device := device e; sector := sector e; entry_size := entry_size e;
  age := age e; valid := valid e; data := data e |}.
#[export] Instance block_cache_entry_inhabited : Inhabited block_cache_entry_t := populate
  {| registry := 0; device := 0; sector := 0; entry_size := 0; age := 0; valid := false; data := [] |}.

Record block_cache_t := { clock : Z; entries : list block_cache_entry_t }.
#[export] Instance eta_block_cache : Eta block_cache_t := fun c =>
  {| clock := clock c; entries := entries c |}.

Definition matches (reg dev sec : Z) (e : block_cache_entry_t) : bool :=
  valid e && (registry e =? reg) && (device e =? dev) && (sector e =? sec).

Definition find_entry (c : block_cache_t) (reg dev sec : Z) : option Z :=
  find_z 0 BLOCK_CACHE_ENTRIES (fun i => matches reg dev sec ((entries c).[i])).

(** The entries from [i] on, [n] of them. *)
Fixpoint choose_loop (n : nat) (i chosen : Z) (c : block_cache_t) : Z :=
  match n with
  | O => chosen
  | S n =>
      let e := (entries c).[i] in
      if negb (valid e) then i
      else choose_loop n (i + 1) (if age e <? age ((entries c).[chosen]) then i else chosen) c
  end.

Definition choose_entry (c : block_cache_t) : Z :=
  choose_loop (Z.to_nat BLOCK_CACHE_ENTRIES) 0 0 c.

Definition block_cache_initialize (c : block_cache_t) : block_cache_t :=
  for_z 0 BLOCK_CACHE_ENTRIES (fun i c =>
    c<| entries := (entries c).[i <- ((entries c).[i])<| valid := false |>] |>) (c<| clock := 0 |>).

Section operations.
Context (uninit : Z -> list Z) {W : Type} `{BlockIO W}.

(** [entry->age = ++cache->clock; copy_bytes(buffer, entry->data, size);] *)
Definition touch (c : block_cache_t) (i : Z) : block_cache_t :=
  let c := c<| clock := u64 (clock c + 1) |> in
  c<| entries := (entries c).[i <- ((entries c).[i])<| age := clock c |>] |>.

Inductive lookup_result := Rejected | Hit (i : Z) | Miss.

(** The first critical section of a read. *)
Definition read_lookup (c : block_cache_t) (reg : Z) (r : block_registry_t) (dev sec size : Z)
    : lookup_result :=
  match block_registry_at r dev with
  | None => Rejected
  | Some descriptor =>
      if negb (sector_size descriptor =? size) then Rejected
      else match find_entry c reg dev sec with Some i => Hit i | None => Miss end
  end.

(** The second one. *)
Definition read_insert (c : block_cache_t) (reg dev sec size : Z) (fetched buffer : list Z)
    : list Z * block_cache_t :=
  let '(i, c) :=
    match find_entry c reg dev sec with
    | Some i => (i, c)
    | None =>
        let i := choose_entry c in
        let e := (entries c).[i] in
        (i, c<| entries := (entries c).[i <- e<| registry := reg |><| device := dev |>
                  <| sector := sec |><| entry_size := size |><| valid := true |>
                  <| data := copy_bytes (data e) 0 fetched size |>] |>)
    end in
  let c := touch c i in
  (copy_bytes buffer 0 (data ((entries c).[i])) size, c).

Definition block_cache_read (c : block_cache_t) (reg : Z) (r : block_registry_t) (dev sec : Z)
    (buffer : list Z) (size : Z) (w : W) : bool * list Z * block_cache_t * W :=
  if (size =? 0) || (BLOCK_CACHE_SECTOR_MAX <? size) then (false, buffer, c, w)
  else
    match read_lookup c reg r dev sec size with
    | Rejected => (false, buffer, c, w)
    | Hit i =>
        let c := touch c i in
        (true, copy_bytes buffer 0 (data ((entries c).[i])) size, c, w)
    | Miss =>
        let '(ok, fetched, w) := block_registry_read r dev sec 1 (uninit BLOCK_CACHE_SECTOR_MAX) w in
        if negb ok then (false, buffer, c, w)
        else
          let '(buffer, c) := read_insert c reg dev sec size fetched buffer in
          (true, buffer, c, w)
    end.

(** The second critical section of a write. *)
Definition write_insert (c : block_cache_t) (reg dev sec size : Z) (pending : list Z) : block_cache_t :=
  let i := match find_entry c reg dev sec with Some i => i | None => choose_entry c end in
  let c := c<| clock := u64 (clock c + 1) |> in
  let e := (entries c).[i] in
  c<| entries := (entries c).[i <- e<| registry := reg |><| device := dev |><| sector := sec |>
        <| entry_size := size |><| valid := true |><| age := clock c |>
        <| data := copy_bytes (data e) 0 pending size |>] |>.

Definition block_cache_write (c : block_cache_t) (reg : Z) (r : block_registry_t) (dev sec : Z)
    (buffer : list Z) (size : Z) (w : W) : bool * block_cache_t * W :=
  if (size =? 0) || (BLOCK_CACHE_SECTOR_MAX <? size) then (false, c, w)
  else
    let pending := copy_bytes (uninit BLOCK_CACHE_SECTOR_MAX) 0 buffer size in
    match block_registry_at r dev with
    | None => (false, c, w)
    | Some descriptor =>
        if negb (sector_size descriptor =? size) then (false, c, w)
        else
          let '(ok, w) := block_registry_write r dev sec 1 pending w in
          if negb ok then (false, c, w)
          else (true, write_insert c reg dev sec size pending, w)
    end.

Definition block_cache_flush (r : block_registry_t) (dev : Z) (w : W) : bool * W :=
  match block_registry_at r dev with
  | None => (false, w)
  | Some _ => block_registry_flush r dev w
  end.

Definition block_cache_invalidate (c : block_cache_t) (reg dev sec : Z) : block_cache_t :=
  match find_entry c reg dev sec with
  | Some i => c<| entries := (entries c).[i <- ((entries c).[i])<| valid := false |>] |>
  | None => c
  end.

Definition block_cache_invalidate_device (c : block_cache_t) (reg dev : Z) : block_cache_t :=
  for_z 0 BLOCK_CACHE_ENTRIES (fun i c =>
    let e := (entries c).[i] in
    if valid e && (registry e =? reg) && (device e =? dev)
    then c<| entries := (entries c).[i <- e<| valid := false |>] |> else c) c.

End operations.

(** ** Invariant *)

(** At most one entry for a sector. *)
Record cache_ok (c : block_cache_t) : Prop := {
  ok_entries : zlen (entries c) = 16;
  ok_data : forall i, 0 <= i < 16 -> zlen (data ((entries c).[i])) = 512;
  ok_unique : forall i j reg dev sec, 0 <= i < 16 -> 0 <= j < 16 ->
    matches reg dev sec ((entries c).[i]) = true -> matches reg dev sec ((entries c).[j]) = true -> i = j;
}.

Lemma cache_entries_get (c : block_cache_t) i e j :
  zlen (entries c) = 16 -> 0 <= i < 16 -> 0 <= j < 16 ->
  (entries c).[i <- e].[j] = if j =? i then e else (entries c).[j].
Proof.
  intros L Hi Hj. case_if as E; [replace j with i by lia; apply arr_get_eq; lia|].
  apply arr_get_ne; lia.
Qed.

Lemma find_entry_Some c reg dev sec i :
  find_entry c reg dev sec = Some i -> 0 <= i < 16 /\ matches reg dev sec ((entries c).[i]) = true.
Proof. by intros (Hi & Hm & _)%find_z_Some. Qed.

Lemma find_entry_None c reg dev sec :
  find_entry c reg dev sec = None ->
  forall i, 0 <= i < 16 -> matches reg dev sec ((entries c).[i]) = false.
Proof. unfold find_entry. rewrite find_z_None. done. Qed.

(** The victim is the first free entry, or an entry of the smallest age when none is
    free. *)
Lemma choose_loop_spec n i chosen c :
  0 <= i -> i + Z.of_nat n = 16 -> 0 <= chosen < 16 ->
  (i = 0 -> chosen = 0) -> (0 < i -> chosen < i) ->
  (forall j, 0 <= j < i -> valid ((entries c).[j]) = true /\ age ((entries c).[chosen]) <= age ((entries c).[j])) ->
  let k := choose_loop n i chosen c in
  0 <= k < 16 /\
  (valid ((entries c).[k]) = false \/
   forall j, 0 <= j < 16 ->
     valid ((entries c).[j]) = true /\ age ((entries c).[k]) <= age ((entries c).[j])).
Proof.
  revert i chosen. induction n as [|n IH]; intros i chosen Hi Hn Hc H0 Hpos Hmin; simpl.
  - split; [done|]. right. intros j Hj. apply Hmin. lia.
  - destruct (valid (entries c).[i]) eqn:V; simpl; [|split; [lia|by left]].
    apply IH; try lia; try (case_if as E; lia).
    intros j Hj. destruct (decide (j = i)) as [->|].
    + split; [done|]. case_if as E; [lia|]. lia.
    + destruct (Hmin j ltac:(lia)) as [Vj Aj]. split; [done|]. case_if as E; lia.
Qed.

Lemma choose_entry_spec c :
  0 <= choose_entry c < 16 /\
  (valid ((entries c).[choose_entry c]) = false \/
   forall j, 0 <= j < 16 ->
     valid ((entries c).[j]) = true /\
     age ((entries c).[choose_entry c]) <= age ((entries c).[j])).
Proof. apply (choose_loop_spec 16 0 0 c); lia || (intros; lia). Qed.

(** The slot a sector is stored in. *)
Definition slot_for (c : block_cache_t) (reg dev sec : Z) : Z :=
  match find_entry c reg dev sec with Some i => i | None => choose_entry c end.

Lemma slot_for_spec c reg dev sec :
  cache_ok c ->
  let i := slot_for c reg dev sec in
  0 <= i < 16 /\
  forall j, 0 <= j < 16 -> j <> i -> matches reg dev sec ((entries c).[j]) = false.
Proof.
  intros Hok. unfold slot_for. destruct (find_entry c reg dev sec) as [i|] eqn:F.
  - apply find_entry_Some in F as [Hi Hm]. split; [done|]. intros j Hj Hne.
    destruct (matches reg dev sec (entries c).[j]) eqn:E; [|done].
    exfalso. apply Hne. by apply (ok_unique _ Hok j i reg dev sec).
  - split; [apply choose_entry_spec|]. intros j Hj _. by apply (find_entry_None _ _ _ _ F).
Qed.

(** Storing an entry for a sector that no other entry holds. *)
Lemma cache_ok_set c i e ck :
  cache_ok c -> 0 <= i < 16 -> zlen (data e) = 512 ->
  (forall reg dev sec, matches reg dev sec e = true ->
     forall j, 0 <= j < 16 -> j <> i -> matches reg dev sec ((entries c).[j]) = false) ->
  cache_ok {| clock := ck; entries := (entries c).[i <- e] |}.
Proof.
  intros [L D U] Hi He Hother. split; simpl.
  - by rewrite zlen_set.
  - intros j Hj. rewrite cache_entries_get by done. case_if as E; auto.
  - intros j k reg dev sec Hj Hk. rewrite !cache_entries_get by done.
    case_if as E1; case_if as E2; try lia.
    + intros M1 M2. rewrite (Hother _ _ _ M1 k) in M2 by lia. done.
    + intros M1 M2. rewrite (Hother _ _ _ M2 j) in M1 by lia. done.
    + by apply U.
Qed.

Lemma matches_inv reg dev sec e :
  matches reg dev sec e = true -> valid e = true /\ registry e = reg /\ device e = dev /\ sector e = sec.
Proof. unfold matches. destruct (valid e); [lia|done]. Qed.

(** The entry after a store. *)
Definition stored (e : block_cache_entry_t) (reg dev sec size ag : Z) (bytes : list Z) :=
  e<| registry := reg |><| device := dev |><| sector := sec |><| entry_size := size |>
   <| valid := true |><| age := ag |><| data := copy_bytes (data e) 0 bytes size |>.

Lemma write_insert_eq c reg dev sec size bytes :
  write_insert c reg dev sec size bytes =
  let i := slot_for c reg dev sec in
  {| clock := u64 (clock c + 1);
     entries := (entries c).[i <- stored ((entries c).[i]) reg dev sec size (u64 (clock c + 1)) bytes] |}.
Proof. done. Qed.

Lemma touch_set c i e :
  zlen (entries c) = 16 -> 0 <= i < 16 ->
  touch (c<| entries := (entries c).[i <- e] |>) i =
  {| clock := u64 (clock c + 1); entries := (entries c).[i <- e<| age := u64 (clock c + 1) |>] |}.
Proof.
  intros L Hi. unfold touch. cbn [entries clock set_field].
  rewrite arr_get_eq by lia. by rewrite list_insert_insert_eq.
Qed.

(** After a miss the sector is stored in the same way as by a write. *)
Lemma read_insert_miss c reg dev sec size fetched buffer :
  cache_ok c -> find_entry c reg dev sec = None ->
  read_insert c reg dev sec size fetched buffer =
  (copy_bytes buffer 0 (copy_bytes (data ((entries c).[choose_entry c])) 0 fetched size) size,
   write_insert c reg dev sec size fetched).
Proof.
  intros Hok F. unfold read_insert. rewrite F, write_insert_eq. unfold slot_for. rewrite F.
  pose proof (ok_entries _ Hok) as L. destruct (choose_entry_spec c) as [Hi _].
  generalize (choose_entry c), Hi. clear Hi F. intros i Hi. rewrite touch_set by done.
  cbn [entries]. by rewrite arr_get_eq by lia.
Qed.

Lemma write_insert_ok c reg dev sec size bytes :
  cache_ok c -> cache_ok (write_insert c reg dev sec size bytes).
Proof.
  intros Hok. rewrite write_insert_eq. destruct (slot_for_spec c reg dev sec Hok) as [Hi Hother].
  set (i := slot_for c reg dev sec) in *. apply cache_ok_set; [done|done|..].
  - simpl. rewrite length_copy_bytes. by apply (ok_data _ Hok).
  - intros reg' dev' sec' (_ & <- & <- & <-)%matches_inv j Hj Hne. by apply Hother.
Qed.

Lemma touch_ok c i : cache_ok c -> 0 <= i < 16 -> cache_ok (touch c i).
Proof.
  intros Hok Hi. apply (cache_ok_set c i ((entries c).[i]<| age := u64 (clock c + 1) |>)); [done|done|..].
  - by apply (ok_data _ Hok i).
  - intros reg dev sec M j Hj Hne. destruct (matches reg dev sec (entries c).[j]) eqn:E; [|done].
    exfalso. apply Hne. by apply (ok_unique _ Hok j i reg dev sec).
Qed.

(** Dropping an entry. *)
Lemma drop_ok c i :
  cache_ok c -> 0 <= i < 16 ->
  cache_ok (c<| entries := (entries c).[i <- ((entries c).[i])<| valid := false |>] |>).
Proof.
  intros Hok Hi. apply (cache_ok_set c i); [done|done|by apply (ok_data _ Hok i)|done].
Qed.

Section coherence.
Context (uninit : Z -> list Z) (uninit_len : forall n, 0 <= n -> zlen (uninit n) = n).
Context {W : Type} `{BlockMedium W} (reg : Z) (r : block_registry_t) (Hr : registry_ok r).

(** What a valid entry of the registry holds is what is on the device. *)
Definition holds (w : W) (e : block_cache_entry_t) : Prop :=
  valid e = true -> registry e = reg ->
  0 <= device e /\ exists d, block_registry_at r (device e) = Some d /\
    0 <= sector e < sector_count d /\ sector_size d <= 512 /\
    take (Z.to_nat (sector_size d)) (data e) = contents r w (device e) (sector e).

Definition coherent (c : block_cache_t) (w : W) : Prop :=
  forall i, 0 <= i < 16 -> holds w ((entries c).[i]).

Lemma coherent_set c w i e ck :
  cache_ok c -> coherent c w -> 0 <= i < 16 -> holds w e ->
  coherent {| clock := ck; entries := (entries c).[i <- e] |} w.
Proof.
  intros Hok Hc Hi He j Hj. simpl. rewrite cache_entries_get by (done || apply Hok). case_if as E; auto.
Qed.

Lemma coherent_world c w w' :
  coherent c w -> (forall k s, 0 <= k -> contents r w' k s = contents r w k s) -> coherent c w'.
Proof.
  intros Hc Hw i Hi V R. destruct (Hc i Hi V R) as (Hk & d & Hd). split; [done|]. exists d.
  by rewrite Hw.
Qed.

(** A store after the device has accepted the sector. *)
Lemma coherent_store c w w' dev sec d bytes :
  cache_ok c -> coherent c w -> 0 <= dev -> 0 <= sec < sector_count d ->
  block_registry_at r dev = Some d -> 0 < sector_size d <= 512 -> sector_size d <= zlen bytes ->
  (forall k s, 0 <= k -> contents r w' k s =
     if (k =? dev) && (s =? sec) then take (Z.to_nat (sector_size d)) bytes else contents r w k s) ->
  coherent (write_insert c reg dev sec (sector_size d) bytes) w'.
Proof.
  intros Hok Hc Hdev Hsec Hat Hsz Hb Hw. rewrite write_insert_eq.
  destruct (slot_for_spec c reg dev sec Hok) as [Hi Hother].
  set (i := slot_for c reg dev sec) in *. intros j Hj. simpl.
  rewrite cache_entries_get by (done || apply Hok). case_if as E.
  - intros _ _. simpl. split; [done|]. exists d. split_and!; [done|lia..|].
    pose proof (ok_data _ Hok i Hi) as D.
    rewrite Hw, !Z.eqb_refl, copy_bytes_spec by lia. simpl. rewrite take_app_le by len.
    rewrite take_take. f_equal. lia.
  - intros V R. destruct (Hc j Hj V R) as (Hk & d' & Hd' & Hs' & Hz' & Hdata). split; [done|]. exists d'.
    split_and!; [done|lia..|]. rewrite Hw by done.
    destruct ((device (entries c).[j] =? dev) && (sector (entries c).[j] =? sec)) eqn:M; [|done].
    assert (matches reg dev sec (entries c).[j] = true) as M'.
    { unfold matches. rewrite V. simpl. lia. }
    rewrite Hother in M' by lia. done.
Qed.

(** ** Operations *)

Inductive op :=
  | Read (dev sec : Z) (buffer : list Z) (size : Z)
  | Write (dev sec : Z) (buffer : list Z) (size : Z)
  | Flush (dev : Z)
  | Invalidate (dev sec : Z)
  | InvalidateDevice (dev : Z).

(** What a read returns is the part of the buffer it was asked to fill. *)
Inductive result := Bytes (b : option (list Z)) | Done (ok : bool).

Definition op_ok (o : op) : Prop :=
  match o with
  | Read dev sec buffer size | Write dev sec buffer size =>
      0 <= dev /\ 0 <= sec /\ 0 <= size <= zlen buffer
  | Flush dev | Invalidate dev _ | InvalidateDevice dev => 0 <= dev
  end.

Definition step (o : op) (s : block_cache_t * W) : result * (block_cache_t * W) :=
  let '(c, w) := s in
  match o with
  | Read dev sec buffer size =>
      let '(ok, buffer, c, w) := block_cache_read uninit c reg r dev sec buffer size w in
      (Bytes (if ok then Some (take (Z.to_nat size) buffer) else None), (c, w))
  | Write dev sec buffer size =>
      let '(ok, c, w) := block_cache_write uninit c reg r dev sec buffer size w in
      (Done ok, (c, w))
  | Flush dev => let '(ok, w) := block_cache_flush r dev w in (Done ok, (c, w))
  | Invalidate dev sec => (Done true, (block_cache_invalidate c reg dev sec, w))
  | InvalidateDevice dev => (Done true, (block_cache_invalidate_device c reg dev, w))
  end.

(** The abstract disks: a read that succeeds returns the sector, a write that
    succeeds replaces it, and nothing else changes them. *)
Definition spec_ok (o : op) (res : result) (m m' : Z -> Z -> list Z) : Prop :=
  match o, res with
  | Read dev sec _ _, Bytes b =>
      (b = None \/ b = Some (m dev sec)) /\ forall k s, 0 <= k -> m' k s = m k s
  | Write dev sec buffer size, Done ok =>
      forall k s, 0 <= k -> m' k s =
        if ok && (k =? dev) && (s =? sec) then take (Z.to_nat size) buffer else m k s
  | (Flush _ | Invalidate _ _ | InvalidateDevice _), Done _ =>
      forall k s, 0 <= k -> m' k s = m k s
  | _, _ => False
  end.

Definition good (s : block_cache_t * W) : Prop :=
  cache_ok s.1 /\ coherent s.1 s.2 /\ media_ok r s.2.

(** The bytes handed out are the first bytes of the sector. *)
Lemma copied_out (buffer bytes : list Z) size :
  0 <= size <= zlen buffer -> size <= zlen bytes ->
  take (Z.to_nat size) (copy_bytes buffer 0 bytes size) = take (Z.to_nat size) bytes.
Proof.
  intros Hs Hb. rewrite copy_bytes_spec by lia. simpl. rewrite take_app_le by len.
  rewrite take_take. f_equal. lia.
Qed.

(** A stored sector is found again. *)
Lemma write_insert_found c g dev sec size bytes :
  cache_ok c -> 0 <= size <= 512 -> size <= zlen bytes ->
  exists k, find_entry (write_insert c g dev sec size bytes) g dev sec = Some k /\ 0 <= k < 16 /\
    take (Z.to_nat size) (data ((entries (write_insert c g dev sec size bytes)).[k])) =
    take (Z.to_nat size) bytes.
Proof.
  intros Hok Hs Hb. rewrite write_insert_eq. destruct (slot_for_spec c g dev sec Hok) as [Hk Hother].
  exists (slot_for c g dev sec). pose proof (ok_entries _ Hok) as L. cbn [entries]. split.
  - apply find_z_Some. cbn [entries]. split; [done|]. rewrite arr_get_eq by lia.
    split; [unfold matches; simpl; by rewrite !Z.eqb_refl|].
    intros j Hj. rewrite arr_get_ne by lia. apply Hother; lia.
  - split; [done|]. rewrite arr_get_eq by lia. cbn [stored data set_field]. apply copied_out.
    + rewrite (ok_data _ Hok) by done. lia.
    + lia.
Qed.

(** A read that finds its sector. *)
Lemma read_hit c w dev sec d buffer i :
  cache_ok c -> block_registry_at r dev = Some d -> 0 < sector_size d <= 512 ->
  sector_size d <= zlen buffer -> find_entry c reg dev sec = Some i ->
  step (Read dev sec buffer (sector_size d)) (c, w) =
  (Bytes (Some (take (Z.to_nat (sector_size d)) (data ((entries c).[i])))), (touch c i, w)).
Proof.
  intros Hok Hat Hsz Hb F. cbn [step]. unfold block_cache_read, read_lookup, BLOCK_CACHE_SECTOR_MAX.
  rewrite Hat, F. replace (_ || _) with false by lia. rewrite Z.eqb_refl. cbn [negb].
  apply find_entry_Some in F as [Hi _]. do 3 f_equal.
  unfold touch. cbn. rewrite arr_get_eq by (rewrite (ok_entries _ Hok); lia). cbn [data set_field].
  apply copied_out; rewrite ?(ok_data _ Hok) by done; lia.
Qed.

Lemma read_hit_step c w dev sec d buffer i :
  good (c, w) -> op_ok (Read dev sec buffer (sector_size d)) -> block_registry_at r dev = Some d ->
  0 < sector_size d <= 512 -> find_entry c reg dev sec = Some i ->
  let '(res, s') := step (Read dev sec buffer (sector_size d)) (c, w) in
  good s' /\ spec_ok (Read dev sec buffer (sector_size d)) res (contents r w) (contents r s'.2).
Proof.
  intros (Hok & Hc & Hm) (_ & _ & Hsize) Hat Hsz F. cbn [fst snd] in *.
  rewrite (read_hit c w dev sec d buffer i) by (try done; lia).
  apply find_entry_Some in F as [Hi M]. apply matches_inv in M as (V & Rg & Dv & Sc).
  destruct (Hc i Hi V Rg) as (_ & d' & Hd' & _ & _ & Hdata). rewrite Dv, Sc in *.
  rewrite Hat in Hd'. injection Hd' as <-. split; [split_and!; [by apply touch_ok| |done]|].
  - apply (coherent_set c w i ((entries c).[i]<| age := u64 (clock c + 1) |>)); try done. by apply Hc.
  - split; [|done]. right. by rewrite Hdata.
Qed.

Lemma read_miss_step c w dev sec d buffer :
  good (c, w) -> op_ok (Read dev sec buffer (sector_size d)) -> block_registry_at r dev = Some d ->
  0 < sector_size d <= 512 -> find_entry c reg dev sec = None ->
  let '(res, s') := step (Read dev sec buffer (sector_size d)) (c, w) in
  good s' /\ spec_ok (Read dev sec buffer (sector_size d)) res (contents r w) (contents r s'.2).
Proof.
  intros (Hok & Hc & Hm) (Hdev & Hsec & Hsize) Hat Hsz F. cbn [fst snd] in *.
  unfold step, block_cache_read, read_lookup, BLOCK_CACHE_SECTOR_MAX. rewrite F, Hat, Z.eqb_refl.
  replace (_ || _) with false by lia. cbn [negb].
  pose proof (registry_read_spec r Hr w dev d sec (uninit 512) Hm Hdev Hsec Hat
    ltac:(rewrite uninit_len; lia)) as Hl.
  destruct (block_registry_read r dev sec 1 (uninit 512) w) as [[ok fetched] w'].
  destruct Hl as (M' & C' & D').
  assert (coherent c w') as Hc' by (by eapply coherent_world).
  destruct ok; cbn [negb]; [|by split; [|split; [left|]]].
  destruct (D' eq_refl) as [Hcount Hdata]. rewrite read_insert_miss by done.
  pose proof (contents_size r w dev d sec Hm Hdev Hat ltac:(lia)) as Hlen.
  rewrite <- Hdata in Hlen. assert (sector_size d <= zlen fetched) as Hf.
  { unfold zlen in *. rewrite length_take in Hlen. lia. }
  split; [split_and!; [by apply write_insert_ok| |done]|].
  - apply (coherent_store c w w' dev sec d fetched); try done; try lia.
    intros k s Hk. rewrite C' by done. case_if as E; [|done].
    replace k with dev by lia. replace s with sec by lia. done.
  - split; [|done]. right. rewrite !copied_out;
      rewrite ?length_copy_bytes, ?(ok_data _ Hok) by apply choose_entry_spec; try lia.
    by rewrite <- Hdata.
Qed.

Lemma read_step c w dev sec buffer size :
  good (c, w) -> op_ok (Read dev sec buffer size) ->
  let '(res, s') := step (Read dev sec buffer size) (c, w) in
  good s' /\ spec_ok (Read dev sec buffer size) res (contents r w) (contents r s'.2).
Proof.
  intros Hg Ho. destruct (block_registry_at r dev) as [d|] eqn:Hat;
    [destruct (decide (sector_size d = size /\ 0 < size <= 512)) as [[<- Hsz]|Hno]|].
  - destruct (find_entry c reg dev sec) as [i|] eqn:F;
      [by apply (read_hit_step c w dev sec d buffer i)|by apply (read_miss_step c w dev sec d buffer)].
  - unfold step, block_cache_read. case_if as E0; [by split; [|split; [left|]]|].
    unfold read_lookup, BLOCK_CACHE_SECTOR_MAX in *. rewrite Hat.
    destruct Ho as (_ & _ & Hs). replace (sector_size d =? size) with false by lia.
    by split; [|split; [left|]].
  - unfold step, block_cache_read. case_if as E0; [by split; [|split; [left|]]|].
    unfold read_lookup. rewrite Hat. by split; [|split; [left|]].
Qed.

Lemma write_step c w dev sec buffer size :
  good (c, w) -> op_ok (Write dev sec buffer size) ->
  let '(res, s') := step (Write dev sec buffer size) (c, w) in
  good s' /\ spec_ok (Write dev sec buffer size) res (contents r w) (contents r s'.2).
Proof.
  intros (Hok & Hc & Hm) (Hdev & Hsec & Hsize). cbn [fst snd] in *. unfold step, block_cache_write.
  case_if as E0; [done|]. unfold BLOCK_CACHE_SECTOR_MAX in *.
  destruct (block_registry_at r dev) as [d|] eqn:Hat; [|done].
  destruct (sector_size d =? size) eqn:Esz; [|done]. assert (sector_size d = size) as Hsz by lia.
  cbn [negb]. pose proof (uninit_len 512 ltac:(lia)) as Lu.
  set (pending := copy_bytes (uninit 512) 0 buffer size).
  assert (zlen pending = 512) as Lp by (unfold pending; by rewrite length_copy_bytes).
  assert (take (Z.to_nat size) pending = take (Z.to_nat size) buffer) as Hp
    by (apply copied_out; lia).
  pose proof (registry_write_spec r Hr w dev d sec pending Hm Hdev Hsec Hat ltac:(lia)) as Hl.
  destruct (block_registry_write r dev sec 1 pending w) as [ok w']. destruct Hl as (M' & C' & D').
  rewrite Hsz, Hp in C'. destruct ok; cbn [negb].
  - split; [split_and!; [by apply write_insert_ok| |done]|exact C'].
    rewrite <- Hsz. specialize (D' eq_refl).
    apply (coherent_store c w w' dev sec d pending); try done; try lia.
    intros k s Hk. rewrite C' by done. by rewrite Hsz, Hp.
  - split; [split_and!; [done| |done]|exact C']. eapply coherent_world; [exact Hc|].
    intros k s Hk. by rewrite C'.
Qed.

(** The entry after its device has been invalidated. *)
Definition dropped (dev : Z) (e : block_cache_entry_t) : block_cache_entry_t :=
  if valid e && (registry e =? reg) && (device e =? dev) then e<| valid := false |> else e.

Lemma dropped_holds w dev e : holds w e -> holds w (dropped dev e).
Proof. intros He. unfold dropped. by case_if as E. Qed.

Lemma invalidate_loop c w dev n :
  cache_ok c -> coherent c w -> 0 <= n <= 16 ->
  let c' := for_z 0 n (fun i c =>
    let e := (entries c).[i] in
    if valid e && (registry e =? reg) && (device e =? dev)
    then c<| entries := (entries c).[i <- e<| valid := false |>] |> else c) c in
  cache_ok c' /\ coherent c' w /\
  forall i, 0 <= i < 16 ->
    (entries c').[i] = if i <? n then dropped dev ((entries c).[i]) else (entries c).[i].
Proof.
  intros Hok Hc Hn. apply (for_z_ind (fun n c' => cache_ok c' /\ coherent c' w /\
    forall i, 0 <= i < 16 ->
      (entries c').[i] = if i <? n then dropped dev ((entries c).[i]) else (entries c).[i])); [lia|..].
  { split_and!; [done..|]. intros i Hi. by replace (i <? 0) with false by lia. }
  intros k c' Hk (Hok' & Hc' & Hget). cbv zeta. pose proof (Hget k ltac:(lia)) as Hke.
  replace (k <? k) with false in Hke by lia.
  assert ((if valid (entries c').[k] && (registry (entries c').[k] =? reg) &&
             (device (entries c').[k] =? dev)
           then c'<| entries := (entries c').[k <- ((entries c').[k])<| valid := false |>] |> else c') =
    {| clock := clock c'; entries := (entries c').[k <- dropped dev (entries c').[k]] |}) as ->.
  { unfold dropped. destruct (_ && _); [done|]. rewrite arr_set_get. by destruct c'. }
  split_and!.
  - apply cache_ok_set; [done|lia|..].
    + unfold dropped. case_if as E; apply (ok_data _ Hok' k ltac:(lia)).
    + unfold dropped. case_if as E; [done|]. intros g d s M j Hj Hne.
      destruct (matches g d s (entries c').[j]) eqn:M'; [|done].
      exfalso. apply Hne. apply (ok_unique _ Hok' j k g d s); done || lia.
  - apply coherent_set; [done|done|lia|]. apply dropped_holds, Hc'. lia.
  - intros i Hi. cbn [entries]. rewrite cache_entries_get by (apply Hok' || lia). case_if as E.
    + replace i with k by lia. rewrite Hke. by replace (k <? k + 1) with true by lia.
    + rewrite Hget by done. by replace (i <? k + 1) with (i <? k) by lia.
Qed.

Lemma cache_step o s :
  good s -> op_ok o ->
  let '(res, s') := step o s in good s' /\ spec_ok o res (contents r s.2) (contents r s'.2).
Proof.
  destruct s as [c w]. intros Hg Ho. destruct o as [dev sec buffer size|dev sec buffer size|dev|dev sec|dev].
  - by apply read_step.
  - by apply write_step.
  - destruct Hg as (Hok & Hc & Hm). cbn [fst snd] in *. simpl. unfold block_cache_flush.
    destruct (block_registry_at r dev); [|done].
    pose proof (registry_flush_spec r w dev Hm Ho) as Hl.
    destruct (block_registry_flush r dev w) as [ok w']. destruct Hl as [M' C'].
    split; [split_and!; [done| |done]|done]. by eapply coherent_world.
  - destruct Hg as (Hok & Hc & Hm). cbn [fst snd step] in *. split; [|done].
    unfold block_cache_invalidate. destruct (find_entry c reg dev sec) as [i|] eqn:F; [|done].
    apply find_entry_Some in F as [Hi _]. split_and!; [by apply drop_ok| |done].
    by apply (coherent_set c w i ((entries c).[i]<| valid := false |>)).
  - destruct Hg as (Hok & Hc & Hm). cbn [fst snd step] in *.
    destruct (invalidate_loop c w dev 16 Hok Hc ltac:(lia)) as (H1 & H2 & _). done.
Qed.

Fixpoint run (ops : list op) (s : block_cache_t * W) : list result * (block_cache_t * W) :=
  match ops with
  | [] => ([], s)
  | o :: ops =>
      let '(res, s) := step o s in
      let '(results, s) := run ops s in
      (res :: results, s)
  end.

Inductive spec_run : list op -> list result -> (Z -> Z -> list Z) -> (Z -> Z -> list Z) -> Prop :=
  | spec_nil m : spec_run [] [] m m
  | spec_cons o ops res results m m' m'' :
      spec_ok o res m m' -> spec_run ops results m' m'' ->
      spec_run (o :: ops) (res :: results) m m''.

Lemma cache_initialize_spec c :
  zlen (entries c) = 16 -> (forall i, 0 <= i < 16 -> zlen (data ((entries c).[i])) = 512) ->
  let c' := block_cache_initialize c in
  zlen (entries c') = 16 /\ (forall i, 0 <= i < 16 -> zlen (data ((entries c').[i])) = 512) /\
  forall i, 0 <= i < 16 -> valid ((entries c').[i]) = false.
Proof.
  intros L D. unfold block_cache_initialize. change BLOCK_CACHE_ENTRIES with 16.
  apply (for_z_ind (fun n c' => zlen (entries c') = 16 /\
    (forall i, 0 <= i < 16 -> zlen (data ((entries c').[i])) = 512) /\
    forall i, 0 <= i < n -> valid ((entries c').[i]) = false)); [lia|split_and!; [done..|lia]|].
  intros i c' Hi (L1 & D1 & V1). cbn [entries set_field]. split_and!; [by rewrite zlen_set|..].
  - intros j Hj. rewrite cache_entries_get by lia. case_if as E; [by apply (D1 i)|auto].
  - intros j Hj. rewrite cache_entries_get by lia. case_if as E; [done|]. apply V1. lia.
Qed.

Lemma initialize_good c w :
  zlen (entries c) = 16 -> (forall i, 0 <= i < 16 -> zlen (data ((entries c).[i])) = 512) ->
  media_ok r w -> good (block_cache_initialize c, w).
Proof.
  intros L D Hm. destruct (cache_initialize_spec c L D) as (L' & D' & V').
  generalize dependent (block_cache_initialize c). intros c' L' D' V'.
  split_and!; [split; [done|done|]|..|done].
  - intros i j g d s Hi Hj (Vi & _)%matches_inv. cbn [fst]. rewrite V' in Vi by done. done.
  - intros i Hi Vi. cbn [fst] in Vi. rewrite V' in Vi by done. done.
Qed.


(** ** Replacement *)

(** Reads, writes and flushes do not drop entries. *)
Definition access (o : op) : bool :=
  match o with Read _ _ _ _ | Write _ _ _ _ | Flush _ => true | _ => false end.

(** An access leaves the cache as it is, or stores in one slot an entry with the
    newest age. *)
Lemma access_shape o c w :
  good (c, w) -> op_ok o -> access o = true ->
  let '(_, (c', _)) := step o (c, w) in
  c' = c \/
  exists dev sec e, valid e = true /\ registry e = reg /\ device e = dev /\ sector e = sec /\
    age e = u64 (clock c + 1) /\
    c' = {| clock := u64 (clock c + 1); entries := (entries c).[slot_for c reg dev sec <- e] |}.
Proof.
  intros (Hok & Hc & Hm) Ho Ha. cbn [fst snd] in *.
  assert (forall dev sec size bytes, exists dev' sec' e, valid e = true /\ registry e = reg /\
    device e = dev' /\ sector e = sec' /\ age e = u64 (clock c + 1) /\
    write_insert c reg dev sec size bytes =
    {| clock := u64 (clock c + 1); entries := (entries c).[slot_for c reg dev' sec' <- e] |}) as Hins.
  { intros dev sec size bytes. exists dev, sec,
      (stored ((entries c).[slot_for c reg dev sec]) reg dev sec size (u64 (clock c + 1)) bytes).
    by rewrite write_insert_eq. }
  destruct o as [dev sec buffer size|dev sec buffer size|dev|dev sec|dev]; try done; cbn [step].
  - unfold block_cache_read. case_if as E0; [by left|]. unfold read_lookup.
    destruct (block_registry_at r dev) as [d|] eqn:Hat; [|by left].
    case_if as E1; [by left|]. destruct (find_entry c reg dev sec) as [i|] eqn:F.
    + right. pose proof (find_entry_Some _ _ _ _ _ F) as [Hi (V & Rg & Dv & Sc)%matches_inv].
      exists dev, sec, ((entries c).[i]<| age := u64 (clock c + 1) |>).
      split_and!; try done. unfold slot_for. by rewrite F.
    + destruct (block_registry_read _ _ _ _ _ _) as [[ok fetched] w'].
      destruct ok; cbn [negb]; [|by left]. rewrite read_insert_miss by done. right. apply Hins.
  - unfold block_cache_write. case_if as E0; [by left|].
    destruct (block_registry_at r dev) as [d|] eqn:Hat; [|by left].
    case_if as E1; [by left|]. destruct (block_registry_write _ _ _ _ _ _) as [ok w'].
    destruct ok; cbn [negb]; [|by left]. right. apply Hins.
  - unfold block_cache_flush. destruct (block_registry_at r dev); [|by left].
    destruct (block_registry_flush _ _ _). by left.
Qed.

(** The ages are times of the past. *)
Definition ages_ok (c : block_cache_t) : Prop :=
  0 <= clock c /\ forall i, 0 <= i < 16 -> valid ((entries c).[i]) = true -> 0 <= age ((entries c).[i]) <= clock c.

(** The sector is cached, and at most [n] entries are at least as recent. *)
Definition recent (c : block_cache_t) (dev sec n : Z) : Prop :=
  exists i, 0 <= i < 16 /\ matches reg dev sec ((entries c).[i]) = true /\
    countb (fun e => valid e && (age ((entries c).[i]) <=? age e)) (entries c) <= n.

Lemma store_ages c k e :
  zlen (entries c) = 16 -> ages_ok c -> 0 <= k < 16 -> clock c + 1 < 2 ^ 64 ->
  age e = u64 (clock c + 1) ->
  ages_ok {| clock := u64 (clock c + 1); entries := (entries c).[k <- e] |} /\
  u64 (clock c + 1) = clock c + 1.
Proof.
  intros L [Hz Ha] Hk Hlt He. assert (u64 (clock c + 1) = clock c + 1) as Hw
    by (apply wrap_small; unfold in_width; lia).
  rewrite Hw in *. split; [|done]. split; simpl; [lia|]. intros i Hi.
  rewrite cache_entries_get by lia. case_if as E; [lia|]. intros V. specialize (Ha i Hi V). lia.
Qed.

(** The entry that was stored last is the most recent one. *)
Lemma store_recent c k e dev sec :
  zlen (entries c) = 16 -> ages_ok c -> 0 <= k < 16 -> clock c + 1 < 2 ^ 64 ->
  age e = u64 (clock c + 1) -> matches reg dev sec e = true ->
  recent {| clock := u64 (clock c + 1); entries := (entries c).[k <- e] |} dev sec 1.
Proof.
  intros L Ha Hk Hlt He M. destruct (store_ages c k e L Ha Hk Hlt He) as [_ Hw].
  exists k. simpl. rewrite !arr_get_eq by lia. split; [done|]. split; [done|].
  rewrite (countb_insert _ _ _ ((entries c).[k])) by (apply arr_lookup; lia).
  rewrite (proj2 (countb_zero _ (entries c))).
  - destruct (valid (entries c).[k] && _), (valid e && _); lia.
  - intros i x Hx. pose proof (lookup_lt_Some _ _ _ Hx). unfold zlen in L.
    destruct (valid x) eqn:V; [|done]. rewrite He, Hw. simpl.
    assert ((entries c).[Z.of_nat i] = x) as Hxi
      by (rewrite Nat2Z.id; by apply list_lookup_total_correct).
    destruct Ha as [_ Ha]. specialize (Ha (Z.of_nat i) ltac:(lia)). rewrite Hxi in Ha.
    specialize (Ha V). lia.
Qed.

(** The entry to be replaced has sixteen entries that are at least as recent. *)
Lemma victim_oldest c i :
  zlen (entries c) = 16 -> valid ((entries c).[i]) = true -> choose_entry c = i ->
  countb (fun e => valid e && (age ((entries c).[i]) <=? age e)) (entries c) = 16.
Proof.
  intros L V <-. destruct (choose_entry_spec c) as [_ [Hinv|Hmin]]; [congruence|].
  rewrite (countb_full _ (entries c)); [done|]. intros j x Hx.
  pose proof (lookup_lt_Some _ _ _ Hx). unfold zlen in L.
  destruct (Hmin (Z.of_nat j) ltac:(lia)) as [Vj Aj]. rewrite Nat2Z.id in Vj, Aj.
  rewrite (list_lookup_total_correct _ _ _ Hx) in Vj, Aj. rewrite Vj. simpl. lia.
Qed.

(** One access makes at most one more entry recent, and does not drop a sector that
    has fewer than sixteen recent entries. *)
Lemma access_recent o c w dev sec n :
  good (c, w) -> op_ok o -> access o = true -> ages_ok c -> clock c + 1 < 2 ^ 64 -> n < 16 ->
  recent c dev sec n ->
  let '(_, (c', _)) := step o (c, w) in
  ages_ok c' /\ clock c' <= clock c + 1 /\ recent c' dev sec (n + 1).
Proof.
  intros Hg Ho Hacc Ha Hlt Hn (i & Hi & M & Hcount). pose proof (access_shape o c w Hg Ho Hacc) as Hs.
  destruct (step o (c, w)) as [res [c' w']]. destruct Hg as (Hok & _). cbn [fst] in Hok.
  pose proof (ok_entries _ Hok) as L.
  destruct Hs as [->|(dev' & sec' & e & V & Rg & Dv & Sc & Ae & ->)].
  { split_and!; [apply Ha..|lia|]. exists i. split_and!; [lia..|done|lia]. }
  destruct (slot_for_spec c reg dev' sec' Hok) as [Hk _].
  destruct (store_ages c (slot_for c reg dev' sec') e L Ha Hk Hlt Ae) as [Hages Hw].
  split; [exact Hages|]. split; [simpl; lia|].
  destruct (decide (slot_for c reg dev' sec' = i)) as [Heq|Hne].
  - assert (matches reg dev sec e = true) as Me.
    { unfold slot_for in Heq. destruct (find_entry c reg dev' sec') as [k|] eqn:F.
      - subst k. apply find_entry_Some in F as [_ (_ & _ & D1 & S1)%matches_inv].
        apply matches_inv in M as (_ & _ & D2 & S2). unfold matches. rewrite V. simpl. lia.
      - apply matches_inv in M as (Vi & _). pose proof (victim_oldest c i L Vi Heq). lia. }
    destruct (store_recent c (slot_for c reg dev' sec') e dev sec) as (j & Hj & Mj & Cj); try done.
    exists j. split_and!; [lia..|done|]. pose proof (countb_pos
      (fun x => valid x && (age (entries c).[i] <=? age x)) (entries c) (Z.to_nat i) (entries c).[i]
      (arr_lookup (entries c) i ltac:(lia))) as Hpos.
    apply matches_inv in M as (Vi & _). cbv beta in Hpos. rewrite Vi in Hpos. specialize (Hpos ltac:(simpl; lia)). lia.
  - exists i. simpl. rewrite arr_get_ne by lia. split; [done|]. split; [done|].
    rewrite (countb_insert _ _ _ ((entries c).[slot_for c reg dev' sec'])) by (apply arr_lookup; lia).
    destruct (valid (entries c).[slot_for c reg dev' sec'] && _), (valid e && _); lia.
Qed.

(** A read that succeeds makes its sector the most recent one. *)
Lemma read_recent c w dev sec buffer size :
  good (c, w) -> op_ok (Read dev sec buffer size) -> ages_ok c -> clock c + 1 < 2 ^ 64 ->
  let '(res, (c', _)) := step (Read dev sec buffer size) (c, w) in
  res = Bytes None \/ ages_ok c' /\ clock c' = clock c + 1 /\ recent c' dev sec 1.
Proof.
  intros (Hok & Hc & Hm) Ho Ha Hlt. cbn [fst snd step] in *. pose proof (ok_entries _ Hok) as L.
  assert (forall k e, 0 <= k < 16 -> age e = u64 (clock c + 1) -> matches reg dev sec e = true ->
    let c' := {| clock := u64 (clock c + 1); entries := (entries c).[k <- e] |} in
    ages_ok c' /\ clock c' = clock c + 1 /\ recent c' dev sec 1) as Hstore.
  { intros k e Hk He M. destruct (store_ages c k e L Ha Hk Hlt He) as [H1 H2].
    split_and!; [apply H1..|done|]. by apply store_recent. }
  unfold block_cache_read. case_if as E0; [by left|]. unfold read_lookup.
  destruct (block_registry_at r dev) as [d|] eqn:Hat; [|by left].
  case_if as E1; [by left|]. destruct (find_entry c reg dev sec) as [i|] eqn:F.
  - right. apply find_entry_Some in F as [Hi M].
    by apply (Hstore i ((entries c).[i]<| age := u64 (clock c + 1) |>)).
  - destruct (block_registry_read _ _ _ _ _ _) as [[ok fetched] w'].
    destruct ok; cbn [negb]; [|by left]. rewrite read_insert_miss, write_insert_eq by done. right.
    apply Hstore; [by apply slot_for_spec|done|]. unfold matches. simpl. by rewrite !Z.eqb_refl.
Qed.

Lemma run_recent ops c w dev sec n :
  good (c, w) -> Forall (fun o => op_ok o /\ access o = true) ops -> ages_ok c ->
  clock c + zlen ops < 2 ^ 64 -> n + zlen ops <= 16 -> recent c dev sec n ->
  let '(_, s') := run ops (c, w) in good s' /\ recent s'.1 dev sec (n + zlen ops).
Proof.
  intros Hg Hops. revert c w n Hg. induction Hops as [|o ops [Ho Hacc] _ IH];
    intros c w n Hg Ha Hclock Hn Hr'; cbn [run].
  { split; [done|]. unfold zlen. simpl. by rewrite Z.add_0_r. }
  unfold zlen in *. simpl length in *.
  pose proof (access_recent o c w dev sec n Hg Ho Hacc Ha ltac:(lia) ltac:(lia) Hr') as Hrec.
  pose proof (cache_step o (c, w) Hg Ho) as Hstep.
  destruct (step o (c, w)) as [res [c' w']]. destruct Hrec as (Ha' & Hc' & Hrec).
  destruct Hstep as [Hg' _]. specialize (IH c' w' (n + 1) Hg' Ha' ltac:(lia) ltac:(lia) Hrec).
  destruct (run ops (c', w')) as [results s'']. replace (n + Z.of_nat (S _)) with
    (n + 1 + Z.of_nat (Datatypes.length ops)) by lia. done.
Qed.

(** A read that is answered from the cache. *)
Lemma read_cached c w dev sec d buffer n :
  good (c, w) -> recent c dev sec n -> block_registry_at r dev = Some d ->
  0 < sector_size d <= 512 -> op_ok (Read dev sec buffer (sector_size d)) ->
  let '(res, s') := step (Read dev sec buffer (sector_size d)) (c, w) in
  res = Bytes (Some (contents r w dev sec)) /\ s'.2 = w.
Proof.
  intros Hg (i & Hi & M & _) Hat Hsz Ho. pose proof (read_step c w dev sec buffer _ Hg Ho) as Hs.
  cbn [step] in *. unfold block_cache_read, read_lookup, BLOCK_CACHE_SECTOR_MAX in *. rewrite Hat in *.
  replace (_ || _) with false in * by lia. rewrite Z.eqb_refl in *. cbn [negb] in *.
  destruct (find_entry c reg dev sec) as [k|] eqn:F.
  - split; [|done]. destruct Hs as (_ & [Hn|Heq] & _); [done|]. by rewrite Heq.
  - rewrite (find_entry_None _ _ _ _ F i Hi) in M. done.
Qed.

(** The cache keeps what was used last: a sector that was read stays cached during
    the next fifteen reads, writes and flushes, whatever they are; reading it again
    then returns its current contents and does not touch the device. *)
Theorem cache_keeps_recent c w dev sec d buffer ops :
  good (c, w) -> ages_ok c -> clock c + 16 < 2 ^ 64 -> block_registry_at r dev = Some d ->
  op_ok (Read dev sec buffer (sector_size d)) -> zlen ops <= 15 ->
  Forall (fun o => op_ok o /\ access o = true) ops ->
  let '(res, s1) := step (Read dev sec buffer (sector_size d)) (c, w) in
  res <> Bytes None ->
  let '(_, (c', w')) := run ops s1 in
  let '(res', s'') := step (Read dev sec buffer (sector_size d)) (c', w') in
  res' = Bytes (Some (contents r w' dev sec)) /\ s''.2 = w'.
Proof.
  intros Hg Ha Hclock Hat Ho Hlen Hops. pose proof (cache_step _ (c, w) Hg Ho) as Hstep.
  pose proof (read_recent c w dev sec buffer _ Hg Ho Ha ltac:(lia)) as Hrec.
  assert (step (Read dev sec buffer (sector_size d)) (c, w) = (Bytes None, (c, w)) \/
          0 < sector_size d <= 512) as Hsz.
  { cbn [step]. unfold block_cache_read, BLOCK_CACHE_SECTOR_MAX. case_if as E; [by left|right].
    destruct Ho as (_ & _ & Hs). lia. }
  destruct (step (Read dev sec buffer (sector_size d)) (c, w)) as [res [c1 w1]].
  destruct Hstep as [Hg1 _]. intros Hres. destruct Hsz as [Hsz|Hsz]; [by injection Hsz as -> _|].
  destruct Hrec as [|(Ha1 & Hc1 & Hrec)]; [done|].
  pose proof (run_recent ops c1 w1 dev sec 1 Hg1 Hops Ha1 ltac:(lia) ltac:(lia) Hrec) as Hrun.
  destruct (run ops (c1, w1)) as [results [c' w']]. destruct Hrun as [Hg' Hrec'].
  by apply (read_cached c' w' dev sec d buffer (1 + zlen ops)).
Qed.

(** C40. Two writes to one sector that overlap.  Both store their data on the device before
    the second one, and then the first one, takes the cache lock again: the cache is
    left with the data of the first writer while the device holds the data of the
    second, and reads return the former. *)
Theorem cache_write_race c w dev sec d first second buffer w1 w2 :
  good (c, w) -> block_registry_at r dev = Some d -> 0 < sector_size d <= 512 ->
  0 <= dev -> 0 <= sec -> sector_size d <= zlen first -> sector_size d <= zlen second ->
  sector_size d <= zlen buffer ->
  block_registry_write r dev sec 1 first w = (true, w1) ->
  block_registry_write r dev sec 1 second w1 = (true, w2) ->
  let c' := write_insert (write_insert c reg dev sec (sector_size d) second)
              reg dev sec (sector_size d) first in
  contents r w2 dev sec = take (Z.to_nat (sector_size d)) second /\
  (step (Read dev sec buffer (sector_size d)) (c', w2)).1 =
    Bytes (Some (take (Z.to_nat (sector_size d)) first)).
Proof.
  intros (Hok & Hc & Hm) Hat Hsz Hdev Hsec Hf Hs Hb E1 E2 c'. cbn [fst snd] in *.
  pose proof (registry_write_spec r Hr w dev d sec first Hm Hdev Hsec Hat Hf) as L1.
  rewrite E1 in L1. destruct L1 as (M1 & C1 & S1).
  pose proof (registry_write_spec r Hr w1 dev d sec second M1 Hdev Hsec Hat Hs) as L2.
  rewrite E2 in L2. destruct L2 as (M2 & C2 & _). split; [by rewrite C2, !Z.eqb_refl|].
  assert (cache_ok (write_insert c reg dev sec (sector_size d) second)) as Hok1
    by (by apply write_insert_ok).
  destruct (write_insert_found _ reg dev sec (sector_size d) first Hok1) as (k & F & Hk & Hdata); [lia..|].
  rewrite (read_hit c' w2 dev sec d buffer k) by (try done; by apply write_insert_ok).
  cbn [fst]. by rewrite <- Hdata.
Qed.

End coherence.

(** ** Examples: the cache on a disk in memory, through the whole storage stack *)

Import StorageBlock.

Definition example_uninit (n : Z) : list Z := replicate (Z.to_nat n) 9.

Lemma cache_uninit_len n : 0 <= n -> zlen (example_uninit n) = n.
Proof. intros Hn. unfold example_uninit. len. Qed.

Definition blank_cache : block_cache_t :=
  {| clock := 77; entries := replicate 16 {| registry := 3; device := 0; sector := 1; entry_size := 512;
       age := 5; valid := true; data := replicate 512 6 |} |}.

Lemma blank_cache_data i : 0 <= i < 16 -> zlen (data ((entries blank_cache).[i])) = 512.
Proof. intros Hi. unfold blank_cache. cbn [entries]. by rewrite (lookup_total_replicate_2 16) by lia. Qed.

(** Write a sector, read it, invalidate the device and read the sector again. *)
Definition example_ops : list op :=
  [Write 0 5 (replicate 512 1) 512; Read 0 5 (replicate 512 0) 512; InvalidateDevice 0;
   Read 0 5 (replicate 512 0) 512].

Lemma example_ops_ok : Forall op_ok example_ops.
Proof. repeat constructor; done. Qed.


(** The run above, evaluated: the second read comes from the device. *)
Example example_run :
  (run example_uninit 3 ram_registry example_ops (block_cache_initialize blank_cache, ram_stack)).1 =
  [Done true; Bytes (Some (replicate 512 1)); Done true; Bytes (Some (replicate 512 1))].
Proof. vm_compute. reflexivity. Qed.

Lemma example_good : good 3 ram_registry (block_cache_initialize blank_cache, ram_stack).
Proof. apply initialize_good; [done|exact blank_cache_data|exact ram_media_ok]. Qed.

Lemma example_ages : ages_ok (block_cache_initialize blank_cache).
Proof.
  destruct (cache_initialize_spec blank_cache eq_refl blank_cache_data) as (_ & _ & V).
  split; [by vm_compute|]. intros i Hi Vi. rewrite V in Vi by done. done.
Qed.

Lemma cache_keeps_recent_witness :
  let '(res, s1) := step example_uninit 3 ram_registry (Read 0 5 (replicate 512 0) 512)
    (block_cache_initialize blank_cache, ram_stack) in
  res <> Bytes None ->
  let '(_, (c', w')) := run example_uninit 3 ram_registry
    [Read 0 6 (replicate 512 0) 512; Write 0 7 (replicate 512 1) 512; Flush 0] s1 in
  let '(res', s'') := step example_uninit 3 ram_registry (Read 0 5 (replicate 512 0) 512) (c', w') in
  res' = Bytes (Some (contents ram_registry w' 0 5)) /\ s''.2 = w'.
Proof.
  apply (cache_keeps_recent example_uninit cache_uninit_len 3 ram_registry ram_registry_ok
    (block_cache_initialize blank_cache) ram_stack 0 5 ram_block (replicate 512 0)
    [Read 0 6 (replicate 512 0) 512; Write 0 7 (replicate 512 1) 512; Flush 0]
    example_good example_ages); [by vm_compute|done|done|done|].
  repeat constructor; done.
Defined.

Lemma cache_write_race_witness :
  let w1 := (block_registry_write ram_registry 0 5 1 (replicate 512 1) ram_stack).2 in
  let w2 := (block_registry_write ram_registry 0 5 1 (replicate 512 2) w1).2 in
  let c' := write_insert (write_insert (block_cache_initialize blank_cache) 3 0 5 512 (replicate 512 2))
              3 0 5 512 (replicate 512 1) in
  contents ram_registry w2 0 5 = replicate 512 2 /\
  (step example_uninit 3 ram_registry (Read 0 5 (replicate 512 0) 512) (c', w2)).1 =
    Bytes (Some (replicate 512 1)).
Proof.
  intros w1 w2 c'.
  destruct (cache_write_race example_uninit 3 ram_registry ram_registry_ok
    (block_cache_initialize blank_cache) ram_stack 0 5 ram_block (replicate 512 1) (replicate 512 2)
    (replicate 512 0) w1 w2 example_good) as [H1 H2]; [done..|].
  change (sector_size ram_block) with 512 in *.
  split; [rewrite H1; reflexivity|]. unfold c'. rewrite H2. reflexivity.
Defined.

End BlockCache.
