(* ===== verification/WaitQueue.v ===== *)
(** * Wait queues (kernel/core/task/wait_queue.c)

    A wait queue is a doubly linked list of nodes, threaded through the nodes.  Nodes
    and queues are objects in memory: a pointer is a number, null is 0, and the state
    gives the object at each address.  An operation holds the locks of the queue and of
    the node for its whole body, so it is one atomic step. *)

From S2P Require Import Prelude.

(** What the clients of wait queues rely on: every node is in at most one queue, and
    the operations act on the sequences of the queues. *)
Class WaitQueues (W : Type) := {
  wq_node_initialize : W -> Z -> Z -> W;
  wq_queue_initialize : W -> Z -> W;
  wq_enqueue : W -> Z -> Z -> bool * W;
  wq_dequeue : W -> Z -> Z * W;
  wq_remove : W -> Z -> Z -> bool * W;
  wq_queued : W -> Z -> bool;
  wq_count : W -> Z -> Z;
  wq_owner : W -> Z -> Z;
}.

(** [wq_rep w v]: the state [w] holds the sequence [v q] in each queue [q]. *)
Class WaitQueueLaws (W : Type) `{WaitQueues W} := {
  wq_rep : W -> (Z -> list Z) -> Prop;
  wq_rep_node w v q n : wq_rep w v -> n ∈ v q -> n <> 0;
  wq_rep_unique w v q q' n : wq_rep w v -> n ∈ v q -> n ∈ v q' -> q = q';
  wq_rep_fun w v v' q : wq_rep w v -> wq_rep w v' -> v q = v' q;
  wq_rep_NoDup w v q : wq_rep w v -> NoDup (v q);
  wq_queued_spec w v n : wq_rep w v -> (wq_queued w n = true <-> exists q, n ∈ v q);
  wq_count_spec w v q : wq_rep w v -> wq_count w q = u32 (zlen (v q));
  wq_node_initialize_spec w v n own :
    wq_rep w v -> (forall q, ~ (n ∈ v q)) -> n <> 0 ->
    wq_rep (wq_node_initialize w n own) v /\ wq_owner (wq_node_initialize w n own) n = own /\
    (forall x, x <> n -> wq_owner (wq_node_initialize w n own) x = wq_owner w x);
  wq_queue_initialize_spec w v q :
    wq_rep w v -> v q = [] ->
    wq_rep (wq_queue_initialize w q) v /\
    (forall x, wq_owner (wq_queue_initialize w q) x = wq_owner w x);
  wq_enqueue_spec w v q n :
    wq_rep w v -> q <> 0 -> n <> 0 ->
    let '(ok, w') := wq_enqueue w q n in
    ok = negb (wq_queued w n) /\ (forall x, wq_owner w' x = wq_owner w x) /\
    if ok then wq_rep w' (fupd v q (v q ++ [n])) else w' = w;
  wq_dequeue_spec w v q :
    wq_rep w v ->
    let '(n, w') := wq_dequeue w q in
    (forall x, wq_owner w' x = wq_owner w x) /\
    match v q with
    | [] => n = 0 /\ w' = w
    | m :: l => n = m /\ wq_rep w' (fupd v q l)
    end;
  wq_remove_spec w v q n :
    wq_rep w v -> q <> 0 -> n <> 0 ->
    let '(ok, w') := wq_remove w q n in
    (forall x, wq_owner w' x = wq_owner w x) /\
    if ok then exists l k, v q = l ++ (n :: k) /\ wq_rep w' (fupd v q (l ++ k))
    else ~ (n ∈ v q) /\ w' = w;
}.

Module WaitQueue.

Record task_wait_node_t := {
  previous : Z;
  next : Z;
  node_queue : Z;
  owner : Z;
  queued : bool;
}.
#[export] Instance eta_task_wait_node : Eta task_wait_node_t := fun n => {|
  previous := previous n; next := next n; node_queue := node_queue n; owner := owner n;
  queued := queued n |}.

Record task_wait_queue_t := { head : Z; tail : Z; count : Z }.
#[export] Instance eta_task_wait_queue : Eta task_wait_queue_t := fun q => {|
  head := head q; tail := tail q; count := count q |}.

Record mem := { nodes : Z -> task_wait_node_t; queues : Z -> task_wait_queue_t }.
#[export] Instance eta_mem : Eta mem := fun m => {| nodes := nodes m; queues := queues m |}.

(** Change the object at an address. *)
Definition set_node (m : mem) (n : Z) (f : task_wait_node_t -> task_wait_node_t) : mem :=
  m<| nodes := fupd (nodes m) n (f (nodes m n)) |>.
Definition set_queue (m : mem) (q : Z) (f : task_wait_queue_t -> task_wait_queue_t) : mem :=
  m<| queues := fupd (queues m) q (f (queues m q)) |>.

Definition task_wait_node_initialize (m : mem) (node own : Z) : mem :=
  if node =? 0 then m
  else set_node m node (fun _ =>
    {| previous := 0; next := 0; node_queue := 0; owner := own; queued := false |}).

Definition task_wait_queue_initialize (m : mem) (queue : Z) : mem :=
  set_queue m queue (fun _ => {| head := 0; tail := 0; count := 0 |}).

Definition task_wait_queue_enqueue (m : mem) (queue node : Z) : bool * mem :=
  if (queue =? 0) || (node =? 0) then (false, m)
  else if queued (nodes m node) then (false, m)
  else
    let m := set_node m node (fun n =>
      n<| previous := tail (queues m queue) |><| next := 0 |><| node_queue := queue |>
       <| queued := true |>) in
    let m := if negb (tail (queues m queue) =? 0)
             then set_node m (tail (queues m queue)) (fun n => n<| next := node |>)
             else set_queue m queue (fun q => q<| head := node |>) in
    let m := set_queue m queue (fun q => q<| tail := node |>) in
    (true, set_queue m queue (fun q => q<| count := u32 (count q + 1) |>)).

Definition unlink_node (m : mem) (queue node : Z) : mem :=
  let m := if negb (previous (nodes m node) =? 0)
           then set_node m (previous (nodes m node)) (fun n => n<| next := next (nodes m node) |>)
           else set_queue m queue (fun q => q<| head := next (nodes m node) |>) in
  let m := if negb (next (nodes m node) =? 0)
           then set_node m (next (nodes m node)) (fun n => n<| previous := previous (nodes m node) |>)
           else set_queue m queue (fun q => q<| tail := previous (nodes m node) |>) in
  let m := set_node m node (fun n =>
    n<| previous := 0 |><| next := 0 |><| node_queue := 0 |><| queued := false |>) in
  set_queue m queue (fun q => q<| count := u32 (count q - 1) |>).

(** The node, or null. *)
Definition task_wait_queue_dequeue (m : mem) (queue : Z) : Z * mem :=
  if queue =? 0 then (0, m)
  else
    let node := head (queues m queue) in
    (node, if negb (node =? 0) then unlink_node m queue node else m).

Definition task_wait_queue_remove (m : mem) (queue node : Z) : bool * mem :=
  if (queue =? 0) || (node =? 0) then (false, m)
  else
    let removed := queued (nodes m node) && (node_queue (nodes m node) =? queue) in
    (removed, if removed then unlink_node m queue node else m).

Definition task_wait_node_queued (m : mem) (node : Z) : bool :=
  if node =? 0 then false else queued (nodes m node).

Definition task_wait_queue_count (m : mem) (queue : Z) : Z :=
  if queue =? 0 then 0 else count (queues m queue).

(** ** The sequences in the queues *)

(** The links of a node are the last node before it and the first node after it. *)
Record rep (m : mem) (v : Z -> list Z) : Prop := {
  rep_null : v 0 = [];
  rep_nodup : forall q, NoDup (v q);
  rep_nonnull : forall q n, n ∈ v q -> n <> 0;
  rep_head : forall q, q <> 0 -> head (queues m q) = default 0 (v q !! 0%nat);
  rep_tail : forall q, q <> 0 -> tail (queues m q) = default 0 (last (v q));
  rep_count : forall q, q <> 0 -> count (queues m q) = u32 (zlen (v q));
  rep_node : forall q l n k, v q = l ++ (n :: k) ->
    queued (nodes m n) = true /\ node_queue (nodes m n) = q /\
    previous (nodes m n) = default 0 (last l) /\ next (nodes m n) = default 0 (k !! 0%nat);
  rep_queued : forall n, n <> 0 -> queued (nodes m n) = true -> exists q, n ∈ v q;
}.

Section rep.
Context (m : mem) (v : Z -> list Z) (Hrep : rep m v).

Lemma rep_member q n : n ∈ v q -> queued (nodes m n) = true /\ node_queue (nodes m n) = q.
Proof.
  intros (l & k & Hlk)%list_elem_of_split. destruct (rep_node _ _ Hrep q l n k Hlk) as (H1 & H2 & _). done.
Qed.

Lemma rep_unique q q' n : n ∈ v q -> n ∈ v q' -> q = q'.
Proof. intros [_ H1]%rep_member [_ H2]%rep_member. congruence. Qed.

Lemma rep_queue_nonnull q n : n ∈ v q -> q <> 0.
Proof. intros Hn ->. rewrite (rep_null _ _ Hrep) in Hn. set_solver. Qed.

Lemma rep_not_queued n q : queued (nodes m n) = false -> n ∉ v q.
Proof. intros Hq [H1 _]%rep_member. congruence. Qed.

(** The last node is null exactly in the empty queue. *)
Lemma rep_last q : default 0 (last (v q)) = 0 <-> v q = [].
Proof.
  split; [|by intros ->]. intros Hl. destruct (v q) as [|x l _] eqn:E using rev_ind; [done|].
  rewrite last_snoc in Hl. simpl in Hl. exfalso. apply (rep_nonnull _ _ Hrep q x); [rewrite E; set_solver|done].
Qed.

End rep.

(** The objects after an enqueue. *)
Lemma enqueue_objects m q n :
  q <> 0 -> n <> 0 -> queued (nodes m n) = false -> tail (queues m q) <> n ->
  let t := tail (queues m q) in
  let '(ok, m') := task_wait_queue_enqueue m q n in
  ok = true /\
  (forall x, nodes m' x =
    if x =? n then {| previous := t; next := 0; node_queue := q; owner := owner (nodes m n); queued := true |}
    else if negb (t =? 0) && (x =? t) then (nodes m x)<| next := n |> else nodes m x) /\
  (forall x, queues m' x =
    if x =? q then {| head := if t =? 0 then n else head (queues m q); tail := n;
                      count := u32 (count (queues m q) + 1) |}
    else queues m x).
Proof.
  intros Hq Hn Hnq Ht t. unfold task_wait_queue_enqueue.
  replace (_ || _) with false by lia. rewrite Hnq. cbn [set_node queues set_field].
  fold t in Ht |- *. destruct (t =? 0) eqn:E; cbn [negb andb]; (split; [done|]); split; intros x;
    unfold set_node, set_queue, fupd; cbn [nodes queues set_field]; rewrite ?Z.eqb_refl.
  - destruct (x =? n) eqn:Ex; [|done]. done.
  - destruct (x =? q) eqn:Ex; [|done]. done.
  - destruct (x =? t) eqn:Et; [|by destruct (x =? n) eqn:Ex].
    replace (x =? n) with false by lia. replace (t =? n) with false by lia. by replace t with x by lia.
  - destruct (x =? q) eqn:Ex; [|done]. done.
Qed.

(** Splitting a sequence at a node that is not the appended one. *)
Lemma snoc_split (l : list Z) n l1 x l2 :
  l ++ [n] = l1 ++ (x :: l2) ->
  (l2 = [] /\ x = n /\ l1 = l) \/ (exists l2', l2 = l2' ++ [n] /\ l = l1 ++ (x :: l2')).
Proof.
  destruct l2 as [|y l2 _] using rev_ind.
  - intros [-> [= ->]]%app_inj_tail. by left.
  - rewrite app_comm_cons, app_assoc. intros [-> ->]%app_inj_tail. right. by exists l2.
Qed.

(** The last node of a sequence is not an inner one. *)
Lemma last_not_inner (l1 : list Z) x y l2 :
  NoDup (l1 ++ (x :: y :: l2)) -> default 0 (last (l1 ++ (x :: y :: l2))) <> x.
Proof.
  intros (_ & _ & [Hx _]%NoDup_cons)%NoDup_app Hlx. apply Hx. rewrite last_app in Hlx.
  destruct (last (y :: l2)) as [z|] eqn:El; [|by apply last_None in El].
  replace (last (x :: y :: l2)) with (Some z) in Hlx by (by rewrite <- El). simpl in Hlx. subst z.
  by apply last_Some_elem_of in El.
Qed.

(** It is not a node of another sequence. *)
Lemma last_elsewhere m v q q' x :
  rep m v -> x ∈ v q' -> q' <> q -> default 0 (last (v q)) <> x.
Proof.
  intros Hrep Hx Hq Hlx. pose proof (rep_nonnull _ _ Hrep q' x Hx).
  destruct (last (v q)) as [z|] eqn:El; simpl in Hlx; [|lia]. subst z.
  apply last_Some_elem_of in El. apply Hq. by apply (rep_unique m v Hrep q' q x).
Qed.

(** The links after an enqueue. *)
Lemma enqueue_links m v q n q' l1 x l2 :
  rep m v -> q <> 0 -> (forall q', n ∉ v q') -> fupd v q (v q ++ [n]) q' = l1 ++ (x :: l2) ->
  let t := default 0 (last (v q)) in
  let o := if x =? n
    then {| previous := t; next := 0; node_queue := q; owner := owner (nodes m n); queued := true |}
    else if negb (t =? 0) && (x =? t) then (nodes m x)<| next := n |> else nodes m x in
  queued o = true /\ node_queue o = q' /\ previous o = default 0 (last l1) /\
  next o = default 0 (l2 !! 0%nat).
Proof.
  intros Hrep Hq Hnew Hv t o. unfold fupd in Hv. destruct (q' =? q) eqn:E.
  - replace q' with q in * by lia. apply snoc_split in Hv as [(-> & -> & ->)|(l2' & -> & Hv)].
    { unfold o. by rewrite Z.eqb_refl. }
    assert (x ∈ v q) as Hx by (rewrite Hv; set_solver).
    assert (x <> n) as Hxn by (intros ->; by apply (Hnew q)).
    destruct (rep_node _ _ Hrep q l1 x l2' Hv) as (R1 & R2 & R3 & R4).
    pose proof (rep_nonnull _ _ Hrep q x Hx). unfold o. replace (x =? n) with false by lia.
    destruct l2' as [|y l2'].
    + unfold t. rewrite Hv, last_snoc. simpl. rewrite Z.eqb_refl. by replace (x =? 0) with false by lia.
    + pose proof (rep_nodup _ _ Hrep q) as Hnd. rewrite Hv in Hnd. apply last_not_inner in Hnd.
      unfold t. rewrite Hv. replace (x =? _) with false by lia. by rewrite andb_false_r.
  - assert (x ∈ v q') as Hx by (rewrite Hv; set_solver).
    assert (x <> n) as Hxn by (intros ->; by apply (Hnew q')).
    pose proof (last_elsewhere m v q q' x Hrep Hx ltac:(lia)). unfold o, t.
    replace (x =? n) with false by lia. replace (x =? default 0 (last (v q))) with false by lia.
    rewrite andb_false_r. by apply Hrep.
Qed.

Lemma enqueue_rep m v q n :
  rep m v -> q <> 0 -> n <> 0 -> queued (nodes m n) = false ->
  let '(ok, m') := task_wait_queue_enqueue m q n in
  ok = true /\ (forall x, owner (nodes m' x) = owner (nodes m x)) /\
  rep m' (fupd v q (v q ++ [n])).
Proof.
  intros Hrep Hq Hn Hnq. pose proof (rep_tail _ _ Hrep q Hq) as Ht.
  assert (forall q', n ∉ v q') as Hnew by (intros q'; by eapply rep_not_queued).
  assert (tail (queues m q) <> n) as Htn.
  { rewrite Ht. destruct (last (v q)) as [x|] eqn:E; [|done]. simpl. intros ->.
    apply (Hnew q). by apply last_Some_elem_of. }
  pose proof (enqueue_objects m q n Hq Hn Hnq Htn) as Hobj. cbv zeta in Hobj.
  destruct (task_wait_queue_enqueue m q n) as [ok m']. destruct Hobj as (-> & Hnodes & Hqueues).
  split; [done|]. split.
  { intros x. rewrite Hnodes. case_if as E1; [by replace x with n by lia|]. by case_if as E2. }
  split.
  - rewrite fupd_ne by done. apply Hrep.
  - intros q'. unfold fupd. case_if as E; [|apply Hrep]. apply NoDup_app.
    split_and!; [apply Hrep|intros x Hx; set_solver|apply NoDup_singleton].
  - intros q' x. unfold fupd. case_if as E; [|apply Hrep].
    intros [Hx|Hx]%elem_of_app; [by eapply Hrep|set_solver].
  - intros q' Hq'. rewrite Hqueues. unfold fupd. case_if as E; [|by apply Hrep]. simpl.
    rewrite Ht. destruct (v q) as [|y l] eqn:Ev; [done|].
    replace (default 0 (last (y :: l)) =? 0) with false.
    + by rewrite (rep_head _ _ Hrep q Hq), Ev.
    + symmetry. apply Z.eqb_neq. rewrite <- Ev. rewrite (rep_last m v Hrep q), Ev. done.
  - intros q' Hq'. rewrite Hqueues. unfold fupd. case_if as E; [|by apply Hrep]. simpl. by rewrite last_snoc.
  - intros q' Hq'. rewrite Hqueues. unfold fupd. case_if as E; [|by apply Hrep]. simpl.
    rewrite (rep_count _ _ Hrep q Hq), wrap_add_l. f_equal. len.
  - intros q' l1 x l2 Hv. rewrite Hnodes, Ht. by apply (enqueue_links m v q n q' l1 x l2).
  - intros x Hx Hqx. rewrite Hnodes in Hqx. destruct (decide (x = n)) as [->|Hne].
    + exists q. rewrite fupd_eq. set_solver.
    + replace (x =? n) with false in Hqx by lia.
      assert (queued (nodes m x) = true) as Hqx' by (revert Hqx; case_if as E; done).
      destruct (rep_queued _ _ Hrep x Hx Hqx') as [q' Hq']. exists q'. unfold fupd.
      case_if as E; [replace q' with q in * by lia; set_solver|done].
Qed.

(** The objects after a node has been unlinked. *)
Lemma unlink_objects m q n :
  let p := previous (nodes m n) in
  let s := next (nodes m n) in
  p <> n -> s <> n -> (p <> 0 -> p <> s) ->
  let m' := unlink_node m q n in
  (forall x, nodes m' x =
    if x =? n then {| previous := 0; next := 0; node_queue := 0; owner := owner (nodes m n); queued := false |}
    else if negb (p =? 0) && (x =? p) then (nodes m x)<| next := s |>
    else if negb (s =? 0) && (x =? s) then (nodes m x)<| previous := p |>
    else nodes m x) /\
  (forall x, queues m' x =
    if x =? q then {| head := if p =? 0 then s else head (queues m q);
                      tail := if s =? 0 then p else tail (queues m q);
                      count := u32 (count (queues m q) - 1) |}
    else queues m x).
Proof.
  intros p s Hp Hs Hps. unfold unlink_node. fold p s.
  assert (exists m1, (if negb (p =? 0) then set_node m p (fun x => x<| next := s |>)
                      else set_queue m q (fun x => x<| head := s |>)) = m1 /\
    (forall x, nodes m1 x = if negb (p =? 0) && (x =? p) then (nodes m x)<| next := s |> else nodes m x) /\
    (forall x, queues m1 x = if (p =? 0) && (x =? q) then (queues m x)<| head := s |> else queues m x))
    as (m1 & -> & N1 & Q1).
  { eexists. split; [done|]. destruct (p =? 0); cbn [negb andb]; (split; intros x; [|]);
      unfold set_node, set_queue, fupd; cbn [nodes queues set_field]; try done;
      (destruct (x =? _) eqn:E; [|done]; by apply Z.eqb_eq in E as ->). }
  assert (nodes m1 n = nodes m n) as Hn1 by (rewrite N1; replace (n =? p) with false by lia; by rewrite andb_false_r).
  rewrite Hn1. fold p s.
  assert (exists m2, (if negb (s =? 0) then set_node m1 s (fun x => x<| previous := p |>)
                      else set_queue m1 q (fun x => x<| tail := p |>)) = m2 /\
    (forall x, nodes m2 x = if negb (s =? 0) && (x =? s) then (nodes m1 x)<| previous := p |> else nodes m1 x) /\
    (forall x, queues m2 x = if (s =? 0) && (x =? q) then (queues m1 x)<| tail := p |> else queues m1 x))
    as (m2 & -> & N2 & Q2).
  { eexists. split; [done|]. destruct (s =? 0); cbn [negb andb]; (split; intros x; [|]);
      unfold set_node, set_queue, fupd; cbn [nodes queues set_field]; try done;
      (destruct (x =? _) eqn:E; [|done]; by apply Z.eqb_eq in E as ->). }
  cbv zeta. unfold set_node, set_queue, fupd. cbn [nodes queues set_field]. split; intros x.
  - destruct (x =? n) eqn:Exn.
    + rewrite N2, N1. replace (n =? s) with false by lia. replace (n =? p) with false by lia.
      by rewrite !andb_false_r.
    + rewrite N2, N1. destruct (x =? p) eqn:Exp; [|by rewrite andb_false_r].
      destruct (p =? 0) eqn:Ep0; cbn [negb andb]; [done|]. replace (x =? s) with false by lia.
      by rewrite andb_false_r.
  - destruct (x =? q) eqn:Exq; [|by rewrite Q2, Q1, Exq, !andb_false_r].
    rewrite Q2, Q1, Z.eqb_refl, !andb_true_r. by destruct (p =? 0), (s =? 0).
Qed.

(** The neighbours of a node: null or a node of the sequence on that side. *)
Lemma neighbours m v q l n k :
  rep m v -> v q = l ++ (n :: k) ->
  previous (nodes m n) = default 0 (last l) /\ next (nodes m n) = default 0 (k !! 0%nat) /\
  (default 0 (last l) = 0 \/ default 0 (last l) ∈ l) /\
  (default 0 (k !! 0%nat) = 0 \/ default 0 (k !! 0%nat) ∈ k).
Proof.
  intros Hrep Hv. destruct (rep_node _ _ Hrep q l n k Hv) as (_ & _ & Hp & Hs).
  split_and!; [done|done| |].
  - destruct (last l) as [x|] eqn:E; [right|by left]. by apply last_Some_elem_of.
  - destruct (k !! 0%nat) as [x|] eqn:E; [right|by left]. by eapply list_elem_of_lookup_2.
Qed.

(** The nodes of a sequence split at one of them are apart. *)
Lemma apart m v q l n k :
  rep m v -> v q = l ++ (n :: k) ->
  n <> 0 /\ ~ (n ∈ l) /\ ~ (n ∈ k) /\ ~ (0 ∈ l) /\ ~ (0 ∈ k) /\ (forall x, x ∈ l -> x ∉ k) /\ NoDup l /\ NoDup k.
Proof.
  intros Hrep Hv. pose proof (rep_nodup _ _ Hrep q) as Hnd.
  pose proof (rep_nonnull _ _ Hrep q) as H0. rewrite Hv in Hnd, H0.
  apply NoDup_app in Hnd as (Hl & Hdis & [Hnk Hk]%NoDup_cons).
  split_and!; [apply H0; set_solver|set_solver|done|intros H; apply (H0 0); set_solver
              |intros H; apply (H0 0); set_solver|intros x Hx; specialize (Hdis x Hx); set_solver|done|done].
Qed.

(** The links of the remaining nodes of the queue. *)
Lemma unlink_links m v q l n k l1 x l2 :
  rep m v -> v q = l ++ (n :: k) -> l ++ k = l1 ++ (x :: l2) ->
  let p := previous (nodes m n) in
  let s := next (nodes m n) in
  let o := if negb (p =? 0) && (x =? p) then (nodes m x)<| next := s |>
    else if negb (s =? 0) && (x =? s) then (nodes m x)<| previous := p |>
    else nodes m x in
  queued o = true /\ node_queue o = q /\ previous o = default 0 (last l1) /\
  next o = default 0 (l2 !! 0%nat).
Proof.
  intros Hrep Hv Hlk. destruct (neighbours m v q l n k Hrep Hv) as (-> & -> & Hp & Hs).
  destruct (apart m v q l n k Hrep Hv) as (Hn & Hnl & Hnk & H0l & H0k & Hd & NDl & NDk). cbv zeta.
  assert ((exists t, l = l1 ++ (x :: t) /\ l2 = t ++ k) \/ (exists t, l1 = l ++ t /\ k = t ++ (x :: l2))) as Hc.
  { apply app_eq_inv in Hlk as [(t & -> & Hk)|(t & -> & ->)]; [|by right; exists t].
    destruct t as [|y t]; simplify_eq/=; [right; exists []; by rewrite !app_nil_r|left; by exists t]. }
  destruct Hc as [(t & -> & ->)|(t & -> & ->)].
  - assert (v q = l1 ++ (x :: (t ++ (n :: k)))) as Hx by (rewrite Hv, <- app_assoc; done).
    destruct (rep_node _ _ Hrep q _ _ _ Hx) as (R1 & R2 & R3 & R4).
    assert (x <> 0) by set_solver. destruct t as [|y t].
    + rewrite last_snoc. simpl. rewrite Z.eqb_refl. by replace (x =? 0) with false by lia.
    + replace (x =? default 0 (last (l1 ++ (x :: y :: t)))) with false
        by (symmetry; apply Z.eqb_neq; intros E; by apply (last_not_inner l1 x y t)).
      replace (x =? default 0 (k !! 0%nat)) with false.
      2: { symmetry. apply Z.eqb_neq. intros E. rewrite <- E in Hs. destruct Hs; [lia|]. apply (Hd x); set_solver. }
      by rewrite !andb_false_r.
  - assert (v q = (l ++ (n :: t)) ++ (x :: l2)) as Hx by (rewrite Hv, <- app_assoc; done).
    destruct (rep_node _ _ Hrep q _ _ _ Hx) as (R1 & R2 & R3 & R4).
    assert (x <> 0) by set_solver.
    replace (x =? default 0 (last l)) with false.
    2: { symmetry. apply Z.eqb_neq. intros E. rewrite <- E in Hp. destruct Hp; [lia|]. apply (Hd x); set_solver. }
    rewrite andb_false_r. destruct t as [|y t].
    + simpl. rewrite Z.eqb_refl. replace (x =? 0) with false by lia. simpl. by rewrite app_nil_r.
    + simpl. replace (x =? y) with false.
      2: { symmetry. apply Z.eqb_neq. apply NoDup_cons in NDk as [Hy _]. set_solver. }
      rewrite andb_false_r. by rewrite R3, !last_app.
Qed.

(** The ends of the sequence. *)
Lemma unlink_ends (l : list Z) n k :
  ~ (0 ∈ l) -> ~ (0 ∈ k) ->
  (if default 0 (last l) =? 0 then default 0 (k !! 0%nat) else default 0 ((l ++ (n :: k)) !! 0%nat))
    = default 0 ((l ++ k) !! 0%nat) /\
  (if default 0 (k !! 0%nat) =? 0 then default 0 (last l) else default 0 (last (l ++ (n :: k))))
    = default 0 (last (l ++ k)).
Proof.
  intros Hl Hk. split.
  - destruct l as [|y l]; [done|]. replace (default 0 (last (y :: l)) =? 0) with false; [done|].
    symmetry. apply Z.eqb_neq. intros Hz. destruct (last (y :: l)) as [z|] eqn:Ez; [|by apply last_None in Ez].
    simpl in Hz. subst z. by apply last_Some_elem_of in Ez.
  - destruct k as [|y k]; [by rewrite app_nil_r|]. change (default 0 ((y :: k) !! 0%nat)) with y.
    replace (y =? 0) with false by (symmetry; apply Z.eqb_neq; intros ->; apply Hk; left).
    by rewrite !last_app, last_cons_cons.
Qed.

(** The neighbours of a node are not in another queue. *)
Lemma neighbours_elsewhere m v q l n k q' x :
  rep m v -> v q = l ++ (n :: k) -> x ∈ v q' -> (q' =? q) = false ->
  (x =? n) = false /\ (x =? default 0 (last l)) = false /\ (x =? default 0 (k !! 0%nat)) = false.
Proof.
  intros Hrep Hv Hx Hq. destruct (neighbours m v q l n k Hrep Hv) as (_ & _ & Hp & Hs).
  assert (x <> 0) as Hx0 by (by eapply Hrep).
  assert (~ (x ∈ v q)) as Hxq by (intros Hxq; pose proof (rep_unique m v Hrep q q' x Hxq Hx); lia).
  rewrite Hv in Hxq. split_and!; apply Z.eqb_neq; intros E; rewrite <- E in *; set_solver.
Qed.

(** Unlinking a node takes it out of its sequence. *)
Lemma unlink_rep m v q l n k :
  rep m v -> v q = l ++ (n :: k) ->
  (forall x, owner (nodes (unlink_node m q n) x) = owner (nodes m x)) /\
  rep (unlink_node m q n) (fupd v q (l ++ k)).
Proof.
  intros Hrep Hv. destruct (neighbours m v q l n k Hrep Hv) as (Ep & Es & Hp & Hs).
  destruct (apart m v q l n k Hrep Hv) as (Hn & Hnl & Hnk & H0l & H0k & Hd & NDl & NDk).
  assert (n ∈ v q) as Hnq by (rewrite Hv; set_solver).
  pose proof (rep_queue_nonnull m v Hrep q n Hnq) as Hq.
  pose proof (unlink_objects m q n) as Hobj. cbv zeta in Hobj. rewrite Ep, Es in Hobj.
  destruct Hobj as [Hnodes Hqueues].
  { intros E. rewrite E in Hp. by destruct Hp. }
  { intros E. rewrite E in Hs. by destruct Hs. }
  { intros E0 E. rewrite <- E in Hs. destruct Hp as [Hp|Hp], Hs as [Hs|Hs]; try done. by apply (Hd _ Hp). }
  assert (forall q' x, x ∈ fupd v q (l ++ k) q' -> x ∈ v q' /\ x <> n) as Hsub.
  { intros q' x. unfold fupd. case_if as E.
    - replace q' with q in * by lia. rewrite Hv. intros Hx. split; [set_solver|intros ->; set_solver].
    - intros Hx. split; [done|]. intros ->. pose proof (rep_unique m v Hrep q q' n Hnq Hx). lia. }
  split.
  { intros x. rewrite Hnodes. case_if as E1; [by replace x with n by lia|]. case_if as E2; [done|]. by case_if as E3. }
  split.
  - rewrite fupd_ne by done. apply Hrep.
  - intros q'. unfold fupd. case_if as E; [|apply Hrep]. by apply NoDup_app.
  - intros q' x [Hx _]%Hsub. by eapply Hrep.
  - intros q' Hq'. rewrite Hqueues. unfold fupd. case_if as E; [|by apply Hrep]. simpl.
    rewrite (rep_head _ _ Hrep q Hq), Hv. by apply unlink_ends.
  - intros q' Hq'. rewrite Hqueues. unfold fupd. case_if as E; [|by apply Hrep]. simpl.
    rewrite (rep_tail _ _ Hrep q Hq), Hv. by apply unlink_ends.
  - intros q' Hq'. rewrite Hqueues. unfold fupd. case_if as E; [|by apply Hrep]. simpl.
    rewrite (rep_count _ _ Hrep q Hq), Hv. unfold Z.sub. rewrite wrap_add_l. f_equal. len.
  - intros q' l1 x l2 Hx. assert (x ∈ fupd v q (l ++ k) q') as [Hxv Hxn]%Hsub by (rewrite Hx; set_solver).
    rewrite Hnodes. replace (x =? n) with false by lia. unfold fupd in Hx. destruct (q' =? q) eqn:E.
    + replace q' with q in * by lia. pose proof (unlink_links m v q l n k l1 x l2 Hrep Hv Hx) as Hl.
      cbv zeta in Hl. by rewrite Ep, Es in Hl.
    + destruct (neighbours_elsewhere m v q l n k q' x Hrep Hv Hxv E) as (_ & -> & ->).
      rewrite !andb_false_r. by apply Hrep.
  - intros x Hx Hqx. revert Hqx. rewrite Hnodes. case_if as E1; [done|]. intros Hqx.
    assert (queued (nodes m x) = true) as Hqx' by (revert Hqx; case_if as E2; [done|]; by case_if as E3).
    destruct (rep_queued _ _ Hrep x Hx Hqx') as [q' Hq']. exists q'. unfold fupd.
    case_if as E; [|done]. apply Z.eqb_eq in E as ->. rewrite Hv in Hq'. apply elem_of_app.
    apply elem_of_app in Hq' as [?|[->|?]%elem_of_cons]; [by left|lia|by right].
Qed.

Lemma dequeue_rep m v q :
  rep m v ->
  let '(n, m') := task_wait_queue_dequeue m q in
  (forall x, owner (nodes m' x) = owner (nodes m x)) /\
  match v q with
  | [] => n = 0 /\ m' = m
  | x :: l => n = x /\ rep m' (fupd v q l)
  end.
Proof.
  intros Hrep. unfold task_wait_queue_dequeue. destruct (decide (q = 0)) as [->|Hq].
  { by rewrite (rep_null _ _ Hrep). }
  replace (q =? 0) with false by lia. rewrite (rep_head _ _ Hrep q Hq).
  destruct (v q) as [|n l] eqn:Hv; [done|]. change (default 0 ((n :: l) !! 0%nat)) with n.
  assert (n <> 0) by (apply (rep_nonnull _ _ Hrep q); rewrite Hv; set_solver).
  replace (n =? 0) with false by lia. destruct (unlink_rep m v q [] n l Hrep Hv). done.
Qed.

Lemma remove_rep m v q n :
  rep m v -> q <> 0 -> n <> 0 ->
  let '(ok, m') := task_wait_queue_remove m q n in
  (forall x, owner (nodes m' x) = owner (nodes m x)) /\
  if ok then exists l k, v q = l ++ (n :: k) /\ rep m' (fupd v q (l ++ k))
  else ~ (n ∈ v q) /\ m' = m.
Proof.
  intros Hrep Hq Hn. unfold task_wait_queue_remove. replace (_ || _) with false by lia.
  destruct (queued (nodes m n) && (node_queue (nodes m n) =? q)) eqn:E.
  - apply andb_prop in E as [E1 E2]. destruct (rep_queued _ _ Hrep n Hn E1) as [q' Hq'].
    destruct (rep_member m v Hrep q' n Hq') as [_ <-]. apply Z.eqb_eq in E2. rewrite E2 in Hq'.
    apply list_elem_of_split in Hq' as (l & k & Hv). destruct (unlink_rep m v q l n k Hrep Hv) as [Ho Hr].
    split; [done|]. by exists l, k.
  - split; [done|]. split; [|done]. intros [E1 E2]%(rep_member m v Hrep). rewrite E1, E2, Z.eqb_refl in E. done.
Qed.

(** Initialising an object that is in no sequence, whatever its memory held. *)
Lemma node_initialize_rep m v n own o :
  rep m v -> (forall q, ~ (n ∈ v q)) ->
  rep (task_wait_node_initialize (set_node m n (fun _ => o)) n own) v.
Proof.
  intros [R1 R2 R3 R4 R5 R6 R7 R8] Hn. set (m' := task_wait_node_initialize _ _ _).
  assert (queues m' = queues m) as Hqs by (unfold m', task_wait_node_initialize; by case_if as E).
  assert (forall x, x <> n -> nodes m' x = nodes m x) as Hns.
  { intros x Hx. unfold m', task_wait_node_initialize. case_if as E; cbn [set_node nodes set_field];
      by rewrite !fupd_ne by done. }
  assert (n <> 0 -> queued (nodes m' n) = false) as Hnn.
  { intros Hn0. unfold m', task_wait_node_initialize. replace (n =? 0) with false by lia.
    cbn [set_node nodes set_field]. by rewrite fupd_eq. }
  split; rewrite ?Hqs; try done.
  - intros q l x k Hv. rewrite Hns; [by apply R7|]. intros ->. apply (Hn q). rewrite Hv. set_solver.
  - intros x Hx Hq. destruct (decide (x = n)) as [->|Hxn]; [by rewrite Hnn in Hq|].
    rewrite Hns in Hq by done. by apply R8.
Qed.

Lemma queue_initialize_rep m v q o :
  rep m v -> v q = [] -> rep (task_wait_queue_initialize (set_queue m q (fun _ => o)) q) v.
Proof.
  intros [R1 R2 R3 R4 R5 R6 R7 R8] Hv. split; try done;
    cbn [task_wait_queue_initialize set_queue queues nodes set_field]; intros q' Hq';
    (destruct (decide (q' = q)) as [->|Hne]; [by rewrite fupd_eq, Hv|rewrite !fupd_ne by done; auto]).
Qed.

(** The representation looks only at the objects. *)
Lemma rep_ext m m' v :
  (forall x, nodes m x = nodes m' x) -> (forall x, queues m x = queues m' x) -> rep m v -> rep m' v.
Proof.
  intros Hn Hq [R1 R2 R3 R4 R5 R6 R7 R8]. split; try done.
  - intros q. rewrite <- Hq. apply R4.
  - intros q. rewrite <- Hq. apply R5.
  - intros q. rewrite <- Hq. apply R6.
  - intros q l n k Hv. rewrite <- Hn. by apply R7.
  - intros n. rewrite <- Hn. apply R8.
Qed.

(** Following the links from the head of a queue. *)
Fixpoint walk (m : mem) (n : Z) (k : nat) : list Z :=
  match k with
  | O => []
  | S k => if n =? 0 then [] else n :: walk m (next (nodes m n)) k
  end.

Lemma walk_rep m v q k : rep m v -> q <> 0 -> walk m (head (queues m q)) k = take k (v q).
Proof.
  intros Hrep Hq. rewrite (rep_head _ _ Hrep q Hq).
  assert (forall l s, v q = l ++ s -> walk m (default 0 (s !! 0%nat)) k = take k s) as Hw; [|by apply (Hw [])].
  induction k as [|k IH]; intros l s Hs; [by destruct s|]. destruct s as [|n s]; [done|].
  change (default 0 ((n :: s) !! 0%nat)) with n. cbn [walk take].
  replace (n =? 0) with false by (symmetry; apply Z.eqb_neq; apply (rep_nonnull _ _ Hrep q); rewrite Hs; set_solver).
  f_equal. destruct (rep_node _ _ Hrep q l n s Hs) as (_ & _ & _ & ->). apply (IH (l ++ [n])). by rewrite <- app_assoc.
Qed.

Lemma walk_exact m v q k l :
  rep m v -> q <> 0 -> (length l < k)%nat -> walk m (head (queues m q)) k = l -> v q = l.
Proof.
  intros Hrep Hq Hl. rewrite (walk_rep m v q k Hrep Hq). intros <-. rewrite length_take in Hl.
  symmetry. apply take_ge. lia.
Qed.

Lemma rep_fun m v v' q : rep m v -> rep m v' -> v q = v' q.
Proof.
  intros Hrep Hrep'. destruct (decide (q = 0)) as [->|Hq].
  { by rewrite (rep_null _ _ Hrep), (rep_null _ _ Hrep'). }
  set (k := (length (v q) + length (v' q))%nat).
  rewrite <- (take_ge (v q) k) by (unfold k; lia). rewrite <- (take_ge (v' q) k) by (unfold k; lia).
  by rewrite <- (walk_rep m v), <- (walk_rep m v').
Qed.

#[export] Instance mem_queues : WaitQueues mem := {|
  wq_node_initialize := task_wait_node_initialize;
  wq_queue_initialize := task_wait_queue_initialize;
  wq_enqueue := task_wait_queue_enqueue;
  wq_dequeue := task_wait_queue_dequeue;
  wq_remove := task_wait_queue_remove;
  wq_queued := task_wait_node_queued;
  wq_count := task_wait_queue_count;
  wq_owner := fun m n => owner (nodes m n);
|}.

#[export] Program Instance mem_queue_laws : WaitQueueLaws mem := {| wq_rep := rep |}.
Next Obligation. intros m v q n Hrep Hn. by eapply Hrep. Qed.
Next Obligation. intros m v q q' n Hrep. by apply rep_unique with (m := m). Qed.
Next Obligation. intros m v v' q Hrep Hrep'. by apply (rep_fun m). Qed.
Next Obligation. intros m v q Hrep. apply Hrep. Qed.
Next Obligation.
  intros m v n Hrep. simpl. unfold task_wait_node_queued. destruct (n =? 0) eqn:E.
  - split; [done|]. intros [q Hq]. apply (rep_nonnull _ _ Hrep) in Hq. lia.
  - split; [apply Hrep; lia|]. intros [q Hq]. by apply (rep_member m v Hrep) in Hq as [-> _].
Qed.
Next Obligation.
  intros m v q Hrep. simpl. unfold task_wait_queue_count. destruct (q =? 0) eqn:E; [|apply Hrep; lia].
  replace q with 0 by lia. by rewrite (rep_null _ _ Hrep).
Qed.
Next Obligation.
  intros m v n own Hrep Hn Hn0. simpl. split.
  - pose proof (node_initialize_rep m v n own (nodes m n) Hrep Hn) as H.
    revert H. apply rep_ext; intros x; unfold task_wait_node_initialize; [|by destruct (n =? 0)].
    replace (n =? 0) with false by lia. cbn [set_node nodes set_field]. unfold fupd. by destruct (x =? n).
  - unfold task_wait_node_initialize. replace (n =? 0) with false by lia. cbn [set_node nodes set_field].
    rewrite fupd_eq. split; [done|]. intros x Hx. by rewrite fupd_ne.
Qed.
Next Obligation.
  intros m v q Hrep Hq. simpl. split; [|done].
  pose proof (queue_initialize_rep m v q (queues m q) Hrep Hq) as H. revert H. apply rep_ext; [done|].
  intros x. cbn [task_wait_queue_initialize set_queue queues set_field]. unfold fupd. by destruct (x =? q).
Qed.
Next Obligation.
  intros m v q n Hrep Hq Hn. simpl. destruct (queued (nodes m n)) eqn:E.
  - unfold task_wait_queue_enqueue, task_wait_node_queued. replace (_ || _) with false by lia.
    replace (n =? 0) with false by lia. by rewrite E.
  - pose proof (enqueue_rep m v q n Hrep Hq Hn E) as H. destruct (task_wait_queue_enqueue m q n) as [ok m'].
    destruct H as (-> & Ho & Hr). unfold task_wait_node_queued. replace (n =? 0) with false by lia. by rewrite E.
Qed.
Next Obligation. intros m v q Hrep. by apply dequeue_rep. Qed.
Next Obligation. intros m v q n Hrep Hq Hn. by apply remove_rep. Qed.

(** ** Sequences of operations *)

Inductive op :=
| NodeInitialize (n own : Z) (o : task_wait_node_t)
| QueueInitialize (q : Z) (o : task_wait_queue_t)
| Enqueue (q n : Z)
| Dequeue (q : Z)
| Remove (q n : Z)
| Queued (n : Z)
| Count (q : Z).

(** Initialisation overwrites whatever the memory of the object held. *)
Definition step (m : mem) (o : op) : Z * mem :=
  match o with
  | NodeInitialize n own o => (0, task_wait_node_initialize (set_node m n (fun _ => o)) n own)
  | QueueInitialize q o => (0, task_wait_queue_initialize (set_queue m q (fun _ => o)) q)
  | Enqueue q n => let '(ok, m) := task_wait_queue_enqueue m q n in (Z.b2z ok, m)
  | Dequeue q => task_wait_queue_dequeue m q
  | Remove q n => let '(ok, m) := task_wait_queue_remove m q n in (Z.b2z ok, m)
  | Queued n => (Z.b2z (task_wait_node_queued m n), m)
  | Count q => (task_wait_queue_count m q, m)
  end.

Fixpoint run (m : mem) (ops : list op) : list Z * mem :=
  match ops with
  | [] => ([], m)
  | o :: ops => let '(r, m) := step m o in let '(rs, m) := run m ops in (r :: rs, m)
  end.

(** What the operations do on the sequences. *)
Inductive spec (v : Z -> list Z) : op -> Z -> (Z -> list Z) -> Prop :=
| spec_node n own o : (forall q, ~ (n ∈ v q)) -> spec v (NodeInitialize n own o) 0 v
| spec_queue q o : v q = [] -> spec v (QueueInitialize q o) 0 v
| spec_enqueue q n :
    q <> 0 -> n <> 0 -> (forall q', ~ (n ∈ v q')) -> spec v (Enqueue q n) 1 (fupd v q (v q ++ [n]))
| spec_enqueue_fail q n :
    q = 0 \/ n = 0 \/ (exists q', n ∈ v q') -> spec v (Enqueue q n) 0 v
| spec_dequeue q n l : v q = n :: l -> spec v (Dequeue q) n (fupd v q l)
| spec_dequeue_empty q : v q = [] -> spec v (Dequeue q) 0 v
| spec_remove q l n k : v q = l ++ (n :: k) -> spec v (Remove q n) 1 (fupd v q (l ++ k))
| spec_remove_fail q n : ~ (n ∈ v q) -> spec v (Remove q n) 0 v
| spec_queued n : (exists q, n ∈ v q) -> spec v (Queued n) 1 v
| spec_not_queued n : (forall q, ~ (n ∈ v q)) -> spec v (Queued n) 0 v
| spec_count q : spec v (Count q) (u32 (zlen (v q))) v.

Inductive spec_run : (Z -> list Z) -> list op -> list Z -> (Z -> list Z) -> Prop :=
| spec_run_nil v : spec_run v [] [] v
| spec_run_cons v o r v1 ops rs v2 :
    spec v o r v1 -> spec_run v1 ops rs v2 -> spec_run v (o :: ops) (r :: rs) v2.

(** Objects are initialised only while they are in no queue. *)
Definition op_ok (v : Z -> list Z) (o : op) : Prop :=
  match o with
  | NodeInitialize n _ _ => forall q, ~ (n ∈ v q)
  | QueueInitialize q _ => v q = []
  | _ => True
  end.

Fixpoint ops_ok (v : Z -> list Z) (ops : list op) : Prop :=
  match ops with
  | [] => True
  | o :: ops => op_ok v o /\ forall r v', spec v o r v' -> ops_ok v' ops
  end.

Lemma step_spec m v o :
  rep m v -> op_ok v o -> exists v', spec v o (step m o).1 v' /\ rep (step m o).2 v'.
Proof.
  intros Hrep Hok. destruct o as [n own o|q o|q n|q|q n|n|q]; cbn [op_ok step fst snd] in *.
  - exists v. split; [by constructor|by apply node_initialize_rep].
  - exists v. split; [by constructor|by apply queue_initialize_rep].
  - destruct (decide (q = 0)) as [->|Hq]; [exists v; split; [apply spec_enqueue_fail; auto|done]|].
    destruct (decide (n = 0)) as [->|Hn].
    { unfold task_wait_queue_enqueue. rewrite orb_true_r. exists v.
      split; [apply spec_enqueue_fail; auto|done]. }
    pose proof (wq_enqueue_spec m v q n Hrep Hq Hn) as H. simpl in H.
    pose proof (wq_queued_spec m v n Hrep) as Hqd. simpl in Hqd.
    destruct (task_wait_queue_enqueue m q n) as [ok m']. destruct H as (-> & _ & H).
    destruct (task_wait_node_queued m n); simpl in *.
    + subst m'. exists v. split; [|done]. apply spec_enqueue_fail. right; right. by apply Hqd.
    + eexists. split; [apply spec_enqueue; try done|exact H].
      intros q' Hq'. assert (false = true) by (apply Hqd; eauto). done.
  - pose proof (dequeue_rep m v q Hrep) as H. destruct (task_wait_queue_dequeue m q) as [n m'].
    destruct H as [_ H]. destruct (v q) as [|x l] eqn:Hv; destruct H as [-> H]; simpl.
    + subst m'. exists v. split; [by apply spec_dequeue_empty|done].
    + eexists. split; [by eapply spec_dequeue|done].
  - destruct (decide (q = 0)) as [->|Hq].
    { exists v. split; [apply spec_remove_fail; rewrite (rep_null _ _ Hrep); set_solver|done]. }
    destruct (decide (n = 0)) as [->|Hn].
    { unfold task_wait_queue_remove. rewrite orb_true_r. exists v. split; [|done].
      apply spec_remove_fail. intros H%(rep_nonnull _ _ Hrep). done. }
    pose proof (remove_rep m v q n Hrep Hq Hn) as H. destruct (task_wait_queue_remove m q n) as [[] m'].
    + destruct H as (_ & l & k & Hv & H). eexists. split; [by eapply spec_remove|done].
    + destruct H as (_ & Hv & ->). exists v. split; [by apply spec_remove_fail|done].
  - pose proof (wq_queued_spec m v n Hrep) as H. simpl in H. exists v. split; [|done].
    destruct (task_wait_node_queued m n); [apply spec_queued; by apply H|].
    apply spec_not_queued. intros q Hq. assert (false = true) by (apply H; eauto). done.
  - pose proof (wq_count_spec m v q Hrep) as H. simpl in H. rewrite H. exists v. split; [constructor|done].
Qed.

(** C13. Wait queues are first-in first-out sequences of nodes: for every sequence of
    operations, the results are those of sequences in which a node is in at most one
    queue, an enqueue appends, a dequeue takes the first node and a removal takes the
    node from wherever it is, and the links of the memory represent the sequences
    throughout. *)
Theorem wait_queue_refines_sequences m v ops :
  rep m v -> ops_ok v ops ->
  exists v', spec_run v ops (run m ops).1 v' /\ rep (run m ops).2 v'.
Proof.
  revert m v. induction ops as [|o ops IH]; intros m v Hrep Hok; [by exists v; split; [constructor|]|].
  destruct Hok as [Ho Hops]. destruct (step_spec m v o Hrep Ho) as (v1 & Hs & Hr). cbn [run].
  destruct (step m o) as [r m1]. destruct (IH m1 v1 Hr (Hops _ _ Hs)) as (v2 & Hs2 & Hr2).
  destruct (run m1 ops) as [rs m2]. exists v2. split; [by econstructor|done].
Qed.

(** Memory in which no node is queued, the objects at 7 and 8 being arbitrary. *)
Definition example_mem : mem := {|
  nodes := fun _ => {| previous := 0; next := 0; node_queue := 0; owner := 0; queued := false |};
  queues := fun _ => {| head := 0; tail := 0; count := 0 |};
|}.

Definition example_ops : list op :=
  [NodeInitialize 7 70 {| previous := 3; next := 4; node_queue := 5; owner := 6; queued := true |};
   QueueInitialize 100 {| head := 9; tail := 8; count := 7 |};
   Enqueue 100 7; Enqueue 100 8; Enqueue 100 9; Enqueue 200 8; Remove 200 8; Remove 100 8; Count 100;
   Dequeue 100; Enqueue 100 7; Queued 9; Dequeue 100; Queued 9; Dequeue 100; Dequeue 100].

Lemma wait_queue_refines_witness :
  (run example_mem example_ops).1 = [0; 0; 1; 1; 1; 0; 0; 1; 2; 7; 1; 1; 9; 0; 7; 0] /\
  exists v', spec_run (fun _ => []) example_ops (run example_mem example_ops).1 v' /\
             rep (run example_mem example_ops).2 v'.
Proof.
  split; [vm_compute; reflexivity|]. apply (wait_queue_refines_sequences example_mem).
  - split; try done.
    + intros q. apply NoDup_nil_2.
    + intros q n Hn. by apply elem_of_nil in Hn.
    + intros q l n k Hl. by destruct l.
  - cbn [example_ops ops_ok op_ok]. split; [intros q Hq; by apply elem_of_nil in Hq|].
    intros r v' Hs. inversion Hs; subst. split; [done|]. intros r' v'' Hs'. repeat split.
Defined.

End WaitQueue.
