(* ===== verification/Scheduler.v ===== *)
(** * The scheduler (kernel/sched/core/scheduler.c, kernel/sched/policy/round_robin.c)

    The scheduler is modelled over any implementation of wait queues that satisfies
    their laws.  A function runs up to its context switch: it returns the switch it asks
    for, and the machine below performs it.  The calls that leave the scheduler
    (activating an address space, setting the kernel stack, releasing the caller's lock)
    are recorded in order.  A function runs without interleaving with another one. *)

From S2P Require Import Prelude WaitQueue.

Module Scheduler.

Inductive task_state_t := TASK_READY | TASK_RUNNING | TASK_BLOCKED | TASK_TERMINATED.

#[export] Instance task_state_eq_dec : EqDecision task_state_t.
Proof. solve_decision. Defined.

Record task_t := {
  id : Z;
  state : task_state_t;
  stack : Z;
  stack_size : Z;
  process : Z;
}.
#[export] Instance eta_task : Eta task_t := fun t => {|
  id := id t; state := state t; stack := stack t; stack_size := stack_size t; process := process t |}.

(** The wait node is inside the task object, after the id, the state and the context. *)
Definition wait_node (task : Z) : Z := task + 72.

(** The calls out of the scheduler. *)
Inductive call :=
| process_activate (p : Z)
| arch_set_kernel_stack (cpu top : Z)
| spinlock_unlock_irqrestore (lock : Z).

(** A saved context: the one of a task, or the one that started the scheduler. *)
Inductive context := TaskContext (task : Z) | HostContext.

(** How a function ends: it returns a value, switches context, or stops the processor. *)
Inductive outcome := Return (r : Z) | Switch (from to : context) | Halt.

Record scheduler (W : Type) := Scheduler {
  queues : W;
  tasks : Z -> task_t;
  current_task : Z;
  idle_task : Z;
  host_active : bool;
  host_context_valid : bool;
  preemption_enabled : bool;
  preemptions : Z;
  calls : list call;
}.
Arguments Scheduler {W}.
Arguments queues {W}.
Arguments tasks {W}.
Arguments current_task {W}.
Arguments idle_task {W}.
Arguments host_active {W}.
Arguments host_context_valid {W}.
Arguments preemption_enabled {W}.
Arguments preemptions {W}.
Arguments calls {W}.
#[export] Instance eta_scheduler W : Eta (scheduler W) := fun s => {|
  queues := queues s; tasks := tasks s; current_task := current_task s; idle_task := idle_task s;
  host_active := host_active s; host_context_valid := host_context_valid s;
  preemption_enabled := preemption_enabled s; preemptions := preemptions s; calls := calls s |}.

Section scheduler.
Context {W : Type} `{WaitQueues W}.

(** The address of the ready queue, and the processor's descriptor (its logical id). *)
Context (ready_queue : Z) (arch_percpu_current : option Z).

Implicit Types s : scheduler W.

Definition set_state s (task : Z) (st : task_state_t) : scheduler W :=
  s<| tasks := fupd (tasks s) task ((tasks s task)<| state := st |>) |>.

Definition call_out s (c : call) : scheduler W := s<| calls := calls s ++ [c] |>.

Definition task_initialize s (task ident : Z) : scheduler W :=
  let s := s<| tasks := fupd (tasks s) task
    {| id := ident; state := TASK_READY; stack := 0; stack_size := 0; process := 0 |} |> in
  s<| queues := wq_node_initialize (queues s) (wait_node task) task |>.

Definition scheduler_initialize s : scheduler W :=
  s<| queues := wq_queue_initialize (queues s) ready_queue |>
   <| current_task := 0 |><| idle_task := 0 |><| host_active := false |>
   <| host_context_valid := false |><| preemption_enabled := false |><| preemptions := 0 |>.

Definition scheduler_policy_next s (queue idle : Z) : Z * scheduler W :=
  let '(node, w) := wq_dequeue (queues s) queue in
  let s := s<| queues := w |> in
  if node =? 0 then (idle, if negb (idle =? 0) then set_state s idle TASK_RUNNING else s)
  else
    let task := wq_owner w node in
    (task, set_state s task TASK_RUNNING).

Definition scheduler_enqueue s (task : Z) : bool * scheduler W :=
  if task =? 0 then (false, s)
  else if decide (state (tasks s task) = TASK_TERMINATED) then (false, s)
  else
    let '(ok, w) := wq_enqueue (queues s) ready_queue (wait_node task) in
    let s := s<| queues := w |> in
    if negb ok then (false, s) else (true, set_state s task TASK_READY).

Definition scheduler_start_task s (task : Z) : bool * scheduler W :=
  if task =? 0 then (false, s)
  else if decide (state (tasks s task) <> TASK_READY) then (false, s)
  else if wq_queued (queues s) (wait_node task) then (false, s)
  else
    let '(ok, w) := wq_enqueue (queues s) ready_queue (wait_node task) in
    (ok, s<| queues := w |>).

Definition scheduler_remove s (task : Z) : bool * scheduler W :=
  if task =? 0 then (false, s)
  else if task =? current_task s then (false, s)
  else if negb (wq_queued (queues s) (wait_node task)) then (false, s)
  else
    let '(ok, w) := wq_remove (queues s) ready_queue (wait_node task) in
    (ok, s<| queues := w |>).

Definition scheduler_next s : Z * scheduler W := scheduler_policy_next s ready_queue (idle_task s).

Definition scheduler_set_current s (task : Z) : scheduler W :=
  let s := s<| current_task := task |> in
  let s := if negb (task =? 0) then set_state s task TASK_RUNNING else s in
  let s := if negb (task =? 0) && negb (process (tasks s task) =? 0)
           then call_out s (process_activate (process (tasks s task))) else s in
  match arch_percpu_current with
  | Some cpu =>
    if negb (task =? 0) && negb (stack (tasks s task) =? 0) && negb (stack_size (tasks s task) =? 0)
    then call_out s (arch_set_kernel_stack cpu
           (Z.land (u64 (stack (tasks s task) + stack_size (tasks s task))) (u64 (Z.lnot 0xf))))
    else s
  | None => s
  end.

Definition scheduler_set_idle s (task : Z) : scheduler W :=
  let s := s<| idle_task := task |> in
  if negb (task =? 0) then set_state s task TASK_READY else s.

Definition scheduler_yield s : outcome * scheduler W :=
  let previous := current_task s in
  let '(ok, s) := if negb (previous =? 0) then scheduler_enqueue s previous else (true, s) in
  if negb ok then (Return 0, s)
  else
    let '(next, s) := scheduler_next s in
    if next =? 0
    then (Return 0, if negb (previous =? 0) then scheduler_set_current s previous else s)
    else
      let s := scheduler_set_current s next in
      if negb (previous =? 0) && negb (next =? previous)
      then (Switch (TaskContext previous) (TaskContext next), s)
      else (Return 0, s).

Definition scheduler_enable_preemption s (enabled : Z) : scheduler W :=
  s<| preemption_enabled := negb (enabled =? 0) |>.

Definition scheduler_timer_interrupt s : outcome * scheduler W :=
  let previous := current_task s in
  if negb (preemption_enabled s) || (previous =? 0) then (Return 0, s)
  else
    let '(ok, s) := scheduler_enqueue s previous in
    if negb ok then (Return 0, s)
    else
      let '(next, s) := scheduler_next s in
      if next =? 0 then (Return 0, scheduler_set_current s previous)
      else
        let s := scheduler_set_current s next in
        if negb (next =? previous)
        then (Switch (TaskContext previous) (TaskContext next),
              s<| preemptions := u64 (preemptions s + 1) |>)
        else (Return 0, s).

Definition scheduler_start s : outcome * scheduler W :=
  if host_active s || negb (current_task s =? 0) then (Return 0, s)
  else
    let '(next, s) := scheduler_next s in
    if (next =? 0) || (next =? idle_task s) then (Return 0, s)
    else
      let s := s<| host_active := true |><| host_context_valid := true |> in
      (Switch HostContext (TaskContext next), scheduler_set_current s next).

(** The rest of [scheduler_start], when its context is resumed. *)
Definition scheduler_start_resumed s : outcome * scheduler W :=
  (Return 1, s<| host_active := false |><| host_context_valid := false |>).

Definition scheduler_task_exit s : outcome * scheduler W :=
  let finished := current_task s in
  if finished =? 0 then (Halt, s)
  else
    let s := (set_state s finished TASK_TERMINATED)<| current_task := 0 |> in
    let '(next, s) := scheduler_next s in
    if negb (next =? 0)
    then (Switch (TaskContext finished) (TaskContext next), scheduler_set_current s next)
    else if host_context_valid s then (Switch (TaskContext finished) HostContext, s)
    else (Halt, s).

Definition scheduler_block s (task queue : Z) : bool * scheduler W :=
  if (task =? 0) || (queue =? 0) then (false, s)
  else if decide (state (tasks s task) = TASK_TERMINATED) then (false, s)
  else if wq_queued (queues s) (wait_node task) then (false, s)
  else
    let '(ok, w) := wq_enqueue (queues s) queue (wait_node task) in
    let s := s<| queues := w |> in
    if negb ok then (false, s)
    else
      let s := set_state s task TASK_BLOCKED in
      (true, if current_task s =? task then s<| current_task := 0 |> else s).

(** The end of both ways of blocking, once the task waits in the queue: there is nothing
    to run and the task goes on, or the next task runs. *)
Definition block_switch s (blocked queue : Z) : outcome * scheduler W :=
  let '(next, s) := scheduler_next s in
  if next =? 0
  then
    let '(_, w) := wq_remove (queues s) queue (wait_node blocked) in
    let s := s<| queues := w |> in
    (Return 0, (set_state s blocked TASK_RUNNING)<| current_task := blocked |>)
  else (Switch (TaskContext blocked) (TaskContext next), scheduler_set_current s next).

Definition scheduler_block_current s (queue : Z) : outcome * scheduler W :=
  let blocked := current_task s in
  if blocked =? 0 then (Return 0, s)
  else if decide (state (tasks s blocked) = TASK_TERMINATED) then (Return 0, s)
  else if wq_queued (queues s) (wait_node blocked) then (Return 0, s)
  else if queue =? 0 then (Return 0, s)
  else
    let '(ok, w) := wq_enqueue (queues s) queue (wait_node blocked) in
    let s := s<| queues := w |> in
    if negb ok then (Return 0, s)
    else block_switch ((set_state s blocked TASK_BLOCKED)<| current_task := 0 |>) blocked queue.

Definition scheduler_block_current_with_lock s (queue held_lock : Z) : outcome * scheduler W :=
  let blocked := current_task s in
  if (held_lock =? 0) || (queue =? 0) || (blocked =? 0)
  then (Return 0, if negb (held_lock =? 0) then call_out s (spinlock_unlock_irqrestore held_lock) else s)
  else
    let unlocked s := call_out s (spinlock_unlock_irqrestore held_lock) in
    if decide (state (tasks s blocked) = TASK_TERMINATED) then (Return 0, unlocked s)
    else if wq_queued (queues s) (wait_node blocked) then (Return 0, unlocked s)
    else
      let '(ok, w) := wq_enqueue (queues s) queue (wait_node blocked) in
      let s := s<| queues := w |> in
      if negb ok then (Return 0, unlocked s)
      else
        let s := set_state s blocked TASK_BLOCKED in
        let s := if current_task s =? blocked then s<| current_task := 0 |> else s in
        block_switch (unlocked s) blocked queue.

(** The task, or null. *)
Definition scheduler_wake_one s (queue : Z) : Z * scheduler W :=
  if queue =? 0 then (0, s)
  else
    let '(node, w) := wq_dequeue (queues s) queue in
    let s := s<| queues := w |> in
    if node =? 0 then (0, s)
    else
      let task := wq_owner w node in
      if (task =? 0) || bool_decide (state (tasks s task) <> TASK_BLOCKED) then (0, s)
      else
        let s := set_state s task TASK_READY in
        let '(ok, w) := wq_enqueue (queues s) ready_queue (wait_node task) in
        let s := s<| queues := w |> in
        if negb ok
        then
          let s := set_state s task TASK_BLOCKED in
          let '(_, w) := wq_enqueue (queues s) queue (wait_node task) in
          (0, s<| queues := w |>)
        else (task, s).

Definition scheduler_ready_count s : Z := wq_count (queues s) ready_queue.

End scheduler.

(** ** The processor *)

(** The scheduler and the context that runs. *)
Record machine (W : Type) := Machine { sched : scheduler W; cpu : context }.
Arguments Machine {W}.
Arguments sched {W}.
Arguments cpu {W}.

(** What the running context can ask for. *)
Inductive op :=
| TaskInitialize (task ident : Z)
| Enqueue (task : Z)
| StartTask (task : Z)
| Remove (task : Z)
| SetIdle (task : Z)
| Yield
| EnablePreemption (enabled : Z)
| TimerInterrupt
| Start
| Exit
| Block (task queue : Z)
| BlockCurrent (queue : Z)
| BlockCurrentWithLock (queue lock : Z)
| WakeOne (queue : Z).

Section machine.
Context {W : Type} `{WaitQueues W}.
Context (ready_queue : Z) (arch_percpu_current : option Z).

Definition exec (s : scheduler W) (o : op) : outcome * scheduler W :=
  let result '(ok, s) := (Return (Z.b2z ok), s) in
  match o with
  | TaskInitialize t i => (Return 0, task_initialize s t i)
  | Enqueue t => result (scheduler_enqueue ready_queue s t)
  | StartTask t => result (scheduler_start_task ready_queue s t)
  | Remove t => result (scheduler_remove ready_queue s t)
  | SetIdle t => (Return 0, scheduler_set_idle s t)
  | Yield => scheduler_yield ready_queue arch_percpu_current s
  | EnablePreemption e => (Return 0, scheduler_enable_preemption s e)
  | TimerInterrupt => scheduler_timer_interrupt ready_queue arch_percpu_current s
  | Start => scheduler_start ready_queue arch_percpu_current s
  | Exit => scheduler_task_exit ready_queue arch_percpu_current s
  | Block t q => result (scheduler_block s t q)
  | BlockCurrent q => scheduler_block_current ready_queue arch_percpu_current s q
  | BlockCurrentWithLock q l => scheduler_block_current_with_lock ready_queue arch_percpu_current s q l
  | WakeOne q => let '(t, s) := scheduler_wake_one ready_queue s q in (Return t, s)
  end.

(** A switch to the context that started the scheduler runs the rest of
    [scheduler_start]. *)
Definition machine_step (m : machine W) (o : op) : outcome * machine W :=
  let '(r, s) := exec (sched m) o in
  (r, match r with
      | Switch _ HostContext => Machine (scheduler_start_resumed s).2 HostContext
      | Switch _ to => Machine s to
      | _ => Machine s (cpu m)
      end).

Fixpoint machine_run (m : machine W) (ops : list op) : list outcome * machine W :=
  match ops with
  | [] => ([], m)
  | o :: ops =>
    let '(r, m) := machine_step m o in
    let '(rs, m) := machine_run m ops in (r :: rs, m)
  end.

(** ** Where the tasks are *)

(** A task whose object has been initialised. *)
Definition live (own : Z -> Z) (t : Z) : Prop := 0 < t /\ own (wait_node t) = t.

(** The state of a task says where it is: [c] is the task that runs (null if none), and
    the idle task can be out of the queues without running. *)
Record placed (own : Z -> Z) (st : Z -> task_state_t) (idle c : Z) (v : Z -> list Z) : Prop := {
  pl_queue : forall q n, n ∈ v q -> exists t, live own t /\ n = wait_node t /\
    st t = if q =? ready_queue then TASK_READY else TASK_BLOCKED;
  pl_blocked : forall t, live own t -> st t = TASK_BLOCKED ->
    exists q, q <> ready_queue /\ wait_node t ∈ v q;
  pl_running : forall t, live own t -> st t = TASK_RUNNING -> t = c \/ t = idle;
  pl_current : c <> 0 -> live own c /\ st c = TASK_RUNNING;
  pl_idle : idle <> 0 -> live own idle /\ (st idle = TASK_READY \/ st idle = TASK_RUNNING);
}.

Lemma placed_ext own own' st st' idle c v :
  (forall x, own' x = own x) -> (forall x, st' x = st x) ->
  placed own st idle c v -> placed own' st' idle c v.
Proof.
  intros Ho Hs [P1 P2 P3 P4 P5]. split; unfold live in *.
  - intros q n Hn. destruct (P1 q n Hn) as (t & Hl & -> & Ht). exists t. by rewrite Ho, Hs.
  - intros t. rewrite Ho, Hs. apply P2.
  - intros t. rewrite Ho, Hs. apply P3.
  - rewrite Ho, Hs. done.
  - rewrite Ho, Hs. done.
Qed.

(** One task moves: its state and its place change together. *)
Lemma placed_move own st idle c v t x c' v' :
  placed own st idle c v -> live own t ->
  (forall q n, n <> wait_node t -> (n ∈ v' q <-> n ∈ v q)) ->
  (forall q, wait_node t ∈ v' q -> x = if q =? ready_queue then TASK_READY else TASK_BLOCKED) ->
  (x = TASK_BLOCKED -> exists q, q <> ready_queue /\ wait_node t ∈ v' q) ->
  (x = TASK_RUNNING -> t = c' \/ t = idle) ->
  (t = idle -> x = TASK_READY \/ x = TASK_RUNNING) ->
  (c' = c \/ c = t \/ c = 0) -> (c' <> 0 -> (c' = t /\ x = TASK_RUNNING) \/ (c' = c /\ c <> t)) ->
  placed own (fupd st t x) idle c' v'.
Proof.
  intros [P1 P2 P3 P4 P5] Ht Hv Hq Hb Hr Hi Hc Hc'. split.
  - intros q n Hn. destruct (decide (n = wait_node t)) as [->|Hne].
    + exists t. rewrite fupd_eq. auto.
    + apply Hv in Hn; [|done]. destruct (P1 q n Hn) as (u & Hu & -> & Hs). exists u.
      rewrite fupd_ne; [done|]. intros ->. done.
  - intros u Hu. destruct (decide (u = t)) as [->|Hne]; [rewrite fupd_eq; auto|].
    rewrite fupd_ne by done. intros Hs. destruct (P2 u Hu Hs) as (q & Hq1 & Hq2). exists q.
    split; [done|]. apply Hv; [|done]. unfold wait_node. lia.
  - intros u Hu. destruct (decide (u = t)) as [->|Hne]; [rewrite fupd_eq; auto|].
    rewrite fupd_ne by done. intros Hs. destruct (P3 u Hu Hs) as [->|]; [|by right].
    destruct Hc as [->|[->| ->]]; [by left|done|]. destruct Hu. lia.
  - intros Hn0. destruct (Hc' Hn0) as [[-> ->]|[-> Hne]]; [by rewrite fupd_eq|].
    rewrite fupd_ne by done. auto.
  - intros Hn0. destruct (decide (idle = t)) as [->|Hne]; [rewrite fupd_eq; auto|].
    rewrite fupd_ne by done. auto.
Qed.

End machine.

(** ** The operations keep the tasks placed *)

Section ok.
Context {W : Type} `{WaitQueueLaws W}.
Context (ready_queue : Z) (arch_percpu_current : option Z).
Context (Hready : ready_queue <> 0).

Implicit Types s : scheduler W.
Abbreviation live s := (live (wq_owner (queues s))).

Record ok s (v : Z -> list Z) (c : Z) : Prop := {
  ok_rep : wq_rep (queues s) v;
  ok_placed : placed ready_queue (wq_owner (queues s)) (fun t => state (tasks s t)) (idle_task s) c v;
}.

(** The variables a change of the queues and of the states leaves alone. *)
Definition flags s := (idle_task s, current_task s, host_active s, host_context_valid s, preemption_enabled s).

Lemma flags_inv s i c a b p :
  flags s = (i, c, a, b, p) ->
  idle_task s = i /\ current_task s = c /\ host_active s = a /\ host_context_valid s = b /\
  preemption_enabled s = p.
Proof. unfold flags. intros. by simplify_eq. Qed.

Lemma set_queues_same s w : w = queues s -> s<| queues := w |> = s.
Proof. intros ->. by destruct s. Qed.

(** [ok] after the queues and the state of one task have changed. *)
Lemma ok_move s v c t x w c' v' s' :
  ok s v c -> live s t -> wq_rep w v' -> (forall n, wq_owner w n = wq_owner (queues s) n) ->
  queues s' = w -> idle_task s' = idle_task s ->
  (forall u, state (tasks s' u) = fupd (fun u => state (tasks s u)) t x u) ->
  (forall q n, n <> wait_node t -> (n ∈ v' q <-> n ∈ v q)) ->
  (forall q, wait_node t ∈ v' q -> x = if q =? ready_queue then TASK_READY else TASK_BLOCKED) ->
  (x = TASK_BLOCKED -> exists q, q <> ready_queue /\ wait_node t ∈ v' q) ->
  (x = TASK_RUNNING -> t = c' \/ t = idle_task s) ->
  (t = idle_task s -> x = TASK_READY \/ x = TASK_RUNNING) ->
  (c' = c \/ c = t \/ c = 0) -> (c' <> 0 -> (c' = t /\ x = TASK_RUNNING) \/ (c' = c /\ c <> t)) ->
  ok s' v' c'.
Proof.
  intros [Hr Hp] Ht Hw Ho Hq Hi Hst. intros. split; rewrite Hq; [done|]. rewrite Hi.
  eapply placed_ext; [exact Ho|exact Hst|]. by eapply placed_move.
Qed.

Lemma set_state_state s t x u :
  state (tasks (set_state s t x) u) = fupd (fun u => state (tasks s u)) t x u.
Proof. unfold set_state. cbn [tasks set_field]. unfold fupd. by destruct (u =? t). Qed.

(** A task that runs or has ended is in no queue. *)
Lemma not_queued s v c t :
  ok s v c -> state (tasks s t) = TASK_RUNNING \/ state (tasks s t) = TASK_TERMINATED ->
  forall q, ~ (wait_node t ∈ v q).
Proof.
  intros [_ Hp] Hs q Hq. destruct (pl_queue _ _ _ _ _ _ Hp q _ Hq) as (u & _ & Hu & Hx).
  replace u with t in Hx by (unfold wait_node in Hu; lia). revert Hx. case_if as E; destruct Hs; congruence.
Qed.

Lemma live_node s v c t : ok s v c -> live s t -> t <> 0 /\ wait_node t <> 0.
Proof. intros _ [Ht _]. unfold wait_node. lia. Qed.

(** Adding a node to a queue. *)
Lemma elem_of_added (v : Z -> list Z) q n q' x : x ∈ fupd v q (v q ++ [n]) q' <-> x ∈ v q' \/ (q' = q /\ x = n).
Proof.
  unfold fupd. case_if as E.
  - replace q' with q by lia. rewrite elem_of_app, list_elem_of_singleton. naive_solver.
  - split; [by left|]. intros [?|[-> _]]; [done|lia].
Qed.

(** Putting a task that is in no queue into one. *)
Lemma added_ok s v c t q x w :
  ok s v c -> live s t -> (forall q, ~ (wait_node t ∈ v q)) ->
  (x = if q =? ready_queue then TASK_READY else TASK_BLOCKED) -> (t = idle_task s -> q = ready_queue) ->
  wq_rep w (fupd v q (v q ++ [wait_node t])) -> (forall n, wq_owner w n = wq_owner (queues s) n) ->
  ok (set_state (s<| queues := w |>) t x) (fupd v q (v q ++ [wait_node t])) (if t =? c then 0 else c).
Proof.
  intros Hok Hl Hn Hx Hi Hr Ho. eapply (ok_move s v c t x w); try done.
  - intros u. by rewrite set_state_state.
  - intros q' n Hne. rewrite elem_of_added. naive_solver.
  - intros q'. rewrite elem_of_added. intros [Hq|[-> _]]; [by destruct (Hn q')|done].
  - intros Hb. exists q. rewrite elem_of_added. split; [|by right]. intros ->. rewrite Z.eqb_refl in Hx. congruence.
  - intros Hxr. revert Hx. case_if as E; congruence.
  - intros ->%Hi. rewrite Z.eqb_refl in Hx. by left.
  - case_if as E; [right; left; lia|by left].
  - case_if as E; [done|]. right. split; [done|lia].
Qed.

Lemma enqueue_ok s v c t :
  ok s v c -> live s t -> state (tasks s t) <> TASK_TERMINATED -> (forall q, ~ (wait_node t ∈ v q)) ->
  let '(r, s') := scheduler_enqueue ready_queue s t in
  r = true /\ ok s' (fupd v ready_queue (v ready_queue ++ [wait_node t])) (if t =? c then 0 else c) /\
  flags s' = flags s /\ (forall u, live s' u <-> live s u).
Proof.
  intros Hok Hl Ht Hn. destruct (live_node s v c t Hok Hl) as [Ht0 Hn0]. unfold scheduler_enqueue.
  replace (t =? 0) with false by lia. rewrite decide_False by done.
  pose proof (wq_enqueue_spec (queues s) v ready_queue (wait_node t) (ok_rep _ _ _ Hok) Hready Hn0) as He.
  pose proof (wq_queued_spec (queues s) v (wait_node t) (ok_rep _ _ _ Hok)) as Hq.
  destruct (wq_enqueue (queues s) ready_queue (wait_node t)) as [r w]. destruct He as (-> & Ho & He).
  destruct (wq_queued (queues s) (wait_node t)) eqn:E; [destruct (proj1 Hq eq_refl) as [q Hin]; by destruct (Hn q)|].
  cbn [negb] in *. split; [done|]. split; [|split; [done|]].
  - apply added_ok; try done. by rewrite Z.eqb_refl.
  - intros u. unfold Scheduler.live. cbn [queues set_state set_field]. by rewrite Ho.
Qed.

(** Taking a node out of a queue. *)
Lemma elem_of_removed (v : Z -> list Z) q l n k q' x :
  NoDup (v q) -> v q = l ++ (n :: k) ->
  (x <> n -> (x ∈ fupd v q (l ++ k) q' <-> x ∈ v q')) /\ (x = n -> x ∈ fupd v q (l ++ k) q' -> q' <> q).
Proof.
  intros Hnd Hv. rewrite Hv in Hnd. apply NoDup_app in Hnd as (_ & Hd & [Hnk _]%NoDup_cons).
  unfold fupd. case_if as E.
  - replace q' with q by lia. rewrite Hv, !elem_of_app, elem_of_cons. split; [naive_solver|].
    intros -> [Hl|Hk] _; [|done]. apply (Hd n Hl). left.
  - split; [done|]. lia.
Qed.

(** Taking a task out of its queue to run it. *)
Lemma removed_ok s v t q l k w s' :
  ok s v 0 -> live s t -> v q = l ++ (wait_node t :: k) ->
  wq_rep w (fupd v q (l ++ k)) -> (forall n, wq_owner w n = wq_owner (queues s) n) ->
  queues s' = w -> idle_task s' = idle_task s ->
  (forall u, state (tasks s' u) = fupd (fun u => state (tasks s u)) t TASK_RUNNING u) ->
  ok s' (fupd v q (l ++ k)) t.
Proof.
  intros Hok Hl Hv Hr Ho Hq Hi Hs. pose proof (wq_rep_NoDup _ _ q (ok_rep _ _ _ Hok)) as Hnd.
  pose proof (elem_of_removed v q l (wait_node t) k) as Hel.
  eapply (ok_move s v 0 t TASK_RUNNING w); try done.
  - intros q' n Hne. by apply Hel.
  - intros q' Hin. exfalso. destruct (Hel q' (wait_node t) Hnd Hv) as [_ Hne]. specialize (Hne eq_refl Hin).
    apply Hne. apply (wq_rep_unique _ _ q' q (wait_node t) (ok_rep _ _ _ Hok)); [|rewrite Hv; set_solver].
    unfold fupd in Hin. by replace (q' =? q) with false in Hin by lia.
  - by left.
  - by right.
  - auto.
  - by left.
Qed.

Lemma next_ok s v :
  ok s v 0 ->
  let '(t, s') := scheduler_next ready_queue s in
  flags s' = flags s /\ (forall u, live s' u <-> live s u) /\
  match v ready_queue with
  | [] => t = idle_task s /\ ok s' v t
  | n :: l => n = wait_node t /\ t <> 0 /\ ok s' (fupd v ready_queue l) t
  end.
Proof.
  intros Hok. unfold scheduler_next, scheduler_policy_next.
  pose proof (wq_dequeue_spec (queues s) v ready_queue (ok_rep _ _ _ Hok)) as Hd.
  pose proof (pl_queue _ _ _ _ _ _ (ok_placed _ _ _ Hok)) as Hq.
  destruct (wq_dequeue (queues s) ready_queue) as [n w]. destruct Hd as [Ho Hd].
  destruct (v ready_queue) as [|m l] eqn:Hv.
  - destruct Hd as [-> ->]. cbn [Z.eqb]. rewrite set_queues_same by done.
    destruct (idle_task s =? 0) eqn:E; cbn [negb]; [by replace (idle_task s) with 0 by lia|].
    split; [done|]. split; [done|]. split; [done|].
    destruct (pl_idle _ _ _ _ _ _ (ok_placed _ _ _ Hok)) as [Hl Hi]; [lia|].
    eapply (ok_move s v 0 (idle_task s) TASK_RUNNING (queues s) _ v); try done; auto.
    + apply Hok.
    + intros u. by rewrite set_state_state.
    + intros q Hin. destruct (Hq q _ Hin) as (u & _ & Hu & Hx).
      replace u with (idle_task s) in Hx by (unfold wait_node in Hu; lia).
      destruct (q =? ready_queue) eqn:Eq; [|destruct Hi; congruence].
      apply Z.eqb_eq in Eq as ->. rewrite Hv in Hin. by apply elem_of_nil in Hin.
  - destruct Hd as [-> Hr]. destruct (Hq ready_queue m) as (t & Hl & -> & Hs); [rewrite Hv; left|].
    destruct (live_node s v 0 t Hok Hl) as [Ht0 Hn0]. replace (wait_node t =? 0) with false by lia.
    destruct Hl as [Htp Hto]. rewrite Ho, Hto. split; [done|]. split; [|split; [done|]].
    + intros u. unfold Scheduler.live. cbn [queues set_state set_field]. by rewrite Ho.
    + split; [done|]. apply (removed_ok s v t ready_queue [] l w); try done.
      intros u. by rewrite set_state_state.
Qed.

Lemma set_current_fields s t :
  t <> 0 ->
  let s' := scheduler_set_current arch_percpu_current s t in
  queues s' = queues s /\ flags s' = (idle_task s, t, host_active s, host_context_valid s, preemption_enabled s) /\
  (forall u, state (tasks s' u) = fupd (fun u => state (tasks s u)) t TASK_RUNNING u).
Proof.
  intros Ht. unfold scheduler_set_current. replace (t =? 0) with false by lia. cbn [negb andb].
  set (s1 := set_state _ t _).
  assert (queues s1 = queues s /\
    flags s1 = (idle_task s, t, host_active s, host_context_valid s, preemption_enabled s) /\
    (forall u, state (tasks s1 u) = fupd (fun u => state (tasks s u)) t TASK_RUNNING u)) as Hs1.
  { split; [done|]. split; [done|]. intros u. unfold s1. by rewrite set_state_state. }
  clearbody s1. destruct (process (tasks s1 t) =? 0), arch_percpu_current; cbn [negb]; try done; by case_if as E.
Qed.

Lemma set_current_ok s v t :
  ok s v t -> t <> 0 ->
  let s' := scheduler_set_current arch_percpu_current s t in
  ok s' v t /\ flags s' = (idle_task s, t, host_active s, host_context_valid s, preemption_enabled s) /\
  queues s' = queues s.
Proof.
  intros Hok Ht s'. destruct (set_current_fields s t Ht) as (Hq & Hf & Hs). fold s' in Hq, Hf, Hs.
  destruct (pl_current _ _ _ _ _ _ (ok_placed _ _ _ Hok) Ht) as [Hl Hr].
  split; [|done]. split; rewrite Hq; [apply Hok|].
  assert (idle_task s' = idle_task s) as -> by (unfold flags in Hf; congruence).
  eapply placed_ext; [done| |apply Hok]. intros u. rewrite Hs. unfold fupd. case_if as E; [|done].
  by replace u with t by lia.
Qed.

Definition host s := (host_active s, host_context_valid s).

Definition result_ok s (o : outcome) s' : Prop :=
  (exists v, ok s' v (current_task s')) /\
  match o with
  | Return _ => current_task s' = current_task s /\ host s' = host s
  | Switch (TaskContext f) (TaskContext t) =>
    f = current_task s /\ f <> 0 /\ t = current_task s' /\ t <> 0 /\ host s' = host s
  | Switch (TaskContext f) HostContext => f = current_task s /\ f <> 0 /\ current_task s' = 0 /\ host s' = host s
  | Switch HostContext (TaskContext t) =>
    current_task s = 0 /\ t = current_task s' /\ t <> 0 /\ host s' = (true, true)
  | Switch HostContext HostContext => False
  | Halt => current_task s = 0 \/ host_context_valid s = false
  end.

(** An operation that returns with the current task as it was. *)
Lemma return_ok s r s' v :
  ok s' v (current_task s) -> flags s' = flags s -> result_ok s (Return r) s'.
Proof.
  unfold flags. intros Hok Hf. assert (current_task s' = current_task s) as Hc by congruence.
  split; [exists v; by rewrite Hc|]. unfold host. split; congruence.
Qed.

(** The running task goes to the end of the ready queue and the first one runs. *)
Lemma rotate_ok s v :
  ok s v (current_task s) -> current_task s <> 0 ->
  let c := current_task s in
  let '(r, s1) := scheduler_enqueue ready_queue s c in
  let '(t, s2) := scheduler_next ready_queue s1 in
  let s3 := scheduler_set_current arch_percpu_current s2 t in
  r = true /\ t <> 0 /\
  exists k, v ready_queue ++ [wait_node c] = wait_node t :: k /\
    (exists v', ok s3 v' t /\ v' ready_queue = k) /\
    flags s3 = (idle_task s, t, host_active s, host_context_valid s, preemption_enabled s).
Proof.
  intros Hok Hc c. destruct (pl_current _ _ _ _ _ _ (ok_placed _ _ _ Hok) Hc) as [Hl Hr]. fold c in Hok, Hl, Hr.
  pose proof (enqueue_ok s v c c Hok Hl) as He. rewrite Hr, Z.eqb_refl in He.
  specialize (He ltac:(done) (not_queued s v c c Hok (or_introl Hr))).
  destruct (scheduler_enqueue ready_queue s c) as [r s1]. destruct He as (-> & Hok1 & Hf1 & _).
  pose proof (next_ok s1 _ Hok1) as Hn. rewrite fupd_eq in Hn.
  destruct (scheduler_next ready_queue s1) as [t s2]. destruct Hn as (Hf2 & _ & Hn).
  destruct (v ready_queue ++ [wait_node c]) as [|n k] eqn:E; [by destruct (v ready_queue)|].
  destruct Hn as (-> & Ht & Hok2). destruct (set_current_ok s2 _ t Hok2 Ht) as (Hok3 & Hf3 & _).
  split; [done|]. split; [done|]. exists k. split; [done|]. split.
  - eexists. split; [exact Hok3|]. by rewrite fupd_eq.
  - rewrite Hf3. unfold flags in Hf1, Hf2. congruence.
Qed.

Lemma yield_ok s v :
  ok s v (current_task s) -> current_task s <> 0 ->
  let '(o, s') := scheduler_yield ready_queue arch_percpu_current s in result_ok s o s'.
Proof.
  intros Hok Hc. pose proof (rotate_ok s v Hok Hc) as Hr. cbv zeta in Hr. unfold scheduler_yield.
  set (c := current_task s) in *. replace (c =? 0) with false by lia. cbn [negb andb].
  destruct (scheduler_enqueue ready_queue s c) as [r s1], (scheduler_next ready_queue s1) as [t s2].
  destruct Hr as (-> & Ht & k & _ & (v' & Hok' & _) & Hf). cbn [negb]. replace (t =? 0) with false by lia.
  set (s3 := scheduler_set_current _ s2 t) in *. clearbody s3. apply flags_inv in Hf as (Fi & Fc & Fa & Fv & Fp).
  destruct (t =? c) eqn:E; cbn [negb]; (split; [exists v'; by rewrite Fc|]); unfold host; split_and!; congruence || lia.
Qed.

Lemma timer_ok s v :
  ok s v (current_task s) ->
  let '(o, s') := scheduler_timer_interrupt ready_queue arch_percpu_current s in result_ok s o s'.
Proof.
  intros Hok. unfold scheduler_timer_interrupt. set (c := current_task s) in *.
  destruct (negb (preemption_enabled s) || (c =? 0)) eqn:E0; [by apply (return_ok s 0 s v)|].
  assert (c <> 0) as Hc by lia. pose proof (rotate_ok s v Hok Hc) as Hr. cbv zeta in Hr. fold c in Hr.
  destruct (scheduler_enqueue ready_queue s c) as [r s1], (scheduler_next ready_queue s1) as [t s2].
  destruct Hr as (-> & Ht & k & _ & (v' & Hok' & _) & Hf). cbn [negb]. replace (t =? 0) with false by lia.
  set (s3 := scheduler_set_current _ s2 t) in *. clearbody s3. apply flags_inv in Hf as (Fi & Fc & Fa & Fv & Fp).
  destruct (t =? c) eqn:E; cbn [negb]; 
    (split; [exists v'; rewrite ?Fc; destruct Hok'; split; cbn [current_task set_field]; by rewrite ?Fc|]);
    unfold host; split_and!; cbn [current_task host_active host_context_valid set_field];
    congruence || lia.
Qed.

Lemma start_ok s v :
  ok s v (current_task s) ->
  let '(o, s') := scheduler_start ready_queue arch_percpu_current s in result_ok s o s'.
Proof.
  intros Hok. unfold scheduler_start. destruct (host_active s || _) eqn:E0; [by apply (return_ok s 0 s v)|].
  assert (current_task s = 0) as Hc by lia. rewrite Hc in Hok. pose proof (next_ok s v Hok) as Hn.
  destruct (scheduler_next ready_queue s) as [t s1]. destruct Hn as (Hf & _ & Hn).
  assert (exists v', ok s1 v' t) as [v' Hok1] by (destruct (v ready_queue); destruct_and!; eauto).
  assert (Hf' := Hf). apply flags_inv in Hf' as (Fi & Fc & Fa & Fv & Fp).
  destruct ((t =? 0) || (t =? idle_task s1)) eqn:E1.
  - apply (return_ok s 0 s1 v'); [|done]. rewrite Hc. apply orb_prop in E1 as [E1|E1]; [by replace t with 0 in Hok1 by lia|].
    destruct Hok1 as [R [P1 P2 P3 P4 P5]]. split; [done|]. split; try done.
    intros u Hu Hs. right. destruct (P3 u Hu Hs) as [->|]; [lia|done].
  - apply orb_false_elim in E1 as [E1 _]. set (s2 := s1<| host_active := true |><| host_context_valid := true |>).
    destruct (set_current_ok s2 v' t) as (Hok2 & Hf2 & _); [by destruct Hok1; split|lia|].
    apply flags_inv in Hf2 as (Gi & Gc & Ga & Gv & Gp). split; [exists v'; by rewrite Gc|].
    unfold host. rewrite Ga, Gv, Gc. split_and!; try done. lia.
Qed.

Lemma exit_ok s v :
  ok s v (current_task s) -> current_task s <> idle_task s ->
  let '(o, s') := scheduler_task_exit ready_queue arch_percpu_current s in result_ok s o s'.
Proof.
  intros Hok Hi. unfold scheduler_task_exit. destruct (current_task s =? 0) eqn:E0.
  { split; [by exists v|left; lia]. }
  set (c := current_task s) in *. set (s0 := (set_state s c TASK_TERMINATED)<| current_task := 0 |>).
  destruct (pl_current _ _ _ _ _ _ (ok_placed _ _ _ Hok)) as [Hl Hr]; [lia|].
  assert (ok s0 v 0) as Hok0.
  { eapply (ok_move s v c c TASK_TERMINATED (queues s) 0 v); try done; auto; [apply Hok|..].
    - intros u. apply set_state_state.
    - intros q Hq. by destruct (not_queued s v c c Hok (or_introl Hr) q). }
  pose proof (next_ok s0 v Hok0) as Hn. destruct (scheduler_next ready_queue s0) as [t s1].
  destruct Hn as (Hf & _ & Hn). apply flags_inv in Hf as (Fi & Fc & Fa & Fv & Fp).
  assert (exists v', ok s1 v' t) as [v' Hok1] by (destruct (v ready_queue); destruct_and!; eauto).
  destruct (t =? 0) eqn:E1; cbn [negb].
  - replace t with 0 in Hok1 by lia. rewrite Fv. cbn [s0 host_context_valid set_state set_field].
    destruct (host_context_valid s) eqn:Eh.
    + split; [exists v'; by rewrite Fc|]. unfold host. split_and!; [done|lia|done|]. by rewrite Fa, Fv.
    + split; [exists v'; by rewrite Fc|]. by right.
  - destruct (set_current_ok s1 v' t Hok1) as (Hok2 & Hf2 & _); [lia|].
    apply flags_inv in Hf2 as (Gi & Gc & Ga & Gv & Gp). split; [exists v'; by rewrite Gc|].
    unfold host. rewrite Ga, Gv, Gc, Fa, Fv. split_and!; try done; lia.
Qed.

(** How blocking the running task in the queue [q] ends: there is nothing else to run,
    the task leaves the queue and goes on; or it stays at the end of the queue and
    another task runs. *)
Definition blocked_as s v q (o : outcome) s' : Prop :=
  let b := current_task s in
  host s' = host s /\
  match o with
  | Return r => r = 0 /\ current_task s' = b /\
    exists v', ok s' v' b /\ forall q', q' <> ready_queue -> v' q' = v q'
  | Switch (TaskContext f) (TaskContext t) => f = b /\ t <> 0 /\ current_task s' = t /\
    exists v', ok s' v' t /\ forall q', q' <> ready_queue -> v' q' = fupd v q (v q ++ [wait_node b]) q'
  | _ => False
  end.

Lemma blocked_result s v q o s' : current_task s <> 0 -> blocked_as s v q o s' -> result_ok s o s'.
Proof.
  intros Hb [Hh Ho]. destruct o as [r|[f|] [t|]|]; try done.
  - destruct Ho as (-> & Hc & v' & Hok & _). split; [exists v'; by rewrite Hc|done].
  - destruct Ho as (-> & Ht & Hc & v' & Hok & _). split; [exists v'; by rewrite Hc|]. by rewrite Hc.
Qed.

(** The end of the blocking operations: the blocked task waits, and nothing runs. *)
Lemma block_switch_ok s0 s v q :
  let b := current_task s0 in
  let v1 := fupd v q (v q ++ [wait_node b]) in
  ok s v1 0 -> live s b -> b <> 0 -> q <> 0 -> host s = host s0 ->
  let '(o, s') := block_switch ready_queue arch_percpu_current s b q in blocked_as s0 v q o s'.
Proof.
  intros b v1 Hok Hl Hb Hq Hh. unfold block_switch. pose proof (next_ok s v1 Hok) as Hn.
  destruct (scheduler_next ready_queue s) as [t s1]. destruct Hn as (Hf & Hlive & Hn).
  apply flags_inv in Hf as (Fi & Fc & Fa & Fv & Fp). unfold host in Hh. simplify_eq.
  destruct (t =? 0) eqn:E.
  - assert (t = 0) as -> by lia. assert (ok s1 v1 0) as Hok1 by (destruct (v1 ready_queue); by destruct_and!).
    apply Hlive in Hl. destruct (live_node s1 v1 0 b Hok1 Hl) as [_ Hn0].
    pose proof (wq_remove_spec (queues s1) v1 q (wait_node b) (ok_rep _ _ _ Hok1) Hq Hn0) as Hrm.
    pose proof (wq_rep_NoDup _ _ q (ok_rep _ _ _ Hok1)) as Hnd. unfold v1 in Hnd. rewrite fupd_eq in Hnd.
    destruct (wq_remove (queues s1) q (wait_node b)) as [[] w]; destruct Hrm as [Ho Hrm].
    2: { destruct Hrm as [[] _]. apply elem_of_added. by right. }
    destruct Hrm as (l & k & Hv & Hr). split; [unfold host; cbn; congruence|]. split; [done|]. split; [done|].
    exists (fupd v1 q (l ++ k)). split.
    + apply (removed_ok s1 v1 b q l k w); try done.
      intros u. unfold set_state, fupd. cbn [tasks set_field]. by destruct (u =? b).
    + intros q' _. unfold v1 in Hv. rewrite fupd_eq in Hv.
      apply WaitQueue.snoc_split in Hv as [(-> & _ & ->)|(k' & _ & Hv)].
      * unfold v1, fupd. destruct (q' =? q) eqn:Eq; [|done]. apply Z.eqb_eq in Eq as ->. by rewrite app_nil_r.
      * apply NoDup_app in Hnd as (_ & Hd & _). exfalso. apply (Hd (wait_node b)); [|left]. rewrite Hv. set_solver.
  - assert (exists v', ok s1 v' t /\ forall q', q' <> ready_queue -> v' q' = v1 q') as (v' & Hok1 & Hv').
    { destruct (v1 ready_queue) as [|n l]; destruct_and!; [by exists v1|]. eexists. split; [done|].
      intros q' Hq'. by rewrite fupd_ne. }
    destruct (set_current_ok s1 v' t Hok1) as (Hok2 & Hf2 & _); [lia|].
    apply flags_inv in Hf2 as (Gi & Gc & Ga & Gv & Gp). split; [unfold host; congruence|].
    split; [done|]. split; [lia|]. split; [done|]. by exists v'.
Qed.

(** The result of an enqueue of a task's node, according to whether it is in a queue. *)
Lemma enqueue_node s v c t q :
  ok s v c -> live s t -> q <> 0 ->
  let '(r, w) := wq_enqueue (queues s) q (wait_node t) in
  (forall n, wq_owner w n = wq_owner (queues s) n) /\
  r = negb (wq_queued (queues s) (wait_node t)) /\
  if r then (forall q', ~ (wait_node t ∈ v q')) /\ wq_rep w (fupd v q (v q ++ [wait_node t]))
  else w = queues s.
Proof.
  intros Hok Hl Hq. destruct (live_node s v c t Hok Hl) as [_ Hn].
  pose proof (wq_enqueue_spec (queues s) v q (wait_node t) (ok_rep _ _ _ Hok) Hq Hn) as He.
  pose proof (wq_queued_spec (queues s) v (wait_node t) (ok_rep _ _ _ Hok)) as Hqd.
  destruct (wq_enqueue (queues s) q (wait_node t)) as [r w]. destruct He as (-> & Ho & He).
  split; [done|]. split; [done|]. destruct (wq_queued (queues s) (wait_node t)); cbn [negb] in *; [done|].
  split; [|done]. intros q' Hin. assert (false = true) by (apply Hqd; eauto). done.
Qed.

(** The beginning of the blocking operations: the running task joins the queue. *)
Lemma block_current_ok s v q :
  ok s v (current_task s) -> current_task s <> 0 -> current_task s <> idle_task s ->
  q <> 0 -> q <> ready_queue ->
  let b := current_task s in
  state (tasks s b) <> TASK_TERMINATED /\ wq_queued (queues s) (wait_node b) = false /\
  let '(r, w) := wq_enqueue (queues s) q (wait_node b) in
  r = true /\ forall s1,
    queues s1 = w -> idle_task s1 = idle_task s -> host s1 = host s ->
    (forall u, state (tasks s1 u) = fupd (fun u => state (tasks s u)) b TASK_BLOCKED u) ->
    let '(o, s') := block_switch ready_queue arch_percpu_current s1 b q in blocked_as s v q o s'.
Proof.
  intros Hok Hc Hi Hq Hqr b. destruct (pl_current _ _ _ _ _ _ (ok_placed _ _ _ Hok) Hc) as [Hl Hr]. fold b in Hok, Hl, Hr.
  split; [congruence|]. pose proof (not_queued s v b b Hok (or_introl Hr)) as Hn.
  pose proof (wq_queued_spec (queues s) v (wait_node b) (ok_rep _ _ _ Hok)) as Hqd.
  assert (wq_queued (queues s) (wait_node b) = false) as Hqf.
  { destruct (wq_queued (queues s) (wait_node b)); [|done]. destruct (proj1 Hqd eq_refl) as [q' Hin]. by destruct (Hn q'). }
  split; [done|]. pose proof (enqueue_node s v b b q Hok Hl Hq) as He. rewrite Hqf in He.
  destruct (wq_enqueue (queues s) q (wait_node b)) as [r w]. destruct He as (Ho & -> & _ & Hrep). split; [done|].
  intros s1 Q1 I1 H1 S1. apply (block_switch_ok s s1 v); try done.
  - pose proof (added_ok s v b b q TASK_BLOCKED w Hok Hl Hn) as Hadd. rewrite Z.eqb_refl in Hadd.
    destruct Hadd as [A1 A2]; try done; [by replace (q =? ready_queue) with false by lia|].
    split; rewrite Q1; [done|]. rewrite I1. eapply placed_ext; [| |exact A2]; [done|].
    intros u. rewrite S1, set_state_state. done.
  - unfold Scheduler.live in *. by rewrite Q1, Ho.
Qed.

Lemma block_current_result s v q :
  ok s v (current_task s) -> (current_task s <> 0 -> current_task s <> idle_task s) -> q <> ready_queue ->
  let '(o, s') := scheduler_block_current ready_queue arch_percpu_current s q in result_ok s o s'.
Proof.
  intros Hok Hi Hq. unfold scheduler_block_current. set (b := current_task s) in *.
  destruct (b =? 0) eqn:E0; [by apply (return_ok s 0 s v)|].
  destruct (decide (q = 0)) as [->|Hq0].
  { case_decide; [by apply (return_ok s 0 s v)|].
    destruct (wq_queued (queues s) (wait_node b)); by apply (return_ok s 0 s v). }
  destruct (block_current_ok s v q) as (Ht & Hqd & Hb); try done; [fold b; lia|fold b; apply Hi; lia|].
  fold b in Ht, Hqd, Hb. rewrite decide_False, Hqd by done. replace (q =? 0) with false by lia.
  destruct (wq_enqueue (queues s) q (wait_node b)) as [r w]. destruct Hb as [-> Hb]. cbn [negb].
  match goal with |- context [block_switch _ _ ?s1 b q] => specialize (Hb s1) end.
  destruct (block_switch _ _ _ b q) as [o s']. apply (blocked_result s v q); [fold b; lia|].
  apply Hb; try done. intros u. unfold set_state, fupd. cbn [tasks set_field]. by destruct (u =? b).
Qed.

Lemma block_current_with_lock_spec s v q lock :
  ok s v (current_task s) -> current_task s <> 0 -> current_task s <> idle_task s -> q <> ready_queue ->
  q <> 0 -> lock <> 0 ->
  let '(o, s') := scheduler_block_current_with_lock ready_queue arch_percpu_current s q lock in
  blocked_as s v q o s'.
Proof.
  intros Hok Hc Hi Hq Hq0 Hlock. unfold scheduler_block_current_with_lock. set (b := current_task s) in *.
  replace (_ || _ || _) with false by lia.
  destruct (block_current_ok s v q) as (Ht & Hqd & Hb); try done.
  fold b in Ht, Hqd, Hb. rewrite decide_False, Hqd by done.
  destruct (wq_enqueue (queues s) q (wait_node b)) as [r w]. destruct Hb as [-> Hb]. cbn [negb].
  cbn [set_state current_task set_field]. fold b. rewrite Z.eqb_refl.
  apply Hb; try done. intros u. unfold set_state, fupd. cbn [tasks set_field call_out]. by destruct (u =? b).
Qed.

Lemma block_current_with_lock_result s v q lock :
  ok s v (current_task s) -> (current_task s <> 0 -> current_task s <> idle_task s) -> q <> ready_queue ->
  let '(o, s') := scheduler_block_current_with_lock ready_queue arch_percpu_current s q lock in result_ok s o s'.
Proof.
  intros Hok Hi Hq. destruct ((lock =? 0) || (q =? 0) || (current_task s =? 0)) eqn:E0.
  { unfold scheduler_block_current_with_lock. rewrite E0. destruct (lock =? 0); cbn [negb]; [by apply (return_ok s 0 s v)|].
    apply (return_ok s 0 _ v); [by destruct Hok; split|done]. }
  assert (current_task s <> 0) as Hc by lia.
  pose proof (block_current_with_lock_spec s v q lock Hok Hc (Hi Hc) Hq ltac:(lia) ltac:(lia)) as Hb.
  destruct (scheduler_block_current_with_lock _ _ s q lock) as [o s']. by apply (blocked_result s v q).
Qed.

Lemma enqueue_result s v t :
  ok s v (current_task s) -> (t <> 0 -> live s t /\ t <> current_task s) ->
  let '(r, s') := scheduler_enqueue ready_queue s t in result_ok s (Return (Z.b2z r)) s'.
Proof.
  intros Hok Ht. unfold scheduler_enqueue. destruct (t =? 0) eqn:E0; [by apply (return_ok s _ s v)|].
  destruct Ht as [Hl Hc]; [lia|]. case_decide as Hs; [by apply (return_ok s _ s v)|].
  pose proof (enqueue_node s v _ t ready_queue Hok Hl Hready) as He.
  destruct (wq_enqueue (queues s) ready_queue (wait_node t)) as [[] w]; destruct He as (Ho & _ & He); cbn [negb].
  - destruct He as [Hn Hr]. pose proof (added_ok s v _ t ready_queue TASK_READY w Hok Hl Hn) as Ha.
    replace (t =? current_task s) with false in Ha by lia. rewrite Z.eqb_refl in Ha. eapply return_ok; [by apply Ha|done].
  - rewrite set_queues_same by done. by apply (return_ok s _ s v).
Qed.

Lemma start_task_result s v t :
  ok s v (current_task s) -> (t <> 0 -> live s t) ->
  let '(r, s') := scheduler_start_task ready_queue s t in result_ok s (Return (Z.b2z r)) s'.
Proof.
  intros Hok Ht. unfold scheduler_start_task. destruct (t =? 0) eqn:E0; [by apply (return_ok s _ s v)|].
  assert (live s t) as Hl by (apply Ht; lia). case_decide as Hs; [by apply (return_ok s _ s v)|].
  destruct (decide (state (tasks s t) = TASK_READY)) as [Hs'|]; [clear Hs|done].
  destruct (wq_queued (queues s) (wait_node t)); [by apply (return_ok s _ s v)|].
  pose proof (enqueue_node s v _ t ready_queue Hok Hl Hready) as He.
  destruct (wq_enqueue (queues s) ready_queue (wait_node t)) as [[] w]; destruct He as (Ho & _ & He).
  - destruct He as [Hn Hr]. pose proof (added_ok s v _ t ready_queue TASK_READY w Hok Hl Hn) as Ha.
    assert (t <> current_task s) as Hc.
    { intros ->. destruct (pl_current _ _ _ _ _ _ (ok_placed _ _ _ Hok)); [lia|congruence]. }
    replace (t =? current_task s) with false in Ha by lia. rewrite Z.eqb_refl in Ha.
    destruct Ha as [A1 A2]; try done. eapply return_ok; [|done]. split; [exact A1|].
    eapply placed_ext; [| |exact A2]; [done|]. intros u. cbv beta. rewrite set_state_state. unfold fupd. case_if as E; [|done].
    by replace u with t by lia.
  - rewrite set_queues_same by done. by apply (return_ok s _ s v).
Qed.

Lemma remove_result s v t :
  ok s v (current_task s) ->
  let '(r, s') := scheduler_remove ready_queue s t in result_ok s (Return (Z.b2z r)) s'.
Proof.
  intros Hok. unfold scheduler_remove. destruct (t =? 0) eqn:E0; [by apply (return_ok s _ s v)|].
  destruct (t =? current_task s) eqn:Ec; [by apply (return_ok s _ s v)|].
  pose proof (wq_queued_spec (queues s) v (wait_node t) (ok_rep _ _ _ Hok)) as Hqd.
  destruct (wq_queued (queues s) (wait_node t)); cbn [negb]; [|by apply (return_ok s _ s v)].
  destruct (proj1 Hqd eq_refl) as [q0 Hq0]. pose proof (wq_rep_node _ _ _ _ (ok_rep _ _ _ Hok) Hq0) as Hn0.
  pose proof (wq_remove_spec (queues s) v ready_queue (wait_node t) (ok_rep _ _ _ Hok) Hready Hn0) as Hr.
  destruct (wq_remove (queues s) ready_queue (wait_node t)) as [[] w]; destruct Hr as [Ho Hr].
  - destruct Hr as (l & k & Hv & Hr).
    destruct (pl_queue _ _ _ _ _ _ (ok_placed _ _ _ Hok) ready_queue (wait_node t)) as (u & Hu & Hut & Hs);
      [rewrite Hv; set_solver|]. replace u with t in * by (unfold wait_node in Hut; lia). rewrite Z.eqb_refl in Hs.
    pose proof (elem_of_removed v ready_queue l (wait_node t) k) as Hel.
    pose proof (wq_rep_NoDup _ _ ready_queue (ok_rep _ _ _ Hok)) as Hnd.
    apply (return_ok s _ _ (fupd v ready_queue (l ++ k))); [|done].
    eapply (ok_move s v _ t TASK_READY w); try done; auto.
    + intros x. cbn [tasks set_field]. unfold fupd. case_if as E; [|done]. by replace x with t by lia.
    + intros q n Hne. by apply Hel.
    + intros q Hin. destruct (Hel q (wait_node t) Hnd Hv) as [_ Hne]. specialize (Hne eq_refl Hin).
      exfalso. apply Hne. apply (wq_rep_unique _ _ q ready_queue (wait_node t) (ok_rep _ _ _ Hok)); [|rewrite Hv; set_solver].
      unfold fupd in Hin. by replace (q =? ready_queue) with false in Hin by lia.
    + intros _. right. split; [done|lia].
  - destruct Hr as [_ ->]. rewrite set_queues_same by done. by apply (return_ok s _ s v).
Qed.

Lemma block_result s v t q :
  ok s v (current_task s) -> (t <> 0 -> live s t /\ t <> current_task s /\ t <> idle_task s) -> q <> ready_queue ->
  let '(r, s') := scheduler_block s t q in result_ok s (Return (Z.b2z r)) s'.
Proof.
  intros Hok Ht Hq. unfold scheduler_block. destruct ((t =? 0) || (q =? 0)) eqn:E0; [by apply (return_ok s _ s v)|].
  destruct Ht as (Hl & Hc & Hi); [lia|]. case_decide as Hs; [by apply (return_ok s _ s v)|].
  destruct (wq_queued (queues s) (wait_node t)); [by apply (return_ok s _ s v)|].
  assert (q <> 0) as Hq0 by lia. pose proof (enqueue_node s v _ t q Hok Hl Hq0) as He.
  destruct (wq_enqueue (queues s) q (wait_node t)) as [[] w]; destruct He as (Ho & _ & He); cbn [negb].
  - destruct He as [Hn Hr]. pose proof (added_ok s v _ t q TASK_BLOCKED w Hok Hl Hn) as Ha.
    replace (t =? current_task s) with false in Ha by lia. replace (q =? ready_queue) with false in Ha by lia.
    cbn [set_state current_task set_field]. replace (current_task s =? t) with false by lia.
    eapply return_ok; [by apply Ha|done].
  - rewrite set_queues_same by done. by apply (return_ok s _ s v).
Qed.

(** Waking moves the first task of the queue to the end of the ready queue. *)
Lemma wake_ok s v q :
  ok s v (current_task s) -> q <> ready_queue ->
  let '(t, s') := scheduler_wake_one ready_queue s q in
  flags s' = flags s /\
  match v q with
  | [] => t = 0 /\ s' = s
  | n :: l => n = wait_node t /\ t <> 0 /\
    ok s' (fupd (fupd v q l) ready_queue (v ready_queue ++ [wait_node t])) (current_task s)
  end \/ q = 0 /\ t = 0 /\ s' = s.
Proof.
  intros Hok Hq. unfold scheduler_wake_one. destruct (q =? 0) eqn:E0; [right; split_and!; [lia|done|done]|].
  pose proof (wq_dequeue_spec (queues s) v q (ok_rep _ _ _ Hok)) as Hd.
  pose proof (wq_rep_NoDup _ _ q (ok_rep _ _ _ Hok)) as Hnd.
  destruct (wq_dequeue (queues s) q) as [n w]. destruct Hd as [Ho Hd]. destruct (v q) as [|m l] eqn:Hv.
  { destruct Hd as [-> ->]. cbn [Z.eqb]. left. by rewrite set_queues_same. }
  destruct Hd as [-> Hr].
  destruct (pl_queue _ _ _ _ _ _ (ok_placed _ _ _ Hok) q m) as (t & Hl & -> & Hs); [rewrite Hv; left|].
  replace (q =? ready_queue) with false in Hs by lia. destruct (live_node s v _ t Hok Hl) as [Ht0 Hn0].
  replace (wait_node t =? 0) with false by lia. destruct Hl as [Htp Hto]. rewrite Ho, Hto. cbn [tasks set_field].
  replace (t =? 0) with false by lia. rewrite bool_decide_eq_false_2 by (rewrite Hs; auto). cbn [orb set_state queues set_field].
  assert (forall q', ~ (wait_node t ∈ fupd v q l q')) as Hout.
  { intros q' Hin. unfold fupd in Hin. destruct (q' =? q) eqn:Eq; [by apply NoDup_cons in Hnd as [? _]|].
    enough (q' = q) by lia. apply (wq_rep_unique _ _ q' q (wait_node t) (ok_rep _ _ _ Hok) Hin). rewrite Hv. left. }
  pose proof (wq_enqueue_spec w _ ready_queue (wait_node t) Hr Hready Hn0) as He.
  pose proof (wq_queued_spec w _ (wait_node t) Hr) as Hqd.
  destruct (wq_enqueue w ready_queue (wait_node t)) as [r w']. destruct He as (-> & Ho' & He).
  destruct (wq_queued w (wait_node t)); [destruct (proj1 Hqd eq_refl) as [q' Hin]; by destruct (Hout q')|].
  cbn [negb] in *. rewrite fupd_ne in He by done. left. split; [done|]. split; [done|]. split; [done|].
  eapply (ok_move s v _ t TASK_READY w'); try done; auto.
  - intros x. by rewrite Ho'.
  - intros u. unfold set_state, fupd. cbn [tasks set_field]. by destruct (u =? t).
  - intros q' n Hne. rewrite <- (fupd_ne v q l ready_queue) by done. rewrite elem_of_added. unfold fupd.
    destruct (q' =? q) eqn:Eq; [|naive_solver]. replace q' with q by lia. rewrite Hv, elem_of_cons. naive_solver.
  - intros q'. rewrite <- (fupd_ne v q l ready_queue) by done. rewrite elem_of_added.
    intros [Hin|[-> _]]; [by destruct (Hout q')|]. by rewrite Z.eqb_refl.
  - intros Hc. right. split; [done|]. intros <-.
    destruct (pl_current _ _ _ _ _ _ (ok_placed _ _ _ Hok) Hc). congruence.
Qed.

Lemma wake_result s v q :
  ok s v (current_task s) -> q <> ready_queue ->
  let '(t, s') := scheduler_wake_one ready_queue s q in result_ok s (Return t) s'.
Proof.
  intros Hok Hq. pose proof (wake_ok s v q Hok Hq) as Hw. destruct (scheduler_wake_one ready_queue s q) as [t s'].
  destruct Hw as [[Hf Hw]|(-> & -> & ->)]; [|by apply (return_ok s _ s v)].
  destruct (v q) as [|n l]; [destruct Hw as [-> ->]; by apply (return_ok s _ s v)|].
  destruct Hw as (_ & _ & Hw). by eapply return_ok.
Qed.

Lemma set_idle_result s v t :
  ok s v (current_task s) ->
  (t <> 0 -> live s t /\ t <> current_task s /\
    (state (tasks s t) = TASK_READY \/ state (tasks s t) = TASK_RUNNING)) ->
  (idle_task s = t \/ idle_task s = current_task s \/ state (tasks s (idle_task s)) <> TASK_RUNNING) ->
  result_ok s (Return 0) (scheduler_set_idle s t).
Proof.
  intros Hok Ht Hi. destruct (ok_placed _ _ _ Hok) as [P1 P2 P3 P4 P5]. unfold scheduler_set_idle.
  assert (forall u, live s u -> u <> t -> state (tasks s u) = TASK_RUNNING -> u = current_task s) as Hrun.
  { intros u Hu Hut Hs. destruct (P3 u Hu Hs) as [->| ->]; [done|]. destruct Hi as [?|[?|?]]; congruence. }
  destruct (t =? 0) eqn:E0; cbn [negb]; split; try done; exists v; (split; [apply Hok|]);
    cbn [queues tasks idle_task current_task set_state set_field].
  - replace t with 0 in * by lia. split; try done. intros u Hu Hs. left. apply Hrun; try done. destruct Hu. lia.
  - destruct Ht as (Hl & Hc & Hs); [lia|]. eapply (placed_ext _ _ _ (fupd (fun u => state (tasks s u)) t TASK_READY)).
    { done. } { intros u. unfold fupd. by destruct (u =? t). }
    split.
    + intros q n Hn. destruct (P1 q n Hn) as (u & Hu & -> & Hx). exists u. split; [done|]. split; [done|].
      unfold fupd. case_if as E; [|done]. replace u with t in Hx by lia. revert Hx. case_if as Eq; [done|].
      intros Hx. destruct Hs; congruence.
    + intros u Hu. unfold fupd. case_if as E; [done|]. auto.
    + intros u Hu. unfold fupd. case_if as E; [done|]. intros Hx. left. apply Hrun; [done|lia|done].
    + intros Hn0. rewrite fupd_ne by done. auto.
    + intros _. rewrite fupd_eq. auto.
Qed.

Lemma task_initialize_result s v t i :
  ok s v (current_task s) -> 0 < t -> ~ live s t -> result_ok s (Return 0) (task_initialize s t i).
Proof.
  intros Hok Ht Hl. destruct (ok_placed _ _ _ Hok) as [P1 P2 P3 P4 P5]. unfold task_initialize.
  assert (forall q, ~ (wait_node t ∈ v q)) as Hout.
  { intros q Hin. destruct (P1 q _ Hin) as (u & Hu & E & _). by replace u with t in Hu by (unfold wait_node in E; lia). }
  destruct (wq_node_initialize_spec (queues s) v (wait_node t) t (ok_rep _ _ _ Hok) Hout) as (Hr & Hot & Hou);
    [unfold wait_node; lia|]. cbn [queues set_field].
  split; [|done]. exists v. split; [done|]. cbn [queues tasks idle_task current_task set_field].
  set (w := wq_node_initialize _ _ _) in *. clearbody w.
  assert (forall u, u <> t -> (Scheduler.live (wq_owner w) u <-> live s u)) as Hlive.
  { intros u Hu. unfold Scheduler.live. rewrite Hou; [done|]. unfold wait_node. lia. }
  assert (forall u, live s u -> u <> t) as Hne by (intros u Hu ->; done).
  set (st := fun u => state (fupd _ _ _ u)).
  assert (forall u, u <> t -> st u = state (tasks s u)) as Hst by (intros u Hu; unfold st; by rewrite fupd_ne).
  assert (st t = TASK_READY) as Hstt by (unfold st; by rewrite fupd_eq). clearbody st. split.
  - intros q n Hn. destruct (P1 q n Hn) as (u & Hu & -> & Hx). exists u. rewrite Hlive, Hst; auto.
  - intros u Hu. destruct (decide (u = t)) as [->|Hut]; [congruence|]. rewrite Hst by done. apply P2. by apply Hlive.
  - intros u Hu. destruct (decide (u = t)) as [->|Hut]; [congruence|]. rewrite Hst by done. apply P3. by apply Hlive.
  - intros Hc. destruct (P4 Hc) as [H1 H2]. rewrite Hlive, Hst; auto.
  - intros Hc. destruct (P5 Hc) as [H1 H2]. rewrite Hlive, Hst; auto.
Qed.

(** ** Runs of the machine *)

Implicit Types m : machine W.
Abbreviation step := (machine_step ready_queue arch_percpu_current).

(** What the callers of the scheduler ensure: tasks are initialised objects, the idle
    task neither blocks nor ends, and nothing waits in the ready queue. *)
Definition allowed m (o : op) : Prop :=
  let s := sched m in
  match o with
  | TaskInitialize t _ => 0 < t /\ ~ live s t
  | Enqueue t => t <> 0 -> live s t /\ t <> current_task s
  | StartTask t => t <> 0 -> live s t
  | SetIdle t =>
    (t <> 0 -> live s t /\ t <> current_task s /\
       (state (tasks s t) = TASK_READY \/ state (tasks s t) = TASK_RUNNING)) /\
    (idle_task s = t \/ idle_task s = current_task s \/ state (tasks s (idle_task s)) <> TASK_RUNNING)
  | Yield => cpu m <> HostContext
  | Start => cpu m = HostContext
  | Exit => cpu m <> HostContext /\ current_task s <> idle_task s
  | Block t q => (t <> 0 -> live s t /\ t <> current_task s /\ t <> idle_task s) /\ q <> ready_queue
  | BlockCurrent q | BlockCurrentWithLock q _ =>
    (current_task s <> 0 -> current_task s <> idle_task s) /\ q <> ready_queue
  | WakeOne q => q <> ready_queue
  | Remove _ | EnablePreemption _ | TimerInterrupt => True
  end.

(** The machine when the scheduler has been initialised: the queues are empty and no
    task exists. *)
Definition booted m : Prop :=
  exists s, wq_rep (queues s) (fun _ => []) /\ (forall t, ~ live s t) /\
    m = Machine (scheduler_initialize ready_queue s) HostContext.

Inductive reachable : machine W -> Prop :=
| reachable_boot m : booted m -> reachable m
| reachable_step m o : reachable m -> allowed m o -> reachable (step m o).2.

(** The context that runs is that of the current task, or the host's if there is none. *)
Record machine_ok m : Prop := {
  mo_placed : exists v, ok (sched m) v (current_task (sched m));
  mo_cpu : match cpu m with
    | TaskContext t => t = current_task (sched m) /\ t <> 0 /\ host (sched m) = (true, true)
    | HostContext => current_task (sched m) = 0 /\ host (sched m) = (false, false)
    end;
}.

Lemma booted_ok m : booted m -> machine_ok m.
Proof.
  intros (s & Hr & Hl & ->). destruct (wq_queue_initialize_spec (queues s) _ ready_queue Hr eq_refl) as [Hr' Ho].
  split; [|done]. exists (fun _ => []). split; [done|]. cbn [sched scheduler_initialize queues tasks idle_task current_task set_field].
  assert (forall t, ~ Scheduler.live (wq_owner (wq_queue_initialize (queues s) ready_queue)) t) as Hl'.
  { intros t Ht. apply (Hl t). unfold Scheduler.live in *. by rewrite <- Ho. }
  split; try done; try (intros t Ht; by destruct (Hl' t)). intros q n Hn. by apply elem_of_nil in Hn.
Qed.

Lemma exec_ok m o :
  machine_ok m -> allowed m o ->
  let '(r, s') := exec ready_queue arch_percpu_current (sched m) o in result_ok (sched m) r s'.
Proof.
  intros [[v Hok] Hcpu] Ha. assert (cpu m <> HostContext -> current_task (sched m) <> 0) as Hc.
  { destruct (cpu m) as [t|]; [|done]. intros _. by destruct Hcpu as (<- & ? & _). }
  destruct o as [t i|t|t|t|t| |e| | | |t q|q|q l|q]; cbn [exec allowed] in *.
  - by eapply task_initialize_result; [done|apply Ha|apply Ha].
  - pose proof (enqueue_result _ v t Hok Ha). by destruct (scheduler_enqueue _ _ _).
  - pose proof (start_task_result _ v t Hok Ha). by destruct (scheduler_start_task _ _ _).
  - pose proof (remove_result _ v t Hok). by destruct (scheduler_remove _ _ _).
  - eapply set_idle_result; [done|apply Ha|apply Ha].
  - eapply yield_ok; eauto.
  - split; [|done]. exists v. by destruct Hok.
  - by eapply timer_ok.
  - by eapply start_ok.
  - destruct Ha. by eapply exit_ok.
  - pose proof (block_result _ v t q Hok (proj1 Ha) (proj2 Ha)). by destruct (scheduler_block _ _ _).
  - by eapply block_current_result; [done|apply Ha|apply Ha].
  - by eapply block_current_with_lock_result; [done|apply Ha|apply Ha].
  - pose proof (wake_result _ v q Hok Ha). by destruct (scheduler_wake_one _ _ _).
Qed.

(** Only the end of a task can stop the processor. *)
Lemma exec_halt s o : (exec ready_queue arch_percpu_current s o).1 = Halt -> o = Exit.
Proof.
  destruct o; cbn [exec]; try done; [by destruct (scheduler_enqueue _ _ _)
    |by destruct (scheduler_start_task _ _ _)|by destruct (scheduler_remove _ _ _)| | |
    |by destruct (scheduler_block _ _ _)| | |by destruct (scheduler_wake_one _ _ _)];
    unfold scheduler_yield, scheduler_timer_interrupt, scheduler_start, scheduler_block_current,
      scheduler_block_current_with_lock, block_switch;
    repeat (case_match; try done; simplify_eq/=).
Qed.

Lemma machine_step_ok m o :
  machine_ok m -> allowed m o -> machine_ok (step m o).2 /\ (step m o).1 <> Halt.
Proof.
  intros Hm Ha. pose proof (exec_ok m o Hm Ha) as He. destruct Hm as [_ Hcpu]. unfold machine_step.
  destruct (exec ready_queue arch_percpu_current (sched m) o) as [r s'] eqn:Ee. destruct He as [Hv Hr].
  destruct r as [r|[f|] [t|]|]; cbn [fst snd].
  - destruct Hr as [Hc Hh]. split; [|done]. split; [done|]. cbn [cpu sched]. rewrite Hc, Hh. by destruct (cpu m).
  - destruct Hr as (-> & Hf & -> & Ht & Hh). split; [|done]. split; [done|]. cbn [cpu sched]. rewrite Hh.
    destruct (cpu m); [by destruct_and!|]. by destruct Hcpu.
  - destruct Hr as (-> & Hf & Hc & Hh). split; [|done]. split; [|done]. destruct Hv as [v []]. by exists v.
  - destruct Hr as (_ & -> & Ht & Hh). split; [|done]. split; [done|]. cbn [cpu sched]. by rewrite Hh.
  - done.
  - pose proof (exec_halt (sched m) o) as Ho. rewrite Ee in Ho. rewrite (Ho eq_refl) in Ha. destruct Ha as [Ha _].
    exfalso. destruct (cpu m); [|done]. destruct Hcpu as (Ht & Ht0 & Hh). unfold host in Hh. simplify_eq.
    destruct Hr; congruence.
Qed.

Lemma reachable_ok m : reachable m -> machine_ok m.
Proof. induction 1; [by apply booted_ok|by apply machine_step_ok]. Qed.


(** *** Round robin *)

(** The tasks of the ready queue, in order. *)
Definition ready m (l : list Z) : Prop :=
  exists v, ok (sched m) v (current_task (sched m)) /\ v ready_queue = wait_node <$> l.

Lemma timer_rotates m c l :
  machine_ok m -> ready m l -> cpu m = TaskContext c -> preemption_enabled (sched m) = true ->
  let m' := (step m TimerInterrupt).2 in
  exists c' l', l ++ [c] = c' :: l' /\ cpu m' = TaskContext c' /\ ready m' l' /\
    preemption_enabled (sched m') = true.
Proof.
  intros [_ Hcpu] (v & Hok & Hv) Hc Hp. rewrite Hc in Hcpu. destruct Hcpu as (-> & Hc0 & _).
  pose proof (rotate_ok (sched m) v Hok Hc0) as Hr. cbv zeta in Hr. unfold machine_step. cbn [exec].
  unfold scheduler_timer_interrupt. rewrite Hp. set (c := current_task (sched m)) in *.
  replace (c =? 0) with false by lia. cbn [negb orb].
  destruct (scheduler_enqueue ready_queue (sched m) c) as [r s1], (scheduler_next ready_queue s1) as [t s2].
  destruct Hr as (-> & Ht & k & Hk & (v' & Hok' & Hv') & Hf). cbn [negb]. replace (t =? 0) with false by lia.
  set (s3 := scheduler_set_current _ s2 t) in *. clearbody s3. apply flags_inv in Hf as (Fi & Fc & Fa & Fv & Fp).
  rewrite Hv in Hk. assert (exists c' l', l ++ [c] = c' :: l') as (c' & l' & Hl).
  { destruct l; simpl; eauto. }
  change [wait_node c] with (wait_node <$> [c]) in Hk. rewrite <- fmap_app, Hl in Hk. simpl in Hk.
  assert (c' = t) as -> by (injection Hk as Hk _; unfold wait_node in Hk; lia).
  injection Hk as Hk. exists t, l'. split; [done|].
  destruct (t =? c) eqn:E; cbn [negb fst snd cpu sched]; (split; [rewrite ?Hc; f_equal; lia|]);
    (split; [|cbn [preemption_enabled set_field]; congruence]); exists v'; cbn [sched current_task set_field];
    (split; [rewrite Fc; by destruct Hok'|by rewrite Hv', <- Hk]).
Qed.

Fixpoint ticks (n : nat) m : machine W :=
  match n with
  | O => m
  | S n => ticks n (step m TimerInterrupt).2
  end.

Lemma ticks_rotate m c l n :
  machine_ok m -> ready m l -> cpu m = TaskContext c -> preemption_enabled (sched m) = true ->
  exists t, (c :: l) !! (n mod S (length l))%nat = Some t /\ cpu (ticks n m) = TaskContext t.
Proof.
  revert m c l. induction n as [|n IH]; intros m c l Hm Hl Hc Hp.
  { exists c. rewrite Nat.Div0.mod_0_l. done. }
  destruct (timer_rotates m c l Hm Hl Hc Hp) as (c' & l' & Hr & Hc' & Hl' & Hp'). cbn [ticks].
  destruct (machine_step_ok m TimerInterrupt Hm I) as [Hm' _].
  destruct (IH _ c' l' Hm' Hl' Hc' Hp') as (t & Ht & Hrun). exists t. split; [|done].
  assert (length l' = length l) as Hlen by (apply (f_equal length) in Hr; rewrite length_app in Hr; simpl in Hr; lia).
  rewrite <- Hr, Hlen in Ht. rewrite <- Ht. remember (S (length l)) as k eqn:Hk.
  assert (n mod k < k)%nat as Hlt by (apply Nat.mod_upper_bound; lia).
  replace (S n mod k)%nat with (if decide (S (n mod k) = k) then 0%nat else S (n mod k)).
  2: { rewrite (Nat.Div0.div_mod n k) at 3. case_decide as E.
       - replace (S (k * (n / k) + n mod k))%nat with (S (n / k) * k)%nat by lia. by rewrite Nat.Div0.mod_mul.
       - replace (S (k * (n / k) + n mod k))%nat with (S (n mod k) + (n / k) * k)%nat by lia.
         rewrite Nat.Div0.mod_add. symmetry. apply Nat.mod_small. lia. }
  case_decide as E.
  - rewrite lookup_app_r by lia. replace (n mod k - length l)%nat with 0%nat by lia. done.
  - simpl. rewrite lookup_app_l by lia. done.
Qed.

(** C23. With preemption on, the tasks take turns: after [n] timer interrupts the processor
    runs the task [n] places after the current one, in the order of the ready queue and
    starting over after the last one.  So each ready task runs within as many ticks as
    there are ready tasks. *)
Theorem scheduler_round_robin m c l n :
  reachable m -> ready m l -> cpu m = TaskContext c -> preemption_enabled (sched m) = true ->
  exists t, (c :: l) !! (n mod S (length l))%nat = Some t /\ cpu (ticks n m) = TaskContext t.
Proof. intros Hm%reachable_ok. by apply ticks_rotate. Qed.

(** Waking a queue makes its first waiter run: with preemption on, the waiter that has
    waited longest is on the processor as soon as the current task and the ready ones
    have each had their turn. *)
Theorem scheduler_woken_runs m c l v q n k :
  reachable m -> ok (sched m) v c -> v ready_queue = wait_node <$> l -> v q = n :: k ->
  cpu m = TaskContext c -> preemption_enabled (sched m) = true -> q <> ready_queue -> q <> 0 ->
  let '(r, m') := step m (WakeOne q) in
  exists t, n = wait_node t /\ r = Return t /\ cpu (ticks (S (length l)) m') = TaskContext t.
Proof.
  intros Hm%reachable_ok Hok Hr Hv Hc Hp Hq Hq0.
  assert (current_task (sched m) = c) as Hcur 
    by (pose proof (mo_cpu m Hm) as Hcpu; rewrite Hc in Hcpu; by destruct Hcpu).
  rewrite <- Hcur in Hok. destruct (machine_step_ok m (WakeOne q) Hm Hq) as [Hm' _].
  pose proof (wake_ok (sched m) v q Hok Hq) as Hw. unfold machine_step in *. cbn [exec] in *.
  destruct (scheduler_wake_one ready_queue (sched m) q) as [t s']. rewrite Hv in Hw. cbn [fst snd] in *.
  destruct Hw as [(Hf & -> & Ht & Hok')|(? & _)]; [|done]. apply flags_inv in Hf as (Fi & Fc & Fa & Fv & Fp).
  exists t. split; [done|]. split; [done|].
  destruct (ticks_rotate (Machine s' (cpu m)) c (l ++ [t]) (S (length l)) Hm') as (t' & Ht' & Hrun).
  - eexists. cbn [sched]. rewrite Fc. split; [exact Hok'|]. by rewrite fupd_eq, Hr, fmap_app.
  - done.
  - cbn [sched]. congruence.
  - rewrite Nat.mod_small in Ht' by (rewrite length_app; simpl; lia). simpl in Ht'.
    rewrite list_lookup_middle in Ht' by done. congruence.
Qed.

End ok.

(** ** Examples over the linked wait queues *)

#[local] Existing Instances WaitQueue.mem_queues WaitQueue.mem_queue_laws.

Definition example_task : task_t :=
  {| id := 0; state := TASK_TERMINATED; stack := 0; stack_size := 0; process := 0 |}.

Definition example_boot : machine WaitQueue.mem :=
  Machine (scheduler_initialize 1000 {|
    queues := WaitQueue.example_mem; tasks := fun _ => example_task; current_task := 5; idle_task := 5;
    host_active := true; host_context_valid := true; preemption_enabled := true; preemptions := 9;
    calls := [] |}) HostContext.

(** Three tasks are started; the first one waits in a queue at 2000. *)
Definition example_ops : list op :=
  [TaskInitialize 10000 1; TaskInitialize 20000 2; TaskInitialize 30000 3; StartTask 10000; StartTask 20000;
   StartTask 30000; EnablePreemption 1; Start; BlockCurrent 2000].

Definition example_machine : machine WaitQueue.mem := (machine_run 1000 (Some 0) example_boot example_ops).2.

Fixpoint all_allowed (m : machine WaitQueue.mem) (ops : list op) : Prop :=
  match ops with
  | [] => True
  | o :: ops => allowed 1000 m o /\ all_allowed (machine_step 1000 (Some 0) m o).2 ops
  end.

Lemma reachable_run m ops :
  reachable 1000 (Some 0) m -> all_allowed m ops ->
  reachable 1000 (Some 0) (machine_run 1000 (Some 0) m ops).2.
Proof.
  revert m. induction ops as [|o ops IH]; intros m Hm Ha; [done|]. destruct Ha as [Ho Ha]. cbn [machine_run].
  pose proof (reachable_step _ _ m o Hm Ho) as Hs. destruct (machine_step 1000 (Some 0) m o) as [r m'].
  specialize (IH m' Hs Ha). by destruct (machine_run 1000 (Some 0) m' ops).
Qed.

Lemma example_allowed : all_allowed example_boot example_ops.
Proof.
  repeat (split; [first [by vm_compute|split; [by vm_compute|]; intros [_ Hl]; vm_compute in Hl; done
    |split; [intros _ Hc; by vm_compute in Hc|by vm_compute]]|]). done.
Qed.

Lemma example_boot_reachable : reachable 1000 (Some 0) example_boot.
Proof.
  constructor. eexists. split; [|split; [|reflexivity]].
  - split; try done.
    + intros q. apply NoDup_nil_2.
    + intros q n Hn. by apply elem_of_nil in Hn.
    + intros q l n k Hl. by destruct l.
  - intros t [Ht Ho]. cbn in Ho. lia.
Qed.

Lemma example_reachable : reachable 1000 (Some 0) example_machine.
Proof. apply reachable_run; [apply example_boot_reachable|apply example_allowed]. Qed.

(** The queues of the example machine. *)
Lemma example_queues v c :
  ok 1000 (sched example_machine) v c -> v 1000 = [wait_node 30000] /\ v 2000 = [wait_node 10000].
Proof.
  intros [Hrep _].
  split; (apply (WaitQueue.walk_exact _ v _ 5 _ Hrep); [done|simpl; lia|vm_compute; reflexivity]).
Qed.


Lemma example_ok :
  exists v, ok 1000 (sched example_machine) v 20000 /\ v 1000 = wait_node <$> [30000] /\
    v 2000 = [wait_node 10000].
Proof.
  destruct (reachable_ok 1000 (Some 0) ltac:(done) example_machine example_reachable) as [[v Hok] _].
  replace (current_task (sched example_machine)) with 20000 in Hok by (vm_compute; reflexivity).
  exists v. split; [done|]. by apply (example_queues v 20000).
Qed.

Lemma scheduler_round_robin_witness :
  exists t, [20000; 30000] !! 1%nat = Some t /\ cpu (ticks 1000 (Some 0) 3 example_machine) = TaskContext t.
Proof.
  apply (scheduler_round_robin 1000 (Some 0) ltac:(done) example_machine 20000 [30000] 3 example_reachable).
  - destruct example_ok as (v & Hok & Hv & _). exists v.
    replace (current_task (sched example_machine)) with 20000 by (vm_compute; reflexivity). done.
  - vm_compute. reflexivity.
  - vm_compute. reflexivity.
Defined.

Lemma scheduler_woken_witness :
  exists v,
    let '(r, m') := machine_step 1000 (Some 0) example_machine (WakeOne 2000) in
    exists t, wait_node 10000 = wait_node t /\ r = Return t /\
      v 2000 = [wait_node 10000] /\ cpu (ticks 1000 (Some 0) 2 m') = TaskContext t.
Proof.
  destruct example_ok as (v & Hok & Hr & Hq). exists v.
  pose proof (scheduler_woken_runs 1000 (Some 0) ltac:(done) example_machine 20000 [30000] v 2000 (wait_node 10000) []
    example_reachable Hok Hr Hq ltac:(vm_compute; reflexivity) ltac:(vm_compute; reflexivity) ltac:(done) ltac:(done)) as Hw.
  destruct (machine_step 1000 (Some 0) example_machine (WakeOne 2000)) as [r m'].
  destruct Hw as (t & Ht & Hr' & Hc). by exists t.
Defined.

End Scheduler.
