(* ===== verification/Channel.v ===== *)
(** * Message channels (kernel/ipc/channel.c)

    A channel is a ring of sixteen messages with a queue of waiting readers and one of
    waiting writers.  An operation holds the channel lock while it works on the ring; it
    wakes a waiting task after it released the lock, or gives up the processor and the
    lock together.  What it needs of the scheduler is the interface [Blocking]. *)

From S2P Require Import Prelude Ring WaitQueue Scheduler.

(** [wake_one s q] is [scheduler_wake_one]: the woken task, or 0.  [block_with_lock s q l]
    is [scheduler_block_current_with_lock]: [false] if it returned 0, [true] if the
    running task was suspended and another one runs. *)
Class Blocking (S : Type) := {
  queue_initialize : S -> Z -> S;
  wake_one : S -> Z -> Z * S;
  block_with_lock : S -> Z -> Z -> bool * S;
}.

(** [stands s p c]: the tasks [p q] wait in the queue [q], in order, and [c] runs. *)
Class BlockingLaws (S : Type) `{Blocking S} := {
  stands : S -> (Z -> list Z) -> Z -> Prop;
  may_block : S -> Prop;
  usable_queue : Z -> Prop;
  stands_unique s p c p' c' :
    stands s p c -> stands s p' c' -> c' = c /\ forall q, usable_queue q -> p' q = p q;
  stands_waiting s p c q t : stands s p c -> usable_queue q -> t ∈ p q -> t <> c /\ t <> 0;
  stands_NoDup s p c q : stands s p c -> usable_queue q -> NoDup (p q);
  queue_initialize_spec s p c q :
    stands s p c -> usable_queue q -> p q = [] -> stands (queue_initialize s q) p c;
  wake_one_spec s p c q :
    stands s p c -> usable_queue q ->
    let '(t, s') := wake_one s q in
    match p q with
    | [] => t = 0 /\ stands s' p c
    | u :: l => t = u /\ stands s' (fupd p q l) c
    end;
  block_with_lock_spec s p c q lock :
    stands s p c -> may_block s -> c <> 0 -> usable_queue q -> lock <> 0 ->
    let '(b, s') := block_with_lock s q lock in
    if b then exists c', stands s' (fupd p q (p q ++ [c])) c' else stands s' p c;
}.

Module Channel.

Definition IPC_MESSAGE_MAX : Z := 64.
Definition IPC_QUEUE_CAPACITY : Z := 16.

Record ipc_message_t := { msg_sender : Z; msg_size : Z; msg_data : list Z }.

#[export] Instance ipc_message_inhabited : Inhabited ipc_message_t :=
  populate {| msg_sender := 0; msg_size := 0; msg_data := [] |}.

(** The lock and the wait queues are known by their addresses. *)
Record ipc_channel_t := {
  messages : list ipc_message_t;
  head : Z;
  tail : Z;
  count : Z;
  open : bool;
}.
#[export] Instance eta_ipc_channel : Eta ipc_channel_t := fun c =>
  {| messages := messages c; head := head c; tail := tail c; count := count c; open := open c |}.

Definition readers (channel : Z) : Z := channel + 1304.
Definition writers (channel : Z) : Z := channel + 1336.

(** The result of one pass of a waiting operation. *)
Inductive pass (R : Type) := Finished (r : R) | Suspended.
Arguments Finished {R}.
Arguments Suspended {R}.

Section channel.
Context {S : Type} `{Blocking S}.

(** The address of the channel. *)
Context (channel : Z).

Definition ipc_channel_initialize (s : S) (c : ipc_channel_t) : S * ipc_channel_t :=
  let c := c<| head := 0 |><| tail := 0 |><| count := 0 |><| open := true |> in
  (queue_initialize (queue_initialize s (readers channel)) (writers channel), c).

(** Storing a message in the tail slot, as both ways of sending do. *)
Definition store_message (c : ipc_channel_t) (sender : Z) (data : list Z) (size : Z) : ipc_channel_t :=
  let m := (messages c).[tail c] in
  let m := {| msg_sender := sender; msg_size := size; msg_data := copy_bytes (msg_data m) 0 data size |} in
  c<| messages := (messages c).[tail c <- m] |>
   <| tail := u32 (tail c + 1) mod IPC_QUEUE_CAPACITY |>
   <| count := u32 (count c + 1) |>.

(** Taking the message of the head slot: the buffer, the sender and the size. *)
Definition take_message (c : ipc_channel_t) (data : list Z) : list Z * Z * Z * ipc_channel_t :=
  let m := (messages c).[head c] in
  (copy_bytes data 0 (msg_data m) (msg_size m), msg_sender m, msg_size m,
   c<| head := u32 (head c + 1) mod IPC_QUEUE_CAPACITY |><| count := u32 (count c - 1) |>).

Definition send_arguments (data : option (list Z)) (size : Z) : bool :=
  negb ((channel =? 0) || bool_decide (data = None) || (size =? 0) || (IPC_MESSAGE_MAX <? size)).

Definition ipc_channel_send (s : S) (c : ipc_channel_t) (sender : Z) (data : option (list Z)) (size : Z)
    : bool * S * ipc_channel_t :=
  if negb (send_arguments data size) then (false, s, c)
  else if negb (open c) || (count c =? IPC_QUEUE_CAPACITY) then (false, s, c)
  else
    let c := store_message c sender (default [] data) size in
    let '(_, s) := wake_one s (readers channel) in
    (true, s, c).

(** One round of the loop of [ipc_channel_send_wait]. *)
Definition send_pass (s : S) (c : ipc_channel_t) (sender : Z) (data : list Z) (size : Z)
    : pass bool * S * ipc_channel_t :=
  if negb (open c) then (Finished false, s, c)
  else if negb (count c =? IPC_QUEUE_CAPACITY) then
    let c := store_message c sender data size in
    let '(_, s) := wake_one s (readers channel) in
    (Finished true, s, c)
  else
    let '(b, s) := block_with_lock s (writers channel) channel in
    (if negb b then Finished false else Suspended, s, c).

(** The call up to the end of its first round. *)
Definition ipc_channel_send_wait (s : S) (c : ipc_channel_t) (sender : Z) (data : option (list Z)) (size : Z)
    : pass bool * S * ipc_channel_t :=
  if negb (send_arguments data size) then (Finished false, s, c)
  else send_pass s c sender (default [] data) size.

(** [outs]: the pointers for the sender and the size are not null. *)
Definition receive_arguments (data : option (list Z)) (outs : bool) : bool :=
  negb ((channel =? 0) || bool_decide (data = None) || negb outs).

Definition ipc_channel_receive (s : S) (c : ipc_channel_t) (data : option (list Z)) (capacity : Z) (outs : bool)
    : option (list Z * Z * Z) * S * ipc_channel_t :=
  if negb (receive_arguments data outs) then (None, s, c)
  else if (count c =? 0) || (capacity <? msg_size ((messages c).[head c])) then (None, s, c)
  else
    let '(data, sender, size, c) := take_message c (default [] data) in
    let '(_, s) := wake_one s (writers channel) in
    (Some (data, sender, size), s, c).

(** One round of the loop of [ipc_channel_receive_wait]. *)
Definition receive_pass (s : S) (c : ipc_channel_t) (data : list Z) (capacity : Z)
    : pass (option (list Z * Z * Z)) * S * ipc_channel_t :=
  let size := msg_size ((messages c).[head c]) in
  if negb (count c =? 0) && (size <=? capacity) then
    let '(data, sender, size, c) := take_message c data in
    let '(_, s) := wake_one s (writers channel) in
    (Finished (Some (data, sender, size)), s, c)
  else if negb (open c) || (negb (count c =? 0) && (capacity <? size)) then (Finished None, s, c)
  else
    let '(b, s) := block_with_lock s (readers channel) channel in
    (if negb b then Finished None else Suspended, s, c).

Definition ipc_channel_receive_wait (s : S) (c : ipc_channel_t) (data : option (list Z)) (capacity : Z)
    (outs : bool) : pass (option (list Z * Z * Z)) * S * ipc_channel_t :=
  if negb (receive_arguments data outs) then (Finished None, s, c)
  else receive_pass s c (default [] data) capacity.

(** [None]: the loop has not ended after [fuel] rounds. *)
Fixpoint wake_all (fuel : nat) (s : S) (queue : Z) : option S :=
  match fuel with
  | O => None
  | Datatypes.S fuel =>
    let '(t, s) := wake_one s queue in
    if t =? 0 then Some s else wake_all fuel s queue
  end.

Definition ipc_channel_close (fuel : nat) (s : S) (c : ipc_channel_t) : option (bool * S * ipc_channel_t) :=
  if channel =? 0 then Some (false, s, c)
  else if negb (open c) then Some (false, s, c)
  else
    let c := c<| open := false |> in
    match wake_all fuel s (readers channel) with
    | None => None
    | Some s =>
      match wake_all fuel s (writers channel) with
      | None => None
      | Some s => Some (true, s, c)
      end
    end.

Definition ipc_channel_count (c : ipc_channel_t) : Z := if channel =? 0 then 0 else count c.

End channel.

(** ** The ring of messages *)

Definition stored (c : ipc_channel_t) : list ipc_message_t := ring_list 16 (messages c) (head c) (count c).

(** The memory of a message always has room; a stored message has a size. *)
Record channel_ok (c : ipc_channel_t) : Prop := {
  ok_ring : ring_ok 16 (messages c) (head c) (tail c) (count c);
  ok_room : Forall (fun m => zlen (msg_data m) = IPC_MESSAGE_MAX) (messages c);
  ok_sizes : Forall (fun m => 0 < msg_size m <= IPC_MESSAGE_MAX) (stored c);
}.

(** A message as its receiver sees it. *)
Definition message_of (m : ipc_message_t) : Z * list Z := (msg_sender m, take (Z.to_nat (msg_size m)) (msg_data m)).

Definition contents (c : ipc_channel_t) : list (Z * list Z) := message_of <$> stored c.

Lemma channel_contents_length c : channel_ok c -> zlen (contents c) = count c.
Proof.
  intros [(_ & _ & Hc & _) _ _]. unfold contents, zlen. rewrite length_fmap. apply (ring_list_length 16). lia.
Qed.

Lemma store_message_spec c sender data size :
  channel_ok c -> count c < 16 -> 0 < size <= 64 -> size <= zlen data ->
  let c' := store_message c sender data size in
  channel_ok c' /\ contents c' = contents c ++ [(sender, take (Z.to_nat size) data)] /\
  open c' = open c /\ count c' = count c + 1.
Proof.
  intros [Hr Hm Hz] Hc Hs Hl. pose proof Hr as (Hlen & Hh & Hcb & Ht).
  assert (0 <= tail c < 16) as Htb by (rewrite Ht; apply Z.mod_pos_bound; lia).
  assert (zlen (msg_data ((messages c).[tail c])) = 64) as Hd.
  { eapply (Forall_lookup_1 (fun m => zlen (msg_data m) = 64)); [exact Hm|]. apply arr_lookup. lia. }
  unfold store_message, IPC_QUEUE_CAPACITY. rewrite !(wrap_small 32) by (widths; lia).
  set (m := {| msg_sender := sender; msg_size := size; msg_data := _ |}).
  destruct (ring_push 16 ltac:(lia) _ _ _ _ m Hr Hc) as [Hr' Hl'].
  split; [|split; [|done]].
  - split; unfold stored; cbn [messages head tail count set_field]; [done| |].
    + apply Forall_insert; [done|]. unfold m. cbn [msg_data]. by rewrite length_copy_bytes.
    + rewrite Hl'. apply Forall_app. split; [done|]. by apply Forall_singleton.
  - unfold contents, stored. cbn [messages head tail count set_field]. rewrite Hl', fmap_app. do 2 f_equal.
    unfold message_of, m. cbn [msg_sender msg_size msg_data]. rewrite copy_bytes_spec by lia. simpl.
    by rewrite take_app_length' by len.
Qed.

Lemma take_message_spec c data capacity :
  channel_ok c -> 0 < count c -> msg_size ((messages c).[head c]) <= capacity <= zlen data ->
  let '(buffer, sender, size, c') := take_message c data in
  channel_ok c' /\ contents c = (sender, take (Z.to_nat size) buffer) :: contents c' /\
  open c' = open c /\ count c' = count c - 1.
Proof.
  intros [Hr Hm Hz] Hc Hs. pose proof Hr as (Hlen & Hh & Hcb & Ht).
  destruct (ring_pop 16 ltac:(lia) _ _ _ _ Hr Hc) as [Hr' Hl'].
  unfold stored in Hz. rewrite Hl' in Hz. apply Forall_cons in Hz as [Hz0 Hz].
  unfold take_message, IPC_QUEUE_CAPACITY. set (m := (messages c).[head c]) in *.
  assert (zlen (msg_data m) = 64) as Hd.
  { eapply (Forall_lookup_1 (fun m => zlen (msg_data m) = 64)); [exact Hm|]. apply arr_lookup. lia. }
  unfold IPC_MESSAGE_MAX in *. rewrite !(wrap_small 32) by (widths; lia).
  split; [|split; [|done]].
  - by split.
  - unfold contents, stored. cbn [messages head tail count set_field]. rewrite Hl', fmap_cons. f_equal.
    fold m. unfold message_of. f_equal. rewrite copy_bytes_spec by lia. simpl. by rewrite take_app_length' by len.
Qed.

(** A stored message fits into a buffer of the maximal size. *)
Lemma head_message_size c : channel_ok c -> 0 < count c -> msg_size ((messages c).[head c]) <= 64.
Proof.
  intros [Hr Hm Hz] Hc. destruct (ring_pop 16 ltac:(lia) _ _ _ _ Hr Hc) as [_ Hl].
  unfold stored in Hz. rewrite Hl in Hz. apply Forall_cons in Hz as [Hz _]. unfold IPC_MESSAGE_MAX in Hz. lia.
Qed.

(** ** Tasks that share a channel *)

(** A waiting operation in progress. *)
Inductive request :=
| Sending (sender : Z) (data : list Z) (size : Z)
| Receiving (buffer : list Z) (capacity : Z).

Definition receiving (r : request) : bool := match r with Sending _ _ _ => false | Receiving _ _ => true end.

(** Buffers are as long as they say, and a reader has room for any message. *)
Definition request_ok (r : request) : Prop :=
  match r with
  | Sending _ data size => 0 < size <= 64 /\ size <= zlen data
  | Receiving buffer capacity => 64 <= capacity <= zlen buffer
  end.

(** The scheduler, the channel, the waiting operations that have not returned, and the
    messages sent and received so far. *)
Record system (S : Type) := System {
  scheduling : S;
  chan : ipc_channel_t;
  pending : gmap Z request;
  sent : list (Z * list Z);
  received : list (Z * list Z);
}.
Arguments System {S}.
Arguments scheduling {S}.
Arguments chan {S}.
Arguments pending {S}.
Arguments sent {S}.
Arguments received {S}.

Section system.
Context {S : Type} `{BlockingLaws S}.
Context (channel : Z).

Implicit Types sys : system S.

(** One round of a waiting operation of the running task: the first one, or the next one
    after it was woken. *)
Definition attempt (first : bool) sys (r : request) : bool * system S :=
  match r with
  | Sending sender data size =>
    let '(x, s, c) := if first then ipc_channel_send_wait channel (scheduling sys) (chan sys) sender (Some data) size
                      else send_pass channel (scheduling sys) (chan sys) sender data size in
    match x with
    | Finished ok => (true, System s c (pending sys)
        (if ok then sent sys ++ [(sender, take (Z.to_nat size) data)] else sent sys) (received sys))
    | Suspended => (false, System s c (pending sys) (sent sys) (received sys))
    end
  | Receiving buffer capacity =>
    let '(x, s, c) := if first then ipc_channel_receive_wait channel (scheduling sys) (chan sys) (Some buffer) capacity true
                      else receive_pass channel (scheduling sys) (chan sys) buffer capacity in
    match x with
    | Finished res => (true, System s c (pending sys) (sent sys)
        (match res with
         | Some (data, sender, size) => received sys ++ [(sender, take (Z.to_nat size) data)]
         | None => received sys
         end))
    | Suspended => (false, System s c (pending sys) (sent sys) (received sys))
    end
  end.

Definition with_pending sys (m : gmap Z request) : system S :=
  System (scheduling sys) (chan sys) m (sent sys) (received sys).

(** The running task [c] sends or receives without waiting, closes the channel, starts or
    continues a waiting operation; or anything happens that leaves the queues of the
    channel alone, such as a switch to another task. *)
Inductive sys_step sys : system S -> Prop :=
| step_send p c sender data size r s' c' :
    stands (scheduling sys) p c -> pending sys !! c = None -> 0 <= size <= zlen data ->
    ipc_channel_send channel (scheduling sys) (chan sys) sender (Some data) size = (r, s', c') ->
    sys_step sys (System s' c' (pending sys)
      (if r then sent sys ++ [(sender, take (Z.to_nat size) data)] else sent sys) (received sys))
| step_receive p c buffer capacity r s' c' :
    stands (scheduling sys) p c -> pending sys !! c = None -> capacity <= zlen buffer ->
    ipc_channel_receive channel (scheduling sys) (chan sys) (Some buffer) capacity true = (r, s', c') ->
    sys_step sys (System s' c' (pending sys) (sent sys)
      (match r with
       | Some (data, sender, size) => received sys ++ [(sender, take (Z.to_nat size) data)]
       | None => received sys
       end))
| step_close p c fuel r s' c' :
    stands (scheduling sys) p c -> pending sys !! c = None ->
    ipc_channel_close channel fuel (scheduling sys) (chan sys) = Some (r, s', c') ->
    sys_step sys (System s' c' (pending sys) (sent sys) (received sys))
| step_attempt p c (first : bool) r finished sys' :
    stands (scheduling sys) p c -> may_block (scheduling sys) -> c <> 0 -> request_ok r ->
    pending sys !! c = (if first then None else Some r) ->
    attempt first sys r = (finished, sys') ->
    sys_step sys (with_pending sys' (if finished then delete c (pending sys) else <[c := r]> (pending sys)))
| step_elsewhere p c s' p' c' :
    stands (scheduling sys) p c -> stands s' p' c' ->
    p' (readers channel) = p (readers channel) -> p' (writers channel) = p (writers channel) ->
    sys_step sys (System s' (chan sys) (pending sys) (sent sys) (received sys)).

(** A channel that has just been initialised, with nobody waiting. *)
Inductive sys_reachable : system S -> Prop :=
| sys_start s p c ch s' ch' :
    stands s p c -> p (readers channel) = [] -> p (writers channel) = [] ->
    zlen (messages ch) = 16 -> Forall (fun m => zlen (msg_data m) = IPC_MESSAGE_MAX) (messages ch) ->
    ipc_channel_initialize channel s ch = (s', ch') ->
    sys_reachable (System s' ch' ∅ [] [])
| sys_next sys sys' : sys_reachable sys -> sys_step sys sys' -> sys_reachable sys'.

(** The tasks with a waiting operation of the given kind that are not in [l]. *)
Definition woken (m : gmap Z request) (l : list Z) (b : bool) : gmap Z request :=
  filter (fun tr => receiving (tr.2) = b /\ ~ (tr.1 ∈ l)) m.

Definition queue_of (b : bool) : Z := if b then readers channel else writers channel.

(** What an operation needs in order not to wait: messages, or free slots. *)
Definition available (b : bool) (c : ipc_channel_t) : Z := if b then count c else 16 - count c.

Record sys_ok sys (p : Z -> list Z) (c : Z) : Prop := {
  so_stands : stands (scheduling sys) p c;
  so_channel : channel_ok (chan sys);
  so_pending : map_Forall (fun _ => request_ok) (pending sys);
  so_waiting : forall b t, t ∈ p (queue_of b) -> exists r, pending sys !! t = Some r /\ receiving r = b;
  so_woken : forall b, p (queue_of b) <> [] ->
    open (chan sys) = true /\ available b (chan sys) <= Z.of_nat (size (woken (pending sys) (p (queue_of b)) b));
  so_history : sent sys = received sys ++ contents (chan sys);
}.

Hypothesis Hchannel : channel <> 0.
Hypothesis Husable : forall b, usable_queue (queue_of b).

Lemma queue_of_ne b : queue_of (negb b) <> queue_of b.
Proof. unfold queue_of, readers, writers. destruct b; simpl; lia. Qed.

(** *** Counting the woken tasks *)

Lemma woken_cons m l b u r :
  m !! u = Some r -> receiving r = b -> ~ (u ∈ l) ->
  size (woken m l b) = Datatypes.S (size (woken m (u :: l) b)).
Proof.
  intros Hu Hr Hl. rewrite <- (map_size_insert_None u r).
  - f_equal. apply map_eq. intros t. unfold woken. destruct (decide (t = u)) as [->|Hne].
    + rewrite lookup_insert_eq. by apply map_lookup_filter_Some.
    + rewrite lookup_insert_ne by done. apply option_eq. intros x. rewrite !map_lookup_filter_Some. set_solver.
  - unfold woken. apply map_lookup_filter_None. right. intros x _ [_ Hx]. apply Hx. left.
Qed.

Lemma woken_delete m l b c : (size (woken m l b) <= Datatypes.S (size (woken (delete c m) l b)))%nat.
Proof.
  unfold woken. rewrite map_filter_delete. set (f := filter _ m). destruct (f !! c) as [x|] eqn:E.
  - rewrite map_size_delete. rewrite E. lia.
  - rewrite delete_id by done. lia.
Qed.

Lemma woken_delete_other m l b c :
  (forall r, m !! c = Some r -> receiving r = negb b) -> woken (delete c m) l b = woken m l b.
Proof.
  intros Hc. unfold woken. apply map_filter_delete_not. intros r Hr [Hb _]. cbn [snd] in Hb. rewrite (Hc r Hr) in Hb. by destruct b.
Qed.

Lemma woken_insert_other m l b c r :
  receiving r = negb b -> (forall r, m !! c = Some r -> receiving r = negb b) ->
  woken (<[c := r]> m) l b = woken m l b.
Proof.
  intros Hr Hc. rewrite <- (woken_delete_other m l b c Hc), <- (woken_delete_other (<[c:=r]> m) l b c).
  - by rewrite delete_insert_eq.
  - intros r'. rewrite lookup_insert_eq. naive_solver.
Qed.

(** *** The steps keep the invariant *)

(** Something becomes available to the operations of kind [b], one of which is woken, and
    an operation of the running task ends that is of the other kind. *)
Lemma supply_ok sys p c b ch t s' snt rcv :
  sys_ok sys p c -> channel_ok ch -> open ch = open (chan sys) ->
  available b ch = available b (chan sys) + 1 ->
  available (negb b) ch = available (negb b) (chan sys) - 1 ->
  wake_one (scheduling sys) (queue_of b) = (t, s') ->
  (forall r, pending sys !! c = Some r -> receiving r = negb b) ->
  snt = rcv ++ contents ch ->
  exists p', sys_ok (System s' ch (delete c (pending sys)) snt rcv) p' c.
Proof.
  intros Hok Hch Ho Ha Ha' Hw Hc Hh. destruct Hok as [Hs _ Hpend Hwait Hwok _].
  pose proof (wake_one_spec _ _ _ (queue_of b) Hs (Husable b)) as Hspec. rewrite Hw in Hspec.
  assert (forall b' t', t' ∈ p (queue_of b') -> t' <> c) as Hne.
  { intros b' t' Ht'. by destruct (stands_waiting _ _ _ _ _ Hs (Husable b') Ht'). }
  assert (forall b' t', t' ∈ p (queue_of b') -> exists r, delete c (pending sys) !! t' = Some r /\ receiving r = b') as Hwait'.
  { intros b' t' Ht'. rewrite lookup_delete_ne by (symmetry; by eapply Hne). by apply Hwait. }
  assert (map_Forall (fun _ => request_ok) (delete c (pending sys))) as Hpend' by (by apply map_Forall_delete).
  (* the operations of the other kind: one free slot or message fewer, one task fewer *)
  assert (p (queue_of (negb b)) <> [] -> open ch = true /\
    available (negb b) ch <= Z.of_nat (size (woken (delete c (pending sys)) (p (queue_of (negb b))) (negb b)))) as Hother.
  { intros Hq. destruct (Hwok (negb b) Hq) as [H1 H2]. split; [congruence|].
    pose proof (woken_delete (pending sys) (p (queue_of (negb b))) (negb b) c). lia. }
  destruct (p (queue_of b)) as [|u l] eqn:Hq.
  - exists p. destruct Hspec as [_ Hs']. split; try done. intros b' Hb'. cbn [chan pending].
    destruct (decide (b' = b)) as [->|Hb]; [done|]. assert (b' = negb b) as -> by (by destruct b', b). by apply Hother.
  - destruct Hspec as [_ Hs']. exists (fupd p (queue_of b) l).
    pose proof (stands_NoDup _ _ _ _ Hs (Husable b)) as Hnd. rewrite Hq in Hnd. apply NoDup_cons in Hnd as [Hul _].
    split; try done; cbn [scheduling chan pending].
    + intros b' t' Ht'. apply Hwait'. unfold fupd in Ht'. destruct (queue_of b' =? queue_of b) eqn:E; [|done].
      apply Z.eqb_eq in E. rewrite E, Hq. by right.
    + intros b' Hb'. destruct (decide (b' = b)) as [->|Hb].
      * rewrite fupd_eq in *. destruct (Hwok b) as [H1 H2]; [by rewrite Hq|]. split; [congruence|].
        destruct (Hwait b u) as (r & Hr & Hrb); [rewrite Hq; left|]. rewrite Hq in H2.
        rewrite (woken_delete_other (pending sys)) by done.
        rewrite (woken_cons (pending sys) l b u r Hr Hrb Hul). lia.
      * assert (b' = negb b) as -> by (by destruct b', b). rewrite fupd_ne in * by apply queue_of_ne. by apply Hother.
Qed.

(** The running task is suspended, nothing being available to its kind. *)
Lemma suspend_ok sys p c r s' c' :
  sys_ok sys p c -> request_ok r -> open (chan sys) = true -> available (receiving r) (chan sys) = 0 ->
  (forall r', pending sys !! c = Some r' -> r' = r) ->
  stands s' (fupd p (queue_of (receiving r)) (p (queue_of (receiving r)) ++ [c])) c' ->
  sys_ok (System s' (chan sys) (<[c := r]> (pending sys)) (sent sys) (received sys))
    (fupd p (queue_of (receiving r)) (p (queue_of (receiving r)) ++ [c])) c'.
Proof.
  intros [Hs Hch Hpend Hwait Hwok Hh] Hr Ho Ha Hc Hs'. set (b := receiving r) in *.
  split; try done; cbn [chan pending].
  - by apply map_Forall_insert_2.
  - intros b' t Ht. destruct (decide (t = c)) as [->|Hne].
    + rewrite lookup_insert_eq. exists r. split; [done|]. unfold fupd in Ht.
      destruct (queue_of b' =? queue_of b) eqn:E.
      * destruct (decide (b' = b)) as [->|Hb]; [done|]. exfalso. apply (queue_of_ne b).
        replace (negb b) with b' by (by destruct b', b). lia.
      * by destruct (stands_waiting _ _ _ _ _ Hs (Husable b') Ht).
    + rewrite lookup_insert_ne by done. apply Hwait. unfold fupd in Ht.
      destruct (queue_of b' =? queue_of b) eqn:E; [|done]. apply Z.eqb_eq in E. rewrite E.
      apply elem_of_app in Ht as [Ht|Ht]; [done|]. by apply list_elem_of_singleton in Ht.
  - intros b' Hq. split; [done|]. destruct (decide (b' = b)) as [->|Hb]; [rewrite Ha; lia|].
    assert (b' = negb b) as -> by (by destruct b', b). rewrite fupd_ne in * by apply queue_of_ne.
    rewrite (woken_insert_other (pending sys)).
    + by apply Hwok.
    + by rewrite negb_involutive.
    + intros r' Hr'. rewrite (Hc r' Hr'). by rewrite negb_involutive.
Qed.

(** An operation of the running task fails, the channel being closed or nothing being
    available to it. *)
Lemma fail_ok sys p c r s' :
  sys_ok sys p c -> (forall r', pending sys !! c = Some r' -> r' = r) ->
  (open (chan sys) = false \/ available (receiving r) (chan sys) = 0) -> stands s' p c ->
  sys_ok (System s' (chan sys) (delete c (pending sys)) (sent sys) (received sys)) p c.
Proof.
  intros [Hs Hch Hpend Hwait Hwok Hh] Hc Hor Hs'. split; try done; cbn [chan pending].
  - by apply map_Forall_delete.
  - intros b t Ht. destruct (stands_waiting _ _ _ _ _ Hs (Husable b) Ht) as [Hne _].
    rewrite lookup_delete_ne by done. by apply Hwait.
  - intros b Hq. destruct (Hwok b Hq) as [H1 H2]. split; [done|]. destruct Hor as [Hor|Hor]; [congruence|].
    destruct (decide (b = receiving r)) as [->|Hb]; [rewrite Hor; lia|].
    rewrite woken_delete_other; [done|]. intros r' Hr'. rewrite (Hc r' Hr'). by destruct b, (receiving r).
Qed.

(** Waking a queue until it is empty ends, and empties it. *)
Lemma wake_all_some fuel s p c q s' :
  stands s p c -> usable_queue q -> wake_all fuel s q = Some s' ->
  exists p', stands s' p' c /\ p' q = [] /\ forall q', q' <> q -> p' q' = p q'.
Proof.
  revert s p. induction fuel as [|fuel IH]; intros s p Hs Hq Hw; [done|]. cbn [wake_all] in Hw.
  pose proof (wake_one_spec _ _ _ q Hs Hq) as Hspec. destruct (wake_one s q) as [t s1].
  destruct (p q) as [|u l] eqn:Hp.
  - destruct Hspec as [-> Hs1]. injection Hw as <-. by exists p.
  - destruct Hspec as [-> Hs1]. destruct (stands_waiting _ _ _ q u Hs Hq) as [_ Hu]; [rewrite Hp; left|].
    replace (u =? 0) with false in Hw by lia. destruct (IH _ _ Hs1 Hq Hw) as (p' & Hp' & He & Hr).
    exists p'. split; [done|]. split; [done|]. intros q' Hq'. rewrite Hr by done. by rewrite fupd_ne.
Qed.

Lemma wake_all_ends fuel s p c q :
  stands s p c -> usable_queue q -> (length (p q) < fuel)%nat -> is_Some (wake_all fuel s q).
Proof.
  revert s p. induction fuel as [|fuel IH]; intros s p Hs Hq Hl; [lia|]. cbn [wake_all].
  pose proof (wake_one_spec _ _ _ q Hs Hq) as Hspec. destruct (wake_one s q) as [t s1].
  destruct (p q) as [|u l] eqn:Hp; [by destruct Hspec as [-> _]|].
  destruct Hspec as [-> Hs1]. destruct (stands_waiting _ _ _ q u Hs Hq) as [_ Hu]; [rewrite Hp; left|].
  replace (u =? 0) with false by lia. apply (IH _ _ Hs1 Hq). rewrite fupd_eq. simpl in Hl. lia.
Qed.

Lemma close_ok sys p c fuel r s' c' :
  sys_ok sys p c -> ipc_channel_close channel fuel (scheduling sys) (chan sys) = Some (r, s', c') ->
  exists p', sys_ok (System s' c' (pending sys) (sent sys) (received sys)) p' c /\
    (p' (queue_of true) = [] /\ p' (queue_of false) = [] /\ open c' = false).
Proof.
  intros Hok Hcl. pose proof Hok as [Hs Hch Hpend Hwait Hwok Hh]. unfold ipc_channel_close in Hcl.
  replace (channel =? 0) with false in Hcl by lia. destruct (open (chan sys)) eqn:Ho; cbn [negb] in Hcl.
  - destruct (wake_all fuel (scheduling sys) (readers channel)) as [s1|] eqn:E1; [|done].
    destruct (wake_all fuel s1 (writers channel)) as [s2|] eqn:E2; [|done]. simplify_eq.
    destruct (wake_all_some _ _ _ _ _ _ Hs (Husable true) E1) as (p1 & Hp1 & He1 & Hr1).
    destruct (wake_all_some _ _ _ _ _ _ Hp1 (Husable false) E2) as (p2 & Hp2 & He2 & Hr2).
    assert (forall b, p2 (queue_of b) = []) as Hemp.
    { intros [|]; [|done]. rewrite Hr2; [done|]. apply (queue_of_ne false). }
    exists p2. split; [|by rewrite !Hemp]. split; try done; cbn [chan pending].
    + by destruct Hch; split.
    + intros b t. rewrite Hemp. by intros Ht%elem_of_nil.
    + intros b. by rewrite Hemp.
  - simplify_eq. exists p. split; [by destruct sys|].
    assert (forall b, p (queue_of b) = []) as Hemp.
    { intros b. destruct (p (queue_of b)) as [|u l] eqn:E; [done|]. destruct (Hwok b) as [Hb _]; [by rewrite E|congruence]. }
    by rewrite !Hemp.
Qed.

(** A message goes in: a reader is woken. *)
Lemma stored_ok sys p c sender data size t s' :
  sys_ok sys p c -> (forall r, pending sys !! c = Some r -> receiving r = false) ->
  count (chan sys) < 16 -> 0 < size <= 64 -> size <= zlen data ->
  wake_one (scheduling sys) (readers channel) = (t, s') ->
  exists p', sys_ok (System s' (store_message (chan sys) sender data size) (delete c (pending sys))
    (sent sys ++ [(sender, take (Z.to_nat size) data)]) (received sys)) p' c.
Proof.
  intros Hok Hc Hn Hs Hl Hw.
  destruct (store_message_spec (chan sys) sender data size (so_channel _ _ _ Hok) Hn Hs Hl) as (Hch & Hcont & Ho & Hcount).
  apply (supply_ok sys p c true _ t); try done; unfold available; cbn [negb]; [lia|].
  by rewrite (so_history _ _ _ Hok), Hcont, app_assoc.
Qed.

(** A message goes out: a writer is woken. *)
Lemma taken_ok sys p c buffer capacity t s' data sender size c' :
  sys_ok sys p c -> (forall r, pending sys !! c = Some r -> receiving r = true) ->
  0 < count (chan sys) -> msg_size ((messages (chan sys)).[head (chan sys)]) <= capacity <= zlen buffer ->
  take_message (chan sys) buffer = (data, sender, size, c') ->
  wake_one (scheduling sys) (writers channel) = (t, s') ->
  exists p', sys_ok (System s' c' (delete c (pending sys)) (sent sys)
    (received sys ++ [(sender, take (Z.to_nat size) data)])) p' c.
Proof.
  intros Hok Hc Hn Hs Ht Hw.
  pose proof (take_message_spec (chan sys) buffer capacity (so_channel _ _ _ Hok) Hn Hs) as Hspec.
  rewrite Ht in Hspec. destruct Hspec as (Hch & Hcont & Ho & Hcount).
  apply (supply_ok sys p c false _ t); try done; unfold available; cbn [negb]; [lia|].
  rewrite (so_history _ _ _ Hok), Hcont. by rewrite <- app_assoc.
Qed.

(** The number of messages stays in range. *)
Lemma count_range sys p c : sys_ok sys p c -> 0 <= count (chan sys) <= 16.
Proof. intros Hok. destruct (ok_ring _ (so_channel _ _ _ Hok)) as (_ & _ & ? & _). done. Qed.

Lemma send_pass_ok sys p c sender data size :
  let r := Sending sender data size in
  sys_ok sys p c -> may_block (scheduling sys) -> c <> 0 -> request_ok r ->
  (forall r', pending sys !! c = Some r' -> r' = r) ->
  let '(finished, sys') := attempt false sys r in
  exists p' c', sys_ok (with_pending sys' (if finished then delete c (pending sys) else <[c := r]> (pending sys))) p' c'.
Proof.
  intros r Hok Hmay Hc [Hs Hl] Hp. cbn beta iota delta [attempt r]. unfold send_pass. pose proof (count_range sys p c Hok) as Hr.
  destruct (open (chan sys)) eqn:Ho; cbn [negb].
  2: { exists p, c. apply (fail_ok sys p c r); auto. apply Hok. }
  destruct (count (chan sys) =? IPC_QUEUE_CAPACITY) eqn:E; cbn [negb].
  - unfold IPC_QUEUE_CAPACITY in E.
    pose proof (block_with_lock_spec _ _ _ (queue_of false) channel (so_stands _ _ _ Hok) Hmay Hc (Husable false) Hchannel) as Hb.
    cbn [queue_of] in Hb. destruct (block_with_lock (scheduling sys) (writers channel) channel) as [[] s']; cbn [negb].
    + destruct Hb as [c' Hb]. eexists _, c'. apply (suspend_ok sys p c r); try done. unfold available. cbn. lia.
    + exists p, c. apply (fail_ok sys p c r); auto. right. unfold available. cbn. lia.
  - unfold IPC_QUEUE_CAPACITY in E. destruct (wake_one (scheduling sys) (readers channel)) as [t s'] eqn:Ew.
    destruct (stored_ok sys p c sender data size t s') as [p' Hp']; try done; [|lia|by exists p', c].
    intros r' Hr'. by rewrite (Hp r' Hr').
Qed.

Lemma receive_pass_ok sys p c buffer capacity :
  let r := Receiving buffer capacity in
  sys_ok sys p c -> may_block (scheduling sys) -> c <> 0 -> request_ok r ->
  (forall r', pending sys !! c = Some r' -> r' = r) ->
  let '(finished, sys') := attempt false sys r in
  exists p' c', sys_ok (with_pending sys' (if finished then delete c (pending sys) else <[c := r]> (pending sys))) p' c'.
Proof.
  intros r Hok Hmay Hc Hs Hp. unfold r, request_ok in Hs. cbn beta iota delta [attempt r]. unfold receive_pass. pose proof (count_range sys p c Hok) as Hr.
  destruct (count (chan sys) =? 0) eqn:E; cbn [negb andb].
  - rewrite orb_false_r. destruct (open (chan sys)) eqn:Ho; cbn [negb].
    2: { exists p, c. apply (fail_ok sys p c r); auto. apply Hok. }
    pose proof (block_with_lock_spec _ _ _ (queue_of true) channel (so_stands _ _ _ Hok) Hmay Hc (Husable true) Hchannel) as Hb.
    cbn [queue_of] in Hb. destruct (block_with_lock (scheduling sys) (readers channel) channel) as [[] s']; cbn [negb].
    + destruct Hb as [c' Hb]. eexists _, c'. apply (suspend_ok sys p c r); try done. unfold available. cbn. lia.
    + exists p, c. apply (fail_ok sys p c r); auto. right. unfold available. cbn. lia.
  - pose proof (head_message_size (chan sys) (so_channel _ _ _ Hok) ltac:(lia)) as Hm.
    replace (msg_size ((messages (chan sys)).[head (chan sys)]) <=? capacity) with true by lia. cbn [andb].
    destruct (take_message (chan sys) buffer) as [[[data sender] size] c1] eqn:Et.
    destruct (wake_one (scheduling sys) (writers channel)) as [t s'] eqn:Ew.
    destruct (taken_ok sys p c buffer capacity t s' data sender size c1) as [p' Hp']; try done; [|lia|lia|by exists p', c].
    intros r' Hr'. by rewrite (Hp r' Hr').
Qed.

(** The first round is like the others, the arguments being valid. *)
Lemma attempt_first sys r : request_ok r -> attempt true sys r = attempt false sys r.
Proof.
  destruct r as [sender data size|buffer capacity]; cbn [request_ok attempt]; intros Hr.
  - unfold ipc_channel_send_wait, send_arguments, IPC_MESSAGE_MAX. rewrite bool_decide_eq_false_2 by done.
    by replace (negb (negb _)) with false by lia.
  - unfold ipc_channel_receive_wait, receive_arguments. rewrite bool_decide_eq_false_2 by done.
    by replace (negb (negb _)) with false by lia.
Qed.

Lemma attempt_ok sys p c first r :
  sys_ok sys p c -> may_block (scheduling sys) -> c <> 0 -> request_ok r ->
  pending sys !! c = (if first : bool then None else Some r) ->
  let '(finished, sys') := attempt first sys r in
  exists p' c', sys_ok (with_pending sys' (if finished then delete c (pending sys) else <[c := r]> (pending sys))) p' c'.
Proof.
  intros Hok Hmay Hc Hr Hp. assert (forall r', pending sys !! c = Some r' -> r' = r) as Hp'.
  { intros r'. rewrite Hp. destruct first; congruence. }
  replace (attempt first sys r) with (attempt false sys r) by (destruct first; [by rewrite attempt_first|done]).
  destruct r; [by apply (send_pass_ok sys p c)|by apply (receive_pass_ok sys p c)].
Qed.

Lemma send_ok sys p c sender data size r s' c' :
  sys_ok sys p c -> pending sys !! c = None -> 0 <= size <= zlen data ->
  ipc_channel_send channel (scheduling sys) (chan sys) sender (Some data) size = (r, s', c') ->
  exists p', sys_ok (System s' c' (pending sys)
    (if r then sent sys ++ [(sender, take (Z.to_nat size) data)] else sent sys) (received sys)) p' c.
Proof.
  intros Hok Hc Hl Hsend. pose proof (count_range sys p c Hok) as Hr. unfold ipc_channel_send in Hsend.
  destruct (negb (send_arguments channel (Some data) size)) eqn:E1; [simplify_eq; exists p; by destruct sys|].
  destruct (_ || _) eqn:E2 in Hsend; [simplify_eq; exists p; by destruct sys|].
  destruct (wake_one (scheduling sys) (readers channel)) as [t s1] eqn:Ew. simplify_eq.
  unfold send_arguments, IPC_MESSAGE_MAX in E1. unfold IPC_QUEUE_CAPACITY in E2.
  rewrite <- (delete_id (pending sys) c Hc).
  apply (stored_ok sys p c sender data size t); try done; [by rewrite Hc|lia|lia|lia].
Qed.

Lemma receive_ok sys p c buffer capacity r s' c' :
  sys_ok sys p c -> pending sys !! c = None -> capacity <= zlen buffer ->
  ipc_channel_receive channel (scheduling sys) (chan sys) (Some buffer) capacity true = (r, s', c') ->
  exists p', sys_ok (System s' c' (pending sys) (sent sys)
    (match r with
     | Some (data, sender, size) => received sys ++ [(sender, take (Z.to_nat size) data)]
     | None => received sys
     end)) p' c.
Proof.
  intros Hok Hc Hl Hrec. pose proof (count_range sys p c Hok) as Hr. unfold ipc_channel_receive in Hrec.
  destruct (negb (receive_arguments channel (Some buffer) true)) eqn:E1; [simplify_eq; exists p; by destruct sys|].
  destruct (_ || _) eqn:E2 in Hrec; [simplify_eq; exists p; by destruct sys|].
  change (default [] (Some buffer)) with buffer in Hrec. destruct (take_message (chan sys) buffer) as [[[data sender] size] c1] eqn:Et.
  destruct (wake_one (scheduling sys) (writers channel)) as [t s1] eqn:Ew. simplify_eq.
  rewrite <- (delete_id (pending sys) c Hc).
  apply (taken_ok sys p c buffer capacity t s' data sender size); try done; [by rewrite Hc|lia|lia].
Qed.

(** The observer of a step may see another, equal arrangement of the tasks. *)
Lemma sys_ok_stands sys p c p' c' : sys_ok sys p c -> stands (scheduling sys) p' c' -> sys_ok sys p' c'.
Proof.
  intros [Hs Hch Hpend Hwait Hwok Hh] Hs'. destruct (stands_unique _ _ _ _ _ Hs Hs') as [-> Hp].
  split; try done; intros b; rewrite Hp by done; auto.
Qed.

Lemma sys_step_ok sys p c sys' : sys_ok sys p c -> sys_step sys sys' -> exists p' c', sys_ok sys' p' c'.
Proof.
  intros Hok Hstep. destruct Hstep as [p0 c0 ? ? ? ? ? ? Hs|p0 c0 ? ? ? ? ? Hs|p0 c0 ? ? ? ? Hs
    |p0 c0 first r fin sys' Hs Hmay Hc Hr Hp Ha|p0 c0 s' p' c' Hs Hs' Hr Hw];
    apply (sys_ok_stands sys p c p0 c0 Hok) in Hs.
  - edestruct (send_ok sys p0 c0) as [p' Hp']; eauto.
  - edestruct (receive_ok sys p0 c0) as [p' Hp']; eauto.
  - edestruct (close_ok sys p0 c0) as (p' & Hp' & _); eauto.
  - pose proof (attempt_ok sys p0 c0 first r Hs Hmay Hc Hr Hp) as Hat. by rewrite Ha in Hat.
  - exists p', c'. destruct Hs as [_ Hch Hpend Hwait Hwok Hh].
    assert (forall b, p' (queue_of b) = p0 (queue_of b)) as Hq by (by intros []).
    split; try done; intros b; rewrite Hq; auto.
Qed.

Lemma sys_reachable_ok sys : sys_reachable sys -> exists p c, sys_ok sys p c.
Proof.
  induction 1 as [s p c ch s' ch' Hs Hr Hw Hlen Hroom Hinit|sys sys' _ (p & c & IH) Hstep].
  - unfold ipc_channel_initialize in Hinit. simplify_eq. exists p, c.
    pose proof (queue_initialize_spec _ _ _ (queue_of true) Hs (Husable true) Hr) as H1.
    pose proof (queue_initialize_spec _ _ _ (queue_of false) H1 (Husable false) Hw) as H2.
    assert (forall b, p (queue_of b) = []) as Hemp by (by intros []).
    split; cbn [scheduling chan pending sent received]; [exact H2| |apply map_Forall_empty| | |done].
    + split; cbn [messages head tail count set_field]; [by apply ring_empty_ok|done|]. by apply Forall_nil_2.
    + intros b t Ht. rewrite Hemp in Ht. by apply elem_of_nil in Ht.
    + intros b Hb. by rewrite Hemp in Hb.
  - by eapply sys_step_ok.
Qed.

(** *** What the tasks can rely on *)



(** Closing ends and wakes everybody: with more rounds than tasks wait in either queue,
    closing returns, and afterwards nobody waits and no operation waits any more. *)
Theorem channel_close_wakes_all sys p c fuel :
  sys_reachable sys -> stands (scheduling sys) p c ->
  (length (p (readers channel)) < fuel)%nat -> (length (p (writers channel)) < fuel)%nat ->
  exists r s' c' p', ipc_channel_close channel fuel (scheduling sys) (chan sys) = Some (r, s', c') /\
    r = open (chan sys) /\ stands s' p' c /\ p' (readers channel) = [] /\ p' (writers channel) = [] /\
    forall req, request_ok req ->
      (attempt false (System s' c' (pending sys) (sent sys) (received sys)) req).1 = true.
Proof.
  intros (p0 & c0 & Hok)%sys_reachable_ok Hs Hr Hw. apply (sys_ok_stands _ _ _ p c) in Hok; [|done].
  assert (exists r s' c', ipc_channel_close channel fuel (scheduling sys) (chan sys) = Some (r, s', c') /\ r = open (chan sys))
    as (r & s' & c' & Hcl & Hopen).
  { unfold ipc_channel_close. replace (channel =? 0) with false by lia. destruct (open (chan sys)); cbn [negb]; [|eauto].
    destruct (wake_all_ends fuel _ _ _ _ Hs (Husable true) Hr) as [s1 E1]. cbn [queue_of] in E1. rewrite E1.
    destruct (wake_all_some _ _ _ _ _ _ Hs (Husable true) E1) as (p1 & Hp1 & _ & Hr1).
    destruct (wake_all_ends fuel _ _ _ _ Hp1 (Husable false)) as [s2 E2].
    { rewrite Hr1; [done|]. apply (queue_of_ne true). }
    cbn [queue_of] in E2. rewrite E2. eauto. }
  destruct (close_ok sys p c fuel r s' c' Hok Hcl) as (p' & Hok' & Hp1 & Hp2 & Hc').
  exists r, s', c', p'. split_and!; try done; [apply Hok'|].
  intros [sender data size|buffer capacity] _; cbn [attempt scheduling chan].
  - unfold send_pass. by rewrite Hc'.
  - unfold receive_pass. rewrite Hc'. destruct (_ && _); cbn [negb orb]; [|done].
    destruct (take_message c' buffer) as [[[data sender] size] c1]. by destruct (wake_one s' (writers channel)).
Qed.

(** C38. A reader whose buffer is too small for the message that woke it returns without
    passing the wake-up on.  The message stays in the channel while the next reader keeps
    waiting, whatever room that one has. *)
Theorem channel_small_reader_strands s p c ch sender data size u w l s1 ch1 s2 buffer capacity :
  stands s p c -> p (readers channel) = u :: w :: l -> channel_ok ch -> count ch = 0 -> open ch = true ->
  0 < size <= 64 -> size <= zlen data -> capacity < size ->
  ipc_channel_send channel s ch sender (Some data) size = (true, s1, ch1) ->
  (exists p1, stands s1 p1 c /\ p1 (readers channel) = w :: l) /\
  receive_pass channel s2 ch1 buffer capacity = (Finished None, s2, ch1) /\
  contents ch1 = [(sender, take (Z.to_nat size) data)] /\ open ch1 = true.
Proof.
  intros Hs Hp Hch Hcount Ho Hsize Hdata Hcap Hsend. unfold ipc_channel_send in Hsend.
  replace (negb (send_arguments channel (Some data) size)) with false in Hsend
    by (unfold send_arguments, IPC_MESSAGE_MAX; rewrite bool_decide_eq_false_2 by done; lia).
  rewrite Ho, Hcount in Hsend. cbn in Hsend.
  pose proof (wake_one_spec _ _ _ (queue_of true) Hs (Husable true)) as Hw. cbn [queue_of] in Hw. rewrite Hp in Hw.
  destruct (wake_one s (readers channel)) as [t s1']. destruct Hw as [_ Hw]. simplify_eq.
  destruct (store_message_spec ch sender data size Hch ltac:(lia) Hsize Hdata) as (Hok1 & Hc1 & Ho1 & Hn1).
  set (ch1 := store_message ch sender data size) in *. clearbody ch1.
  assert (contents ch = []) as Hnil.
  { apply nil_length_inv. pose proof (channel_contents_length ch Hch). unfold zlen in *. lia. }
  rewrite Hnil in Hc1. split; [eexists; split; [exact Hw|by rewrite fupd_eq]|]. split; [|by rewrite Ho1].
  destruct (ring_pop 16 ltac:(lia) _ _ _ _ (ok_ring _ Hok1) ltac:(lia)) as [_ Hl].
  assert (msg_size ((messages ch1).[head ch1]) = size) as Hms.
  { pose proof (ok_sizes _ Hok1) as Hz. unfold stored in Hz. rewrite Hl in Hz. apply Forall_cons in Hz as [Hz _].
    unfold contents, stored in Hc1. rewrite Hl, fmap_cons in Hc1. injection Hc1 as _ Hm _.
    pose proof Hok1 as [(Hlen & Hh & _) Hroom _].
    assert (zlen (msg_data ((messages ch1).[head ch1])) = 64) as Hd.
    { eapply (Forall_lookup_1 (fun m => zlen (msg_data m) = 64)); [exact Hroom|]. apply arr_lookup. lia. }
    apply (f_equal zlen) in Hm. unfold zlen, IPC_MESSAGE_MAX in *.
    rewrite !length_take in Hm. lia. }
  unfold receive_pass. rewrite Hms, Hn1, Hcount. replace (size <=? capacity) with false by lia.
  replace (capacity <? size) with true by lia. by rewrite orb_true_r.
Qed.

End system.

(** ** The scheduler implements the interface *)

Import Scheduler.

Section scheduler.
Context {W : Type} `{WaitQueueLaws W}.
Context (ready_queue : Z) (arch_percpu_current : option Z) (Hready : ready_queue <> 0).

#[local] Instance scheduler_blocking : Blocking (scheduler W) := {|
  queue_initialize s q := s<| queues := wq_queue_initialize (queues s) q |>;
  wake_one := scheduler_wake_one ready_queue;
  block_with_lock s q lock :=
    let '(o, s') := scheduler_block_current_with_lock ready_queue arch_percpu_current s q lock in
    (match o with Switch _ _ => true | _ => false end, s');
|}.

Definition scheduler_stands (s : scheduler W) (p : Z -> list Z) (c : Z) : Prop :=
  c = current_task s /\
  exists v, ok ready_queue s v c /\ forall q, q <> 0 /\ q <> ready_queue -> v q = wait_node <$> p q.

#[export] Instance wait_node_inj : Inj (=) (=) wait_node.
Proof. intros x y. unfold wait_node. lia. Qed.

#[local] Program Instance scheduler_blocking_laws : BlockingLaws (scheduler W) := {|
  stands := scheduler_stands;
  may_block s := current_task s <> idle_task s;
  usable_queue q := q <> 0 /\ q <> ready_queue;
|}.
Next Obligation.
  intros s p c p' c' [-> (v & Hok & Hv)] [-> (v' & Hok' & Hv')]. split; [done|]. intros q Hq.
  apply (inj (fmap wait_node)). rewrite <- Hv, <- Hv' by done.
  apply (wq_rep_fun (queues s)); [apply Hok'|apply Hok].
Qed.
Next Obligation.
  intros s p c q t [-> (v & Hok & Hv)] Hq Ht.
  destruct (pl_queue _ _ _ _ _ _ (ok_placed _ _ _ _ Hok) q (wait_node t)) as (u & [Hu _] & E & Hst).
  { rewrite Hv by done. by apply list_elem_of_fmap_2. }
  apply (inj wait_node) in E as <-. split; [|lia]. intros ->.
  destruct (pl_current _ _ _ _ _ _ (ok_placed _ _ _ _ Hok)) as [_ Hr]; [lia|].
  destruct Hq as [_ Hq]. replace (q =? ready_queue) with false in Hst by lia. congruence.
Qed.
Next Obligation.
  intros s p c q [-> (v & Hok & Hv)] Hq. apply (NoDup_fmap_1 wait_node). rewrite <- Hv by done.
  by eapply wq_rep_NoDup, Hok.
Qed.
Next Obligation.
  intros s p c q [-> (v & Hok & Hv)] Hq Hp. split; [done|]. exists v. split; [|done].
  destruct (wq_queue_initialize_spec (queues s) v q) as [Hr Ho]; [apply Hok|by rewrite Hv, Hp|].
  split; [done|]. eapply placed_ext; [exact Ho|done|apply Hok].
Qed.
Next Obligation.
  intros s p c q [-> (v & Hok & Hv)] Hq. cbn [wake_one scheduler_blocking].
  pose proof (wake_ok ready_queue Hready s v q Hok (proj2 Hq)) as Hw.
  destruct (scheduler_wake_one ready_queue s q) as [t s']. rewrite (Hv q Hq) in Hw.
  destruct Hw as [[Hf Hw]|[-> _]]; [|by destruct Hq]. apply flags_inv in Hf as (Fi & Fc & _).
  destruct (p q) as [|u l] eqn:Hp; cbn in Hw.
  - destruct Hw as [-> ->]. split; [done|]. split; [done|]. by exists v.
  - destruct Hw as (E & _ & Hok'). apply (inj wait_node) in E as <-. split; [done|]. split; [done|].
    eexists. split; [exact Hok'|]. intros q' [Hq' Hr']. rewrite fupd_ne by done. unfold fupd.
    destruct (q' =? q); [done|]. by apply Hv.
Qed.
Next Obligation.
  intros s p c q lock [-> (v & Hok & Hv)] Hmay Hc Hq Hl. cbn [block_with_lock scheduler_blocking].
  pose proof (block_current_with_lock_spec ready_queue arch_percpu_current Hready s v q lock Hok Hc Hmay
    (proj2 Hq) (proj1 Hq) Hl) as Hb.
  destruct (scheduler_block_current_with_lock ready_queue arch_percpu_current s q lock) as [o s'].
  destruct Hb as [_ Hb]. destruct o as [r|[f|] [t|]|]; try done.
  - destruct Hb as (_ & Hcur & v' & Hok' & Hv'). split; [done|]. exists v'. split; [done|].
    intros q' Hq'. rewrite Hv' by apply Hq'. by apply Hv.
  - destruct Hb as (-> & _ & Hcur & v' & Hok' & Hv'). exists t. split; [done|]. exists v'. split; [done|].
    intros q' Hq'. rewrite Hv' by apply Hq'. unfold fupd. destruct (q' =? q); [|by apply Hv].
    rewrite (Hv q Hq). by rewrite fmap_app.
Qed.

End scheduler.

(** ** An example: three tasks over the linked wait queues *)

#[local] Existing Instances WaitQueue.mem_queues WaitQueue.mem_queue_laws.

#[local] Instance example_blocking : Blocking (scheduler WaitQueue.mem) := scheduler_blocking 1000 (Some 0).

Lemma example_ready_ne : 1000 <> 0.
Proof. lia. Qed.

#[local] Instance example_blocking_laws : BlockingLaws (scheduler WaitQueue.mem) :=
  scheduler_blocking_laws 1000 (Some 0) example_ready_ne.

(** Three tasks are ready or running, and the channel is at 5000. *)
Definition example_ops : list op :=
  [TaskInitialize 10000 1; TaskInitialize 20000 2; TaskInitialize 30000 3; StartTask 10000; StartTask 20000;
   StartTask 30000; Start].

Definition example_sched : scheduler WaitQueue.mem :=
  Scheduler.sched (machine_run 1000 (Some 0) example_boot example_ops).2.

Definition example_chan : ipc_channel_t := {|
  messages := replicate 16 {| msg_sender := 7; msg_size := 99; msg_data := replicate 64 7 |};
  head := 3; tail := 9; count := 5; open := false |}.

Definition example_start : system (scheduler WaitQueue.mem) :=
  let '(s, ch) := ipc_channel_initialize 5000 example_sched example_chan in System s ch ∅ [] [].

(** The running task starts a waiting operation. *)
Definition example_attempt (sys : system (scheduler WaitQueue.mem)) (r : request) :=
  let c := current_task (scheduling sys) in
  let '(finished, sys') := attempt 5000 true sys r in
  with_pending sys' (if finished then delete c (pending sys) else <[c := r]> (pending sys)).

Definition example_send (sys : system (scheduler WaitQueue.mem)) (sender : Z) (data : list Z) :=
  let '(r, s, c) := ipc_channel_send 5000 (scheduling sys) (chan sys) sender (Some data) (zlen data) in
  System s c (pending sys) (if r then sent sys ++ [(sender, take (Z.to_nat (zlen data)) data)] else sent sys)
    (received sys).

Definition example_buffer : request := Receiving (replicate 64 0) 64.

(** Two readers wait; then the third task sends a message, which wakes the first of them. *)
Definition example_waiting : system (scheduler WaitQueue.mem) :=
  example_attempt (example_attempt example_start example_buffer) example_buffer.

Definition example_system : system (scheduler WaitQueue.mem) :=
  example_send example_waiting 30 [1; 2; 3].

Lemma example_usable b : usable_queue (queue_of 5000 b).
Proof. by destruct b. Qed.

Lemma example_stands sys :
  sys_reachable 5000 sys -> exists p, stands (scheduling sys) p (current_task (scheduling sys)).
Proof.
  intros (p & c & Hok)%(sys_reachable_ok 5000 ltac:(lia) example_usable). exists p.
  pose proof (so_stands _ _ _ _ Hok) as Hs. pose proof (proj1 Hs) as <-. done.
Qed.

Lemma example_attempt_reachable sys r :
  sys_reachable 5000 sys -> current_task (scheduling sys) <> idle_task (scheduling sys) ->
  current_task (scheduling sys) <> 0 -> request_ok r -> pending sys !! current_task (scheduling sys) = None ->
  sys_reachable 5000 (example_attempt sys r).
Proof.
  intros Hr Hi Hc Hreq Hp. destruct (example_stands sys Hr) as [p Hs]. eapply sys_next; [exact Hr|].
  unfold example_attempt. destruct (attempt 5000 true sys r) as [fin sys'] eqn:E.
  by eapply (step_attempt 5000 sys p _ true r).
Qed.

Lemma example_send_reachable sys sender data :
  sys_reachable 5000 sys -> pending sys !! current_task (scheduling sys) = None ->
  sys_reachable 5000 (example_send sys sender data).
Proof.
  intros Hr Hp. destruct (example_stands sys Hr) as [p Hs]. eapply sys_next; [exact Hr|].
  unfold example_send. destruct (ipc_channel_send 5000 (scheduling sys) (chan sys) sender (Some data) (zlen data)) as [[r s] c] eqn:E.
  eapply (step_send 5000 sys p _ sender data (zlen data) r); try done. split; [apply zlen_nonneg|done].
Qed.

Lemma example_sched_ok : exists v, ok 1000 example_sched v (current_task example_sched).
Proof.
  unfold example_sched. apply reachable_ok with (arch_percpu_current := Some 0); [done|].
  apply reachable_run; [apply example_boot_reachable|].
  repeat (split; [first [by vm_compute|split; [by vm_compute|]; intros [_ Hl]; vm_compute in Hl; done]|]). done.
Qed.

Lemma example_start_reachable : sys_reachable 5000 example_start.
Proof.
  destruct example_sched_ok as [v Hok]. unfold example_start.
  eapply (sys_start 5000 example_sched (fun q => (fun n => n - 72) <$> v q) (current_task example_sched)); try done.
  - split; [done|]. exists v. split; [done|]. intros q _. rewrite <- list_fmap_compose. symmetry.
    rewrite <- (list_fmap_id (v q)) at 2. apply list_fmap_ext. intros i n _. unfold wait_node. cbn. lia.
  - cbv beta. rewrite (WaitQueue.walk_exact _ v (readers 5000) 5 [] (ok_rep _ _ _ _ Hok));
      [done|by vm_compute|simpl; lia|vm_compute; reflexivity].
  - cbv beta. rewrite (WaitQueue.walk_exact _ v (writers 5000) 5 [] (ok_rep _ _ _ _ Hok));
      [done|by vm_compute|simpl; lia|vm_compute; reflexivity].
  - by vm_compute.
  - apply Forall_replicate. by vm_compute.
Qed.

Lemma example_reading : request_ok example_buffer.
Proof. by vm_compute. Qed.

Lemma example_waiting_reachable : sys_reachable 5000 example_waiting.
Proof.
  apply example_attempt_reachable; [|by vm_compute|by vm_compute|apply example_reading|vm_compute; reflexivity].
  apply example_attempt_reachable; [|by vm_compute|by vm_compute|apply example_reading|vm_compute; reflexivity].
  apply example_start_reachable.
Qed.

Lemma example_system_reachable : sys_reachable 5000 example_system.
Proof. apply example_send_reachable; [apply example_waiting_reachable|vm_compute; reflexivity]. Qed.

(** The second reader still waits, and the third task runs. *)
Lemma example_system_stands :
  exists p, stands (scheduling example_system) p 30000 /\ p (readers 5000) = [20000] /\ p (writers 5000) = [].
Proof.
  destruct (example_stands example_system example_system_reachable) as [p Hs].
  replace (current_task (scheduling example_system)) with 30000 in Hs by (vm_compute; reflexivity).
  exists p. split; [done|]. destruct Hs as (_ & v & Hok & Hv).
  split; apply (inj (fmap wait_node)); rewrite <- Hv by done;
    (eapply (WaitQueue.walk_exact _ v _ 5 _ (ok_rep _ _ _ _ Hok)); [by vm_compute|simpl; lia|vm_compute; reflexivity]).
Qed.



Lemma channel_close_witness :
  exists p r s' c' p', stands (scheduling example_system) p 30000 /\
    ipc_channel_close 5000 2 (scheduling example_system) (chan example_system) = Some (r, s', c') /\
    r = open (chan example_system) /\ stands s' p' 30000 /\ p' (readers 5000) = [] /\ p' (writers 5000) = [] /\
    forall req, request_ok req ->
      (attempt 5000 false (System s' c' (pending example_system) (sent example_system) (received example_system)) req).1 = true.
Proof.
  destruct example_system_stands as (p & Hs & Hr & Hw).
  destruct (channel_close_wakes_all 5000 ltac:(lia) example_usable example_system p 30000 2
    example_system_reachable Hs) as (r & s' & c' & p' & Hc); [rewrite Hr; simpl; lia|rewrite Hw; simpl; lia|].
  exists p, r, s', c', p'. split; [exact Hs|exact Hc].
Defined.

Lemma channel_small_reader_witness :
  exists p s1 ch1, stands (scheduling example_waiting) p 30000 /\ p (readers 5000) = [10000; 20000] /\
    (exists p1, stands s1 p1 30000 /\ p1 (readers 5000) = [20000]) /\
    receive_pass 5000 s1 ch1 [0; 0] 2 = (Finished None, s1, ch1) /\
    contents ch1 = [(30, take (Z.to_nat 3) [1; 2; 3])] /\ open ch1 = true.
Proof.
  destruct (example_stands example_waiting example_waiting_reachable) as [p Hs].
  destruct (sys_reachable_ok 5000 ltac:(lia) example_usable _ example_waiting_reachable) as (p0 & c0 & Hok).
  replace (current_task (scheduling example_waiting)) with 30000 in Hs by (vm_compute; reflexivity).
  assert (p (readers 5000) = [10000; 20000]) as Hp.
  { destruct Hs as (_ & v & Hv & Hpv). apply (inj (fmap wait_node)). rewrite <- Hpv by done.
    eapply (WaitQueue.walk_exact _ v _ 5 _ (ok_rep _ _ _ _ Hv)); [by vm_compute|simpl; lia|vm_compute; reflexivity]. }
  destruct (ipc_channel_send 5000 (scheduling example_waiting) (chan example_waiting) 30 (Some [1; 2; 3]) 3)
    as [[r s1] ch1] eqn:E.
  assert (r = true) as ->.
  { replace r with (ipc_channel_send 5000 (scheduling example_waiting) (chan example_waiting) 30 (Some [1; 2; 3]) 3).1.1
      by (by rewrite E). vm_compute. reflexivity. }
  exists p, s1, ch1. split; [exact Hs|]. split; [exact Hp|].
  apply (channel_small_reader_strands 5000 ltac:(lia) example_usable _ p 30000 _ 30 [1; 2; 3] 3 10000 20000 []
    s1 ch1 s1 [0; 0] 2 Hs Hp (so_channel _ _ _ _ Hok)); [vm_compute; reflexivity|vm_compute; reflexivity|lia
    |by vm_compute|lia|exact E].
Defined.

End Channel.
