(* ===== verification/Heap.v ===== *)
(** * The kernel heap (kernel/mm/heap/heap.c)

    The heap is a list of blocks, linked through a header of 32 bytes in front of each
    block, over a range of virtual pages that grows on demand.  A header is an object at
    its address.  The pages come from the frame allocator and the page tables, which are
    the interface [PageProvider].  Every operation runs under the heap lock and is one
    atomic step.  A loop that follows the links takes a bound that depends on the size of
    the heap; [None] would mean that the bound was not enough, which is shown not to
    happen. *)

From S2P Require Import Prelude.

(** What the heap asks of the memory management below it.  Nothing is assumed of it: the
    heap works with whatever pages it is given. *)
Class PageProvider (P : Type) := {
  physical_alloc_frame : P -> Z * P;
  physical_free_frame : P -> Z -> P;
  virtual_memory_map_page : P -> Z -> Z -> Z -> bool * P;
}.

(** What the heap promises: [owns a m] says that the pointers of [m] are allocated, each
    with the given number of bytes. *)
Class Allocator (A : Type) := {
  kmalloc : A -> Z -> Z * A;
  kfree : A -> Z -> A;
}.

Definition apart (m : gmap Z Z) (p n : Z) : Prop :=
  forall q k, m !! q = Some k -> p + n <= q \/ q + k <= p.

Class AllocatorLaws (A : Type) `{Allocator A} := {
  owns : A -> gmap Z Z -> Prop;
  owns_nonnull a m p : owns a m -> m !! p <> None -> p <> 0;
  owns_size a m : owns a m -> Z.of_nat (size m) <= U32_MAX;
  kmalloc_owns a m n :
    owns a m -> is_u64 n ->
    let '(p, a') := kmalloc a n in
    (p = 0 /\ owns a' m) \/
    (p <> 0 /\ m !! p = None /\ exists n', n <= n' /\ 0 < n' /\ apart m p n' /\ owns a' (<[p := n']> m));
  kfree_owns a m p : owns a m -> m !! p <> None -> owns (kfree a p) (delete p m);
}.

Module Heap.

Definition HEAP_BASE : Z := 0x40000000.
Definition HEAP_PAGE_SIZE : Z := 0x1000.
Definition HEAP_PAGE_COUNT : Z := 4096.
Definition HEAP_LIMIT : Z := HEAP_BASE + HEAP_PAGE_COUNT * HEAP_PAGE_SIZE.
Definition HEAP_ALIGNMENT : Z := 16.
Definition HEAP_BLOCK_MAGIC : Z := 0x48454150424c4f43.

Record heap_block_t := { magic : Z; size : Z; free : bool; next : Z }.
#[export] Instance eta_heap_block : Eta heap_block_t := fun b =>
  {| magic := magic b; size := size b; free := free b; next := next b |}.
Definition sizeof_heap_block : Z := 32.

Record heap_t (P : Type) := Heap {
  blocks : Z -> heap_block_t;
  first_block : Z;
  committed_end : Z;
  pages : P;
}.
Arguments Heap {P}.
Arguments blocks {P}.
Arguments first_block {P}.
Arguments committed_end {P}.
Arguments pages {P}.
#[export] Instance eta_heap P : Eta (heap_t P) := fun h =>
  {| blocks := blocks h; first_block := first_block h; committed_end := committed_end h; pages := pages h |}.

Definition align_up (value : Z) : Z :=
  Z.land (u64 (value + HEAP_ALIGNMENT - 1)) (u64 (Z.lnot (HEAP_ALIGNMENT - 1))).

(** [while (tail->next) tail = tail->next;] *)
Fixpoint last_block (fuel : nat) (m : Z -> heap_block_t) (tail : Z) : option Z :=
  match fuel with
  | O => None
  | S fuel => if next (m tail) =? 0 then Some tail else last_block fuel m (next (m tail))
  end.

(** The first free block with room for [n] bytes, or null. *)
Fixpoint find_block (fuel : nat) (m : Z -> heap_block_t) (block n : Z) : option Z :=
  match fuel with
  | O => None
  | S fuel =>
    if block =? 0 then Some 0
    else if negb (free (m block)) || (size (m block) <? n) then find_block fuel m (next (m block)) n
    else Some block
  end.

(** The loop of [kfree] that merges neighbouring free blocks. *)
Fixpoint merge_blocks (fuel : nat) (m : Z -> heap_block_t) (current : Z) : option (Z -> heap_block_t) :=
  match fuel with
  | O => None
  | S fuel =>
    if (current =? 0) || (next (m current) =? 0) then Some m
    else
      let nxt := next (m current) in
      let m := if negb (free (m current)) || negb (free (m nxt)) then m
               else fupd m current ((m current)
                      <| size := u64 (size (m current) + (sizeof_heap_block + size (m nxt))) |>
                      <| next := next (m nxt) |>) in
      merge_blocks fuel m (next (m current))
  end.

Section heap.
Context {P : Type} `{PageProvider P}.

Implicit Types h : heap_t P.

(** More than the number of blocks. *)
Definition block_bound h : nat := S (S (Z.to_nat ((committed_end h - HEAP_BASE) / sizeof_heap_block))).

Definition commit_page h : option (bool * heap_t P) :=
  if HEAP_LIMIT <=? committed_end h then Some (false, h)
  else
    let '(frame, pg) := physical_alloc_frame (pages h) in
    if frame =? 0 then Some (false, h<| pages := pg |>)
    else
      let '(ok, pg) := virtual_memory_map_page pg (committed_end h) frame 2 in
      if negb ok then Some (false, h<| pages := physical_free_frame pg frame |>)
      else
        let block := committed_end h in
        let m := fupd (blocks h) block
          {| magic := HEAP_BLOCK_MAGIC; size := HEAP_PAGE_SIZE - sizeof_heap_block; free := true; next := 0 |} in
        let committed first m :=
          Some (true, Heap m first (u64 (committed_end h + HEAP_PAGE_SIZE)) pg) in
        if first_block h =? 0 then committed block m
        else
          match last_block (block_bound h) m (first_block h) with
          | None => None
          | Some tail =>
            let tail_end := tail + sizeof_heap_block + size (m tail) in
            if free (m tail) && (tail_end =? block)
            then committed (first_block h) (fupd m tail ((m tail)
                   <| size := u64 (size (m tail) + (sizeof_heap_block + size (m block))) |>))
            else committed (first_block h) (fupd m tail ((m tail)<| next := block |>))
          end.

Definition heap_initialize h : option (bool * heap_t P) :=
  commit_page (h<| first_block := 0 |><| committed_end := HEAP_BASE |>).

(** Taking [n] bytes of a free block: the rest becomes a block of its own if it is large
    enough. *)
Definition take_block (m : Z -> heap_block_t) (block n : Z) : Z -> heap_block_t :=
  let remainder := size (m block) - n in
  let m :=
    if sizeof_heap_block + HEAP_ALIGNMENT <? remainder then
      let split := block + sizeof_heap_block + n in
      let m := fupd m split {| magic := HEAP_BLOCK_MAGIC; size := remainder - sizeof_heap_block; free := true;
                               next := next (m block) |} in
      fupd m block ((m block)<| next := split |><| size := n |>)
    else m in
  fupd m block ((m block)<| free := false |>).

(** The loop of [kmalloc]: search, and grow the heap until something fits. *)
Fixpoint allocate (fuel : nat) h (n : Z) : option (Z * heap_t P) :=
  match fuel with
  | O => None
  | S fuel =>
    match find_block (block_bound h) (blocks h) (first_block h) n with
    | None => None
    | Some block =>
      if negb (block =? 0) then Some (block + sizeof_heap_block, h<| blocks := take_block (blocks h) block n |>)
      else
        match commit_page h with
        | None => None
        | Some (false, h) => Some (0, h)
        | Some (true, h) => allocate fuel h n
        end
    end
  end.

(** More than the number of pages that can still be committed. *)
Definition page_bound h : nat := S (S (Z.to_nat ((HEAP_LIMIT - committed_end h) / HEAP_PAGE_SIZE))).

Definition heap_kmalloc h (sz : Z) : option (Z * heap_t P) :=
  if (sz =? 0) || (U64_MAX - (HEAP_ALIGNMENT - 1) <? sz) then Some (0, h)
  else allocate (page_bound h) h (align_up sz).

Definition heap_kfree h (address : Z) : option (heap_t P) :=
  if address =? 0 then Some h
  else if (address <? HEAP_BASE + sizeof_heap_block) || (committed_end h <=? address)
          || negb (Z.land address (HEAP_ALIGNMENT - 1) =? 0) then Some h
  else
    let block := address - sizeof_heap_block in
    let b := blocks h block in
    if negb (magic b =? HEAP_BLOCK_MAGIC) || free b || (size b =? 0) || (HEAP_LIMIT - address <? size b)
    then Some h
    else
      match merge_blocks (block_bound h) (fupd (blocks h) block (b<| free := true |>)) (first_block h) with
      | None => None
      | Some m => Some (h<| blocks := m |>)
      end.

End heap.

(** ** The blocks of the heap *)

(** A block is its size and whether it is free.  [starts a z l] is the address of the
    first block of [l], which begins at [a], or [z] if there is none. *)
Abbreviation block_list := (list (Z * bool)).

Definition starts (a z : Z) (l : block_list) : Z := match l with [] => z | _ => a end.

Definition header (sz : Z) (fr : bool) (nx : Z) : heap_block_t :=
  {| magic := HEAP_BLOCK_MAGIC; size := sz; free := fr; next := nx |}.

(** The blocks [l] fill the addresses from [a] to [e]; the last one points to [z]. *)
Fixpoint tiles (m : Z -> heap_block_t) (a e z : Z) (l : block_list) : Prop :=
  match l with
  | [] => a = e
  | (sz, fr) :: l =>
    m a = header sz fr (starts (a + 32 + sz) z l) /\ 0 < sz /\ sz mod 16 = 0 /\ tiles m (a + 32 + sz) e z l
  end.

(** The bytes that the blocks take, headers included. *)
Fixpoint span (l : block_list) : Z :=
  match l with [] => 0 | (sz, _) :: l => 32 + sz + span l end.

(** The allocated blocks, by the address of their first byte after the header. *)
Fixpoint allocated (a : Z) (l : block_list) (p n : Z) : Prop :=
  match l with
  | [] => False
  | (sz, fr) :: l => (fr = false /\ p = a + 32 /\ n = sz) \/ allocated (a + 32 + sz) l p n
  end.

(** The pass over the list that merges neighbours. *)
Fixpoint coalesce (l : block_list) : block_list :=
  match l with
  | (a, f) :: l1 =>
    match l1 with
    | (b, g) :: l2 => if f && g then (a + 32 + b, true) :: coalesce l2 else (a, f) :: coalesce l1
    | [] => [(a, f)]
    end
  | [] => []
  end.

Lemma span_app l k : span (l ++ k) = span l + span k.
Proof. induction l as [|[sz fr] l IH]; simpl; lia. Qed.

Lemma starts_app a z l k : starts a z (l ++ k) = starts a (starts (a + span l) z k) l.
Proof. destruct l as [|[]]; simpl; [by rewrite Z.add_0_r|done]. Qed.

Lemma tiles_end m a e z l : tiles m a e z l -> e = a + span l.
Proof. revert a. induction l as [|[sz fr] l IH]; intros a; simpl; [lia|]. intros (_ & _ & _ & Ht). rewrite (IH _ Ht). lia. Qed.

Lemma tiles_length m a e z l : tiles m a e z l -> 0 <= 33 * zlen l <= e - a.
Proof.
  revert a. induction l as [|[sz fr] l IH]; intros a; simpl; [unfold zlen; simpl; lia|].
  intros (_ & Hs & _ & Ht). specialize (IH _ Ht). unfold zlen in *. simpl. lia.
Qed.

Lemma tiles_app m a e z l k :
  tiles m a e z (l ++ k) <->
  tiles m a (a + span l) (starts (a + span l) z k) l /\ tiles m (a + span l) e z k.
Proof.
  revert a. induction l as [|[sz fr] l IH]; intros a; simpl.
  { rewrite Z.add_0_r. naive_solver. }
  rewrite IH, starts_app. replace (a + (32 + sz + span l)) with (a + 32 + sz + span l) by lia. naive_solver.
Qed.

(** Only the headers matter, and they lie within the range. *)
Lemma tiles_frame m m' a e z l :
  (forall x, a <= x < e -> m' x = m x) -> tiles m a e z l -> tiles m' a e z l.
Proof.
  revert a. induction l as [|[sz fr] l IH]; intros a Hm; simpl; [done|]. intros (H1 & H2 & H3 & H4).
  pose proof (tiles_length _ _ _ _ _ H4). rewrite Hm by lia. split_and!; try done.
  apply IH; [|done]. intros x Hx. apply Hm. lia.
Qed.

Lemma allocated_app a l k p n : allocated a (l ++ k) p n <-> allocated a l p n \/ allocated (a + span l) k p n.
Proof.
  revert a. induction l as [|[sz fr] l IH]; intros a; simpl; [rewrite Z.add_0_r; naive_solver|].
  rewrite IH. replace (a + (32 + sz + span l)) with (a + 32 + sz + span l) by lia. naive_solver.
Qed.

Lemma allocated_range m a e z l p n :
  tiles m a e z l -> allocated a l p n -> a + 32 <= p /\ p + n <= e /\ 0 < n /\ (p - a) mod 16 = 0 /\
    m (p - 32) = header n false (next (m (p - 32))).
Proof.
  revert a. induction l as [|[sz fr] l IH]; intros a; simpl; [done|]. intros (H1 & H2 & H3 & H4).
  pose proof (tiles_length _ _ _ _ _ H4). intros [(-> & -> & ->)|Ha].
  - split_and!; try lia; [by replace (a + 32 - a) with 32 by lia|]. replace (a + 32 - 32) with a by lia. by rewrite H1.
  - destruct (IH _ H4 Ha) as (I1 & I2 & I3 & I4 & I5). split_and!; try lia; [|done].
    replace (p - a) with (p - (a + 32 + sz) + (32 + sz)) by lia. rewrite Z.add_mod, I4 by lia.
    rewrite (Z.add_mod 32 sz), H3 by lia. done.
Qed.

(** Two allocated blocks do not overlap. *)
Lemma allocated_apart m a e z l p n q k :
  tiles m a e z l -> allocated a l p n -> allocated a l q k -> (p = q /\ n = k) \/ p + n + 32 <= q \/ q + k + 32 <= p.
Proof.
  revert a. induction l as [|[sz fr] l IH]; intros a; simpl; [done|]. intros (H1 & H2 & H3 & H4).
  intros [(-> & -> & ->)|Hp] [(_ & -> & ->)|Hq].
  - by left.
  - destruct (allocated_range _ _ _ _ _ _ _ H4 Hq). lia.
  - destruct (allocated_range _ _ _ _ _ _ _ H4 Hp). lia.
  - by apply (IH _ H4).
Qed.

(** An allocated block is somewhere in the list. *)
Lemma allocated_split a l p n :
  allocated a l p n -> exists l1 l2, l = l1 ++ (n, false) :: l2 /\ p = a + span l1 + 32.
Proof.
  revert a. induction l as [|[sz fr] l IH]; intros a; simpl; [done|]. intros [(-> & -> & ->)|Ha].
  - exists [], l. simpl. split; [done|lia].
  - destruct (IH _ Ha) as (l1 & l2 & -> & ->). exists ((sz, fr) :: l1), l2. simpl. split; [done|lia].
Qed.

Lemma coalesce_cons a f b g l :
  coalesce ((a, f) :: (b, g) :: l) =
  if f && g then (a + 32 + b, true) :: coalesce l else (a, f) :: coalesce ((b, g) :: l).
Proof. done. Qed.

Lemma coalesce_span l : span (coalesce l) = span l.
Proof.
  remember (length l) as n eqn:Hn. revert l Hn. induction n as [n IH] using lt_wf_ind. intros [|[a f] [|[b g] l]] ->; try done.
  rewrite coalesce_cons. destruct (f && g).
  - cbn [span]. rewrite (IH (length l)); [lia|simpl; lia|done].
  - cbn [span]. rewrite (IH (length ((b, g) :: l))); [done|simpl; lia|done].
Qed.

Lemma coalesce_allocated l a p n : allocated a (coalesce l) p n <-> allocated a l p n.
Proof.
  remember (length l) as k eqn:Hk. revert l Hk a. induction k as [k IH] using lt_wf_ind.
  intros [|[s f] [|[t g] l]] -> a; try done. rewrite coalesce_cons. destruct (f && g) eqn:E.
  - apply andb_prop in E as [-> ->]. cbn [allocated]. rewrite (IH (length l)); [|simpl; lia|done].
    replace (a + 32 + (s + 32 + t)) with (a + 32 + s + 32 + t) by lia. naive_solver.
  - cbn [allocated]. rewrite (IH (length ((t, g) :: l))); [done|simpl; lia|done].
Qed.

(** ** The loops *)

(** [x] lies in an allocated block. *)
Definition in_use (a : Z) (l : block_list) (x : Z) : Prop := exists p n, allocated a l p n /\ p <= x < p + n.

(** The block cannot serve [n] bytes. *)
Definition unfit (n : Z) (b : Z * bool) : Prop := b.2 = false \/ b.1 < n.

Lemma find_block_spec fuel m a e l n :
  tiles m a e 0 l -> 0 < a -> (length l < fuel)%nat ->
  (find_block fuel m (starts a 0 l) n = Some 0 /\ Forall (unfit n) l) \/
  (exists l1 sz l2, l = l1 ++ (sz, true) :: l2 /\ n <= sz /\ Forall (unfit n) l1 /\
     find_block fuel m (starts a 0 l) n = Some (a + span l1)).
Proof.
  revert a l. induction fuel as [|fuel IH]; intros a l Ht Ha Hf; [lia|].
  destruct l as [|[sz fr] l]; [left; by split; [|constructor]|]. cbn [starts find_block].
  destruct Ht as (Hm & Hs & _ & Ht). replace (a =? 0) with false by lia. rewrite Hm. cbn [free size next header].
  destruct (negb fr || (sz <? n)) eqn:E.
  - destruct (IH _ _ Ht ltac:(lia) ltac:(simpl in Hf; lia)) as [[-> HF]|(l1 & sz' & l2 & -> & Hn & HF & ->)].
    + left. split; [done|]. constructor; [|done]. unfold unfit. simpl. destruct fr; [right; simpl in E; lia|by left].
    + right. exists ((sz, fr) :: l1), sz', l2. split_and!; [done|done| |simpl; f_equal; lia].
      constructor; [|done]. unfold unfit. simpl. destruct fr; [right; simpl in E; lia|by left].
  - right. exists [], sz, l. destruct fr; [|done]. simpl in E. split_and!; [done|lia|constructor|]. simpl. f_equal. lia.
Qed.

Lemma last_block_spec fuel m a e l sz fr :
  tiles m a e 0 (l ++ [(sz, fr)]) -> 0 < a -> (length l < fuel)%nat ->
  last_block fuel m a = Some (a + span l).
Proof.
  revert a l. induction fuel as [|fuel IH]; intros a l Ht Ha Hf; [lia|]. cbn [last_block].
  destruct l as [|[s f] l]; cbn [app tiles] in Ht; destruct Ht as (Hm & Hs & _ & Ht); rewrite Hm; cbn [next header starts].
  - simpl. f_equal. lia.
  - replace (starts (a + 32 + s) 0 (l ++ [(sz, fr)])) with (a + 32 + s) by (by destruct l).
    replace (a + 32 + s =? 0) with false by lia.
    rewrite (IH _ _ Ht) by (simpl in Hf; lia). simpl. f_equal. lia.
Qed.

Lemma coalesce_starts a z l : starts a z (coalesce l) = starts a z l.
Proof. destruct l as [|[s f] [|[t g] l]]; try done. rewrite coalesce_cons. by destruct (f && g). Qed.

Lemma merge_blocks_spec fuel m a e l :
  tiles m a e 0 l -> 0 < a -> e < 2 ^ 64 -> (length l < fuel)%nat ->
  exists m', merge_blocks fuel m (starts a 0 l) = Some m' /\ tiles m' a e 0 (coalesce l) /\
    (forall x, x < a \/ in_use a l x -> m' x = m x).
Proof.
  revert m a l. induction fuel as [|fuel IH]; intros m a l Ht Ha He Hf; [lia|].
  destruct l as [|[s f] [|[t g] l]].
  { by exists m. }
  { destruct Ht as (Hm & Ht). cbn [starts merge_blocks]. rewrite Hm. cbn. rewrite orb_true_r. exists m. done. }
  pose proof (tiles_length _ _ _ _ _ Ht) as Hlen. pose proof (tiles_end _ _ _ _ _ Ht) as Hend.
  destruct Ht as (Hm & Hs & Hs16 & Ht). pose proof Ht as Ht'. destruct Ht' as (Hm2 & Ht2 & Ht16 & Htl).
  pose proof (tiles_length _ _ _ _ _ Htl) as Hlen'.
  cbn [starts merge_blocks]. rewrite Hm. cbn [next header starts free]. set (b := a + 32 + s) in *.
  replace ((a =? 0) || (b =? 0)) with false by lia. rewrite Hm2, coalesce_cons. cbn [next header free size].
  destruct (f && g) eqn:E.
  - apply andb_prop in E as [-> ->]. cbn [negb orb]. set (m1 := fupd _ a _).
    assert (m1 a = header (s + 32 + t) true (starts (b + 32 + t) 0 l)) as Hm1a.
    { unfold m1. rewrite fupd_eq. unfold sizeof_heap_block. rewrite wrap_small by (unfold zlen in *; simpl in *; widths; lia).
      unfold header. cbn [set_field magic size free next]. f_equal. lia. }
    assert (forall x, x <> a -> m1 x = m x) as Hm1 by (intros x Hx; unfold m1; by rewrite fupd_ne).
    clearbody m1. rewrite Hm1a. cbn [next header].
    destruct (IH m1 (b + 32 + t) l) as (m' & -> & Hmt & Hsame); [|lia|done|simpl in Hf; lia|].
    { eapply tiles_frame; [|exact Htl]. intros x Hx. apply Hm1. lia. }
    exists m'. split; [done|]. split.
    + cbn [tiles]. replace (a + 32 + (s + 32 + t)) with (b + 32 + t) by lia.
      rewrite (Hsame a) by (left; lia). rewrite coalesce_starts. split_and!; try done; [lia|].
      rewrite (Z.add_mod (s + 32) t), (Z.add_mod s 32), Hs16, Ht16 by lia. done.
    + intros x Hx. destruct Hx as [Hx|(p & n & Hal & Hx)].
      * rewrite Hsame by (left; lia). apply Hm1. lia.
      * cbn [allocated] in Hal. destruct Hal as [[? _]|[[? _]|Hal]]; [done|done|]. fold b in Hal.
        destruct (allocated_range _ _ _ _ _ _ _ Htl Hal) as (? & _).
        rewrite Hsame by (right; by exists p, n). apply Hm1. lia.
  - replace (negb f || negb g) with true by (by destruct f, g). rewrite Hm. cbn [next header].
    destruct (IH m b ((t, g) :: l)) as (m' & -> & Hmt & Hsame); [done|lia|done|simpl in Hf |- *; lia|].
    exists m'. split; [done|]. split.
    + cbn [tiles]. fold b. rewrite (Hsame a) by (left; lia). rewrite coalesce_starts. by rewrite Hm.
    + intros x [Hx|(p & n & Hal & Hx)]; [apply Hsame; left; lia|].
      cbn [allocated] in Hal. destruct Hal as [(-> & -> & ->)|Hal]; [apply Hsame; left; lia|].
      apply Hsame. right. by exists p, n.
Qed.

(** The blocks that a free block of [sz] bytes becomes when [n] bytes are taken. *)
Definition taken (n sz : Z) : block_list :=
  if 48 <? sz - n then [(n, false); (sz - n - 32, true)] else [(sz, false)].

Lemma taken_span n sz : span (taken n sz) = 32 + sz.
Proof. unfold taken. case_if as E; simpl; lia. Qed.

Lemma take_block_spec m a e z sz l n :
  tiles m a e z ((sz, true) :: l) -> 0 < n <= sz -> n mod 16 = 0 ->
  tiles (take_block m a n) a e z (taken n sz ++ l) /\
  (forall x, x < a \/ a + 32 + sz <= x -> take_block m a n x = m x).
Proof.
  intros (Hm & Hs & Hs16 & Ht) Hn Hn16. pose proof (tiles_length _ _ _ _ _ Ht) as Hlen.
  unfold take_block, taken, sizeof_heap_block, HEAP_ALIGNMENT. rewrite Hm. cbn [size next header].
  replace (32 + 16) with 48 by done. destruct (48 <? sz - n) eqn:E.
  - set (m1 := fupd m (a + 32 + n) _).
    assert (m1 (a + 32 + n) = header (sz - n - 32) true (starts (a + 32 + sz) z l)) as H1 by (unfold m1; by rewrite fupd_eq).
    assert (forall x, x <> a + 32 + n -> m1 x = m x) as H2 by (intros x Hx; unfold m1; by rewrite fupd_ne).
    clearbody m1. set (m2 := fupd m1 a _).
    assert (m2 a = header n true (a + 32 + n)) as H3 by (unfold m2; rewrite fupd_eq, H2, Hm by lia; done).
    assert (forall x, x <> a -> m2 x = m1 x) as H4 by (intros x Hx; unfold m2; by rewrite fupd_ne).
    clearbody m2. split.
    + cbn [app tiles starts]. rewrite fupd_eq, H3, fupd_ne, H4, H1 by lia.
      replace (a + 32 + n + 32 + (sz - n - 32)) with (a + 32 + sz) by lia. split_and!; try done; try lia.
      * rewrite Zminus_mod, (Zminus_mod sz), Hs16, Hn16. done.
      * eapply tiles_frame; [|exact Ht]. intros x Hx. by rewrite fupd_ne, H4, H2 by lia.
    + intros x Hx. by rewrite fupd_ne, H4, H2 by lia.
  - split.
    + cbn [app tiles starts]. rewrite fupd_eq, Hm. split_and!; try done.
      eapply tiles_frame; [|exact Ht]. intros x Hx. by rewrite fupd_ne by lia.
    + intros x Hx. by rewrite fupd_ne by lia.
Qed.

Lemma align_up_spec sz :
  0 < sz <= U64_MAX - 15 -> sz <= align_up sz < sz + 16 /\ align_up sz mod 16 = 0.
Proof.
  intros Hs. unfold align_up, HEAP_ALIGNMENT. rewrite wrap_small by (unfold U64_MAX in Hs; widths; lia).
  set (x := sz + 16 - 1). assert (Z.land x (u64 (Z.lnot (16 - 1))) = x / 16 * 16) as ->.
  { change (u64 (Z.lnot (16 - 1))) with (Z.shiftl (Z.ones 60) 4).
    change 16 with (2 ^ 4). rewrite <- Z.shiftr_div_pow2, <- Z.shiftl_mul_pow2 by lia.
    apply Z.bits_inj'. intros i Hi. rewrite Z.land_spec, !Z.shiftl_spec by lia.
    destruct (decide (i < 4)).
    { rewrite !(Z.testbit_neg_r _ (i - 4)) by lia. by rewrite andb_false_r. }
    rewrite Z.shiftr_spec by lia. replace (i - 4 + 4) with i by lia.
    destruct (decide (i - 4 < 60)); [rewrite Z.ones_spec_low by lia; by rewrite andb_true_r|].
    rewrite Z.ones_spec_high, andb_false_r by lia. symmetry.
    apply Z.bits_above_log2; [unfold x; lia|]. apply Z.log2_lt_pow2; [unfold x; lia|].
    apply (Z.lt_le_trans _ (2 ^ 64)); [unfold x, U64_MAX in *; lia|apply Z.pow_le_mono_r; lia]. }
  pose proof (Z.div_mod x 16 ltac:(lia)). pose proof (Z.mod_pos_bound x 16 ltac:(lia)). unfold x in *.
  split; [lia|]. by rewrite Z.mod_mul.
Qed.

(** A header is not in use. *)
Lemma header_not_used m a e z l1 b l2 x :
  tiles m a e z (l1 ++ b :: l2) -> in_use a (l1 ++ b :: l2) x -> x <> a + span l1.
Proof.
  intros Ht (p & n & Ha & Hx). apply tiles_app in Ht as [H1 H2]. apply allocated_app in Ha as [Ha|Ha].
  - destruct (allocated_range _ _ _ _ _ _ _ H1 Ha). lia.
  - destruct (allocated_range _ _ _ _ _ _ _ H2 Ha). lia.
Qed.

(** ** The operations *)

Section ok.
Context {P : Type} `{PageProvider P}.
Implicit Types h : heap_t P.

Record heap_ok h (l : block_list) : Prop := {
  ok_tiles : tiles (blocks h) HEAP_BASE (committed_end h) 0 l;
  ok_first : first_block h = starts HEAP_BASE 0 l;
  ok_end : committed_end h <= HEAP_LIMIT;
  ok_page : (committed_end h - HEAP_BASE) mod HEAP_PAGE_SIZE = 0;
}.

Lemma ok_base h l : heap_ok h l -> HEAP_BASE <= committed_end h.
Proof. intros [Ht _ _ _]. apply tiles_length in Ht. lia. Qed.

Lemma block_bound_enough h l : heap_ok h l -> (length l < block_bound h)%nat.
Proof.
  intros [Ht _ _ _]. apply tiles_length in Ht. unfold block_bound, sizeof_heap_block, zlen in *.
  assert (Z.of_nat (length l) <= (committed_end h - HEAP_BASE) / 32) by (apply Z.div_le_lower_bound; lia). lia.
Qed.

(** The heap after another page: the last block grows if it is free, otherwise the page
    becomes a block. *)
Definition grown (l l' : block_list) : Prop :=
  (exists l0 sz, l = l0 ++ [(sz, true)] /\ l' = l0 ++ [(sz + 4096, true)]) \/ l' = l ++ [(4064, true)].

Lemma grown_allocated l l' a p n : grown l l' -> (allocated a l' p n <-> allocated a l p n).
Proof.
  intros [(l0 & sz & -> & ->)| ->]; rewrite !allocated_app; simpl; naive_solver.
Qed.

(** Where the next page starts there is room for all of it. *)
Lemma page_room h l :
  heap_ok h l -> committed_end h < HEAP_LIMIT ->
  committed_end h + 4096 <= HEAP_LIMIT /\ (committed_end h + 4096 - HEAP_BASE) mod HEAP_PAGE_SIZE = 0.
Proof.
  intros [_ _ _ Hp] Hl. unfold HEAP_LIMIT, HEAP_PAGE_COUNT, HEAP_PAGE_SIZE in *.
  pose proof (Z.div_mod (committed_end h - HEAP_BASE) 4096 ltac:(lia)).
  split; [lia|]. replace (committed_end h + 4096 - HEAP_BASE) with (committed_end h - HEAP_BASE + 1 * 4096) by lia.
  by rewrite Z.mod_add.
Qed.

Lemma base_pos : 0 < HEAP_BASE.
Proof. done. Qed.

(** Appending a page to a heap whose last block is given. *)
Lemma append_page m e l sz fr :
  tiles m HEAP_BASE e 0 (l ++ [(sz, fr)]) -> e + 4096 < 2 ^ 64 ->
  let t := HEAP_BASE + span l in
  let m1 := fupd m e (header 4064 true 0) in
  tiles m1 HEAP_BASE e 0 (l ++ [(sz, fr)]) /\ m1 t = header sz fr 0 /\ t + 32 + sz = e /\
  tiles (fupd m1 t ((m1 t)<| next := e |>)) HEAP_BASE (e + 4096) 0 ((l ++ [(sz, fr)]) ++ [(4064, true)]) /\
  (fr = true -> tiles (fupd m1 t ((m1 t)<| size := u64 (sz + (32 + 4064)) |>)) HEAP_BASE (e + 4096) 0
                  (l ++ [(sz + 4096, true)])).
Proof.
  intros Ht He t m1. assert (tiles m1 HEAP_BASE e 0 (l ++ [(sz, fr)])) as Ht1.
  { eapply tiles_frame; [|exact Ht]. intros x Hx. unfold m1. by rewrite fupd_ne by lia. }
  pose proof (tiles_length _ _ _ _ _ Ht1) as Hlen. pose proof (tiles_end _ _ _ _ _ Ht1) as Hend.
  rewrite span_app in Hend. cbn [span] in Hend.
  apply tiles_app in Ht1 as [Hl (Hm & Hs & Hs16 & _)]. fold t in Hl, Hm. cbn [starts] in Hl, Hm.
  pose proof (tiles_length _ _ _ _ _ Hl) as Hlen'.
  assert (t + 32 + sz = e) as Hte by (unfold t; lia). pose proof base_pos.
  assert (forall b, tiles (fupd m1 t b) HEAP_BASE t t l) as Hlb.
  { intros b. eapply tiles_frame; [|exact Hl]. intros x Hx. by rewrite fupd_ne by lia. }
  split_and!; [|done|done| |].
  - apply tiles_app. fold t. cbn [starts tiles]. by rewrite Hm, Hte.
  - rewrite <- app_assoc. apply tiles_app. fold t. cbn [app starts tiles]. rewrite fupd_eq, Hm, Hte.
    split; [apply Hlb|]. split_and!; try done. rewrite fupd_ne by lia. unfold m1. rewrite fupd_eq.
    { done. } lia.
  - intros ->. apply tiles_app. fold t. cbn [starts tiles]. rewrite fupd_eq, Hm. split; [apply Hlb|].
    rewrite wrap_small by (widths; lia). split_and!; [|lia| |lia].
    + unfold header. cbn [set_field magic size free next]. done.
    + rewrite Z.add_mod, Hs16 by lia. done.
Qed.

Lemma commit_page_spec h l :
  heap_ok h l ->
  exists r h', commit_page h = Some (r, h') /\
    (forall x, x < committed_end h -> in_use HEAP_BASE l x -> blocks h' x = blocks h x) /\
    if r : bool then exists l', grown l l' /\ heap_ok h' l' /\ committed_end h' = committed_end h + 4096
    else heap_ok h' l /\ committed_end h' = committed_end h.
Proof.
  intros Hok. pose proof Hok as [Ht Hf He Hp]. unfold commit_page. pose proof (page_room h l Hok) as Hroom.
  destruct (HEAP_LIMIT <=? committed_end h) eqn:El; [exists false, h; done|]. destruct Hroom as [Hr1 Hr2]; [lia|].
  destruct (physical_alloc_frame (pages h)) as [frame pg].
  destruct (frame =? 0); [exists false; eexists; split; [done|]; by destruct Hok|].
  destruct (virtual_memory_map_page pg (committed_end h) frame 2) as [[] pg2]; cbn [negb].
  2: { exists false. eexists. split; [done|]. by destruct Hok. }
  assert (committed_end h + 4096 < 2 ^ 64) as Hw by (unfold HEAP_LIMIT, HEAP_BASE, HEAP_PAGE_COUNT, HEAP_PAGE_SIZE in Hr1; lia).
  pose proof base_pos as Hb. pose proof (ok_base h l Hok) as Hbase. change HEAP_PAGE_SIZE with 4096 in *.
  rewrite (wrap_small 64) by (widths; lia). change (4096 - sizeof_heap_block) with 4064.
  destruct l as [|[sz fr] l0 _] using rev_ind.
  - rewrite Hf. cbn [starts Z.eqb tiles] in *. exists true. eexists. split; [done|]. split; [by intros x _ (? & ? & [] & _)|].
    exists [(4064, true)]. split; [by right|]. split; [|done].
    split; cbn [blocks first_block committed_end]; try done. rewrite <- Ht. cbn [tiles]. rewrite fupd_eq. split_and!; done || lia.
  - destruct (append_page (blocks h) (committed_end h) l0 sz fr Ht Hw) as (A1 & A2 & A3 & A4 & A5).
    rewrite Hf, starts_app. cbn [starts].
    replace (starts HEAP_BASE (HEAP_BASE + span l0) l0) with HEAP_BASE
      by (destruct l0; simpl; [by rewrite Z.add_0_r|done]).
    replace (HEAP_BASE =? 0) with false by lia. set (m1 := fupd (blocks h) (committed_end h) _) in *.
    pose proof (block_bound_enough h _ Hok) as Hbound. rewrite length_app in Hbound.
    rewrite (last_block_spec _ m1 _ _ l0 sz fr A1 Hb) by (simpl in Hbound; lia).
    set (t := HEAP_BASE + span l0) in *. cbv zeta. rewrite A2. cbn [free size header].
    assert (m1 (committed_end h) = header 4064 true 0) as Hme by (unfold m1; by rewrite fupd_eq).
    assert (forall b x, x < committed_end h -> in_use HEAP_BASE (l0 ++ [(sz, fr)]) x -> fupd m1 t b x = blocks h x) as Huse.
    { intros b x Hx Hu. rewrite fupd_ne by (by eapply header_not_used). unfold m1. by rewrite fupd_ne by lia. }
    exists true. rewrite Hme. cbn [size header]. change sizeof_heap_block with 32. rewrite A3, Z.eqb_refl, andb_true_r.
    destruct fr; eexists; (split; [done|]); (split; [cbn [blocks]; intros x; apply Huse|]).
    + exists (l0 ++ [(sz + 4096, true)]). split; [left; eauto|]. split; [|done]. rewrite A2 in A5.
      split; cbn [blocks first_block committed_end]; try done; [by apply A5|]. by destruct l0.
    + eexists. split; [by right|]. split; [|done]. rewrite A2 in A4.
      split; cbn [blocks first_block committed_end]; try done. by destruct l0.
Qed.

(** [p] is a new allocation of [n] bytes, apart from the others. *)
Definition new_block (l l' : block_list) (p n : Z) : Prop :=
  (forall q k, allocated HEAP_BASE l' q k <-> allocated HEAP_BASE l q k \/ (q = p /\ k = n)) /\
  (forall q k, allocated HEAP_BASE l q k -> p + n + 32 <= q \/ q + k + 32 <= p).

Lemma take_fitting h l1 sz l2 n :
  heap_ok h (l1 ++ (sz, true) :: l2) -> 0 < n <= sz -> n mod 16 = 0 ->
  let b := HEAP_BASE + span l1 in
  let l' := l1 ++ taken n sz ++ l2 in
  heap_ok (h<| blocks := take_block (blocks h) b n |>) l' /\
  (forall x, in_use HEAP_BASE (l1 ++ (sz, true) :: l2) x -> take_block (blocks h) b n x = blocks h x) /\
  exists n', n <= n' /\ new_block (l1 ++ (sz, true) :: l2) l' (b + 32) n'.
Proof.
  intros [Ht Hf He Hp] Hn Hn16 b l'. apply tiles_app in Ht as [H1 H2]. fold b in H1, H2.
  destruct (take_block_spec _ _ _ _ _ _ _ H2 Hn Hn16) as [T1 T2]. split; [|split].
  - split; cbn [blocks first_block committed_end set_field]; try done.
    + apply tiles_app. fold b. split; [|done]. cbn [starts] in H1.
      replace (starts b 0 (taken n sz ++ l2)) with b by (unfold taken; by case_if as E).
      eapply tiles_frame; [|exact H1]. intros x Hx. apply T2. lia.
    + rewrite Hf. unfold l'. rewrite !starts_app. fold b. cbn [starts]. unfold taken. by case_if as E.
  - intros x (p & k & Ha & Hx). apply T2. apply allocated_app in Ha as [Ha|Ha].
    + destruct (allocated_range _ _ _ _ _ _ _ H1 Ha). lia.
    + fold b in Ha. cbn [allocated] in Ha. destruct Ha as [[? _]|Ha]; [done|]. destruct H2 as (_ & _ & _ & H2).
      destruct (allocated_range _ _ _ _ _ _ _ H2 Ha). lia.
  - exists (if 48 <? sz - n then n else sz). split; [case_if as E; lia|]. split.
    + intros q k. unfold l'. rewrite !allocated_app, taken_span. fold b. cbn [allocated].
      replace (b + (32 + sz)) with (b + 32 + sz) by lia. unfold taken. case_if as E; cbn [allocated]; naive_solver.
    + intros q k Ha. assert ((if 48 <? sz - n then n else sz) <= sz) by (case_if as E; lia).
      apply allocated_app in Ha as [Ha|Ha].
      * destruct (allocated_range _ _ _ _ _ _ _ H1 Ha). lia.
      * fold b in Ha. cbn [allocated] in Ha. destruct Ha as [[? _]|Ha]; [done|]. destruct H2 as (_ & _ & _ & H2).
        destruct (allocated_range _ _ _ _ _ _ _ H2 Ha). lia.
Qed.

(** How an allocation of [n] bytes ends: nothing fits and the heap cannot grow, or there
    is a new block. *)
Definition served h l (n p : Z) h' l' : Prop :=
  heap_ok h' l' /\ (forall x, in_use HEAP_BASE l x -> blocks h' x = blocks h x) /\
  ((p = 0 /\ (forall q k, allocated HEAP_BASE l' q k <-> allocated HEAP_BASE l q k) /\ Forall (unfit n) l') \/
   (p <> 0 /\ exists n', n <= n' /\ new_block l l' p n')).

Lemma allocate_spec fuel h l n :
  heap_ok h l -> 0 < n -> n mod 16 = 0 -> (HEAP_LIMIT - committed_end h) / 4096 < Z.of_nat fuel ->
  exists p h' l', allocate fuel h n = Some (p, h') /\ served h l n p h' l'.
Proof.
  revert h l. induction fuel as [|fuel IH]; intros h l Hok Hn Hn16 Hfuel.
  { destruct Hok as [_ _ He _]. assert (0 <= (HEAP_LIMIT - committed_end h) / 4096) by (apply Z.div_pos; lia). lia. }
  cbn [allocate]. rewrite (ok_first _ _ Hok).
  destruct (find_block_spec (block_bound h) _ _ _ l n (ok_tiles _ _ Hok) base_pos (block_bound_enough h l Hok))
    as [[-> HF]|(l1 & sz & l2 & -> & Hsz & HF & ->)].
  - cbn [Z.eqb negb]. destruct (commit_page_spec h l Hok) as (r & h1 & -> & Hsame & Hr). destruct r.
    + destruct Hr as (l1 & Hg & Hok1 & He1).
      destruct (IH h1 l1 Hok1 Hn Hn16) as (p & h' & l' & -> & Hok' & Hs' & Hres).
      { rewrite He1. replace (HEAP_LIMIT - (committed_end h + 4096)) with (HEAP_LIMIT - committed_end h + (-1) * 4096) by lia.
        rewrite Z.div_add by lia. lia. }
      assert (forall x, in_use HEAP_BASE l1 x <-> in_use HEAP_BASE l x) as Hu.
      { intros x. unfold in_use. setoid_rewrite (grown_allocated l l1); [done|done]. }
      exists p, h', l'. split; [done|]. split; [done|]. split.
      * intros x Hx. rewrite Hs' by (by apply Hu). apply Hsame; [|done]. destruct Hx as (q & k & Ha & Hx).
        destruct (allocated_range _ _ _ _ _ _ _ (ok_tiles _ _ Hok) Ha). lia.
      * unfold new_block in *. setoid_rewrite (grown_allocated l l1) in Hres; [|done..]. exact Hres.
    + destruct Hr as [Hok1 He1]. exists 0, h1, l. split; [done|]. split; [done|]. split; [|by left].
      intros x Hx. apply Hsame; [|done]. destruct Hx as (q & k & Ha & Hx).
      destruct (allocated_range _ _ _ _ _ _ _ (ok_tiles _ _ Hok) Ha). lia.
  - pose proof (tiles_length _ _ _ _ _ (proj1 (proj1 (tiles_app _ _ _ _ _ _) (ok_tiles _ _ Hok)))).
    pose proof base_pos. replace (HEAP_BASE + span l1 =? 0) with false by lia. cbn [negb].
    destruct (take_fitting h l1 sz l2 n Hok ltac:(lia) Hn16) as (T1 & T2 & n' & Hn' & Hnew).
    eexists _, _, _. split; [done|]. split; [exact T1|]. split; [exact T2|]. right. split; [unfold sizeof_heap_block; lia|].
    exists n'. split; [done|exact Hnew].
Qed.

(** Starting from any memory, initialisation gives a heap without allocations. *)
Lemma heap_initialize_spec h :
  exists r h' l, heap_initialize h = Some (r, h') /\ heap_ok h' l /\ (forall p n, ~ allocated HEAP_BASE l p n) /\
    (r = true -> l = [(4064, true)]).
Proof.
  unfold heap_initialize. set (h0 := h<| first_block := 0 |><| committed_end := HEAP_BASE |>).
  assert (heap_ok h0 []) as Hok by (split; try done; by rewrite Z.sub_diag).
  destruct (commit_page_spec h0 [] Hok) as (r & h' & -> & _ & Hr). exists r, h'. destruct r.
  - destruct Hr as (l & [(l0 & sz & E & _)| ->] & Hok' & _); [by destruct l0|]. exists [(4064, true)].
    split_and!; try done. intros p n. simpl. naive_solver.
  - exists []. split; [done|]. split; [apply Hr|]. split; [by intros p n []|done].
Qed.

(** The heap returns memory of its own to every caller: an allocation ends; if it
    succeeds, the block is aligned, lies within the committed pages, has at least the
    requested size and overlaps neither an allocated block nor a header; if it fails, the
    request was invalid or no free block fits although the heap has grown as far as it
    can.  Neither changes what is stored in allocated blocks. *)
Lemma kmalloc_spec h l sz :
  heap_ok h l -> is_u64 sz ->
  exists p h' l', heap_kmalloc h sz = Some (p, h') /\ heap_ok h' l' /\
    (forall x, in_use HEAP_BASE l x -> blocks h' x = blocks h x) /\
    ((p = 0 /\ (forall q k, allocated HEAP_BASE l' q k <-> allocated HEAP_BASE l q k) /\
      (sz = 0 \/ U64_MAX - 15 < sz \/ Forall (unfit (align_up sz)) l')) \/
     (HEAP_BASE < p /\ p mod 16 = 0 /\ exists n, sz <= n /\ p + n <= committed_end h' /\ new_block l l' p n)).
Proof.
  intros Hok Hsz. unfold heap_kmalloc, HEAP_ALIGNMENT. destruct ((sz =? 0) || (U64_MAX - (16 - 1) <? sz)) eqn:E.
  { exists 0, h, l. split_and!; try done. left. split_and!; try done.
    apply orb_prop in E as [E|E]; [left; lia|right; left; lia]. }
  destruct (align_up_spec sz) as [Ha Ha16]; [widths; lia|].
  unfold in_width in Hsz. destruct (allocate_spec (page_bound h) h l (align_up sz) Hok ltac:(lia) Ha16) as (p & h' & l' & -> & Hok' & Hs & Hr).
  { unfold page_bound, HEAP_PAGE_SIZE. lia. }
  exists p, h', l'. split_and!; try done. destruct Hr as [(-> & Hal & HF)|(Hp & n & Hn & Hnew)]; [left; auto|right].
  assert (allocated HEAP_BASE l' p n) as Hal by (apply Hnew; by right).
  destruct (allocated_range _ _ _ _ _ _ _ (ok_tiles _ _ Hok') Hal) as (A1 & A2 & A3 & A4 & _).
  split_and!; [lia| |exists n; split_and!; [lia|done|done]].
  replace p with (p - HEAP_BASE + 67108864 * 16) by (unfold HEAP_BASE; lia). by rewrite Z.mod_add.
Qed.

(** Merging does not change which headers are marked free. *)
Lemma merge_blocks_free fuel m current m' x :
  merge_blocks fuel m current = Some m' -> free (m' x) = free (m x).
Proof.
  revert m current. induction fuel as [|fuel IH]; intros m current; [done|]. cbn [merge_blocks].
  destruct (_ || _); [by intros [= <-]|]. intros Hm. rewrite (IH _ _ Hm). destruct (_ || _); [done|].
  unfold fupd. destruct (x =? current) eqn:E; [|done]. by apply Z.eqb_eq in E as ->.
Qed.

(** Marking a block free in its header. *)
Lemma free_header m a e z l1 n l2 :
  tiles m a e z (l1 ++ (n, false) :: l2) ->
  let b := a + span l1 in
  tiles (fupd m b ((m b)<| free := true |>)) a e z (l1 ++ (n, true) :: l2).
Proof.
  intros Ht b. apply tiles_app in Ht as [H1 (Hm & Hs & Hs16 & H2)]. fold b in H1, Hm, H2.
  pose proof (tiles_length _ _ _ _ _ H2). apply tiles_app. fold b. split.
  - eapply tiles_frame; [|exact H1]. intros x Hx. by rewrite fupd_ne by lia.
  - cbn [tiles]. rewrite fupd_eq, Hm. split_and!; try done. eapply tiles_frame; [|exact H2].
    intros x Hx. by rewrite fupd_ne by lia.
Qed.

Lemma kfree_blocks h l1 n l2 :
  heap_ok h (l1 ++ (n, false) :: l2) ->
  let p := HEAP_BASE + span l1 + 32 in
  let l := l1 ++ (n, true) :: l2 in
  exists h', heap_kfree h p = Some h' /\ heap_ok h' (coalesce l) /\ free (blocks h' (p - 32)) = true /\
    (forall x, in_use HEAP_BASE l x -> blocks h' x = blocks h x).
Proof.
  intros Hok p l. pose proof base_pos as Hb. pose proof (ok_end _ _ Hok) as He.
  assert (allocated HEAP_BASE (l1 ++ (n, false) :: l2) p n) as Ha by (apply allocated_app; right; left; done).
  destruct (allocated_range _ _ _ _ _ _ _ (ok_tiles _ _ Hok) Ha) as (R1 & R2 & R3 & R4 & R5).
  pose proof (free_header _ _ _ _ _ _ _ (ok_tiles _ _ Hok)) as Ht. cbv zeta in Ht. fold l in Ht.
  replace (HEAP_BASE + span l1) with (p - 32) in Ht by (unfold p; lia). set (m := fupd (blocks h) (p - 32) _) in *.
  assert (Z.land p 15 = 0) as Hal.
  { change 15 with (Z.ones 4). rewrite Z.land_ones by lia. change (2 ^ 4) with 16.
    replace p with (p - HEAP_BASE + 67108864 * 16) by (unfold HEAP_BASE; lia). by rewrite Z.mod_add. }
  destruct (merge_blocks_spec (block_bound h) m _ _ l Ht Hb) as (m' & Hmerge & Ht' & Hsame).
  { unfold HEAP_LIMIT, HEAP_BASE, HEAP_PAGE_COUNT, HEAP_PAGE_SIZE in He. lia. }
  { pose proof (block_bound_enough h _ Hok) as Hbound. unfold l. rewrite length_app in *. done. }
  assert (first_block h = starts HEAP_BASE 0 l) as Hf by (rewrite (ok_first _ _ Hok); unfold l; by rewrite !starts_app).
  exists (h<| blocks := m' |>). split_and!.
  - unfold heap_kfree, HEAP_ALIGNMENT, sizeof_heap_block. change (16 - 1) with 15. rewrite Hal.
    replace (p =? 0) with false by lia. replace (_ || _ || _) with false by lia. cbv zeta. rewrite R5. cbn [magic free size header].
    rewrite Z.eqb_refl. replace (_ || _ || _ || _) with false by (cbn [negb orb]; lia). rewrite <- R5. fold m.
    by rewrite Hf, Hmerge.
  - split; cbn [blocks first_block committed_end set_field]; try apply Hok; [done|]. by rewrite coalesce_starts.
  - cbn [blocks set_field]. rewrite (merge_blocks_free _ _ _ _ (p - 32) Hmerge). unfold m. by rewrite fupd_eq.
  - intros x Hx. cbn [blocks set_field]. rewrite Hsame by auto. unfold m. rewrite fupd_ne; [done|].
    pose proof (header_not_used _ _ _ _ _ _ _ _ Ht Hx). lia.
Qed.

(** Freeing an allocated block releases exactly that block and leaves the contents of the
    others alone; freeing it again has no effect. *)
Lemma kfree_spec h l p n :
  heap_ok h l -> allocated HEAP_BASE l p n ->
  exists h' l', heap_kfree h p = Some h' /\ heap_ok h' l' /\
    (forall q k, allocated HEAP_BASE l' q k <-> allocated HEAP_BASE l q k /\ q <> p) /\
    (forall x, in_use HEAP_BASE l' x -> blocks h' x = blocks h x) /\
    heap_kfree h' p = Some h'.
Proof.
  intros Hok Ha. destruct (allocated_split _ _ _ _ Ha) as (l1 & l2 & -> & ->).
  destruct (kfree_blocks h l1 n l2 Hok) as (h' & Hfree & Hok' & Hfr & Hsame).
  set (p := HEAP_BASE + span l1 + 32) in *. set (l := l1 ++ (n, true) :: l2) in *.
  exists h', (coalesce l). split; [done|]. split; [done|]. split; [|split].
  - intros q k. rewrite coalesce_allocated. unfold l. rewrite !allocated_app. cbn [allocated].
    destruct (proj1 (tiles_app _ _ _ _ _ _) (ok_tiles _ _ Hok)) as [Ht1 (_ & _ & _ & Ht2)]. split.
    + intros Hq. split; [naive_solver|]. intros ->. destruct Hq as [Hq|[[? _]|Hq]]; [|done|].
      * destruct (allocated_range _ _ _ _ _ _ _ Ht1 Hq). lia.
      * destruct (allocated_range _ _ _ _ _ _ _ Ht2 Hq). unfold p in *.
        pose proof (proj1 (proj2 (proj2 (allocated_range _ _ _ _ _ _ _ (ok_tiles _ _ Hok) Ha)))). lia.
    + intros [[Hq|[(_ & -> & _)|Hq]] Hne]; [by left|done|auto].
  - intros x (q & k & Hq & Hx). apply Hsame. exists q, k. by rewrite coalesce_allocated in Hq.
  - unfold heap_kfree. change sizeof_heap_block with 32. cbv zeta. rewrite Hfr, orb_true_r. cbn [orb].
    destruct (p =? 0); [done|]. by destruct (_ || _ || _).
Qed.

(** The pass that merges free blocks steps over the block it has just merged: when a block
    between two free ones is freed, only the first pair is merged, and two free blocks
    stay next to each other. *)
Theorem heap_merge_incomplete h a b c l :
  heap_ok h ((a, true) :: (b, false) :: (c, true) :: l) ->
  exists h' c' l', heap_kfree h (HEAP_BASE + (32 + a) + 32) = Some h' /\
    heap_ok h' ((a + 32 + b, true) :: (c', true) :: l').
Proof.
  intros Hok. destruct (kfree_blocks h [(a, true)] b ((c, true) :: l) Hok) as (h' & Hfree & Hok' & _).
  cbn [span app coalesce andb] in Hfree, Hok'. rewrite Z.add_0_r in Hfree.
  destruct l as [|[d []] l]; (eexists h', _, _; split; [exact Hfree|exact Hok']).
Qed.

Lemma new_block_fresh h l l' p k :
  heap_ok h l' -> new_block l l' p k -> 0 < k /\ forall j, ~ allocated HEAP_BASE l p j.
Proof.
  intros Hok [Hal Hap]. pose proof (ok_tiles _ _ Hok) as Ht. split.
  - assert (allocated HEAP_BASE l' p k) as Hp by (apply Hal; by right). apply (allocated_range _ _ _ _ _ _ _ Ht Hp).
  - intros j Hj. assert (allocated HEAP_BASE l' p k) as Hp by (apply Hal; by right).
    assert (allocated HEAP_BASE l' p j) as Hp' by (apply Hal; by left).
    destruct (allocated_range _ _ _ _ _ _ _ Ht Hp), (allocated_range _ _ _ _ _ _ _ Ht Hp'), (Hap _ _ Hj); lia.
Qed.

(** There are at most as many pointers as blocks. *)
Lemma owned_size a l (m : gmap Z Z) :
  (forall p n, m !! p = Some n -> allocated a l p n) -> (base.size m <= length l)%nat.
Proof.
  revert a m. induction l as [|[sz fr] l IH]; intros a m Hm; simpl.
  { assert (m = ∅) as -> by (apply map_empty; intros p; destruct (m !! p) eqn:E; [by apply Hm in E|done]). done. }
  specialize (IH (a + 32 + sz) (delete (a + 32) m)).
  transitivity (S (base.size (delete (a + 32) m))).
  - destruct (m !! (a + 32)) as [n|] eqn:E; [rewrite (map_size_delete_Some (a + 32) m) by done|rewrite delete_id by done; lia].
    assert (base.size m <> 0%nat) by (intros ->%map_size_empty_inv; done). lia.
  - apply le_n_S, IH. intros p n [Hne Hp]%lookup_delete_Some. apply Hm in Hp as [(_ & -> & _)|Hp]; [done|exact Hp].
Qed.

(** The heap is an allocator. *)
#[export] Instance heap_allocator : Allocator (heap_t P) := {|
  kmalloc h sz := default (0, h) (heap_kmalloc h sz);
  kfree h p := default h (heap_kfree h p);
|}.

Definition heap_owns h (m : gmap Z Z) : Prop :=
  exists l, heap_ok h l /\ forall p n, m !! p = Some n <-> allocated HEAP_BASE l p n.

#[export] Program Instance heap_allocator_laws : AllocatorLaws (heap_t P) := {| owns := heap_owns |}.
Next Obligation.
  intros h m p (l & Hok & Hm) Hp. destruct (m !! p) as [n|] eqn:E; [|done]. apply Hm in E.
  destruct (allocated_range _ _ _ _ _ _ _ (ok_tiles _ _ Hok) E). pose proof base_pos. lia.
Qed.
Next Obligation.
  intros h m (l & Hok & Hm). pose proof (tiles_length _ _ _ _ _ (ok_tiles _ _ Hok)). pose proof (ok_end _ _ Hok).
  pose proof (owned_size HEAP_BASE l m (fun p n Hp => proj1 (Hm p n) Hp)).
  unfold HEAP_LIMIT, HEAP_PAGE_COUNT, HEAP_PAGE_SIZE, U32_MAX, zlen in *. lia.
Qed.
Next Obligation.
  intros h m n (l & Hok & Hm) Hn. cbn [kmalloc heap_allocator].
  destruct (kmalloc_spec h l n Hok Hn) as (p & h' & l' & -> & Hok' & _ & Hr). cbn [default].
  destruct Hr as [(-> & Hal & _)|(Hp & _ & k & Hk & _ & Hnew)]; [left|right].
  - split; [done|]. exists l'. split; [done|]. intros q j. by rewrite Hal, Hm.
  - pose proof base_pos. destruct (new_block_fresh _ _ _ _ _ Hok' Hnew) as [Hk0 Hfresh]. destruct Hnew as [Hal Hap].
    assert (m !! p = None) as Hnone.
    { destruct (m !! p) as [j|] eqn:E; [|done]. apply Hm in E. by destruct (Hfresh j). }
    split; [lia|]. split; [done|]. exists k. split; [done|]. split; [done|]. split.
    + intros q j Hq. apply Hm, Hap in Hq. lia.
    + exists l'. split; [done|]. intros q j. rewrite Hal, <- Hm. destruct (decide (q = p)) as [->|Hne].
      * rewrite lookup_insert_eq, Hnone. naive_solver.
      * rewrite lookup_insert_ne by done. naive_solver.
Qed.
Next Obligation.
  intros h m p (l & Hok & Hm) Hp. cbn [kfree heap_allocator]. destruct (m !! p) as [n|] eqn:E; [|done].
  destruct (kfree_spec h l p n Hok (proj1 (Hm _ _) E)) as (h' & l' & -> & Hok' & Hal & _). exists l'.
  split; [done|]. intros q k. rewrite Hal, <- Hm, lookup_delete_Some. naive_solver.
Qed.

(** ** Clients of the heap *)

(** A history of the heap: what is live is recorded with the size that was asked for. *)
Inductive session : heap_t P -> gmap Z Z -> Prop :=
| session_init h h' : heap_initialize h = Some (true, h') -> session h' ∅
| session_fail h m sz h' : session h m -> is_u64 sz -> heap_kmalloc h sz = Some (0, h') -> session h' m
| session_alloc h m sz p h' :
    session h m -> is_u64 sz -> heap_kmalloc h sz = Some (p, h') -> p <> 0 -> session h' (<[p := sz]> m)
| session_free h m p h' : session h m -> m !! p <> None -> heap_kfree h p = Some h' -> session h' (delete p m).

Definition keeps (m : gmap Z Z) h h' : Prop :=
  forall p n x, m !! p = Some n -> p <= x < p + n -> blocks h' x = blocks h x.

Definition live h (m : gmap Z Z) : Prop :=
  exists l, heap_ok h l /\
    forall p, (forall k, allocated HEAP_BASE l p k -> exists n, m !! p = Some n) /\
              (forall n, m !! p = Some n -> exists k, n <= k /\ allocated HEAP_BASE l p k).

Lemma live_keeps h l m h' :
  (forall p n, m !! p = Some n -> exists k, n <= k /\ allocated HEAP_BASE l p k) ->
  (forall x, in_use HEAP_BASE l x -> blocks h' x = blocks h x) -> keeps m h h'.
Proof.
  intros Hm Hx p n x Hp Hr. apply Hx. destruct (Hm _ _ Hp) as (k & Hk & Ha). exists p, k. split; [done|lia].
Qed.

Lemma session_live h m : session h m -> live h m.
Proof.
  induction 1 as [h h' Hi|h m sz h' _ (l & Hok & Hm) Hsz Hk|h m sz p h' _ (l & Hok & Hm) Hsz Hk Hp|h m p h' _ (l & Hok & Hm) Hp Hf].
  - destruct (heap_initialize_spec h) as (r & h1 & l & Hi' & Hok & Hno & _). rewrite Hi in Hi'. injection Hi' as <- <-.
    exists l. split; [done|]. intros p. split; [intros k Hk; by destruct (Hno p k)|by intros n Hn].
  - destruct (kmalloc_spec h l sz Hok Hsz) as (p & h1 & l' & E & Hok' & _ & Hr). rewrite Hk in E. injection E as <- <-.
    pose proof base_pos. destruct Hr as [(_ & Hal & _)|(? & _)]; [|lia]. exists l'. split; [done|].
    intros p. setoid_rewrite Hal. apply Hm.
  - destruct (kmalloc_spec h l sz Hok Hsz) as (p1 & h1 & l' & E & Hok' & _ & Hr). rewrite Hk in E. injection E as <- <-.
    destruct Hr as [(? & _)|(_ & _ & k & Hk' & _ & Hnew)]; [done|].
    destruct (new_block_fresh _ _ _ _ _ Hok' Hnew) as [_ Hfresh]. destruct Hnew as [Hal _].
    exists l'. split; [done|]. intros q. setoid_rewrite Hal. destruct (decide (q = p)) as [->|Hne].
    + rewrite lookup_insert_eq. split; [by eauto|]. intros n [= <-]. exists k. auto.
    + rewrite lookup_insert_ne by done. destruct (Hm q) as [H1 H2]. split; [|naive_solver].
      intros j [Hj|[? _]]; [by eapply H1|done].
  - destruct (m !! p) as [n|] eqn:E; [|done]. destruct (proj2 (Hm p) n E) as (k & _ & Ha).
    destruct (kfree_spec h l p k Hok Ha) as (h1 & l' & E1 & Hok' & Hal & _). rewrite Hf in E1. injection E1 as <-.
    exists l'. split; [done|]. intros q. setoid_rewrite Hal. setoid_rewrite lookup_delete_Some. destruct (Hm q) as [H1 H2].
    split; [intros j [Hj ?]; destruct (H1 j Hj) as [i ?]; by exists i|].
    intros i [? Hi]. destruct (H2 i Hi) as (j & ? & ?). exists j. auto.
Qed.

(** C7. Every history of the heap is safe: after any sequence of allocations and releases of
    live pointers, the live blocks are aligned, lie within the committed pages and do not
    overlap; the next allocation or release returns and does not change what is stored in
    the live blocks; and releasing a pointer twice has no further effect. *)
Theorem heap_session_sound h m :
  session h m ->
  (forall p n, m !! p = Some n ->
     HEAP_BASE < p /\ p mod 16 = 0 /\ p + n <= committed_end h <= HEAP_LIMIT) /\
  (forall p n q k, m !! p = Some n -> m !! q = Some k -> p <> q -> p + n <= q \/ q + k <= p) /\
  (forall sz, is_u64 sz -> exists p h', heap_kmalloc h sz = Some (p, h') /\ keeps m h h') /\
  (forall p, m !! p <> None ->
     exists h', heap_kfree h p = Some h' /\ keeps (delete p m) h h' /\ heap_kfree h' p = Some h').
Proof.
  intros Hs. destruct (session_live _ _ Hs) as (l & Hok & Hm). pose proof (ok_tiles _ _ Hok) as Ht. split_and!.
  - intros p n Hp. destruct (proj2 (Hm p) n Hp) as (k & Hk & Ha).
    destruct (allocated_range _ _ _ _ _ _ _ Ht Ha) as (A1 & A2 & A3 & A4 & _). pose proof (ok_end _ _ Hok).
    split_and!; [lia| |lia|done]. replace p with (p - HEAP_BASE + 67108864 * 16) by (unfold HEAP_BASE; lia). by rewrite Z.mod_add.
  - intros p n q k Hp Hq Hne. destruct (proj2 (Hm p) n Hp) as (n' & ? & Ha), (proj2 (Hm q) k Hq) as (k' & ? & Hb).
    destruct (allocated_apart _ _ _ _ _ _ _ _ _ Ht Ha Hb); lia.
  - intros sz Hsz. destruct (kmalloc_spec h l sz Hok Hsz) as (p & h' & l' & Hk & _ & Hx & _). exists p, h'.
    split; [done|]. apply (live_keeps _ l); [|done]. intros q. apply Hm.
  - intros p Hp. destruct (m !! p) as [n|] eqn:E; [|done]. destruct (proj2 (Hm p) n E) as (k & _ & Ha).
    destruct (kfree_spec h l p k Hok Ha) as (h' & l' & Hf & _ & Hal & Hx & Hdf). exists h'. split_and!; try done.
    apply (live_keeps _ l'); [|done]. intros q i. rewrite lookup_delete_Some. intros [? Hq].
    destruct (proj2 (Hm q) i Hq) as (j & ? & ?). exists j. split; [done|]. by apply Hal.
Qed.

End ok.

(** ** Examples *)

(** Frames that are handed out one after the other, and page tables that take every
    mapping. *)
Definition frame_counter : PageProvider Z := {|
  physical_alloc_frame n := (n, n + HEAP_PAGE_SIZE);
  physical_free_frame n _ := n;
  virtual_memory_map_page n _ _ _ := (true, n);
|}.

#[local] Existing Instance frame_counter.

Definition example_heap : heap_t Z :=
  Heap (fun _ => {| magic := 0; size := 0; free := false; next := 0 |}) 0 0 0x100000.

(** The heap after the start, two allocations, and after the first block is freed. *)
Definition example_start : heap_t Z := default example_heap (snd <$> heap_initialize example_heap).
Definition example_first : heap_t Z := default example_heap (snd <$> heap_kmalloc example_start 5000).
Definition example_second : heap_t Z := default example_heap (snd <$> heap_kmalloc example_first 10).
Definition example_freed : heap_t Z := default example_heap (heap_kfree example_second (HEAP_BASE + 32)).

Lemma result_of {A B} (x : option (A * B)) a d : fst <$> x = Some a -> x = Some (a, default d (snd <$> x)).
Proof. by destruct x as [[? ?]|]; [intros [= <-]|]. Qed.

Lemma state_of {A B} (x : option A) (b : B) d : (fun _ => b) <$> x = Some b -> x = Some (default d x).
Proof. by destruct x. Qed.

Lemma example_session : session example_freed {[ HEAP_BASE + 5072 := 10 ]}.
Proof.
  assert (delete (HEAP_BASE + 32) (<[HEAP_BASE + 5072 := 10]> (<[HEAP_BASE + 32 := 5000]> (∅ : gmap Z Z)))
          = {[ HEAP_BASE + 5072 := 10 ]}) as <- by reflexivity.
  apply (session_free example_second); [|done|apply (state_of _ tt); by vm_compute].
  apply (session_alloc example_first); [|done|apply result_of; by vm_compute|done].
  apply (session_alloc example_start); [|done|apply result_of; by vm_compute|done].
  apply (session_init example_heap), result_of. by vm_compute.
Qed.

Lemma heap_session_witness :
  session example_freed {[ HEAP_BASE + 5072 := 10 ]} /\
  HEAP_BASE + 5072 + 10 <= committed_end example_freed.
Proof.
  pose proof example_session as Hs. split; [exact Hs|].
  destruct (heap_session_sound _ _ Hs) as [H1 _].
  apply (H1 (HEAP_BASE + 5072) 10). reflexivity.
Defined.

Lemma example_freed_ok : heap_ok example_freed [(5008, true); (16, false); (3072, true)].
Proof. split; [cbn [tiles]; split_and!| | |]; by vm_compute. Qed.

Lemma heap_merge_incomplete_witness :
  heap_ok example_freed [(5008, true); (16, false); (3072, true)] /\
  exists h' c' l', heap_kfree example_freed (HEAP_BASE + (32 + 5008) + 32) = Some h' /\
    heap_ok h' ((5008 + 32 + 16, true) :: (c', true) :: l').
Proof.
  pose proof example_freed_ok as Hok. split; [exact Hok|].
  exact (heap_merge_incomplete example_freed 5008 16 3072 [] Hok).
Defined.

End Heap.
