(* ===== verification/Vfs.v ===== *)
(** * The virtual file system (kernel/fs/vfs/vfs.c, kernel/security/credentials.c)

    [Security] models the permission check, [Vfs] the tree of nodes.  A node is an object
    at its address; the nodes that exist are the entries of a finite map, and an operation
    that touches a node which does not exist gives [None], so that a result [Some] is also
    a statement of memory safety.  Loops over lists of children and over ancestors are
    bounded by the number of nodes, and [None] is also the result when the bound is not
    enough; that neither happens is part of what is proved.  Every operation that holds a
    lock is one step; [vfs_node_release] drops a reference and looks whether the node can
    be destroyed in two steps, which [vfs_node_release] composes.  The null pointer is 0.
    A C string is the list of its characters before the terminator, and [None] if the
    pointer is null; the bytes of the array [name] behind the terminator are not kept.
    Functions stored in a node are numbers; calls of the destructor are recorded with their
    argument, and the functions of file systems are an interface. *)

From S2P Require Import Prelude Heap.

Module Security.

Record security_context_t := { uid : Z; gid : Z; capabilities : Z }.

Definition security_context_initialize (u g c : Z) : security_context_t :=
  {| uid := u; gid := g; capabilities := c |}.

Definition security_has_capability (context : option security_context_t) (capability : Z) : bool :=
  match context with
  | None => false
  | Some context =>
    negb (capability =? 0) && (Z.land (capabilities context) capability =? capability)
  end.

(** [~0777U] and [~7U] *)
Definition not_mode : Z := u32 (Z.lnot 0x1ff).
Definition not_rwx : Z := u32 (Z.lnot 7).

Definition security_can_access (context : option security_context_t) (owner_uid owner_gid mode requested : Z) : bool :=
  match context with
  | None => false
  | Some context =>
    if negb (Z.land mode not_mode =? 0) || (requested =? 0) || negb (Z.land requested not_rwx =? 0) then false
    else if uid context =? 0 then true
    else
      let permission :=
        if uid context =? owner_uid then Z.land (Z.shiftr mode 6) 7
        else if gid context =? owner_gid then Z.land (Z.shiftr mode 3) 7
        else Z.land mode 7 in
      Z.land permission requested =? requested
  end.

End Security.

Module Vfs.
Import Security.

Definition VFS_NODE_DIRECTORY : Z := 0.
Definition VFS_NODE_REGULAR : Z := 1.
Definition VFS_NODE_DEVICE : Z := 2.

Record vfs_stat_t := { stat_uid : Z; stat_gid : Z; stat_mode : Z; stat_type : Z }.

Record vfs_node_t := {
  parent : Z;
  first_child : Z;
  next_sibling : Z;
  child_count : Z;
  references : Z;
  destroying : bool;
  owner_uid : Z;
  owner_gid : Z;
  mode : Z;
  type : Z;
  name : list Z;
  read : Z;
  write : Z;
  truncate : Z;
  private_data : Z;
  private_destroy : Z;
}.
#[export] Instance eta_vfs_node : Eta vfs_node_t := fun n =>
  {| parent := parent n; first_child := first_child n; next_sibling := next_sibling n;
     child_count := child_count n; references := references n; destroying := destroying n;
     owner_uid := owner_uid n; owner_gid := owner_gid n; mode := mode n; type := type n;
     name := name n; read := read n; write := write n; truncate := truncate n;
     private_data := private_data n; private_destroy := private_destroy n |}.
(** The size of the structure and of the array [name]. *)
Definition sizeof_vfs_node : Z := 144.
Definition NAME_SIZE : Z := 32.

(** The nodes that exist, the heap, and the calls of destructors, latest first. *)
Record vfs_t (A : Type) := Vfs {
  nodes : gmap Z vfs_node_t;
  heap : A;
  calls : list (Z * Z);
}.
Arguments Vfs {A}.
Arguments nodes {A}.
Arguments heap {A}.
Arguments calls {A}.
#[export] Instance eta_vfs A : Eta (vfs_t A) := fun v =>
  {| nodes := nodes v; heap := heap v; calls := calls v |}.

(** The functions of a file system, each with the number that stands for it, the node and
    the other arguments of the call. *)
Class FileOperations (W : Type) := {
  call_read : W -> Z -> Z -> Z -> Z -> Z * list Z * W;
  call_write : W -> Z -> Z -> Z -> list Z -> Z * W;
  call_truncate : W -> Z -> Z -> Z -> Z * W;
}.

Definition string_length (value : option (list Z)) : Z := match value with None => 0 | Some s => zlen s end.

Fixpoint string_equal (l r : list Z) : bool :=
  match l, r with
  | x :: l, y :: r => if negb (x =? y) then false else string_equal l r
  | [], [] => true
  | _, _ => false
  end.

Definition SLASH : Z := 47.
Definition DOT : Z := 46.

(** [while (path[index] == '/') ++index;] *)
Fixpoint skip_slashes (path : list Z) : list Z :=
  match path with
  | c :: rest => if c =? SLASH then skip_slashes rest else path
  | [] => []
  end.

(** The next component of a path and what follows it; [None] if it does not fit the buffer. *)
Fixpoint read_component (length : Z) (path : list Z) : option (list Z * list Z) :=
  match path with
  | [] => Some ([], [])
  | c :: rest =>
    if c =? SLASH then Some ([], path)
    else if NAME_SIZE <=? length + 1 then None
    else '(component, rest) ← read_component (length + 1) rest; Some (c :: component, rest)
  end.

Section vfs.
Context {A : Type} `{Allocator A}.

Implicit Types v : vfs_t A.

Definition put v (p : Z) (n : vfs_node_t) : vfs_t A := v<| nodes := <[p := n]> (nodes v) |>.

(** More than the number of nodes. *)
Definition bound v : nat := S (size (nodes v)).

Definition vfs_node_access v (node : Z) (context : option security_context_t) (requested : Z) : option bool :=
  if (node =? 0) || bool_decide (context = None) || (requested =? 0) || negb (Z.land requested not_rwx =? 0)
  then Some false
  else
    n ← nodes v !! node;
    Some (security_can_access context (owner_uid n) (owner_gid n) (mode n) requested).

Definition vfs_node_set_mode v (node : Z) (context : option security_context_t) (m : Z) : option (bool * vfs_t A) :=
  match context with
  | None => Some (false, v)
  | Some context =>
    if (node =? 0) || negb (Z.land m not_mode =? 0) then Some (false, v)
    else
      n ← nodes v !! node;
      let allowed := negb (destroying n) && negb (references n =? 0) &&
                     ((uid context =? 0) || (uid context =? owner_uid n)) in
      Some (allowed, if allowed then put v node (n<| mode := m |>) else v)
  end.

Definition vfs_node_stat v (node : Z) : option (option vfs_stat_t) :=
  if node =? 0 then Some None
  else
    n ← nodes v !! node;
    if destroying n || (references n =? 0) then Some None
    else Some (Some {| stat_uid := owner_uid n; stat_gid := owner_gid n; stat_mode := mode n; stat_type := type n |}).

Definition vfs_node_retain v (node : Z) : option (bool * vfs_t A) :=
  if node =? 0 then Some (false, v)
  else
    n ← nodes v !! node;
    if negb (destroying n) && negb (references n =? 0) && negb (references n =? U32_MAX)
    then Some (true, put v node (n<| references := references n + 1 |>))
    else Some (false, v).

(** [if (!vfs_node_retain(node)) node = 0;] *)
Definition reference_to v (node : Z) : option (Z * vfs_t A) :=
  match vfs_node_retain v node with
  | Some (ok, v) => Some (if ok : bool then node else 0, v)
  | None => None
  end.

Definition parent_reference v (root current : Z) : option (Z * vfs_t A) :=
  if (root =? 0) || (current =? 0) then Some (0, v)
  else
    n ← nodes v !! current;
    let p := if negb (current =? root) && negb (parent n =? 0) then parent n else current in
    reference_to v p.

Definition vfs_node_create v (nm : option (list Z)) (ty uid gid m : Z) : Z * vfs_t A :=
  match nm with
  | None => (0, v)
  | Some s =>
    let length := string_length nm in
    if (length =? 0) || (NAME_SIZE <=? length) || (VFS_NODE_DEVICE <? ty) || negb (Z.land m not_mode =? 0) then (0, v)
    else
      let '(node, h) := kmalloc (heap v) sizeof_vfs_node in
      let v := v<| heap := h |> in
      if node =? 0 then (0, v)
      else (node, put v node
        {| parent := 0; first_child := 0; next_sibling := 0; child_count := 0; references := 1; destroying := false;
           owner_uid := uid; owner_gid := gid; mode := m; type := ty; name := s;
           read := 0; write := 0; truncate := 0; private_data := 0; private_destroy := 0 |})
  end.

Definition vfs_node_set_private_destructor v (node destroy : Z) : option (bool * vfs_t A) :=
  if (node =? 0) || (destroy =? 0) then Some (false, v)
  else
    n ← nodes v !! node;
    if (private_data n =? 0) || negb (private_destroy n =? 0) then Some (false, v)
    else Some (true, put v node (n<| private_destroy := destroy |>)).

Definition vfs_node_set_read v (node rd data : Z) : option (bool * vfs_t A) :=
  if (node =? 0) || (rd =? 0) then Some (false, v)
  else
    n ← nodes v !! node;
    if negb (read n =? 0) || (negb (private_data n =? 0) && negb (private_data n =? data)) then Some (false, v)
    else Some (true, put v node (n<| read := rd |><| private_data := data |>)).

Definition vfs_node_set_write v (node wr data : Z) : option (bool * vfs_t A) :=
  if (node =? 0) || (wr =? 0) then Some (false, v)
  else
    n ← nodes v !! node;
    if negb (write n =? 0) || (negb (private_data n =? 0) && negb (private_data n =? data)) then Some (false, v)
    else
      let n := n<| write := wr |> in
      Some (true, put v node (if private_data n =? 0 then n<| private_data := data |> else n)).

Definition vfs_node_set_truncate v (node tr : Z) : option (bool * vfs_t A) :=
  if (node =? 0) || (tr =? 0) then Some (false, v)
  else
    n ← nodes v !! node;
    if negb (truncate n =? 0) then Some (false, v)
    else Some (true, put v node (n<| truncate := tr |>)).

Definition try_destroy v (node : Z) : option (vfs_t A) :=
  if node =? 0 then Some v
  else
    n ← nodes v !! node;
    if destroying n || negb (references n =? 0) || negb (child_count n =? 0) then Some v
    else
      let v := put v node (n<| destroying := true |><| private_destroy := 0 |><| private_data := 0 |>) in
      let v := if private_destroy n =? 0 then v
               else v<| calls := (private_destroy n, private_data n) :: calls v |> in
      Some (v<| nodes := delete node (nodes v) |><| heap := kfree (heap v) node |>).

(** The part of [vfs_node_release] that holds the lock: whether [try_destroy] follows. *)
Definition drop_reference v (node : Z) : option (bool * vfs_t A) :=
  n ← nodes v !! node;
  if destroying n || (references n =? 0) then Some (false, v)
  else Some (true, put v node (n<| references := references n - 1 |>)).

Definition vfs_node_release v (node : Z) : option (vfs_t A) :=
  if node =? 0 then Some v
  else
    '(dropped, v) ← drop_reference v node;
    if negb dropped then Some v else try_destroy v node.

(** The first node of the list that starts with [existing], other than [skip], that has
    the given name, or null. *)
Fixpoint find_named (fuel : nat) v (existing skip : Z) (nm : list Z) : option Z :=
  match fuel with
  | O => None
  | S fuel =>
    if existing =? 0 then Some 0
    else
      n ← nodes v !! existing;
      if negb (existing =? skip) && string_equal (name n) nm then Some existing
      else find_named fuel v (next_sibling n) skip nm
  end.

Fixpoint is_ancestor (fuel : nat) v (ancestor child : Z) : option bool :=
  match fuel with
  | O => None
  | S fuel =>
    if ancestor =? 0 then Some false
    else if ancestor =? child then Some true
    else n ← nodes v !! ancestor; is_ancestor fuel v (parent n) child
  end.

Definition vfs_node_add_child v (p c : Z) : option (bool * vfs_t A) :=
  if (p =? 0) || (c =? 0) || (p =? c) then Some (false, v)
  else
    pn ← nodes v !! p;
    cn ← nodes v !! c;
    if negb (type pn =? VFS_NODE_DIRECTORY) || (string_length (Some (name cn)) =? 0) then Some (false, v)
    else if negb (parent cn =? 0) || destroying cn || (references cn =? 0) || (references cn =? U32_MAX)
    then Some (false, v)
    else
      cyclic ← is_ancestor (bound v) v p c;
      if (cyclic : bool) then Some (false, v)
      else
        existing ← find_named (bound v) v (first_child pn) 0 (name cn);
        if negb (existing =? 0) then Some (false, v)
        else
          let v := put v c (cn<| parent := p |><| next_sibling := first_child pn |>
                              <| references := u32 (references cn + 1) |>) in
          Some (true, put v p (pn<| first_child := c |><| child_count := u32 (child_count pn + 1) |>)).

Definition vfs_node_lookup v (p : Z) (nm : option (list Z)) : option (Z * vfs_t A) :=
  match nm with
  | None => Some (0, v)
  | Some nm =>
    if p =? 0 then Some (0, v)
    else
      pn ← nodes v !! p;
      if negb (type pn =? VFS_NODE_DIRECTORY) then Some (0, v)
      else
        child ← find_named (bound v) v (first_child pn) 0 nm;
        if child =? 0 then Some (0, v)
        else
          cn ← nodes v !! child;
          if destroying cn || (references cn =? 0) then Some (0, v)
          else
            reference_to v child
  end.

(** The child with the given index among those that are alive, or null. *)
Fixpoint find_index (fuel : nat) v (child current index : Z) : option Z :=
  match fuel with
  | O => None
  | S fuel =>
    if child =? 0 then Some 0
    else
      n ← nodes v !! child;
      if negb (destroying n) && negb (references n =? 0) then
        if current =? index then Some child
        else find_index fuel v (next_sibling n) (u32 (current + 1)) index
      else find_index fuel v (next_sibling n) current index
  end.

Definition vfs_node_child v (p index : Z) : option (Z * vfs_t A) :=
  if p =? 0 then Some (0, v)
  else
    pn ← nodes v !! p;
    if negb (type pn =? VFS_NODE_DIRECTORY) then Some (0, v)
    else
      child ← find_index (bound v) v (first_child pn) 0 index;
      reference_to v child.

(** One component of a path: the next node with a reference, or null. *)
Definition path_step v (root current : Z) (component : list Z) : option (Z * vfs_t A) :=
  if string_equal component [DOT] then
    reference_to v current
  else if string_equal component [DOT; DOT] then parent_reference v root current
  else vfs_node_lookup v current (Some component).

(** The loop over the components of a path.  [check] is the context to check the
    permission to search against, if there is a check. *)
Fixpoint walk (fuel : nat) v (check : option security_context_t) (root current : Z) (path : list Z) :
    option (Z * vfs_t A) :=
  match fuel with
  | O => None
  | S fuel =>
    match skip_slashes path with
    | [] => Some (current, v)
    | path =>
      allowed ← match check with
                | None => Some true
                | Some context => vfs_node_access v current (Some context) 1
                end;
      if negb allowed then v ← vfs_node_release v current; Some (0, v)
      else
        match read_component 0 path with
        | None => v ← vfs_node_release v current; Some (0, v)
        | Some (component, rest) =>
          '(next, v) ← path_step v root current component;
          v ← vfs_node_release v current;
          if next =? 0 then Some (0, v) else walk fuel v check root next rest
        end
    end
  end.

Definition vfs_lookup_path v (root : Z) (path : option (list Z)) : option (Z * vfs_t A) :=
  match path with
  | Some (c :: path) =>
    if (root =? 0) || negb (c =? SLASH) then Some (0, v)
    else
      '(ok, v) ← vfs_node_retain v root;
      if negb ok then Some (0, v) else walk (S (length path)) v None root root path
  | _ => Some (0, v)
  end.

Definition vfs_lookup_path_at v (root working : Z) (path : option (list Z)) : option (Z * vfs_t A) :=
  match path with
  | Some (c :: rest) =>
    if (root =? 0) || (working =? 0) then Some (0, v)
    else
      rn ← nodes v !! root;
      wn ← nodes v !! working;
      if negb (type rn =? VFS_NODE_DIRECTORY) || negb (type wn =? VFS_NODE_DIRECTORY) then Some (0, v)
      else if c =? SLASH then vfs_lookup_path v root path
      else
        '(ok, v) ← vfs_node_retain v working;
        if negb ok then Some (0, v) else walk (S (length (c :: rest))) v None root working (c :: rest)
  | _ => Some (0, v)
  end.

Definition vfs_lookup_path_at_access v (root working : Z) (path : option (list Z))
    (context : option security_context_t) : option (Z * vfs_t A) :=
  match path, context with
  | Some (c :: rest), Some context =>
    if (root =? 0) || (working =? 0) then Some (0, v)
    else
      rn ← nodes v !! root;
      wn ← nodes v !! working;
      if negb (type rn =? VFS_NODE_DIRECTORY) || negb (type wn =? VFS_NODE_DIRECTORY) then Some (0, v)
      else
        let current := if c =? SLASH then root else working in
        '(ok, v) ← vfs_node_retain v current;
        if negb ok then Some (0, v)
        else
          let path := if c =? SLASH then rest else c :: rest in
          walk (S (length path)) v (Some context) root current path
  | _, _ => Some (0, v)
  end.

(** [while ( *link && *link != child) link = &( *link)->next_sibling;]  A link is the node
    whose field [next_sibling] it is, or 0 for the field [first_child] of the directory;
    the result is the link and what it points to. *)
Fixpoint find_link (fuel : nat) v (link target child : Z) : option (Z * Z) :=
  match fuel with
  | O => None
  | S fuel =>
    if (target =? 0) || (target =? child) then Some (link, target)
    else n ← nodes v !! target; find_link fuel v target (next_sibling n) child
  end.

Definition set_link v (p link value : Z) : option (vfs_t A) :=
  if link =? 0 then n ← nodes v !! p; Some (put v p (n<| first_child := value |>))
  else n ← nodes v !! link; Some (put v link (n<| next_sibling := value |>)).

Definition vfs_node_remove v (p c : Z) : option (bool * vfs_t A) :=
  if (p =? 0) || (c =? 0) || (p =? c) then Some (false, v)
  else
    pn ← nodes v !! p;
    cn ← nodes v !! c;
    if negb (type pn =? VFS_NODE_DIRECTORY) || negb (parent cn =? p) || negb (child_count cn =? 0)
    then Some (false, v)
    else
      '(link, target) ← find_link (bound v) v 0 (first_child pn) c;
      if target =? 0 then Some (false, v)
      else
        v ← set_link v p link (next_sibling cn);
        cn ← nodes v !! c;
        let v := put v c (cn<| next_sibling := 0 |><| parent := 0 |>) in
        pn ← nodes v !! p;
        let v := put v p (pn<| child_count := u32 (child_count pn - 1) |>) in
        v ← vfs_node_release v c;
        v ← try_destroy v p;
        Some (true, v).

(** The names that [vfs_node_rename] and [vfs_node_move] refuse. *)
Definition bad_name (nm : list Z) : bool :=
  let length := string_length (Some nm) in
  (length =? 0) || (NAME_SIZE <=? length)
  || ((length =? 1) && (nm.[0] =? DOT))
  || ((length =? 2) && (nm.[0] =? DOT) && (nm.[1] =? DOT)).

Definition vfs_node_rename v (p c : Z) (nm : option (list Z)) : option (bool * vfs_t A) :=
  match nm with
  | None => Some (false, v)
  | Some nm =>
    if (p =? 0) || (c =? 0) || (p =? c) then Some (false, v)
    else
      pn ← nodes v !! p;
      if negb (type pn =? VFS_NODE_DIRECTORY) || bad_name nm then Some (false, v)
      else
        cn ← nodes v !! c;
        if negb (parent cn =? p) || destroying cn || (references cn =? 0) then Some (false, v)
        else
          existing ← find_named (bound v) v (first_child pn) c nm;
          if negb (existing =? 0) then Some (false, v)
          else Some (true, put v c (cn<| name := nm |>))
  end.

Definition vfs_node_move v (old_parent new_parent c : Z) (nm : option (list Z)) : option (bool * vfs_t A) :=
  match nm with
  | None => Some (false, v)
  | Some nm =>
    if (old_parent =? 0) || (new_parent =? 0) || (c =? 0) || (old_parent =? new_parent) || (old_parent =? c)
       || (new_parent =? c) then Some (false, v)
    else
      on ← nodes v !! old_parent;
      nn ← nodes v !! new_parent;
      cn ← nodes v !! c;
      if negb (type on =? VFS_NODE_DIRECTORY) || negb (type nn =? VFS_NODE_DIRECTORY)
         || negb (type cn =? VFS_NODE_REGULAR) || bad_name nm then Some (false, v)
      else if negb (parent cn =? old_parent) || destroying cn || (references cn =? 0) then Some (false, v)
      else
        existing ← find_named (bound v) v (first_child nn) c nm;
        if negb (existing =? 0) then Some (false, v)
        else
          '(link, target) ← find_link (bound v) v 0 (first_child on) c;
          if target =? 0 then Some (false, v)
          else
            v ← set_link v old_parent link (next_sibling cn);
            cn ← nodes v !! c;
            let v := put v c (cn<| next_sibling := first_child nn |><| parent := new_parent |><| name := nm |>) in
            nn ← nodes v !! new_parent;
            let v := put v new_parent (nn<| first_child := c |><| child_count := u32 (child_count nn + 1) |>) in
            on ← nodes v !! old_parent;
            let v := put v old_parent (on<| child_count := u32 (child_count on - 1) |>) in
            v ← try_destroy v old_parent;
            v ← try_destroy v new_parent;
            Some (true, v)
  end.

(** ** Contents of files *)

Context {W : Type} `{FileOperations W}.

(** [None] for the buffer is the null pointer. *)
Definition vfs_node_read v (w : W) (node offset : Z) (buffer : bool) (sz : Z) : option (Z * list Z * W) :=
  if (node =? 0) || negb buffer || (sz =? 0) then Some (0, [], w)
  else
    n ← nodes v !! node;
    Some (if read n =? 0 then (0, [], w) else call_read w (read n) node offset sz).

Definition vfs_node_write v (w : W) (node offset : Z) (buffer : option (list Z)) : option (Z * W) :=
  match buffer with
  | None => Some (0, w)
  | Some bytes =>
    if (node =? 0) || (zlen bytes =? 0) then Some (0, w)
    else
      n ← nodes v !! node;
      Some (if write n =? 0 then (0, w) else call_write w (write n) node offset bytes)
  end.

Definition vfs_node_truncate v (w : W) (node sz : Z) : option (Z * W) :=
  if node =? 0 then Some (0, w)
  else
    n ← nodes v !! node;
    if negb (type n =? VFS_NODE_REGULAR) then Some (0, w)
    else Some (if truncate n =? 0 then (0, w) else call_truncate w (truncate n) node sz).

End vfs.

(** ** Lists of nodes *)

(** The list [l] starts with [p] and is linked through the field [f]. *)
Fixpoint linked (f : vfs_node_t -> Z) (m : gmap Z vfs_node_t) (p : Z) (l : list Z) : Prop :=
  match l with
  | [] => p = 0
  | q :: l => p = q /\ q <> 0 /\ exists n, m !! q = Some n /\ linked f m (f n) l
  end.

Lemma linked_fun f m p l l' : linked f m p l -> linked f m p l' -> l = l'.
Proof.
  revert p l'. induction l as [|q l IH]; intros p [|q' l'] Hl Hl'; try done.
  - destruct Hl' as (-> & ? & _). done.
  - destruct Hl as (-> & ? & _). done.
  - destruct Hl as (-> & _ & n & Hn & Hl), Hl' as (<- & _ & n' & Hn' & Hl'). simplify_eq. f_equal. by eapply IH.
Qed.

Lemma linked_app f m p l1 q l2 : linked f m p (l1 ++ q :: l2) -> linked f m q (q :: l2).
Proof.
  revert p. induction l1 as [|x l1 IH]; intros p; simpl; [by intros (-> & H)|].
  intros (_ & _ & n & _ & Hl). by eapply IH.
Qed.

Lemma linked_in f m p l x : linked f m p l -> x ∈ l -> x <> 0 /\ exists n, m !! x = Some n.
Proof.
  intros Hl (l1 & l2 & ->)%list_elem_of_split. apply linked_app in Hl as (_ & Hx & n & Hn & _). eauto.
Qed.

Lemma linked_nodup f m p l : linked f m p l -> NoDup l.
Proof.
  revert p. induction l as [|q l IH]; intros p Hl; [constructor|].
  pose proof Hl as (-> & _ & n & Hn & Hl'). constructor; [|by eapply IH].
  intros (l1 & l2 & ->)%list_elem_of_split. pose proof (linked_app _ _ _ _ _ _ Hl') as Hq.
  pose proof (linked_fun _ _ _ _ _ Hl Hq) as E. apply (f_equal length) in E. revert E. len.
Qed.

Lemma linked_length f m p l : linked f m p l -> (length l <= size m)%nat.
Proof.
  intros Hl. rewrite <- (size_list_to_set (C := gset Z) l) by (by eapply linked_nodup).
  rewrite <- (size_dom (D := gset Z)). apply subseteq_size. intros x Hx%elem_of_list_to_set.
  apply elem_of_dom. destruct (linked_in _ _ _ _ _ Hl Hx) as [_ [n Hn]]. by exists n.
Qed.

(** Only the field [f] of the nodes of the list matters. *)
Lemma linked_ext f m m' p l :
  (forall x n, x ∈ l -> m !! x = Some n -> exists n', m' !! x = Some n' /\ f n' = f n) ->
  linked f m p l -> linked f m' p l.
Proof.
  revert p. induction l as [|q l IH]; intros p Hm; simpl; [done|]. intros (-> & Hq & n & Hn & Hl).
  split; [done|]. split; [done|]. destruct (Hm q n) as (n' & Hn' & E); [by left|done|].
  exists n'. split; [done|]. rewrite E. apply IH; [|done]. intros x k Hx. apply Hm. by right.
Qed.

Lemma string_equal_spec l r : string_equal l r = bool_decide (l = r).
Proof.
  revert r. induction l as [|x l IH]; intros [|y r]; try done. cbn [string_equal]. rewrite IH.
  destruct (x =? y) eqn:E; cbn [negb].
  - apply Z.eqb_eq in E as ->. apply bool_decide_ext. naive_solver.
  - symmetry. apply bool_decide_eq_false. intros [= -> _]. lia.
Qed.

(** ** Paths *)

(** The pieces of a path between slashes, and the components, which are not empty. *)
Fixpoint pieces (path : list Z) : list (list Z) :=
  match path with
  | [] => [[]]
  | c :: rest =>
    if c =? SLASH then [] :: pieces rest
    else match pieces rest with w :: ws => (c :: w) :: ws | [] => [[c]] end
  end.

Definition components (path : list Z) : list (list Z) := filter (fun w => w <> []) (pieces path).

Lemma components_slash path : components (SLASH :: path) = components path.
Proof. unfold components. cbn [pieces]. rewrite Z.eqb_refl. apply filter_cons_False. intros Hne. by apply Hne. Qed.

Lemma components_skip path : components (skip_slashes path) = components path.
Proof.
  induction path as [|c path IH]; [done|]. cbn [skip_slashes]. destruct (c =? SLASH) eqn:E; [|done].
  apply Z.eqb_eq in E as ->. by rewrite IH, components_slash.
Qed.

Lemma skip_length path : (length (skip_slashes path) <= length path)%nat.
Proof. induction path as [|c path IH]; [done|]. cbn [skip_slashes]. destruct (c =? SLASH); simpl; lia. Qed.

Lemma skip_head path c rest : skip_slashes path = c :: rest -> c <> SLASH.
Proof. induction path as [|d path IH]; [done|]. cbn [skip_slashes]. destruct (d =? SLASH) eqn:E; [done|]. intros [= -> ->]. lia. Qed.

(** Reading a component takes the next piece of the path. *)
Lemma read_component_spec k path :
  0 <= k < NAME_SIZE ->
  exists w ws rest, pieces path = w :: ws /\ filter (fun w => w <> []) ws = components rest /\
    (length rest + length w <= length path)%nat /\
    read_component k path = if k + zlen w <? NAME_SIZE then Some (w, rest) else None.
Proof.
  revert k. induction path as [|c path IH]; intros k Hk; cbn [pieces read_component].
  { exists [], [], []. split_and!; try done. rewrite (proj2 (Z.ltb_lt _ _)); [done|unfold zlen; simpl; lia]. }
  destruct (c =? SLASH) eqn:E.
  - apply Z.eqb_eq in E as ->. exists [], (pieces path), (SLASH :: path). rewrite components_slash.
    split_and!; try done; [simpl; lia|]. rewrite (proj2 (Z.ltb_lt _ _)); [done|unfold zlen; simpl; lia].
  - destruct (NAME_SIZE <=? k + 1) eqn:Ek.
    + destruct (IH 0) as (w & ws & rest & Hw & Hws & Hlen & _); [unfold NAME_SIZE; lia|]. rewrite Hw.
      exists (c :: w), ws, rest. split_and!; try done; [simpl; lia|]. unfold zlen. rewrite length_cons.
      by replace (k + _ <? NAME_SIZE) with false by lia.
    + destruct (IH (k + 1)) as (w & ws & rest & Hw & Hws & Hlen & Hread); [lia|]. rewrite Hw, Hread.
      exists (c :: w), ws, rest. split_and!; try done; [simpl; lia|]. unfold zlen. rewrite length_cons.
      replace (k + Z.of_nat (S (length w))) with (k + 1 + Z.of_nat (length w)) by lia. by destruct (_ <? NAME_SIZE).
Qed.

(** One turn of the loop over a path. *)
Lemma next_component path c rest :
  skip_slashes path = c :: rest ->
  exists w path', components path = w :: components path' /\ (length path' < length path)%nat /\
    read_component 0 (c :: rest) = if zlen w <? NAME_SIZE then Some (w, path') else None.
Proof.
  intros Hs. destruct (read_component_spec 0 (c :: rest)) as (w & ws & rest' & Hw & Hws & Hlen & Hread); [unfold NAME_SIZE; lia|].
  pose proof (skip_head _ _ _ Hs) as Hc. cbn [pieces] in Hw. replace (c =? SLASH) with false in Hw by lia.
  assert (w <> []) as Hne by (destruct (pieces rest); by injection Hw as <- _).
  exists w, rest'. split_and!; [|pose proof (skip_length path); rewrite Hs in *; destruct w; [done|simpl in *; lia]|exact Hread].
  rewrite <- components_skip, Hs. unfold components at 1. cbn [pieces]. replace (c =? SLASH) with false by lia.
  rewrite Hw, filter_cons_True by done. by rewrite Hws.
Qed.

(** ** The tree *)

Definition attached (n : vfs_node_t) : Z := if parent n =? 0 then 0 else 1.

Section ok.
Context {A : Type} `{AllocatorLaws A}.

Implicit Types (v : vfs_t A) (held : Z -> Z) (kids : Z -> list Z).

(** [held p] is the number of references to [p] that clients hold, and [kids p] are the
    children of [p].  A node in [pending] may be waiting for its destruction. *)
Record node_ok v held kids (pending : list Z) (p : Z) (n : vfs_node_t) : Prop := {
  node_nonnull : p <> 0;
  node_alive : destroying n = false;
  node_references : references n = held p + attached n;
  node_max : references n <= U32_MAX;
  node_count : child_count n = zlen (kids p);
  node_kids : linked next_sibling (nodes v) (first_child n) (kids p);
  node_used : references n = 0 -> p ∉ pending -> kids p <> [];
  node_directory : kids p <> [] -> type n = VFS_NODE_DIRECTORY;
  node_name : 0 < zlen (name n) < NAME_SIZE;
  node_parent : parent n <> 0 -> p ∈ kids (parent n);
  node_rooted : exists l, linked parent (nodes v) p l;
}.

Record vfs_ok_but (pending : list Z) v held kids : Prop := {
  ok_node p n : nodes v !! p = Some n -> node_ok v held kids pending p n;
  ok_held p : 0 <= held p;
  ok_gone p : nodes v !! p = None -> held p = 0 /\ kids p = [];
  ok_kid p c : c ∈ kids p -> exists n, nodes v !! c = Some n /\ parent n = p;
  ok_names p c d cn dn :
    c ∈ kids p -> d ∈ kids p -> nodes v !! c = Some cn -> nodes v !! d = Some dn -> name cn = name dn -> c = d;
  ok_heap : exists m, owns (heap v) m /\ forall p, nodes v !! p <> None -> m !! p <> None;
}.
Abbreviation vfs_ok := (vfs_ok_but []).

Lemma ok_size pending v held kids : vfs_ok_but pending v held kids -> Z.of_nat (size (nodes v)) <= U32_MAX.
Proof.
  intros Hok. destruct (ok_heap _ _ _ _ Hok) as (m & Hm & Hn). pose proof (owns_size _ _ Hm) as Hs.
  enough (size (nodes v) <= size m)%nat by lia.
  rewrite <- !(size_dom (D := gset Z)). apply subseteq_size. intros p Hp%elem_of_dom. apply elem_of_dom.
  apply not_eq_None_Some, Hn, not_eq_None_Some, Hp.
Qed.

Lemma held_exists pending v held kids p :
  vfs_ok_but pending v held kids -> 0 < held p -> exists n, nodes v !! p = Some n /\ 0 < references n.
Proof.
  intros Hok Hp. destruct (nodes v !! p) as [n|] eqn:E.
  - exists n. split; [done|]. rewrite (node_references _ _ _ _ _ _ (ok_node _ _ _ _ Hok _ _ E)).
    unfold attached. destruct (parent n =? 0); lia.
  - apply (ok_gone _ _ _ _ Hok) in E as [E _]. lia.
Qed.

(** ** Searches *)

Lemma find_named_spec fuel v p skip nm l :
  linked next_sibling (nodes v) p l -> (length l < fuel)%nat ->
  exists r, find_named fuel v p skip nm = Some r /\
    ((r = 0 /\ forall c n, c ∈ l -> c <> skip -> nodes v !! c = Some n -> name n <> nm) \/
     (r <> 0 /\ r ∈ l /\ r <> skip /\ exists n, nodes v !! r = Some n /\ name n = nm)).
Proof.
  revert p l. induction fuel as [|fuel IH]; intros p l Hl Hf; [lia|]. cbn [find_named]. destruct l as [|q l].
  - simpl in Hl. subst p. exists 0. split; [done|]. left. split; [done|]. by intros c n Hc%elem_of_nil.
  - destruct Hl as (-> & Hq & n & Hn & Hl). replace (q =? 0) with false by lia. rewrite Hn. cbn [mbind option_bind].
    rewrite string_equal_spec. destruct (negb (q =? skip) && bool_decide (name n = nm)) eqn:E.
    + apply andb_prop in E as [E1 E2%bool_decide_eq_true]. exists q. split; [done|]. right.
      split_and!; [done|by left|lia|by exists n].
    + destruct (IH _ _ Hl) as (r & -> & Hr); [simpl in Hf; lia|]. exists r. split; [done|].
      destruct Hr as [[-> Hno]|(? & ? & ? & ?)]; [left|right].
      * split; [done|]. intros c k [->|Hc]%elem_of_cons Hs Hk; [|by eapply Hno].
        simplify_eq. apply andb_false_iff in E as [E|E%bool_decide_eq_false]; [lia|done].
      * split_and!; [done|by right|done|done].
Qed.

Lemma is_ancestor_spec fuel v p c l :
  linked parent (nodes v) p l -> (length l < fuel)%nat -> c <> 0 ->
  is_ancestor fuel v p c = Some (bool_decide (c ∈ l)).
Proof.
  revert p l. induction fuel as [|fuel IH]; intros p l Hl Hf Hc; [lia|]. cbn [is_ancestor]. destruct l as [|q l].
  - simpl in Hl. by subst p.
  - destruct Hl as (-> & Hq & n & Hn & Hl). replace (q =? 0) with false by lia. destruct (q =? c) eqn:E.
    + apply Z.eqb_eq in E as ->. rewrite bool_decide_eq_true_2; [done|by left].
    + rewrite Hn. cbn [mbind option_bind]. rewrite (IH _ _ Hl); [|simpl in Hf; lia|done]. f_equal.
      apply bool_decide_ext. rewrite elem_of_cons. assert (c <> q) by lia. naive_solver.
Qed.

(** The link to [c] is the field of the node in front of it. *)
Definition link_of (l1 : list Z) : Z := default 0 (last l1).

Lemma find_link_spec fuel v link p c l1 l2 :
  linked next_sibling (nodes v) p (l1 ++ c :: l2) -> (length (l1 ++ c :: l2) < fuel)%nat ->
  find_link fuel v link p c = Some (default link (last l1), c).
Proof.
  revert link p l1. induction fuel as [|fuel IH]; intros link p l1 Hl Hf; [lia|]. cbn [find_link].
  destruct l1 as [|q l1]; pose proof Hl as (-> & Hq & n & Hn & Hl').
  - by rewrite Z.eqb_refl, orb_true_r.
  - pose proof (linked_nodup _ _ _ _ Hl) as Hd. simpl in Hd. apply NoDup_cons in Hd as [Hd _].
    replace (q =? 0) with false by lia. replace (q =? c) with false.
    2:{ symmetry. apply Z.eqb_neq. intros ->. apply Hd. set_solver. }
    cbn [orb]. rewrite Hn. cbn [mbind option_bind]. rewrite (IH q _ l1); [|done|simpl in Hf; lia].
    rewrite last_cons. by destruct (last l1).
Qed.

(** ** Changes of single nodes *)

Lemma no_kids_of_null pending v held kids : vfs_ok_but pending v held kids -> kids 0 = [].
Proof.
  intros Hok. destruct (nodes v !! 0) as [n|] eqn:E.
  - by destruct (node_nonnull _ _ _ _ _ _ (ok_node _ _ _ _ Hok _ _ E)).
  - by apply (ok_gone _ _ _ _ Hok).
Qed.

Lemma kid_parent pending v held kids p c n :
  vfs_ok_but pending v held kids -> c ∈ kids p -> nodes v !! c = Some n -> parent n = p /\ p <> 0.
Proof.
  intros Hok Hc Hn. destruct (ok_kid _ _ _ _ Hok _ _ Hc) as (n' & Hn' & Ep). assert (n' = n) as -> by congruence. split; [done|].
  intros E. rewrite E in Hc. rewrite (no_kids_of_null _ _ _ _ Hok) in Hc. by apply elem_of_nil in Hc.
Qed.

Lemma not_own_kid pending v held kids p : vfs_ok_but pending v held kids -> p ∉ kids p.
Proof.
  intros Hok Hp. destruct (ok_kid _ _ _ _ Hok _ _ Hp) as (n & Hn & E).
  destruct (node_rooted _ _ _ _ _ _ (ok_node _ _ _ _ Hok _ _ Hn)) as [l Hl].
  destruct l as [|q l]; [simpl in Hl; subst p; by destruct (kid_parent _ _ _ _ _ _ _ Hok Hp Hn)|].
  pose proof Hl as (-> & _ & n' & Hn' & Hl'). assert (n' = n) as -> by congruence. rewrite E in Hl'.
  pose proof (f_equal length (linked_fun _ _ _ _ _ Hl Hl')) as Hlen. simpl in Hlen. lia.
Qed.

Lemma linked_put f m p n n' q l :
  m !! p = Some n -> f n' = f n -> linked f m q l -> linked f (<[p := n']> m) q l.
Proof.
  intros Hn E. apply linked_ext. intros x k Hx Hk. destruct (decide (x = p)) as [->|Hne].
  - exists n'. rewrite lookup_insert_eq. split; [done|]. by simplify_eq.
  - exists k. by rewrite lookup_insert_ne.
Qed.

(** Two nodes that stand at the same place of the tree. *)
Record same_place (n n' : vfs_node_t) : Prop := {
  same_parent : parent n' = parent n;
  same_first : first_child n' = first_child n;
  same_next : next_sibling n' = next_sibling n;
  same_count : child_count n' = child_count n;
  same_type : type n' = type n;
  same_alive : destroying n' = destroying n;
}.

Lemma ok_update pending pending' v held kids p n n' h :
  vfs_ok_but pending v held kids -> nodes v !! p = Some n -> same_place n n' -> pending ⊆ pending' ->
  0 <= h -> references n' = h + attached n' -> references n' <= U32_MAX ->
  (references n' = 0 -> p ∈ pending' \/ kids p <> []) ->
  0 < zlen (name n') < NAME_SIZE ->
  (forall q d dn, p ∈ kids q -> d ∈ kids q -> d <> p -> nodes v !! d = Some dn -> name dn <> name n') ->
  vfs_ok_but pending' (put v p n') (fupd held p h) kids.
Proof.
  intros Hok Hn [E1 E2 E3 E4 E5 E6] Hsub Hh Hr Hmax Hused Hname Hnames.
  assert (forall x k, nodes (put v p n') !! x = Some k ->
          (x = p /\ k = n') \/ (x <> p /\ nodes v !! x = Some k)) as Hx.
  { intros x k Hk. cbn [nodes put set_field] in Hk. apply lookup_insert_Some in Hk. naive_solver. }
  pose proof (ok_node _ _ _ _ Hok) as Hnode. split.
  - intros x k Hk. destruct (Hx _ _ Hk) as [[-> ->]|[Hne Hk']].
    + destruct (Hnode _ _ Hn) as []. split; cbn [nodes put set_field]; rewrite ?fupd_eq; try congruence; try done.
      * rewrite E2. by apply (linked_put _ _ _ n).
      * intros Hz Hp. by destruct (Hused Hz).
      * intros Hk0. rewrite E5. by apply node_directory0.
      * rewrite E1. exact node_parent0.
      * destruct node_rooted0 as [l Hl]. exists l. by apply (linked_put _ _ _ n).
    + destruct (Hnode _ _ Hk') as []. split; cbn [nodes put set_field]; rewrite ?fupd_ne by done; try done.
      * by apply (linked_put _ _ _ n).
      * intros Hz Hp. apply node_used0; [done|]. intros Hin. by apply Hp, Hsub.
      * destruct node_rooted0 as [l Hl]. exists l. by apply (linked_put _ _ _ n).
  - intros x. unfold fupd. destruct (x =? p); [done|]. apply Hok.
  - intros x Hk. cbn [nodes put set_field] in Hk. apply lookup_insert_None in Hk as [Hk Hne].
    rewrite fupd_ne by done. by apply (ok_gone _ _ _ _ Hok).
  - intros q c Hc. destruct (ok_kid _ _ _ _ Hok _ _ Hc) as (k & Hk & Hq). cbn [nodes put set_field].
    destruct (decide (c = p)) as [->|Hne].
    + exists n'. rewrite lookup_insert_eq. split; [done|]. simplify_eq. done.
    + exists k. by rewrite lookup_insert_ne.
  - intros q c d cn dn Hc Hd Hcn Hdn E. destruct (Hx _ _ Hcn) as [[-> ->]|[? Hcn']], (Hx _ _ Hdn) as [[-> ->]|[? Hdn']].
    + done.
    + by destruct (Hnames q d dn).
    + by destruct (Hnames q c cn).
    + by apply (ok_names _ _ _ _ Hok q c d cn dn).
  - destruct (ok_heap _ _ _ _ Hok) as (m & Hm & Hin). exists m. split; [done|]. intros x Hk.
    apply Hin. cbn [nodes put set_field] in Hk. destruct (decide (x = p)) as [->|]; [by rewrite Hn|].
    by rewrite lookup_insert_ne in Hk.
Qed.

(** A change of other fields than those of the tree. *)
Corollary ok_touch pending v held kids p n n' h :
  vfs_ok_but pending v held kids -> nodes v !! p = Some n -> same_place n n' -> name n' = name n ->
  0 < h -> references n' = h + attached n' -> references n' <= U32_MAX ->
  vfs_ok_but pending (put v p n') (fupd held p h) kids.
Proof.
  intros Hok Hn Hsame Hname Hh Hr Hmax. destruct (ok_node _ _ _ _ Hok _ _ Hn) as [].
  apply (ok_update pending _ v held kids p n); try done; try lia.
  - intros Hz. unfold attached in Hr. destruct (parent n' =? 0); lia.
  - by rewrite Hname.
  - intros q d dn Hp Hd Hne Hdn E. rewrite Hname in E. by apply Hne, (ok_names _ _ _ _ Hok q d p dn n).
Qed.

Lemma fupd_same {B} (f : Z -> B) p x : fupd f p (f p) x = f x.
Proof. unfold fupd. destruct (x =? p) eqn:E; [|done]. by apply Z.eqb_eq in E as ->. Qed.

(** The invariant depends only on the values of [held] and [kids]. *)
Lemma ok_ext pending v held held' kids kids' :
  (forall x, held' x = held x) -> (forall x, kids' x = kids x) ->
  vfs_ok_but pending v held kids -> vfs_ok_but pending v held' kids'.
Proof.
  intros Eh Ek []. split; intros *; rewrite ?Eh, ?Ek; eauto.
  intros Hn. destruct (ok_node0 _ _ Hn). split; rewrite ?Eh, ?Ek; eauto.
Qed.

(** ** Destruction *)

(** A node without parent and children is in no list. *)
Lemma linked_without f m p q l :
  linked f m q l -> q <> p -> (forall x n, m !! x = Some n -> f n <> p) -> p ∉ l.
Proof.
  revert q. induction l as [|x l IH]; intros q Hl Hq Hno; [apply not_elem_of_nil|].
  destruct Hl as (-> & _ & n & Hn & Hl). apply not_elem_of_cons. split; [done|]. eapply IH; eauto.
Qed.

Lemma linked_delete f m p q l : linked f m q l -> p ∉ l -> linked f (delete p m) q l.
Proof.
  intros Hl Hp. eapply linked_ext; [|done]. intros x n Hx Hn. exists n. split; [|done].
  rewrite lookup_delete_ne; [done|]. by intros ->.
Qed.

Lemma ok_destroy pending v held kids p n cs :
  vfs_ok_but (p :: pending) v held kids -> nodes v !! p = Some n -> references n = 0 -> child_count n = 0 ->
  vfs_ok_but pending (Vfs (delete p (nodes v)) (kfree (heap v) p) cs) held kids.
Proof.
  intros Hok Hn Hr Hc. pose proof (ok_node _ _ _ _ Hok) as Hnode. destruct (Hnode _ _ Hn) as [].
  pose proof (ok_held _ _ _ _ Hok p). assert (held p = 0 /\ attached n = 0) as [Hh Ha].
  { unfold attached in *. destruct (parent n =? 0); lia. }
  assert (kids p = []) as Hk by (rewrite node_count0 in Hc; destruct (kids p); [done|unfold zlen in Hc; simpl in Hc; lia]).
  assert (forall q, p ∉ kids q) as Hnot.
  { intros q Hq. destruct (kid_parent _ _ _ _ _ _ _ Hok Hq Hn) as [E ?]. unfold attached in Ha.
    destruct (parent n =? 0) eqn:Ep; lia. }
  split; cbn [nodes heap].
  - intros x k [Hne Hx]%lookup_delete_Some. destruct (Hnode _ _ Hx) as []. split; cbn [nodes]; try done.
    + by apply linked_delete.
    + intros Hz Hp. apply node_used1; [done|]. intros [?|?]%elem_of_cons; done.
    + destruct node_rooted1 as [l Hl]. exists l. apply linked_delete; [done|].
      eapply linked_without; [done..|]. intros y yn Hy E. pose proof (node_parent _ _ _ _ _ _ (Hnode _ _ Hy)) as Hp.
      rewrite E, Hk in Hp. by destruct (not_elem_of_nil y (Hp node_nonnull0)).
  - apply Hok.
  - intros x [->|Hx]%lookup_delete_None; [done|]. by apply (ok_gone _ _ _ _ Hok).
  - intros q c Hq. destruct (ok_kid _ _ _ _ Hok _ _ Hq) as (k & Hk' & E). exists k. split; [|done].
    rewrite lookup_delete_ne; [done|]. intros <-. by destruct (Hnot q).
  - intros q c d cn dn Hq Hd [_ Hcn]%lookup_delete_Some [_ Hdn]%lookup_delete_Some. by apply (ok_names _ _ _ _ Hok q).
  - destruct (ok_heap _ _ _ _ Hok) as (m & Hm & Hin). exists (delete p m). split.
    + apply kfree_owns; [done|]. apply Hin. by rewrite Hn.
    + intros x Hx. destruct (decide (x = p)) as [->|Hne]; [by rewrite lookup_delete_eq in Hx|].
      rewrite lookup_delete_ne in Hx by done. rewrite lookup_delete_ne by done. by apply Hin.
Qed.

Lemma ok_settled pending v held kids p n :
  vfs_ok_but (p :: pending) v held kids -> nodes v !! p = Some n -> references n <> 0 \/ child_count n <> 0 ->
  vfs_ok_but pending v held kids.
Proof.
  intros Hok Hn Hr. destruct Hok. split; try done. intros x k Hx. destruct (ok_node0 _ _ Hx). split; try done.
  intros Hz Hp. destruct (decide (x = p)) as [->|Hne].
  - simplify_eq. destruct Hr as [|Hr]; [done|]. rewrite node_count0 in Hr. by destruct (kids p).
  - apply node_used0; [done|]. by intros [?|?]%elem_of_cons.
Qed.

(** What [try_destroy] does to the nodes. *)
Definition destroyed v v' (p : Z) : Prop :=
  v' = v \/ (nodes v' = delete p (nodes v) /\ exists n, nodes v !! p = Some n /\ references n = 0 /\ child_count n = 0).

Lemma try_destroy_ok pending v held kids p :
  vfs_ok_but (p :: pending) v held kids -> nodes v !! p <> None ->
  exists v', try_destroy v p = Some v' /\ vfs_ok_but pending v' held kids /\ destroyed v v' p.
Proof.
  intros Hok Hp. destruct (nodes v !! p) as [n|] eqn:Hn; [|done]. unfold try_destroy.
  destruct (ok_node _ _ _ _ Hok _ _ Hn) as []. replace (p =? 0) with false by lia. rewrite Hn. cbn [mbind option_bind].
  rewrite node_alive0. cbn [orb]. destruct (negb _ || negb _) eqn:E.
  - exists v. split; [done|]. split; [|by left]. eapply ok_settled; [done..|].
    apply orb_prop in E as [E|E]; [left|right]; lia.
  - assert (references n = 0 /\ child_count n = 0) as [Hr Hc] by lia. eexists. split; [done|].
    unfold put. destruct (private_destroy n =? 0); cbn [set_field nodes heap calls];
      rewrite delete_insert_eq; (split; [by eapply ok_destroy|]); right; (split; [done|]); by exists n.
Qed.

(** ** Attaching and detaching *)

(** The changes of a node that is attached to or detached from a directory. *)
Record same_content (n n' : vfs_node_t) : Prop := {
  content_first : first_child n' = first_child n;
  content_count : child_count n' = child_count n;
  content_type : type n' = type n;
  content_alive : destroying n' = destroying n;
}.

Lemma two_lookups (m : gmap Z vfs_node_t) p c pn cn x n :
  p <> c -> <[p := pn]> (<[c := cn]> m) !! x = Some n ->
  (x = p /\ n = pn) \/ (x <> p /\ x = c /\ n = cn) \/ (x <> p /\ x <> c /\ m !! x = Some n).
Proof.
  intros Hpc. destruct (decide (x = p)) as [->|Hp]; [rewrite lookup_insert_eq; naive_solver|].
  rewrite lookup_insert_ne by done. destruct (decide (x = c)) as [->|Hc]; [rewrite lookup_insert_eq; naive_solver|].
  rewrite lookup_insert_ne by done. naive_solver.
Qed.

Lemma two_size (m : gmap Z vfs_node_t) p c pn cn pn' cn' :
  m !! p = Some pn -> m !! c = Some cn -> size (<[p := pn']> (<[c := cn']> m)) = size m.
Proof.
  intros Hp Hc. rewrite map_size_insert_Some, map_size_insert_Some; [done|by eexists|].
  destruct (decide (p = c)) as [->|]; [rewrite lookup_insert_eq|rewrite lookup_insert_ne by done]; by eexists.
Qed.

Section attach.
Context (pending : list Z) v held kids (p c h : Z) (pn cn cn' : vfs_node_t) (l : list Z).
Context (Hok : vfs_ok_but pending v held kids).
Context (Hpn : nodes v !! p = Some pn) (Hcn : nodes v !! c = Some cn) (Hpc : p <> c).
Context (Hdetached : parent cn = 0) (Hdir : type pn = VFS_NODE_DIRECTORY).
Context (Hl : linked parent (nodes v) p l) (Hcl : c ∉ l).
Context (Hnames : forall d dn, d ∈ kids p -> nodes v !! d = Some dn -> name dn <> name cn').
Context (Hparent : parent cn' = p) (Hnext : next_sibling cn' = first_child pn) (Hsame : same_content cn cn').
Context (Href : references cn' = h + 1) (Hh : 0 <= h) (Hmax : references cn' <= U32_MAX).
Context (Hname : 0 < zlen (name cn') < NAME_SIZE).

Let pn' : vfs_node_t := pn<| first_child := c |><| child_count := u32 (child_count pn + 1) |>.
Let m' : gmap Z vfs_node_t := <[p := pn']> (<[c := cn']> (nodes v)).

Lemma attach_new q : c ∉ kids q.
Proof. intros Hq. destruct (kid_parent _ _ _ _ _ _ _ Hok Hq Hcn). congruence. Qed.

Lemma attach_list q k : linked next_sibling (nodes v) q k -> c ∉ k -> linked next_sibling m' q k.
Proof.
  intros Hk Hc. eapply linked_ext; [|exact Hk]. intros x n Hx Hn. unfold m'.
  destruct (decide (x = p)) as [->|Hne].
  - exists pn'. rewrite lookup_insert_eq. split; [done|]. simplify_eq. done.
  - exists n. rewrite lookup_insert_ne, lookup_insert_ne; [done| |done]. by intros ->.
Qed.

Lemma attach_up : linked parent m' p l.
Proof.
  eapply linked_ext; [|exact Hl]. intros x n Hx Hn. unfold m'. destruct (decide (x = p)) as [->|Hne].
  - exists pn'. rewrite lookup_insert_eq. split; [done|]. simplify_eq. done.
  - exists n. rewrite lookup_insert_ne, lookup_insert_ne; [done| |done]. by intros ->.
Qed.

Lemma attach_rooted q k : linked parent (nodes v) q k -> exists k', linked parent m' q k'.
Proof.
  revert q. induction k as [|x k IH]; intros q Hk; [by exists []|]. destruct Hk as (-> & Hx & n & Hn & Hk).
  destruct (IH _ Hk) as [k' Hk']. destruct (decide (x = c)) as [->|Hc].
  - exists (c :: l). split; [done|]. split; [done|]. exists cn'. unfold m'. rewrite lookup_insert_ne, lookup_insert_eq by done.
    split; [done|]. rewrite Hparent. apply attach_up.
  - exists (x :: k'). split; [done|]. split; [done|]. destruct (decide (x = p)) as [->|Hp].
    + exists pn'. unfold m' at 1. rewrite lookup_insert_eq. split; [done|]. simplify_eq. done.
    + exists n. unfold m' at 1. by rewrite !lookup_insert_ne.
Qed.

Lemma attach_kids : linked next_sibling m' c (c :: kids p).
Proof.
  pose proof (ok_node _ _ _ _ Hok) as Hnode. split; [done|]. split; [apply (Hnode _ _ Hcn)|]. exists cn'.
  unfold m' at 1. rewrite lookup_insert_ne, lookup_insert_eq by done. split; [done|]. rewrite Hnext.
  apply attach_list; [apply (Hnode _ _ Hpn)|apply attach_new].
Qed.

Lemma attach_count : u32 (child_count pn + 1) = zlen (c :: kids p).
Proof.
  pose proof (linked_length _ _ _ _ attach_kids) as Hlen. unfold m' in Hlen.
  rewrite (two_size _ _ _ pn cn) in Hlen by done. pose proof (ok_size _ _ _ _ Hok).
  rewrite (node_count _ _ _ _ _ _ (ok_node _ _ _ _ Hok _ _ Hpn)). unfold zlen in *. rewrite length_cons in *.
  rewrite wrap_small; [lia|]. widths. lia.
Qed.

Lemma attach_kid q d : d ∈ kids q -> exists n, m' !! d = Some n /\ parent n = q.
Proof.
  intros Hd. destruct (ok_kid _ _ _ _ Hok _ _ Hd) as (n & Hn & Hq). destruct (decide (d = p)) as [->|Hdp].
  - exists pn'. unfold m'. rewrite lookup_insert_eq. split; [done|]. assert (n = pn) as -> by congruence. done.
  - exists n. unfold m'. rewrite lookup_insert_ne, lookup_insert_ne; [done| |done]. intros Edc. subst d. by destruct (attach_new q).
Qed.

(** The name of a node other than [c] is what it was. *)
Lemma attach_named d dn : d <> c -> m' !! d = Some dn -> exists n, nodes v !! d = Some n /\ name dn = name n.
Proof.
  intros Hd [[-> ->]|[(_ & -> & ->)|(_ & _ & Hx)]]%two_lookups; [by exists pn|done|by exists dn|done].
Qed.

Lemma attach_distinct q d e dn en :
  d ∈ kids q -> e ∈ fupd kids p (c :: kids p) q -> m' !! d = Some dn -> m' !! e = Some en -> name dn = name en -> d = e.
Proof.
  intros Hd He Hdn Hen E. assert (d <> c) as Hdc by (intros Edc; subst d; by destruct (attach_new q)).
  destruct (attach_named _ _ Hdc Hdn) as (dn0 & Hdn0 & Ed). destruct (decide (e = c)) as [Eec|Hec]; [subst e|].
  - destruct (decide (q = p)) as [->|Hqp].
    + unfold m' in Hen. rewrite lookup_insert_ne, lookup_insert_eq in Hen by done. injection Hen as <-.
      destruct (Hnames d dn0 Hd Hdn0). congruence.
    + rewrite fupd_ne in He by done. by destruct (attach_new q).
  - destruct (attach_named _ _ Hec Hen) as (en0 & Hen0 & Ee).
    apply (ok_names _ _ _ _ Hok q d e dn0 en0); try done; [|congruence].
    unfold fupd in He. destruct (q =? p) eqn:Eq; [|done]. apply Z.eqb_eq in Eq as ->.
    by apply elem_of_cons in He as [He|He].
Qed.

Lemma ok_attach : vfs_ok_but pending (put (put v c cn') p pn') (fupd held c h) (fupd kids p (c :: kids p)).
Proof.
  pose proof (ok_node _ _ _ _ Hok) as Hnode. destruct Hsame as [S1 S2 S3 S4].
  assert (forall q, c ∉ kids q) as Hnew by apply attach_new.
  assert (forall q x, x ∈ kids q -> x ∈ fupd kids p (c :: kids p) q) as Hmore.
  { intros q x Hx. unfold fupd. destruct (q =? p) eqn:E; [|done]. apply Z.eqb_eq in E as ->. by right. }
  split; unfold put; cbn [set_field nodes heap].
  - intros x n [[-> ->]|[(Hxp & -> & ->)|(Hxp & Hxc & Hx)]]%two_lookups; [..|done].
    + destruct (Hnode _ _ Hpn) as []. split; try done; rewrite ?fupd_eq, ?fupd_ne by done; try done.
      * apply attach_count.
      * apply attach_kids.
      * intros E. by apply Hmore, node_parent0.
      * exists l. apply attach_up.
    + destruct (Hnode _ _ Hcn) as []. split; rewrite ?fupd_eq, ?fupd_ne by done; try congruence; try done.
      * unfold attached. rewrite Hparent. replace (p =? 0) with false; [done|]. pose proof (node_nonnull _ _ _ _ _ _ (Hnode _ _ Hpn)). lia.
      * rewrite S1. by apply attach_list.
      * lia.
      * rewrite S3. apply node_directory0.
      * rewrite Hparent, fupd_eq. by left.
      * destruct node_rooted0 as [k Hk]. by apply (attach_rooted _ k).
    + destruct (Hnode _ _ Hx) as []. split; rewrite ?fupd_ne by done; try done.
      * by apply attach_list.
      * intros E. by apply Hmore, node_parent0.
      * destruct node_rooted0 as [k Hk]. by apply (attach_rooted _ k).
  - intros x. unfold fupd. destruct (x =? c); [done|]. apply Hok.
  - intros x [[Hx Hxc]%lookup_insert_None Hxp]%lookup_insert_None. rewrite !fupd_ne by done. by apply (ok_gone _ _ _ _ Hok).
  - intros q d Hd. destruct (decide (q = p)) as [->|Hqp]; [rewrite fupd_eq in Hd|rewrite fupd_ne in Hd by done].
    + apply elem_of_cons in Hd as [->|Hd].
      * exists cn'. by rewrite lookup_insert_ne, lookup_insert_eq.
      * by apply attach_kid.
    + by apply attach_kid.
  - intros q d e dn en Hd He Hdn Hen E. destruct (decide (d = e)) as [|Hde]; [done|].
    assert (d ∈ kids q \/ e ∈ kids q) as [Hk|Hk].
    { unfold fupd in Hd, He. destruct (q =? p) eqn:Eq; [|by left]. apply Z.eqb_eq in Eq as ->.
      apply elem_of_cons in Hd as [Hd|Hd], He as [He|He]; auto. congruence. }
    + by apply (attach_distinct q d e dn en).
    + symmetry. by apply (attach_distinct q e d en dn).
  - destruct (ok_heap _ _ _ _ Hok) as (m & Hm & Hin). exists m. split; [done|]. intros x Hx. apply Hin. intros Hno.
    destruct (decide (x = p)) as [->|]; [congruence|]. destruct (decide (x = c)) as [->|]; [congruence|].
    by rewrite !lookup_insert_ne in Hx.
Qed.

End attach.

(** Cutting a node out of a list. *)
Lemma linked_cut m q l1 c l2 cn :
  linked next_sibling m q (l1 ++ c :: l2) -> m !! c = Some cn ->
  (l1 = [] /\ linked next_sibling m (next_sibling cn) l2) \/
  (exists x n, last l1 = Some x /\ x ∈ l1 /\ m !! x = Some n /\
     linked next_sibling (<[x := n<| next_sibling := next_sibling cn |>]> m) q (l1 ++ l2)).
Proof.
  revert q. induction l1 as [|y l1 IH]; intros q Hl Hcn.
  { left. split; [done|]. destruct Hl as (_ & _ & n & Hn & Hl). by simplify_eq. }
  right. pose proof (linked_nodup _ _ _ _ Hl) as Hd. rewrite <- app_comm_cons, NoDup_cons in Hd. destruct Hd as [Hd _].
  pose proof Hl as (-> & Hy & n & Hn & Hl'). destruct (IH _ Hl' Hcn) as [[-> H2]|(x & xn & Hx & Hin & Hxn & H2)].
  - exists y, n. split_and!; [done|by left|done|]. split; [done|]. split; [done|]. eexists.
    rewrite lookup_insert_eq. split; [done|]. cbn [set_field next_sibling app]. eapply linked_ext; [|exact H2].
    intros z zn Hz Hzn. exists zn. rewrite lookup_insert_ne; [done|]. intros <-. apply Hd, elem_of_app. right. by right.
  - exists x, xn. rewrite last_cons, Hx. split_and!; [done|by right|done|]. split; [done|]. split; [done|].
    exists n. rewrite lookup_insert_ne; [done|]. intros <-. apply Hd, elem_of_app. by left.
Qed.

Section detach.
Context (pending : list Z) v held kids (p c : Z) (pn cn : vfs_node_t) (l1 l2 : list Z).
Context (Hok : vfs_ok_but pending v held kids).
Context (Hpn : nodes v !! p = Some pn) (Hcn : nodes v !! c = Some cn) (Hkids : kids p = l1 ++ c :: l2).

Let Hnode : forall x n, nodes v !! x = Some n -> node_ok v held kids pending x n := ok_node _ _ _ _ Hok.

Lemma detach_parent : parent cn = p.
Proof. assert (c ∈ kids p) as Hc by (rewrite Hkids; set_solver). by destruct (kid_parent _ _ _ _ _ _ _ Hok Hc Hcn). Qed.

Lemma detach_nodup : NoDup (l1 ++ c :: l2).
Proof. rewrite <- Hkids. eapply linked_nodup, (node_kids _ _ _ _ _ _ (Hnode _ _ Hpn)). Qed.

Lemma detach_own : p ∉ l1 /\ p <> c /\ p ∉ l2.
Proof. pose proof (not_own_kid _ _ _ _ p Hok) as Hp. rewrite Hkids in Hp. set_solver. Qed.

(** The nodes after the link to [c] is redirected. *)
Lemma set_link_spec :
  exists v1 first, set_link v p (link_of l1) (next_sibling cn) = Some v1 /\ heap v1 = heap v /\ calls v1 = calls v /\
    nodes v1 !! p = Some (pn<| first_child := first |>) /\ nodes v1 !! c = Some cn /\
    linked next_sibling (nodes v1) first (l1 ++ l2) /\
    (forall x, x <> p -> x ∉ l1 -> nodes v1 !! x = nodes v !! x) /\
    (forall x, x <> p -> exists f, nodes v1 !! x = (fun n => n<| next_sibling := f n |>) <$> nodes v !! x).
Proof.
  destruct detach_own as (Ho1 & Ho2 & Ho3). pose proof (node_kids _ _ _ _ _ _ (Hnode _ _ Hpn)) as Hl. rewrite Hkids in Hl.
  unfold link_of, set_link. destruct (linked_cut _ _ _ _ _ _ Hl Hcn) as [[-> H2]|(x & n & Hx & Hin & Hn & H2)].
  - change (default 0 (last [])) with 0. rewrite Z.eqb_refl, Hpn. cbn [mbind option_bind]. eexists _, (next_sibling cn). split; [done|].
    unfold put. cbn [set_field nodes heap calls]. rewrite lookup_insert_eq. split_and!; try done.
    + by rewrite lookup_insert_ne.
    + by apply (linked_put _ _ _ pn).
    + intros y Hy _. by rewrite lookup_insert_ne.
    + intros y Hy. exists next_sibling. rewrite lookup_insert_ne by done. by destruct (nodes v !! y) as [[]|].
  - rewrite Hx. change (default 0 (Some x)) with x. pose proof (node_nonnull _ _ _ _ _ _ (Hnode _ _ Hn)) as Hx0.
    replace (x =? 0) with false by lia. rewrite Hn. cbn [mbind option_bind]. eexists _, (first_child pn). split; [done|].
    unfold put. cbn [set_field nodes heap calls]. assert (x <> p) as Hxp by congruence.
    split_and!; try done.
    + rewrite lookup_insert_ne by done. rewrite Hpn. by destruct pn.
    + rewrite lookup_insert_ne; [done|]. intros ->. pose proof detach_nodup as Hd. apply NoDup_app in Hd as (_ & Hd & _).
      destruct (Hd c Hin). by left.
    + intros y Hy Hyl. rewrite lookup_insert_ne; [done|congruence].
    + intros y Hy. destruct (decide (y = x)) as [->|Hyx].
      * exists (fun _ => next_sibling cn). by rewrite lookup_insert_eq, Hn.
      * exists next_sibling. rewrite lookup_insert_ne by done. by destruct (nodes v !! y) as [[]|].
Qed.

Context (v1 : vfs_t A) (first : Z) (Hheap : heap v1 = heap v).
Context (Hp1 : nodes v1 !! p = Some (pn<| first_child := first |>)).
Context (Hlinked : linked next_sibling (nodes v1) first (l1 ++ l2)).
Context (Hsame : forall x, x <> p -> x ∉ l1 -> nodes v1 !! x = nodes v !! x).
Context (Hother : forall x, x <> p -> exists f, nodes v1 !! x = (fun n => n<| next_sibling := f n |>) <$> nodes v !! x).

Let pn2 : vfs_node_t := pn<| first_child := first |><| child_count := u32 (child_count pn - 1) |>.
Let cn2 : vfs_node_t := cn<| next_sibling := 0 |><| parent := 0 |>.
Let m2 : gmap Z vfs_node_t := <[p := pn2]> (<[c := cn2]> (nodes v1)).

(** Every node of the result comes from a node of the state before. *)
Lemma detach_lookup x n2 :
  m2 !! x = Some n2 ->
  exists n, nodes v !! x = Some n /\ name n2 = name n /\ references n2 = references n /\
    ((x = p /\ n = pn /\ n2 = pn2) \/ (x <> p /\ x = c /\ n = cn /\ n2 = cn2) \/
     (x <> p /\ x <> c /\ exists z, n2 = n<| next_sibling := z |>)).
Proof.
  destruct detach_own as (_ & Hpc & _). intros [[-> ->]|[(Hxp & -> & ->)|(Hxp & Hxc & Hx)]]%two_lookups; [..|done].
  - exists pn. split_and!; try done. by left.
  - exists cn. split_and!; try done. right. by left.
  - destruct (Hother x Hxp) as [f Hf]. rewrite Hf in Hx. apply fmap_Some in Hx as (n & Hn & ->). exists n.
    split_and!; try done. right. right. split_and!; try done. by exists (f n).
Qed.

(** And every node of the state before is there, with the same parent if it is not [c]. *)
Lemma detach_found x n :
  nodes v !! x = Some n -> x <> c -> exists n2, m2 !! x = Some n2 /\ parent n2 = parent n /\
    (x ∉ l1 -> next_sibling n2 = next_sibling n).
Proof.
  intros Hn Hxc. unfold m2. destruct (decide (x = p)) as [->|Hxp].
  - exists pn2. rewrite lookup_insert_eq. split; [done|]. assert (n = pn) as -> by congruence. done.
  - rewrite !lookup_insert_ne by done. destruct (Hother x Hxp) as [f Hf]. rewrite Hf, Hn. eexists. split; [done|].
    split; [done|]. intros Hl. rewrite Hsame, Hn in Hf by done. injection Hf as Hf. by apply (f_equal next_sibling) in Hf.
Qed.

Lemma detach_list q k :
  linked next_sibling (nodes v) q k -> c ∉ k -> (forall x, x ∈ k -> x ∉ l1) -> linked next_sibling m2 q k.
Proof.
  intros Hk Hc Hl. eapply linked_ext; [|exact Hk]. intros x n Hx Hn.
  destruct (detach_found x n Hn) as (n2 & Hn2 & _ & E); [by intros ->|]. exists n2. auto.
Qed.

Lemma detach_rooted q k : linked parent (nodes v) q k -> exists k', linked parent m2 q k'.
Proof.
  revert q. induction k as [|x k IH]; intros q Hk; [by exists []|]. destruct Hk as (-> & Hx & n & Hn & Hk).
  destruct (IH _ Hk) as [k' Hk']. destruct (decide (x = c)) as [E|Hc].
  - subst x. exists [c]. split; [done|]. split; [done|]. exists cn2. unfold m2. destruct detach_own as (_ & Hpc & _).
    by rewrite lookup_insert_ne, lookup_insert_eq.
  - destruct (detach_found x n Hn Hc) as (n2 & Hn2 & E & _). exists (x :: k'). split; [done|]. split; [done|].
    exists n2. by rewrite E.
Qed.

(** The other lists of children. *)
Lemma detach_kids x n : x <> p -> nodes v !! x = Some n -> linked next_sibling m2 (first_child n) (kids x).
Proof.
  intros Hxp Hn. assert (forall y, y ∈ kids x -> y ∈ kids p -> False) as Hdis.
  { intros y Hy Hy'. destruct (ok_kid _ _ _ _ Hok _ _ Hy) as (yn & Hyn & E), (ok_kid _ _ _ _ Hok _ _ Hy') as (yn' & Hyn' & E').
    congruence. }
  apply detach_list; [apply (Hnode _ _ Hn)| |].
  - intros Hc. apply (Hdis c); [done|]. rewrite Hkids. set_solver.
  - intros y Hy Hl. apply (Hdis y); [done|]. rewrite Hkids. set_solver.
Qed.

Lemma detach_remaining : linked next_sibling m2 first (l1 ++ l2).
Proof.
  destruct detach_own as (Ho1 & Ho2 & Ho3). pose proof detach_nodup as Hd. eapply linked_ext; [|exact Hlinked].
  intros x n Hx Hn. exists n. split; [|done]. unfold m2. apply elem_of_app in Hx.
  apply NoDup_app in Hd as (_ & Hd1 & Hd2%NoDup_cons). rewrite !lookup_insert_ne; [done|..].
  - intros E. subst x. destruct Hx as [Hx|Hx]; [|by destruct Hd2]. by destruct (Hd1 c Hx (list_elem_of_here _ _)).
  - intros E. subst x. by destruct Hx.
Qed.

Lemma detach_less q d : d ∈ fupd kids p (l1 ++ l2) q -> d ∈ kids q /\ d <> c.
Proof.
  unfold fupd. destruct (q =? p) eqn:E.
  - apply Z.eqb_eq in E as ->. intros Hd. split.
    + rewrite Hkids. set_solver.
    + intros Ed. subst d. pose proof detach_nodup as Hn. apply NoDup_app in Hn as (_ & Hd1 & Hd2%NoDup_cons).
      apply elem_of_app in Hd as [Hd|Hd]; [|by destruct Hd2]. by destruct (Hd1 c Hd (list_elem_of_here _ _)).
  - intros Hd. split; [done|]. intros Ed. subst d. pose proof detach_parent.
    destruct (kid_parent _ _ _ _ _ _ _ Hok Hd Hcn). lia.
Qed.

Lemma detach_more q d : d ∈ kids q -> d <> c -> d ∈ fupd kids p (l1 ++ l2) q.
Proof.
  intros Hd Hne. unfold fupd. destruct (q =? p) eqn:E; [|done]. apply Z.eqb_eq in E as ->. rewrite Hkids in Hd. set_solver.
Qed.

Lemma detach_count : u32 (child_count pn - 1) = zlen (l1 ++ l2).
Proof.
  rewrite (node_count _ _ _ _ _ _ (Hnode _ _ Hpn)), Hkids. pose proof (node_kids _ _ _ _ _ _ (Hnode _ _ Hpn)) as Hl.
  apply linked_length in Hl. rewrite Hkids in Hl. pose proof (ok_size _ _ _ _ Hok). revert Hl. unfold zlen.
  rewrite !length_app, length_cons. intros Hl. rewrite wrap_small; [lia|]. widths. lia.
Qed.

Lemma detach_nodes x n2 :
  m2 !! x = Some n2 ->
  node_ok (put (put v1 c cn2) p pn2) (fupd held c (held c + 1)) (fupd kids p (l1 ++ l2)) (p :: pending) x n2.
Proof.
  destruct detach_own as (Ho1 & Ho2 & Ho3). pose proof detach_parent as Hpar.
  intros (n & Hn & E1 & E2 & Hcase)%detach_lookup. pose proof (Hnode _ _ Hn) as Nk.
  assert (exists k, linked parent m2 x k) as Hroot.
  { destruct (node_rooted _ _ _ _ _ _ Nk) as [k Hk]. by apply (detach_rooted _ k). }
  destruct Nk, Hcase as [(-> & -> & ->)|[(Hxp & E & -> & ->)|(Hxp & Hxc & z & ->)]].
  - split; try done; rewrite ?fupd_eq, ?fupd_ne by done; try done.
    + apply detach_count.
    + apply detach_remaining.
    + intros _ []. by left.
    + intros _. apply node_directory0. rewrite Hkids. by destruct l1.
    + intros Hz. apply detach_more; [by apply node_parent0|done].
  - subst x. assert (references cn = held c + 1) as Hr.
    { rewrite node_references0. unfold attached. rewrite Hpar. pose proof (node_nonnull _ _ _ _ _ _ (Hnode _ _ Hpn)).
      by replace (p =? 0) with false by lia. }
    pose proof (ok_held _ _ _ _ Hok c). pose proof (not_eq_sym Ho2). split; try done; rewrite ?fupd_eq, ?fupd_ne by done; try done.
    + change (references cn = held c + 1 + 0). lia.
    + by apply (detach_kids c cn).
    + intros Hz. change (references cn = 0) in Hz. lia.
  - split; try done; rewrite ?fupd_ne by done; try done.
    + by apply (detach_kids x n).
    + intros Hz Hin. apply node_used0; [done|]. intros ?. by apply Hin; right.
    + intros Hz. apply detach_more; [by apply node_parent0|done].
Qed.

Lemma ok_detach :
  vfs_ok_but (p :: pending) (put (put v1 c cn2) p pn2) (fupd held c (held c + 1)) (fupd kids p (l1 ++ l2)).
Proof.
  pose proof detach_own as (_ & Ho2 & _). split.
  - apply detach_nodes.
  - intros x. unfold fupd. pose proof (ok_held _ _ _ _ Hok x) as Hx. destruct (x =? c) eqn:E; [|done].
    apply Z.eqb_eq in E as ->. lia.
  - intros x Hx. destruct (nodes v !! x) as [n|] eqn:E.
    + exfalso. destruct (decide (x = c)) as [Ec|Hc].
      * subst x. unfold put in Hx. cbn [nodes set_field] in Hx. by rewrite lookup_insert_ne, lookup_insert_eq in Hx.
      * destruct (detach_found x n E Hc) as (n2 & Hn2 & _). unfold put in Hx. cbn [nodes set_field] in Hx.
        unfold m2 in Hn2. congruence.
    + rewrite !fupd_ne; [by apply (ok_gone _ _ _ _ Hok)|congruence..].
  - intros q d (Hd & Hdc)%detach_less. destruct (ok_kid _ _ _ _ Hok _ _ Hd) as (n & Hn & E).
    destruct (detach_found d n Hn Hdc) as (n2 & Hn2 & E2 & _). exists n2. split; [exact Hn2|congruence].
  - intros q d e dn en (Hd & _)%detach_less (He & _)%detach_less (dn0 & Hdn & Ed & _)%detach_lookup
      (en0 & Hen & Ee & _)%detach_lookup E. apply (ok_names _ _ _ _ Hok q d e dn0 en0); congruence.
  - destruct (ok_heap _ _ _ _ Hok) as (m & Hm & Hin). exists m. unfold put. cbn [nodes heap set_field]. rewrite Hheap.
    split; [done|]. intros x Hx. apply Hin. destruct (m2 !! x) as [n2|] eqn:E; [|done].
    apply detach_lookup in E as (n & Hn & _). by rewrite Hn.
Qed.

End detach.

(** ** References *)

(** One more reference to [p]. *)
Definition bump v (p : Z) : vfs_t A :=
  match nodes v !! p with Some n => put v p (n<| references := references n + 1 |>) | None => v end.

Definition gain held (r : Z) : Z -> Z := if r =? 0 then held else fupd held r (held r + 1).

Definition retainable (n : vfs_node_t) : bool := (0 <? references n) && (references n <? U32_MAX).

Lemma node_range pending v held kids p n :
  vfs_ok_but pending v held kids -> nodes v !! p = Some n -> p <> 0 /\ destroying n = false /\ 0 <= references n <= U32_MAX.
Proof.
  intros Hok Hn. destruct (ok_node _ _ _ _ Hok _ _ Hn) as []. pose proof (ok_held _ _ _ _ Hok p). split_and!; try done.
  unfold attached in *. destruct (parent n =? 0); lia.
Qed.

Lemma retain_spec v p n :
  nodes v !! p = Some n -> p <> 0 -> destroying n = false -> 0 <= references n <= U32_MAX ->
  vfs_node_retain v p = Some (retainable n, if retainable n then bump v p else v).
Proof.
  intros Hn Hp Hd Hr. unfold vfs_node_retain, bump, retainable. replace (p =? 0) with false by lia.
  rewrite Hn. cbn [mbind option_bind]. rewrite Hd. cbn [negb andb].
  replace (negb (references n =? 0) && negb (references n =? U32_MAX)) with ((0 <? references n) && (references n <? U32_MAX)) by lia.
  by destruct (_ && _).
Qed.

Lemma ok_bump pending v held kids p n :
  vfs_ok_but pending v held kids -> nodes v !! p = Some n -> references n < U32_MAX ->
  vfs_ok_but pending (bump v p) (gain held p) kids.
Proof.
  intros Hok Hn Hr. destruct (node_range _ _ _ _ _ _ Hok Hn) as (Hp & _ & _). unfold bump, gain. rewrite Hn.
  replace (p =? 0) with false by lia. pose proof (ok_held _ _ _ _ Hok p).
  pose proof (node_references _ _ _ _ _ _ (ok_node _ _ _ _ Hok _ _ Hn)) as E.
  apply (ok_touch _ _ _ _ _ n); try done; [lia| |].
  - change (references n + 1 = held p + 1 + attached n). lia.
  - change (references n + 1 <= U32_MAX). lia.
Qed.

Lemma reference_to_ok pending v held kids p n :
  vfs_ok_but pending v held kids -> nodes v !! p = Some n ->
  exists r, reference_to v p = Some (r, if r =? 0 then v else bump v r) /\
    ((r = p /\ retainable n = true) \/ (r = 0 /\ retainable n = false)).
Proof.
  intros Hok Hn. destruct (node_range _ _ _ _ _ _ Hok Hn) as (Hp & Hd & Hr). unfold reference_to.
  rewrite (retain_spec _ _ n) by done. destruct (retainable n).
  - exists p. replace (p =? 0) with false by lia. auto.
  - exists 0. auto.
Qed.

Lemma release_ok pending v held kids p :
  vfs_ok_but pending v held kids -> 0 < held p ->
  exists v', vfs_node_release v p = Some v' /\ vfs_ok_but pending v' (fupd held p (held p - 1)) kids /\
    forall q, q <> p -> nodes v' !! q = nodes v !! q.
Proof.
  intros Hok Hp. destruct (held_exists _ _ _ _ _ Hok Hp) as (n & Hn & Hr).
  destruct (node_range _ _ _ _ _ _ Hok Hn) as (Hp0 & Hd & Hr'). unfold vfs_node_release, drop_reference.
  replace (p =? 0) with false by lia. rewrite Hn. cbn [mbind option_bind]. rewrite Hd. cbn [orb].
  replace (references n =? 0) with false by lia. cbn [mbind option_bind negb]. destruct (ok_node _ _ _ _ Hok _ _ Hn) as [].
  set (n' := n<| references := references n - 1 |>).
  assert (vfs_ok_but (p :: pending) (put v p n') (fupd held p (held p - 1)) kids) as Hok'.
  { apply (ok_update pending _ v held kids p n); try done; try lia.
    - set_solver.
    - change (attached n') with (attached n). unfold n'. cbn [references set_field]. lia.
    - unfold n'. cbn [references set_field]. lia.
    - intros _. left. by left.
    - intros q d dn Hq Hd' Hne Hdn E. by apply Hne, (ok_names _ _ _ _ Hok q d p dn n). }
  destruct (try_destroy_ok _ _ _ _ p Hok') as (v' & -> & Hok'' & Hv').
  { unfold put. cbn [nodes set_field]. by rewrite lookup_insert_eq. }
  exists v'. split_and!; try done. intros q Hq. destruct Hv' as [->|[-> _]]; unfold put; cbn [nodes set_field];
    rewrite ?lookup_delete_ne by done; by rewrite lookup_insert_ne.
Qed.

Lemma put_id v p n : nodes v !! p = Some n -> put v p n = v.
Proof. intros Hn. unfold put. cbn [set_field]. rewrite insert_id by done. by destruct v. Qed.

Lemma put_put v p n n' : put (put v p n) p n' = put v p n'.
Proof. unfold put. cbn [set_field nodes heap calls]. by rewrite insert_insert_eq. Qed.

Lemma put_comm v p q n n' : p <> q -> put (put v p n) q n' = put (put v q n') p n.
Proof. intros Hpq. unfold put. cbn [set_field nodes heap calls]. by rewrite insert_insert_ne. Qed.

Lemma put_lookup v p n : nodes (put v p n) !! p = Some n.
Proof. unfold put. cbn [set_field nodes]. apply lookup_insert_eq. Qed.

Lemma put_lookup_ne v p q n : p <> q -> nodes (put v p n) !! q = nodes v !! q.
Proof. intros Hpq. unfold put. cbn [set_field nodes]. by apply lookup_insert_ne. Qed.

Lemma references_back n k : n<| references := k |><| references := references n |> = n.
Proof. by destruct n. Qed.

(** Giving back a reference when others remain. *)
Lemma release_one v p n :
  nodes v !! p = Some n -> p <> 0 -> destroying n = false -> 1 < references n ->
  vfs_node_release v p = Some (put v p (n<| references := references n - 1 |>)).
Proof.
  intros Hn Hp Hd Hr. unfold vfs_node_release, drop_reference, try_destroy. rewrite Hn. replace (p =? 0) with false by lia.
  cbn [mbind option_bind]. rewrite Hd. replace (references n =? 0) with false by lia. cbn [orb mbind option_bind negb].
  rewrite put_lookup. cbn [mbind option_bind set_field destroying references]. rewrite Hd.
  by replace (references n - 1 =? 0) with false by lia.
Qed.

Lemma release_bump v p n :
  nodes v !! p = Some n -> p <> 0 -> destroying n = false -> 0 < references n ->
  vfs_node_release (bump v p) p = Some v.
Proof.
  intros Hn Hp Hd Hr. unfold bump. rewrite Hn. set (n1 := n<| references := references n + 1 |>).
  rewrite (release_one _ _ n1); [|apply put_lookup|done|done|change (1 < references n + 1); lia]. rewrite put_put.
  change (references n1 - 1) with (references n + 1 - 1). replace (references n + 1 - 1) with (references n) by lia.
  unfold n1. by rewrite references_back, put_id.
Qed.

(** The reference to [p] that was taken first can be given back first. *)
Lemma release_bump_bump v p q n qn :
  nodes v !! p = Some n -> p <> 0 -> destroying n = false -> 0 < references n -> nodes v !! q = Some qn ->
  vfs_node_release (bump (bump v p) q) p = Some (bump v q).
Proof.
  intros Hn Hp Hd Hr Hq. destruct (decide (q = p)) as [->|Hne].
  - unfold bump. rewrite Hn, put_lookup, put_put. set (n2 := _<| references := _ |>).
    rewrite (release_one _ _ n2); [|apply put_lookup|done|done|change (1 < references n + 1 + 1); lia]. rewrite put_put.
    f_equal. f_equal. unfold n2. cbn [set_field references]. destruct n. cbn. f_equal. lia.
  - assert (bump (bump v p) q = bump (bump v q) p) as ->.
    { unfold bump. rewrite Hn, Hq. rewrite !put_lookup_ne by done. rewrite Hn, Hq. by apply put_comm. }
    apply (release_bump _ _ n); try done. unfold bump. by rewrite Hq, put_lookup_ne.
Qed.

(** ** What a path denotes *)

(** The child of [p] with the given name. *)
Definition child_named v kids (p : Z) (nm : list Z) : option Z :=
  head (filter (fun c => name <$> nodes v !! c = Some nm) (kids p)).

(** The node that a component leads to from [current], if a reference to it can be taken
    while one to [current] is held. *)
Definition step_to v kids (root current : Z) (component : list Z) : option Z :=
  n ← nodes v !! current;
  next ← (if bool_decide (component = [DOT]) then Some current
          else if bool_decide (component = [DOT; DOT])
          then Some (if negb (current =? root) && negb (parent n =? 0) then parent n else current)
          else child_named v kids current component);
  k ← nodes v !! next;
  if (0 <? references k) && (references k + (if next =? current then 1 else 0) <? U32_MAX) then Some next else None.

(** The permission to search the directory [current]. *)
Definition searchable v (check : option security_context_t) (current : Z) : bool :=
  match check, nodes v !! current with
  | Some _, Some n => security_can_access check (owner_uid n) (owner_gid n) (mode n) 1
  | None, _ => true
  | _, None => false
  end.

Fixpoint resolve v kids (check : option security_context_t) (root current : Z) (path : list (list Z)) : option Z :=
  match path with
  | [] => Some current
  | component :: path =>
    if searchable v check current && (zlen component <? NAME_SIZE) then
      next ← step_to v kids root current component;
      resolve v kids check root next path
    else None
  end.

Lemma bump_lookup v p n q :
  nodes v !! p = Some n -> nodes (bump v p) !! q =
    if q =? p then Some (n<| references := references n + 1 |>) else nodes v !! q.
Proof.
  intros Hn. unfold bump. rewrite Hn. destruct (q =? p) eqn:E.
  - apply Z.eqb_eq in E as ->. apply put_lookup.
  - apply put_lookup_ne. lia.
Qed.

Lemma bump_size v p : size (nodes (bump v p)) = size (nodes v).
Proof.
  unfold bump. destruct (nodes v !! p) eqn:E; [|done]. unfold put. cbn [nodes set_field]. apply map_size_insert_Some. by eexists.
Qed.

Lemma bump_linked f v p n q l :
  nodes v !! p = Some n -> f (n<| references := references n + 1 |>) = f n ->
  linked f (nodes v) q l -> linked f (nodes (bump v p)) q l.
Proof. intros Hn Hf. unfold bump. rewrite Hn. unfold put. cbn [nodes set_field]. by apply (linked_put _ _ _ n). Qed.

(** The search among the children of a directory finds the child with the name. *)
Lemma find_child v held kids p n q pn nm :
  vfs_ok v held kids -> nodes v !! p = Some n -> nodes v !! q = Some pn ->
  find_named (bound (bump v p)) (bump v p) (first_child pn) 0 nm = Some (default 0 (child_named v kids q nm)).
Proof.
  intros Hok Hn Hpn. pose proof (node_kids _ _ _ _ _ _ (ok_node _ _ _ _ Hok _ _ Hpn)) as Hl.
  destruct (find_named_spec (bound (bump v p)) (bump v p) (first_child pn) 0 nm (kids q)) as (r & -> & Hr).
  { by apply (bump_linked _ _ _ n). }
  { unfold bound. rewrite bump_size. apply linked_length in Hl. lia. }
  f_equal. assert (forall c k, nodes (bump v p) !! c = Some k -> name <$> nodes v !! c = Some (name k)) as Hname.
  { intros c k. rewrite (bump_lookup _ _ n) by done. destruct (c =? p) eqn:E; [|by intros ->].
    apply Z.eqb_eq in E as ->. rewrite Hn. by intros [= <-]. }
  unfold child_named. destruct (filter _ (kids q)) as [|c l] eqn:Ef; cbn [head].
  - destruct Hr as [[-> _]|(_ & Hin & _ & k & Hk & Hkn)]; [done|]. exfalso.
    assert (r ∈ filter (fun c => name <$> nodes v !! c = Some nm) (kids q)) as Hrf.
    { apply list_elem_of_filter. split; [|done]. by rewrite (Hname _ _ Hk), Hkn. }
    rewrite Ef in Hrf. by apply elem_of_nil in Hrf.
  - assert (c ∈ filter (fun c => name <$> nodes v !! c = Some nm) (kids q)) as Hcf by (rewrite Ef; by left).
    apply list_elem_of_filter in Hcf as [Hcn Hc]. apply fmap_Some in Hcn as (cn & Hcn & ->).
    destruct Hr as [[-> Hno]|(_ & Hin & _ & k & Hk & Hkn)].
    + exfalso. assert (exists k, nodes (bump v p) !! c = Some k) as [k Hk].
      { rewrite (bump_lookup _ _ n) by done. destruct (c =? p); by eexists. }
      apply (Hno c k Hc); [|done|]. { by destruct (node_range _ _ _ _ _ _ Hok Hcn). }
      apply Hname in Hk. rewrite Hcn in Hk. by injection Hk as ->.
    + apply Hname in Hk. apply fmap_Some in Hk as (rn & Hrn & Er).
      cbn [default]. apply (ok_names _ _ _ _ Hok q r c rn cn); try done. congruence.
Qed.

Section walk.
Context v held kids (Hok : vfs_ok v held kids).

(** Whether a reference to [next] can be taken while one to [current] is held. *)
Definition takable (current next : Z) (k : vfs_node_t) : bool :=
  (0 <? references k) && (references k + (if next =? current then 1 else 0) <? U32_MAX).

Lemma reference_after current n next k :
  nodes v !! current = Some n -> 0 < references n < U32_MAX -> nodes v !! next = Some k ->
  reference_to (bump v current) next =
    Some (if takable current next k then (next, bump (bump v current) next) else (0, bump v current)).
Proof.
  intros Hn Hr Hk. pose proof (ok_bump _ _ _ _ _ _ Hok Hn (proj2 Hr)) as Hu.
  destruct (node_range _ _ _ _ _ _ Hok Hk) as (Hnext & _ & Hkr).
  assert (exists k', nodes (bump v current) !! next = Some k' /\ retainable k' = takable current next k) as (k' & Hk' & Ht).
  { rewrite (bump_lookup v current n next Hn). unfold takable, retainable. destruct (next =? current) eqn:E.
    - apply Z.eqb_eq in E as ->. assert (k = n) as -> by congruence. eexists. split; [done|]. cbn [set_field references]. lia.
    - exists k. split; [done|]. by rewrite Z.add_0_r. }
  destruct (reference_to_ok _ _ _ _ _ _ Hu Hk') as (r & -> & Hcase). rewrite Ht in Hcase.
  destruct (takable current next k); destruct Hcase as [[-> ?]|[-> ?]]; try done. by replace (next =? 0) with false by lia.
Qed.

Definition step_result (current : Z) (r : option Z) : Z * vfs_t A :=
  match r with Some next => (next, bump (bump v current) next) | None => (0, bump v current) end.

Lemma lookup_after current n nm :
  nodes v !! current = Some n -> 0 < references n < U32_MAX ->
  vfs_node_lookup (bump v current) current (Some nm) = Some (step_result current (
    next ← child_named v kids current nm; k ← nodes v !! next; if takable current next k then Some next else None)).
Proof.
  intros Hn Hr. destruct (node_range _ _ _ _ _ _ Hok Hn) as (Hc0 & _ & _). unfold vfs_node_lookup.
  replace (current =? 0) with false by lia. rewrite (bump_lookup _ _ n), Z.eqb_refl by done. cbn [mbind option_bind].
  cbn [set_field type first_child]. destruct (ok_node _ _ _ _ Hok _ _ Hn) as []. destruct (type n =? VFS_NODE_DIRECTORY) eqn:Et; cbn [negb].
  - rewrite (find_child _ held kids _ n _ n) by done. cbn [mbind option_bind].
    destruct (child_named v kids current nm) as [c|] eqn:Ec; [|done]. cbn [from_option]. unfold id.
    unfold child_named in Ec. apply head_Some_elem_of, list_elem_of_filter in Ec as [Hcn Hc].
    apply fmap_Some in Hcn as (cn & Hcn & _). destruct (node_range _ _ _ _ _ _ Hok Hcn) as (Hcz & Hcd & _).
    replace (c =? 0) with false by lia.
    assert (0 < references cn) as Hcr.
    { destruct (kid_parent _ _ _ _ _ _ _ Hok Hc Hcn) as [Hp ?]. pose proof (ok_held _ _ _ _ Hok c).
      rewrite (node_references _ _ _ _ _ _ (ok_node _ _ _ _ Hok _ _ Hcn)). unfold attached. rewrite Hp.
      replace (current =? 0) with false by lia. lia. }
    assert (exists k', nodes (bump v current) !! c = Some k' /\ destroying k' = false /\ 0 < references k') as (k' & Hk' & Hkd & Hkr).
    { rewrite (bump_lookup _ _ n) by done. destruct (c =? current) eqn:E; eexists; (split; [done|]); cbn [set_field destroying references];
      [|done]. apply Z.eqb_eq in E as ->. split; [congruence|lia]. }
    rewrite Hk'. cbn [mbind option_bind]. rewrite Hkd. replace (references k' =? 0) with false by lia. cbn [orb].
    rewrite (reference_after _ n _ cn), Hcn by done. cbn [mbind option_bind]. by destruct (takable current c cn).
  - assert (kids current = []) as Hk by (destruct (kids current); [done|]; rewrite node_directory0 in Et; done).
    unfold child_named. by rewrite Hk.
Qed.

Lemma path_step_spec root current n component :
  nodes v !! current = Some n -> 0 < references n < U32_MAX -> root <> 0 ->
  path_step (bump v current) root current component = Some (step_result current (step_to v kids root current component)).
Proof.
  intros Hn Hr Hroot. destruct (node_range _ _ _ _ _ _ Hok Hn) as (Hc0 & _ & _).
  unfold path_step, step_to. rewrite !string_equal_spec, Hn. cbn [mbind option_bind].
  destruct (bool_decide (component = [DOT])); [|destruct (bool_decide (component = [DOT; DOT]))].
  - rewrite (reference_after _ n _ n) by done. cbn [mbind option_bind]. rewrite Hn. cbn [mbind option_bind].
    fold (takable current current n). by destruct (takable _ _ _).
  - unfold parent_reference. replace ((root =? 0) || (current =? 0)) with false by lia.
    rewrite (bump_lookup _ _ n), Z.eqb_refl by done. cbn [mbind option_bind set_field parent].
    set (next := if negb (current =? root) && negb (parent n =? 0) then parent n else current). assert (exists k, nodes v !! next = Some k) as [k Hk].
    { unfold next. destruct (negb (current =? root) && negb (parent n =? 0)) eqn:E; [|by exists n].
      pose proof (node_parent _ _ _ _ _ _ (ok_node _ _ _ _ Hok _ _ Hn) ltac:(lia)) as Hin.
      destruct (nodes v !! parent n) as [k|] eqn:Ek; [by exists k|]. apply (ok_gone _ _ _ _ Hok) in Ek as [_ Ek].
      rewrite Ek in Hin. by apply elem_of_nil in Hin. }
    rewrite (reference_after _ n _ k), Hk by done. cbn [mbind option_bind]. fold (takable current next k).
    by destruct (takable _ _ _).
  - by apply (lookup_after current n).
Qed.

Lemma step_to_node root current component next :
  step_to v kids root current component = Some next -> exists k, nodes v !! next = Some k /\ 0 < references k < U32_MAX.
Proof.
  unfold step_to. intros (n & _ & (x & _ & (k & Hk & Hx)%bind_Some)%bind_Some)%bind_Some.
  destruct (_ && _) eqn:E; [|done]. injection Hx as ->. exists k. split; [done|]. destruct (next =? current); lia.
Qed.

Lemma resolve_node check root current n path r :
  nodes v !! current = Some n -> 0 < references n < U32_MAX -> resolve v kids check root current path = Some r ->
  exists k, nodes v !! r = Some k /\ 0 < references k < U32_MAX.
Proof.
  revert current n. induction path as [|w path IH]; intros current n Hn Hr; cbn [resolve].
  - intros [= ->]. by exists n.
  - destruct (_ && _); [|done]. intros (next & Hs & Hres)%bind_Some.
    destruct (step_to_node _ _ _ _ Hs) as (k & Hk & Hkr). by apply (IH next k).
Qed.

Definition walk_result (r : option Z) : Z * vfs_t A := match r with Some r => (r, bump v r) | None => (0, v) end.

Lemma access_after check current n :
  nodes v !! current = Some n ->
  match check with None => Some true | Some context => vfs_node_access (bump v current) current (Some context) 1 end
    = Some (searchable v check current).
Proof.
  intros Hn. unfold searchable. rewrite Hn. destruct check as [context|]; [|done]. unfold vfs_node_access.
  destruct (node_range _ _ _ _ _ _ Hok Hn) as (Hc0 & _). replace (current =? 0) with false by lia.
  rewrite (bump_lookup _ _ n), (Z.eqb_refl current) by done.
  by rewrite bool_decide_eq_false_2.
Qed.

Lemma walk_spec fuel check root current n path :
  nodes v !! current = Some n -> 0 < references n < U32_MAX -> root <> 0 -> (length path < fuel)%nat ->
  walk fuel (bump v current) check root current path =
    Some (walk_result (resolve v kids check root current (components path))).
Proof.
  revert current n path. induction fuel as [|fuel IH]; intros current n path Hn Hr Hroot Hf; [lia|]. cbn [walk].
  destruct (node_range _ _ _ _ _ _ Hok Hn) as (Hc0 & Hcd & _).
  assert (vfs_node_release (bump v current) current = Some v) as Hrel by (apply (release_bump _ _ n); done || lia).
  destruct (skip_slashes path) as [|c rest] eqn:Es.
  { rewrite <- components_skip, Es. done. }
  destruct (next_component _ _ _ Es) as (w & path' & Hw & Hlen & Hread). rewrite Hw, Hread, (access_after _ _ n) by done.
  cbn [mbind option_bind resolve]. destruct (searchable v check current); cbn [negb andb]; [|by rewrite Hrel].
  destruct (zlen w <? NAME_SIZE); [|by rewrite Hrel]. rewrite (path_step_spec _ _ n) by done. cbn [mbind option_bind].
  destruct (step_to v kids root current w) as [next|] eqn:Est; cbn [step_result].
  - destruct (step_to_node _ _ _ _ Est) as (k & Hk & Hkr). destruct (node_range _ _ _ _ _ _ Hok Hk) as (Hn0 & _).
    rewrite (release_bump_bump _ _ _ n k) by (done || lia). cbn [mbind option_bind]. replace (next =? 0) with false by lia.
    apply (IH next k); [done..|lia].
  - by rewrite Hrel.
Qed.

End walk.

(** ** The operations on the tree *)

Lemma good_name nm : bad_name nm = false -> 0 < zlen nm < NAME_SIZE.
Proof. unfold bad_name, string_length. cbv zeta. pose proof (zlen_nonneg nm). lia. Qed.

Lemma add_child_ok v held kids p c :
  vfs_ok v held kids -> nodes v !! p <> None -> nodes v !! c <> None ->
  exists b v' kids', vfs_node_add_child v p c = Some (b, v') /\ vfs_ok v' held kids' /\
    if b : bool then (forall q, kids' q = fupd kids p (c :: kids p) q) else v' = v.
Proof.
  intros Hok Hp Hc. destruct (nodes v !! p) as [pn|] eqn:Hpn; [|done]. destruct (nodes v !! c) as [cn|] eqn:Hcn; [|done].
  assert (forall e : option (bool * vfs_t A), e = Some (false, v) ->
          exists b v' kids', e = Some (b, v') /\ vfs_ok v' held kids' /\
            if b : bool then (forall q, kids' q = fupd kids p (c :: kids p) q) else v' = v) as Hfail.
  { intros e ->. by exists false, v, kids. }
  unfold vfs_node_add_child. destruct (_ || _ || _) eqn:E0; [by apply Hfail|]. rewrite Hpn, Hcn. cbn [mbind option_bind].
  destruct (negb _ || _) eqn:E1; [by apply Hfail|]. destruct (negb _ || _ || _ || _) eqn:E2; [by apply Hfail|].
  pose proof (ok_node _ _ _ _ Hok _ _ Hpn) as Np. pose proof (ok_node _ _ _ _ Hok _ _ Hcn) as Nc.
  destruct (node_rooted _ _ _ _ _ _ Np) as [l Hl]. pose proof (node_kids _ _ _ _ _ _ Np) as Hk.
  rewrite (is_ancestor_spec _ _ _ _ l); [|done|apply linked_length in Hl; unfold bound; lia|apply Nc]. cbn [mbind option_bind].
  destruct (bool_decide (c ∈ l)) eqn:El; [by apply Hfail|]. apply bool_decide_eq_false in El.
  destruct (find_named_spec (bound v) v (first_child pn) 0 (name cn) (kids p) Hk) as (r & -> & Hr).
  { apply linked_length in Hk. unfold bound. lia. }
  cbn [mbind option_bind]. destruct (r =? 0) eqn:Er; cbn [negb]; [|by apply Hfail].
  destruct Hr as [[_ Hno]|(? & _)]; [|lia].
  assert (parent cn = 0) as Hpar by lia. pose proof (node_references _ _ _ _ _ _ Nc) as Href.
  unfold attached in Href. rewrite Hpar in Href. cbn [Z.eqb] in Href. pose proof (node_max _ _ _ _ _ _ Nc) as Hm.
  pose proof (ok_held _ _ _ _ Hok c) as Hh.
  assert (u32 (references cn + 1) = references cn + 1) as Hu by (apply wrap_small; widths; lia).
  eexists true, _, _. split; [done|]. split; [|done]. eapply (ok_ext _ _ (fupd held c (held c))); [|done|].
  { intros x. symmetry. apply fupd_same. }
  set (cn' := cn<| parent := p |><| next_sibling := first_child pn |><| references := u32 (references cn + 1) |>).
  assert (references cn' = references cn + 1) as Hr' by exact Hu.
  apply (ok_attach [] v held kids p c (held c) pn cn cn' l); try done; try lia.
  - intros d dn Hd Hdn. apply (Hno d dn Hd); [|done]. by destruct (node_range _ _ _ _ _ _ Hok Hdn).
  - apply Nc.
Qed.

Lemma rename_ok v held kids p c nm :
  vfs_ok v held kids -> nodes v !! p <> None -> nodes v !! c <> None ->
  exists b v', vfs_node_rename v p c nm = Some (b, v') /\ vfs_ok v' held kids /\
    if b : bool then exists s cn, nm = Some s /\ c ∈ kids p /\ nodes v !! c = Some cn /\ v' = put v c (cn<| name := s |>)
    else v' = v.
Proof.
  intros Hok Hp Hc. destruct (nodes v !! p) as [pn|] eqn:Hpn; [|done]. destruct (nodes v !! c) as [cn|] eqn:Hcn; [|done].
  unfold vfs_node_rename. destruct nm as [nm|]; [|by exists false, v].
  destruct (_ || _ || _) eqn:E0; [by exists false, v|]. rewrite Hpn. cbn [mbind option_bind].
  destruct (negb _ || _) eqn:E1; [by exists false, v|]. rewrite Hcn. cbn [mbind option_bind].
  destruct (negb _ || _ || _) eqn:E2; [by exists false, v|].
  pose proof (ok_node _ _ _ _ Hok _ _ Hpn) as Np. pose proof (ok_node _ _ _ _ Hok _ _ Hcn) as Nc.
  pose proof (node_kids _ _ _ _ _ _ Np) as Hk.
  destruct (find_named_spec (bound v) v (first_child pn) c nm (kids p) Hk) as (r & -> & Hr).
  { apply linked_length in Hk. unfold bound. lia. }
  cbn [mbind option_bind]. destruct (r =? 0) eqn:Er; cbn [negb]; [|by exists false, v].
  destruct Hr as [[_ Hno]|(? & _)]; [|lia]. assert (parent cn = p) as Hpar by lia.
  assert (c ∈ kids p) as Hin by (rewrite <- Hpar; apply Nc; lia).
  eexists true, _. split; [done|]. split; [|by exists nm, cn].
  eapply (ok_ext _ _ (fupd held c (held c)) _ kids); [|done|]. { intros x. symmetry. apply fupd_same. }
  destruct Nc. apply (ok_update [] [] v held kids c cn); try done.
  - apply (ok_held _ _ _ _ Hok).
  - cbn [set_field references]. intros Hz. right. apply node_used0; [done|]. apply not_elem_of_nil.
  - apply good_name. by apply orb_false_iff in E1 as [_ E1].
  - intros q d dn Hq Hd Hne Hdn. destruct (kid_parent _ _ _ _ _ _ _ Hok Hq Hcn) as [Eq _]. rewrite Hpar in Eq. subst q.
    by apply (Hno d dn).
Qed.

(** The child [c] of [p] is found and cut out of the list. *)
Lemma cut_child pending v held kids p c pn cn :
  vfs_ok_but pending v held kids -> nodes v !! p = Some pn -> nodes v !! c = Some cn -> parent cn = p -> p <> 0 ->
  exists l1 l2 v1 first,
    let pn1 := pn<| first_child := first |> in
    let v2 := put (put v1 c (cn<| next_sibling := 0 |><| parent := 0 |>)) p (pn1<| child_count := u32 (child_count pn - 1) |>) in
    kids p = l1 ++ c :: l2 /\ c ∉ l1 ++ l2 /\
    find_link (bound v) v 0 (first_child pn) c = Some (link_of l1, c) /\
    set_link v p (link_of l1) (next_sibling cn) = Some v1 /\
    nodes v1 !! p = Some pn1 /\ nodes v1 !! c = Some cn /\
    (forall x, x <> p -> exists f, nodes v1 !! x = (fun n => n<| next_sibling := f n |>) <$> nodes v !! x) /\
    heap v1 = heap v /\ calls v1 = calls v /\
    vfs_ok_but (p :: pending) v2 (fupd held c (held c + 1)) (fupd kids p (l1 ++ l2)).
Proof.
  intros Hok Hpn Hcn Hpar Hp0. pose proof (node_parent _ _ _ _ _ _ (ok_node _ _ _ _ Hok _ _ Hcn)) as Hin.
  rewrite Hpar in Hin. destruct (list_elem_of_split _ _ (Hin Hp0)) as (l1 & l2 & Hk).
  destruct (set_link_spec pending v held kids p c pn cn l1 l2) as (v1 & first & H1 & H2 & H3 & H4 & H5 & H6 & H7 & H8); try done.
  exists l1, l2, v1, first. cbv zeta. split_and!; try done.
  - pose proof (linked_nodup _ _ _ _ (node_kids _ _ _ _ _ _ (ok_node _ _ _ _ Hok _ _ Hpn))) as Hd. rewrite Hk in Hd.
    apply NoDup_app in Hd as (_ & Hd1 & [Hd2 _]%NoDup_cons). intros [Hc|Hc]%elem_of_app; [|done].
    by destruct (Hd1 c Hc (list_elem_of_here _ _)).
  - pose proof (node_kids _ _ _ _ _ _ (ok_node _ _ _ _ Hok _ _ Hpn)) as Hl. rewrite Hk in Hl.
    pose proof (linked_length _ _ _ _ Hl). apply find_link_spec with l2; [done|unfold bound; lia].
  - by apply (ok_detach pending v held kids p c pn cn l1 l2).
Qed.

Lemma remove_ok v held kids p c :
  vfs_ok v held kids -> nodes v !! p <> None -> nodes v !! c <> None ->
  exists b v' kids', vfs_node_remove v p c = Some (b, v') /\ vfs_ok v' held kids' /\
    if b : bool then exists l1 l2, kids p = l1 ++ c :: l2 /\ c ∉ l1 ++ l2 /\ forall q, kids' q = fupd kids p (l1 ++ l2) q
    else v' = v.
Proof.
  intros Hok Hp Hc. destruct (nodes v !! p) as [pn|] eqn:Hpn; [|done]. destruct (nodes v !! c) as [cn|] eqn:Hcn; [|done].
  unfold vfs_node_remove. destruct (_ || _ || _) eqn:E0; [by exists false, v, kids|]. rewrite Hpn, Hcn. cbn [mbind option_bind].
  destruct (negb _ || _ || _) eqn:E1; [by exists false, v, kids|]. assert (parent cn = p) as Hpar by lia.
  assert (p <> c) as Hpc by lia.
  destruct (cut_child [] v held kids p c pn cn) as (l1 & l2 & v1 & first & Hk & Hnot & -> & Hset & Hp1 & Hc1 & _ & _ & _ & Hok2);
    try done; [lia|]. cbn [mbind option_bind]. replace (c =? 0) with false by lia. rewrite Hset. cbn [mbind option_bind].
  rewrite Hc1. cbn [mbind option_bind]. rewrite put_lookup_ne, Hp1 by done. cbn [mbind option_bind].
  change (child_count (pn<| first_child := first |>)) with (child_count pn).
  set (v2 := put (put v1 c _) p _) in *. pose proof (ok_held _ _ _ _ Hok c) as Hh.
  destruct (release_ok _ _ _ _ c Hok2) as (v3 & -> & Hok3 & Hsame); [rewrite fupd_eq; lia|]. cbn [mbind option_bind].
  destruct (try_destroy_ok _ _ _ _ p Hok3) as (v4 & -> & Hok4 & _).
  { rewrite Hsame by done. unfold v2. by rewrite put_lookup. }
  exists true, v4, (fupd kids p (l1 ++ l2)). split; [done|]. split; [|by exists l1, l2].
  eapply ok_ext; [| |exact Hok4]; [|done]. intros x. rewrite fupd_eq. unfold fupd. destruct (x =? c) eqn:E; [|done].
  apply Z.eqb_eq in E as ->. lia.
Qed.

Lemma ok_more pending v held kids p : vfs_ok_but pending v held kids -> vfs_ok_but (p :: pending) v held kids.
Proof.
  intros []. split; try done. intros x n Hx. destruct (ok_node0 _ _ Hx). split; try done.
  intros Hz Hp. apply node_used0; [done|]. intros Hin. apply Hp. by right.
Qed.

Definition detached (cn : vfs_node_t) : vfs_node_t := cn<| next_sibling := 0 |><| parent := 0 |>.

(** A regular file that was detached can be attached elsewhere. *)
Lemma reattach held kids old new c on2 nn2 cn v1 nm :
  let v2 := put (put v1 c (detached cn)) old on2 in
  vfs_ok_but [old] v2 held kids ->
  old <> new -> c <> new -> c <> old -> nodes v1 !! new = Some nn2 -> type nn2 = VFS_NODE_DIRECTORY ->
  type cn = VFS_NODE_REGULAR -> 0 < zlen nm < NAME_SIZE -> 0 < references cn ->
  (forall d dn, d ∈ kids new -> nodes v2 !! d = Some dn -> name dn <> nm) ->
  vfs_ok_but [old]
    (put (put (put v1 c (cn<| next_sibling := first_child nn2 |><| parent := new |><| name := nm |>))
              new (nn2<| first_child := c |><| child_count := u32 (child_count nn2 + 1) |>)) old on2)
    (fupd held c (held c - 1)) (fupd kids new (c :: kids new)).
Proof.
  intros v2 Hok Hon Hcn Hco Hnn Hdir Hreg Hnm Hr Hnames.
  assert (nodes v2 !! new = Some nn2) as Hnn2 by (unfold v2; by rewrite !put_lookup_ne).
  assert (nodes v2 !! c = Some (detached cn)) as Hc2 by (unfold v2; rewrite put_lookup_ne, put_lookup by done; done).
  destruct (node_rooted _ _ _ _ _ _ (ok_node _ _ _ _ Hok _ _ Hnn2)) as [l Hl].
  pose proof (ok_node _ _ _ _ Hok _ _ Hc2) as Nc. destruct Nc.
  assert (kids c = []) as Hkc.
  { destruct (kids c) eqn:E; [done|]. specialize (node_directory0 ltac:(done)). change (type cn = VFS_NODE_DIRECTORY) in node_directory0.
    unfold VFS_NODE_REGULAR, VFS_NODE_DIRECTORY in *. lia. }
  change (references cn = held c + 0) in node_references0.
  match goal with |- vfs_ok_but _ ?s _ _ => assert (s = put (put v2 c (cn<| next_sibling := first_child nn2 |><| parent := new |><| name := nm |>))
    new (nn2<| first_child := c |><| child_count := u32 (child_count nn2 + 1) |>)) as -> end.
  { unfold v2. rewrite (put_comm _ old c), put_put by done. by rewrite (put_comm _ old new) by done. }
  apply (ok_attach [old] v2 held kids new c (held c - 1) nn2 (detached cn) _ l); try done; try lia.
  - apply (linked_without _ _ _ _ _ Hl); [done|]. intros x n Hx E.
    pose proof (node_parent _ _ _ _ _ _ (ok_node _ _ _ _ Hok _ _ Hx)) as Hp. rewrite E, Hkc in Hp.
    by destruct (not_elem_of_nil x (Hp node_nonnull0)).
  - change (references cn = held c - 1 + 1). lia.
Qed.

Lemma move_ok v held kids old new c nm :
  vfs_ok v held kids -> nodes v !! old <> None -> nodes v !! new <> None -> nodes v !! c <> None ->
  exists b v' kids', vfs_node_move v old new c nm = Some (b, v') /\ vfs_ok v' held kids' /\
    if b : bool then exists l1 l2 s, nm = Some s /\ old <> new /\ kids old = l1 ++ c :: l2 /\ c ∉ l1 ++ l2 /\
      name <$> nodes v' !! c = Some s /\
      (forall d dn, d ∈ kids new -> nodes v !! d = Some dn -> name dn <> s) /\
      forall q, kids' q = fupd (fupd kids old (l1 ++ l2)) new (c :: kids new) q
    else v' = v.
Proof.
  intros Hok Ho Hn Hc. destruct (nodes v !! old) as [on|] eqn:Hon; [|done]. destruct (nodes v !! new) as [nn|] eqn:Hnn; [|done].
  destruct (nodes v !! c) as [cn|] eqn:Hcn; [|done]. unfold vfs_node_move. destruct nm as [nm|]; [|by exists false, v, kids].
  destruct (_ || _ || _ || _ || _ || _) eqn:E0; [by exists false, v, kids|]. rewrite Hon, Hnn, Hcn. cbn [mbind option_bind].
  destruct (negb _ || _ || _ || _) eqn:E1; [by exists false, v, kids|].
  destruct (negb (parent cn =? old) || _ || _) eqn:E2; [by exists false, v, kids|].
  pose proof (node_kids _ _ _ _ _ _ (ok_node _ _ _ _ Hok _ _ Hnn)) as Hk. assert (parent cn = old) as Hpar by lia.
  destruct (find_named_spec (bound v) v (first_child nn) c nm (kids new) Hk) as (r & -> & Hr).
  { apply linked_length in Hk. unfold bound. lia. }
  cbn [mbind option_bind]. destruct (r =? 0) eqn:Er; cbn [negb]; [|by exists false, v, kids].
  destruct Hr as [[_ Hno]|(? & _)]; [|lia].
  destruct (cut_child [] v held kids old c on cn) as (l1 & l2 & v1 & first & Hk1 & Hnot & -> & Hset & Hp1 & Hc1 & Hoth & _ & _ & Hok2);
    try done; [lia|]. cbn [mbind option_bind]. replace (c =? 0) with false by lia. rewrite Hset. cbn [mbind option_bind].
  assert (old <> new /\ c <> new /\ c <> old) as (Hne1 & Hne2 & Hne3) by lia.
  rewrite Hc1. cbn [mbind option_bind]. destruct (Hoth new (not_eq_sym Hne1)) as [f Hf]. rewrite Hnn in Hf. cbn [fmap option_fmap option_map] in Hf.
  rewrite put_lookup_ne, Hf by done. cbn [mbind option_bind]. rewrite !put_lookup_ne, Hp1 by done. cbn [mbind option_bind].
  change (child_count (on<| first_child := first |>)) with (child_count on).
  set (nn2 := nn<| next_sibling := f nn |>) in *. set (on2 := on<| first_child := first |><| child_count := _ |>) in *.
  pose proof (ok_held _ _ _ _ Hok c) as Hh.
  assert (forall d dn, d ∈ fupd kids old (l1 ++ l2) new -> nodes (put (put v1 c (detached cn)) old on2) !! d = Some dn -> name dn <> nm) as Hnames.
  { rewrite fupd_ne by done. intros d dn Hd Hdn. apply two_lookups in Hdn; [|done].
    assert (d <> c) as Hdc. { intros ->. destruct (kid_parent _ _ _ _ _ _ _ Hok Hd Hcn). lia. }
    destruct Hdn as [[-> ->]|[(_ & ? & _)|(Hdo & _ & Hdn)]]; [by apply (Hno old on)|done|].
    destruct (Hoth d Hdo) as [g Hg]. rewrite Hg in Hdn. apply fmap_Some in Hdn as (dn0 & Hdn0 & ->). by apply (Hno d dn0). }
  pose proof (reattach _ _ old new c on2 nn2 cn v1 nm Hok2) as Hok3.
  specialize (Hok3 Hne1 Hne2 Hne3 Hf ltac:(change (type nn = VFS_NODE_DIRECTORY); lia) ltac:(lia)
    ltac:(apply good_name; by apply orb_false_iff in E1 as [_ E1]) ltac:(destruct (node_range _ _ _ _ _ _ Hok Hcn); lia) Hnames).
  change (first_child nn2) with (first_child nn) in Hok3. set (v5 := put (put (put v1 c _) new _) old on2) in *.
  rewrite fupd_eq, fupd_ne in Hok3 by done.
  destruct (try_destroy_ok _ _ _ _ old Hok3) as (v6 & -> & Hok6 & Hd6).
  { unfold v5. by rewrite put_lookup. }
  cbn [mbind option_bind]. assert (exists n6, nodes v6 !! new = Some n6) as [n6 Hn6].
  { unfold v5 in Hd6. destruct Hd6 as [->|[-> _]]; [|rewrite lookup_delete_ne by done]; rewrite put_lookup_ne, put_lookup by done; by eexists. }
  assert (name <$> nodes v6 !! c = Some nm) as Hname.
  { unfold v5 in Hd6. destruct Hd6 as [->|[-> _]]; [|rewrite lookup_delete_ne by done];
      by rewrite put_lookup_ne, put_lookup_ne, put_lookup by congruence. }
  destruct (try_destroy_ok _ _ _ _ new (ok_more _ _ _ _ new Hok6)) as (v7 & -> & Hok7 & Hd7); [by rewrite Hn6|].
  cbn [mbind option_bind]. exists true, v7, (fupd (fupd kids old (l1 ++ l2)) new (c :: kids new)).
  split; [done|]. split.
  - eapply ok_ext; [| |exact Hok7]; [|done]. intros x. unfold fupd. destruct (x =? c) eqn:E; [|done]. apply Z.eqb_eq in E as ->. lia.
  - exists l1, l2, nm. split_and!; try done.
    + destruct Hd7 as [->|[-> _]]; [done|]. by rewrite lookup_delete_ne.
    + intros d dn Hd Hdn. apply (Hno d dn Hd); [|done]. intros ->. destruct (kid_parent _ _ _ _ _ _ _ Hok Hd Hcn). lia.
Qed.

End ok.

End Vfs.
