(* ===== verification/VfsTree.v ===== *)
(** * The file tree over its operations

    The properties of the virtual file system of [Vfs.v]: what a path denotes, that no
    history of calls touches a node that does not exist, and how the calls change the
    tree. *)

From S2P Require Import Prelude Heap Vfs.

Module VfsTree.
Import Security Vfs.

Section tree.
Context {A : Type} `{AllocatorLaws A}.

Implicit Types (v : vfs_t A) (held : Z -> Z) (kids : Z -> list Z).

Abbreviation vfs_ok := (vfs_ok_but []).

(** ** Paths *)

(** What a path denotes when the search starts at [start]. *)
Definition from_start v kids (check : option security_context_t) (root start : Z) (path : list Z) : option Z :=
  n ← nodes v !! start;
  if retainable n then resolve v kids check root start (components path) else None.

Lemma start_walk v held kids check root start path n :
  vfs_ok v held kids -> nodes v !! start = Some n -> root <> 0 ->
  ('(ok, v) ← vfs_node_retain v start; if negb ok then Some (0, v) else walk (S (length path)) v check root start path)
    = Some (walk_result v (from_start v kids check root start path)).
Proof.
  intros Hok Hn Hroot. destruct (node_range _ _ _ _ _ _ Hok Hn) as (Hs & Hd & Hr). unfold from_start. rewrite Hn.
  rewrite (retain_spec _ _ n) by done. cbn [mbind option_bind]. destruct (retainable n) eqn:E; [|done]. cbn [negb].
  unfold retainable in E. apply (walk_spec _ held kids Hok _ _ _ _ n); [done|lia|done|lia].
Qed.

Lemma from_start_node v kids check root start path r :
  from_start v kids check root start path = Some r -> exists k, nodes v !! r = Some k /\ 0 < references k < U32_MAX.
Proof.
  unfold from_start. intros (n & Hn & Hr)%bind_Some. destruct (retainable n) eqn:E; [|done].
  unfold retainable in E. eapply resolve_node; [exact Hn|lia|exact Hr].
Qed.

(** The node that a path denotes, from [root] if it begins with a slash. *)
Definition denotes v kids (check : option security_context_t) (root working : Z) (path : list Z) : option Z :=
  match path with
  | [] => None
  | c :: _ => from_start v kids check root (if c =? SLASH then root else working) path
  end.

Lemma denotes_node v kids check root working path r :
  denotes v kids check root working path = Some r -> exists k, nodes v !! r = Some k /\ 0 < references k < U32_MAX.
Proof. destruct path as [|c path]; [done|]. apply from_start_node. Qed.

Lemma from_start_slash v kids check root start path :
  from_start v kids check root start (SLASH :: path) = from_start v kids check root start path.
Proof. unfold from_start. by rewrite components_slash. Qed.

Lemma lookup_path_spec v held kids root path n :
  vfs_ok v held kids -> nodes v !! root = Some n ->
  vfs_lookup_path v root (Some path) = Some (walk_result v (
    if bool_decide (head path = Some SLASH) then denotes v kids None root root path else None)).
Proof.
  intros Hok Hn. destruct (node_range _ _ _ _ _ _ Hok Hn) as (Hr & _ & _). destruct path as [|c path]; [done|].
  unfold vfs_lookup_path, denotes. replace (root =? 0) with false by lia. cbn [head orb].
  destruct (c =? SLASH) eqn:E; cbn [negb].
  - apply Z.eqb_eq in E as ->. rewrite bool_decide_eq_true_2, from_start_slash by done. by apply (start_walk v held kids _ _ _ _ n).
  - rewrite bool_decide_eq_false_2; [done|]. intros [= ->]. lia.
Qed.

Definition is_directory v (p : Z) : Prop := type <$> nodes v !! p = Some VFS_NODE_DIRECTORY.

Lemma is_directory_node v p : is_directory v p -> exists n, nodes v !! p = Some n /\ (type n =? VFS_NODE_DIRECTORY) = true.
Proof. intros (n & Hn & E)%fmap_Some. exists n. split; [done|]. lia. Qed.

Lemma lookup_path_at_spec v held kids root working path :
  vfs_ok v held kids -> is_directory v root -> is_directory v working ->
  vfs_lookup_path_at v root working (Some path) = Some (walk_result v (denotes v kids None root working path)).
Proof.
  intros Hok (rn & Hrn & Er)%is_directory_node (wn & Hwn & Ew)%is_directory_node. destruct path as [|c path]; [done|].
  destruct (node_range _ _ _ _ _ _ Hok Hrn) as (Hr & _ & _), (node_range _ _ _ _ _ _ Hok Hwn) as (Hw & _ & _).
  unfold vfs_lookup_path_at. replace (root =? 0) with false by lia. replace (working =? 0) with false by lia.
  cbn [orb]. rewrite Hrn, Hwn. cbn [mbind option_bind]. rewrite Er, Ew. cbn [negb orb]. destruct (c =? SLASH) eqn:E.
  - rewrite (lookup_path_spec _ held kids _ _ rn) by done. apply Z.eqb_eq in E as ->. by rewrite bool_decide_eq_true_2.
  - unfold denotes. rewrite E. by apply (start_walk v held kids _ _ _ _ wn).
Qed.

Lemma lookup_path_at_access_spec v held kids root working path context :
  vfs_ok v held kids -> is_directory v root -> is_directory v working ->
  vfs_lookup_path_at_access v root working (Some path) (Some context)
    = Some (walk_result v (denotes v kids (Some context) root working path)).
Proof.
  intros Hok (rn & Hrn & Er)%is_directory_node (wn & Hwn & Ew)%is_directory_node. destruct path as [|c path]; [done|].
  destruct (node_range _ _ _ _ _ _ Hok Hrn) as (Hr & _ & _), (node_range _ _ _ _ _ _ Hok Hwn) as (Hw & _ & _).
  unfold vfs_lookup_path_at_access. replace (root =? 0) with false by lia. replace (working =? 0) with false by lia.
  cbn [orb]. rewrite Hrn, Hwn. cbn [mbind option_bind]. rewrite Er, Ew. cbn [negb orb]. cbv zeta. unfold denotes.
  destruct (c =? SLASH) eqn:E.
  - apply Z.eqb_eq in E as ->. rewrite from_start_slash. by apply (start_walk v held kids _ _ _ _ rn).
  - by apply (start_walk v held kids _ _ _ _ wn).
Qed.

(** The reference that a lookup returns belongs to the caller. *)
Lemma walk_result_ok v held kids check root working path r v' :
  vfs_ok v held kids -> walk_result v (denotes v kids check root working path) = (r, v') ->
  vfs_ok v' (gain held r) kids.
Proof.
  intros Hok. destruct (denotes v kids check root working path) as [x|] eqn:E; intros [= <- <-]; [|done].
  destruct (denotes_node _ _ _ _ _ _ _ E) as (k & Hk & Hr). apply (ok_bump _ _ _ _ _ k); [done..|lia].
Qed.

(** A checked search passes only directories that may be searched, and finds what the
    search without check finds. *)
Lemma resolve_checked v kids context root path :
  forall current r, resolve v kids (Some context) root current path = Some r ->
  resolve v kids None root current path = Some r /\
  forall l1 w l2, path = l1 ++ w :: l2 ->
    exists d, resolve v kids None root current l1 = Some d /\ searchable v (Some context) d = true.
Proof.
  induction path as [|x path IH]; intros current r; cbn [resolve].
  { intros Hr. split; [done|]. by intros [|? ?] w l2. }
  destruct (searchable v (Some context) current) eqn:Es; [|done]. cbn [andb].
  change (searchable v None current) with true. cbn [andb]. destruct (zlen x <? NAME_SIZE) eqn:Ez; [|done].
  intros (next & Hs & Hres)%bind_Some. destruct (IH _ _ Hres) as [Hr Hall]. rewrite Hs. split; [done|].
  intros [|y l1] w l2 Hl; [by exists current|]. injection Hl as <- Hl. destruct (Hall l1 w l2 Hl) as (d & Hd & Hsd).
  exists d. split; [|done]. cbn [resolve]. change (searchable v None current) with true. cbn [andb]. by rewrite Ez, Hs.
Qed.

(** ** Other operations *)

Lemma reference_ok v held kids p n :
  vfs_ok v held kids -> nodes v !! p = Some n ->
  exists r v', reference_to v p = Some (r, v') /\ vfs_ok v' (gain held r) kids.
Proof.
  intros Hok Hn. destruct (node_range _ _ _ _ _ _ Hok Hn) as (Hp & _ & _).
  destruct (reference_to_ok _ _ _ _ _ _ Hok Hn) as (r & -> & [[-> Hr]|[-> _]]); [exists p|by exists 0, v].
  replace (p =? 0) with false by lia. exists (bump v p). split; [done|]. unfold retainable in Hr.
  apply (ok_bump _ _ _ _ _ n); [done..|lia].
Qed.

Lemma node_touch_ok v held kids p n n' :
  vfs_ok v held kids -> nodes v !! p = Some n -> same_place n n' -> name n' = name n -> references n' = references n ->
  vfs_ok (put v p n') held kids.
Proof.
  intros Hok Hn Hsame Hname Href. destruct (ok_node _ _ _ _ Hok _ _ Hn) as [].
  eapply (ok_ext _ _ (fupd held p (held p)) _ kids); [|done|]. { intros x. symmetry. apply fupd_same. }
  apply (ok_update [] [] v held kids p n); try done.
  - apply (ok_held _ _ _ _ Hok).
  - rewrite Href, node_references0. unfold attached. by rewrite (same_parent _ _ Hsame).
  - by rewrite Href.
  - rewrite Href. intros Hz. right. apply node_used0; [done|]. apply not_elem_of_nil.
  - by rewrite Hname.
  - intros q d dn Hp Hd Hne Hdn E. rewrite Hname in E. by apply Hne, (ok_names _ _ _ _ Hok q d p dn n).
Qed.

(** Allocating memory does not change the tree. *)
Lemma ok_new_heap v held kids h hm :
  vfs_ok v held kids -> owns h hm -> (forall p, nodes v !! p <> None -> hm !! p <> None) -> vfs_ok (v<| heap := h |>) held kids.
Proof.
  intros [] Hm Hin. split; try done; [|by exists hm]. intros p n Hn. by destruct (ok_node0 p n Hn).
Qed.

Lemma linked_new f (m : gmap Z vfs_node_t) p n q l : m !! p = None -> linked f m q l -> linked f (<[p := n]> m) q l.
Proof.
  intros Hp. apply linked_ext. intros x k Hx Hk. exists k. rewrite lookup_insert_ne; [done|]. intros ->. congruence.
Qed.

(** A new node without parent and children. *)
Lemma ok_new v held kids p n :
  vfs_ok v held kids -> nodes v !! p = None -> p <> 0 -> (exists m, owns (heap v) m /\ m !! p <> None /\
    forall q, nodes v !! q <> None -> m !! q <> None) ->
  parent n = 0 -> first_child n = 0 -> child_count n = 0 -> references n = 1 -> destroying n = false ->
  0 < zlen (name n) < NAME_SIZE ->
  vfs_ok (put v p n) (gain held p) kids.
Proof.
  intros Hok Hp Hp0 (m & Hm & Hmp & Hin) N1 N2 N3 N4 N5 N6. unfold gain. replace (p =? 0) with false by lia.
  destruct (ok_gone _ _ _ _ Hok _ Hp) as [Hh Hk]. split; unfold put; cbn [nodes heap set_field].
  - intros x k [[<- <-]|[Hne Hx]]%lookup_insert_Some.
    + split; cbn [nodes set_field]; rewrite ?fupd_eq, ?Hh, ?Hk; try done; try lia.
      * unfold attached. by rewrite N1, N4.
      * rewrite N4. unfold U32_MAX. lia.
      * exists [p]. split; [done|]. split; [done|]. exists n. by rewrite lookup_insert_eq, N1.
    + destruct (ok_node _ _ _ _ Hok _ _ Hx) as []. split; cbn [nodes set_field]; rewrite ?fupd_ne by done; try done.
      * by apply linked_new.
      * destruct node_rooted0 as [l Hl]. exists l. by apply linked_new.
  - intros x. pose proof (ok_held _ _ _ _ Hok x). unfold fupd. destruct (x =? p); lia.
  - intros x [Hx Hne]%lookup_insert_None. rewrite fupd_ne by done. by apply (ok_gone _ _ _ _ Hok).
  - intros q c Hc. destruct (ok_kid _ _ _ _ Hok _ _ Hc) as (k & Hk' & E). exists k. rewrite lookup_insert_ne; [done|]. congruence.
  - intros q c d cn dn Hc Hd Hcn Hdn.
    destruct (ok_kid _ _ _ _ Hok _ _ Hc) as (k & Hk' & _), (ok_kid _ _ _ _ Hok _ _ Hd) as (k2 & Hk2 & _).
    rewrite lookup_insert_ne in Hcn, Hdn by congruence. by apply (ok_names _ _ _ _ Hok q).
  - exists m. split; [done|]. intros x Hx. destruct (decide (x = p)) as [->|Hne]; [done|].
    rewrite lookup_insert_ne in Hx by done. by apply Hin.
Qed.

Lemma create_ok v held kids nm ty uid gid m r v' :
  vfs_ok v held kids -> vfs_node_create v nm ty uid gid m = (r, v') -> vfs_ok v' (gain held r) kids.
Proof.
  intros Hok. unfold vfs_node_create. destruct nm as [s|]; [|by intros [= <- <-]].
  destruct (_ || _ || _ || _) eqn:E; [by intros [= <- <-]|]. destruct (ok_heap _ _ _ _ Hok) as (hm & Hm & Hin).
  pose proof (kmalloc_owns (heap v) hm sizeof_vfs_node Hm ltac:(done)) as Hk.
  destruct (kmalloc (heap v) sizeof_vfs_node) as [p h]. destruct Hk as [[-> Hk]|(Hp & Hno & k & _ & _ & _ & Hk)].
  - intros [= <- <-]. by apply (ok_new_heap _ _ _ _ hm).
  - replace (p =? 0) with false by lia. intros [= <- <-].
    assert (nodes v !! p = None) as Hn by (destruct (nodes v !! p) eqn:Ep; [destruct (Hin p); by rewrite ?Ep|done]).
    assert (forall q, nodes v !! q <> None -> <[p := k]> hm !! q <> None) as Hin'.
    { intros q Hq. destruct (decide (q = p)) as [->|]; [by rewrite lookup_insert_eq|rewrite lookup_insert_ne by done; auto]. }
    apply ok_new; try done.
    + by apply (ok_new_heap _ _ _ _ (<[p := k]> hm)).
    + exists (<[p := k]> hm). split; [done|]. split; [by rewrite lookup_insert_eq|done].
    + cbn [name]. unfold string_length in E. pose proof (zlen_nonneg s). lia.
Qed.

(** A search for a name or an index among the children. *)
Lemma lookup_ok v held kids p nm n :
  vfs_ok v held kids -> nodes v !! p = Some n ->
  exists r v', vfs_node_lookup v p nm = Some (r, v') /\ vfs_ok v' (gain held r) kids.
Proof.
  intros Hok Hn. destruct (node_range _ _ _ _ _ _ Hok Hn) as (Hp & _ & _). unfold vfs_node_lookup.
  destruct nm as [nm|]; [|by exists 0, v]. replace (p =? 0) with false by lia. rewrite Hn. cbn [mbind option_bind].
  destruct (negb _); [by exists 0, v|]. pose proof (node_kids _ _ _ _ _ _ (ok_node _ _ _ _ Hok _ _ Hn)) as Hk.
  destruct (find_named_spec (bound v) v (first_child n) 0 nm (kids p) Hk) as (r & -> & Hr).
  { apply linked_length in Hk. unfold bound. lia. }
  cbn [mbind option_bind]. destruct (r =? 0) eqn:Er; [by exists 0, v|]. destruct Hr as [[? _]|(_ & _ & _ & rn & Hrn & _)]; [lia|].
  rewrite Hrn. cbn [mbind option_bind]. destruct (_ || _); [by exists 0, v|].
  by apply (reference_ok v held kids r rn).
Qed.

Lemma kid_retained v held kids p c :
  vfs_ok v held kids -> c ∈ kids p -> exists n, nodes v !! c = Some n /\ c <> 0 /\ destroying n = false /\ 0 < references n.
Proof.
  intros Hok Hc. destruct (ok_kid _ _ _ _ Hok _ _ Hc) as (n & Hn & E). exists n.
  destruct (kid_parent _ _ _ _ _ _ _ Hok Hc Hn) as [_ Hp]. pose proof (ok_held _ _ _ _ Hok c).
  destruct (ok_node _ _ _ _ Hok _ _ Hn) as []. split_and!; try done. rewrite node_references0. unfold attached.
  rewrite E. replace (p =? 0) with false by lia. lia.
Qed.

Lemma find_index_spec v held kids d fuel p current index l :
  vfs_ok v held kids -> (forall c, c ∈ l -> c ∈ kids d) ->
  linked next_sibling (nodes v) p l -> (length l < fuel)%nat -> 0 <= current <= index -> is_u32 index ->
  find_index fuel v p current index = Some (default 0 (l !! Z.to_nat (index - current))).
Proof.
  intros Hok. revert p current l. induction fuel as [|fuel IH]; intros p current l Hin Hl Hf Hc Hi; [lia|].
  cbn [find_index]. destruct l as [|c l]; [by rewrite Hl|]. destruct Hl as (-> & Hc0 & n & Hn & Hl).
  destruct (kid_retained _ _ _ _ c Hok (Hin c (list_elem_of_here _ _))) as (n' & Hn' & _ & Hd & Hr).
  assert (n' = n) as -> by congruence. replace (c =? 0) with false by lia. rewrite Hn. cbn [mbind option_bind].
  rewrite Hd. replace (references n =? 0) with false by lia. cbn [negb andb]. destruct (current =? index) eqn:E.
  - apply Z.eqb_eq in E as ->. by rewrite Z.sub_diag.
  - rewrite wrap_small by (widths; lia). rewrite (IH _ (current + 1) l); [|by intros; apply Hin; right|done|simpl in Hf; lia|lia|done].
    replace (Z.to_nat (index - current)) with (S (Z.to_nat (index - (current + 1)))) by lia. done.
Qed.

Lemma node_child_ok v held kids p index n :
  vfs_ok v held kids -> nodes v !! p = Some n -> is_u32 index ->
  exists r v', vfs_node_child v p index = Some (r, v') /\ vfs_ok v' (gain held r) kids.
Proof.
  intros Hok Hn Hi. destruct (ok_node _ _ _ _ Hok _ _ Hn) as []. unfold vfs_node_child.
  replace (p =? 0) with false by lia. rewrite Hn. cbn [mbind option_bind]. destruct (negb _); [by exists 0, v|].
  rewrite (find_index_spec v held kids p _ _ _ _ (kids p)); [|done|done|done| |widths; lia|done].
  2:{ apply linked_length in node_kids0. unfold bound. lia. }
  cbn [mbind option_bind]. rewrite Z.sub_0_r. destruct (kids p !! Z.to_nat index) as [c|] eqn:E; cbn [from_option]; [|by exists 0, v].
  apply list_elem_of_lookup_2 in E. destruct (ok_kid _ _ _ _ Hok _ _ E) as (cn & Hcn & _). by apply (reference_ok v held kids c cn).
Qed.

(** ** Histories *)

Inductive vfs_call :=
| Create (nm : option (list Z)) (ty uid gid m : Z)
| Retain (p : Z)
| Release (p : Z)
| AddChild (p c : Z)
| Remove (p c : Z)
| Rename (p c : Z) (nm : option (list Z))
| Move (old new c : Z) (nm : option (list Z))
| Lookup (p : Z) (nm : option (list Z))
| Child (p index : Z)
| LookupPath (root : Z) (path : option (list Z))
| LookupPathAt (root working : Z) (path : option (list Z))
| LookupPathAccess (root working : Z) (path : option (list Z)) (context : option security_context_t)
| SetMode (p : Z) (context : option security_context_t) (m : Z)
| SetRead (p fn data : Z)
| SetWrite (p fn data : Z)
| SetTruncate (p fn : Z)
| SetDestructor (p fn : Z).

Definition flag (e : option (bool * vfs_t A)) : option (Z * vfs_t A) := '(b, v) ← e; Some (Z.b2z b, v).

Definition run v (call : vfs_call) : option (Z * vfs_t A) :=
  match call with
  | Create nm ty uid gid m => Some (vfs_node_create v nm ty uid gid m)
  | Retain p => flag (vfs_node_retain v p)
  | Release p => v ← vfs_node_release v p; Some (0, v)
  | AddChild p c => flag (vfs_node_add_child v p c)
  | Remove p c => flag (vfs_node_remove v p c)
  | Rename p c nm => flag (vfs_node_rename v p c nm)
  | Move old new c nm => flag (vfs_node_move v old new c nm)
  | Lookup p nm => vfs_node_lookup v p nm
  | Child p index => vfs_node_child v p index
  | LookupPath root path => vfs_lookup_path v root path
  | LookupPathAt root working path => vfs_lookup_path_at v root working path
  | LookupPathAccess root working path context => vfs_lookup_path_at_access v root working path context
  | SetMode p context m => flag (vfs_node_set_mode v p context m)
  | SetRead p fn data => flag (vfs_node_set_read v p fn data)
  | SetWrite p fn data => flag (vfs_node_set_write v p fn data)
  | SetTruncate p fn => flag (vfs_node_set_truncate v p fn)
  | SetDestructor p fn => flag (vfs_node_set_private_destructor v p fn)
  end.

(** The references that the clients hold after a call with the result [r]. *)
Definition account held (call : vfs_call) (r : Z) : Z -> Z :=
  match call with
  | Create _ _ _ _ _ | Lookup _ _ | Child _ _ | LookupPath _ _ | LookupPathAt _ _ _ | LookupPathAccess _ _ _ _ => gain held r
  | Retain p => if r =? 0 then held else gain held p
  | Release p => if p =? 0 then held else fupd held p (held p - 1)
  | _ => held
  end.

(** A pointer that may be passed: null or a node that exists. *)
Definition known v (p : Z) : Prop := p = 0 \/ nodes v !! p <> None.

(** Clients pass pointers to nodes that exist and give back only references they hold. *)
Definition permitted v held (call : vfs_call) : Prop :=
  match call with
  | Create _ _ _ _ _ => True
  | Release p => p = 0 \/ 0 < held p
  | AddChild p c | Remove p c | Rename p c _ | LookupPathAt p c _ | LookupPathAccess p c _ _ => known v p /\ known v c
  | Move old new c _ => known v old /\ known v new /\ known v c
  | Child p index => known v p /\ is_u32 index
  | Retain p | Lookup p _ | LookupPath p _ | SetMode p _ _ | SetRead p _ _ | SetWrite p _ _ | SetTruncate p _
  | SetDestructor p _ => known v p
  end.

Inductive history : vfs_t A -> (Z -> Z) -> Prop :=
| history_start h m : owns h m -> history (Vfs ∅ h []) (fun _ => 0)
| history_call v held call r v' :
    history v held -> permitted v held call -> run v call = Some (r, v') -> history v' (account held call r).

(** Every permitted call returns and keeps the invariant. *)
Definition served v held kids (call : vfs_call) : Prop :=
  exists r v' kids', run v call = Some (r, v') /\ vfs_ok v' (account held call r) kids'.

Lemma null_or v held kids p :
  vfs_ok v held kids -> known v p -> p = 0 \/ (p <> 0 /\ exists n, nodes v !! p = Some n).
Proof.
  intros Hok [->|Hp]; [by left|]. right. destruct (nodes v !! p) as [n|] eqn:E; [|done].
  destruct (node_range _ _ _ _ _ _ Hok E) as (? & _). eauto.
Qed.

Lemma flag_served v held kids call e :
  run v call = flag e -> (forall r, account held call r = held) ->
  (exists b v' kids', e = Some (b, v') /\ vfs_ok v' held kids') -> served v held kids call.
Proof.
  intros Hrun Hacc (b & v' & kids' & -> & Hok). exists (Z.b2z b), v', kids'. by rewrite Hrun, Hacc.
Qed.

Lemma found_served v held kids call :
  (forall r, account held call r = gain held r) ->
  (exists r v', run v call = Some (r, v') /\ vfs_ok v' (gain held r) kids) -> served v held kids call.
Proof. intros Hacc (r & v' & Hrun & Hok). exists r, v', kids. by rewrite Hacc. Qed.

Lemma null_served v held kids call :
  vfs_ok v held kids -> (forall r, account held call r = held \/ account held call r = gain held r) ->
  run v call = Some (0, v) -> served v held kids call.
Proof. intros Hok Hacc Hrun. exists 0, v, kids. split; [done|]. by destruct (Hacc 0) as [-> | ->]. Qed.

Lemma reference_calls_served v held kids call :
  vfs_ok v held kids -> permitted v held call ->
  match call with Create _ _ _ _ _ | Retain _ | Release _ => served v held kids call | _ => True end.
Proof.
  intros Hok Hp. destruct call; try done.
  - apply found_served; [done|]. cbn [run]. destruct (vfs_node_create v nm ty uid0 gid0 m) as [r v'] eqn:E.
    exists r, v'. split; [done|]. by eapply create_ok.
  - cbn [permitted] in Hp. destruct (null_or _ _ _ _ Hok Hp) as [->|(Hp0 & n & Hn)]; [by exists 0, v, kids|].
    destruct (node_range _ _ _ _ _ _ Hok Hn) as (_ & Hd & Hr). exists (Z.b2z (retainable n)). unfold served. cbn [run].
    rewrite (retain_spec _ _ n) by done. destruct (retainable n) eqn:E; unfold flag; cbn [mbind option_bind Z.b2z].
    + exists (bump v p), kids. split; [done|]. unfold retainable in E. apply (ok_bump _ _ _ _ _ n); [done..|lia].
    + by exists v, kids.
  - cbn [permitted] in Hp. destruct (decide (p = 0)) as [->|Hp0]; [by exists 0, v, kids|].
    destruct (release_ok _ _ _ _ p Hok) as (v' & E & Hok' & _); [lia|]. exists 0, v', kids. cbn [run account].
    rewrite E. by replace (p =? 0) with false by lia.
Qed.

Lemma tree_calls_served v held kids call :
  vfs_ok v held kids -> permitted v held call ->
  match call with AddChild _ _ | Remove _ _ | Rename _ _ _ | Move _ _ _ _ => served v held kids call | _ => True end.
Proof.
  intros Hok Hp. destruct call; try done; eapply flag_served; try done.
  - destruct Hp as [Hp Hc]. destruct (null_or _ _ _ _ Hok Hp) as [->|(Hp0 & n & Hn)]; [by exists false, v, kids|].
    destruct (null_or _ _ _ _ Hok Hc) as [->|(Hc0 & cn & Hcn)].
    { exists false, v, kids. unfold vfs_node_add_child. by rewrite orb_true_r. }
    destruct (add_child_ok v held kids p c) as (b & v' & kids' & E & Hok' & _); [done|congruence..|]. by exists b, v', kids'.
  - destruct Hp as [Hp Hc]. destruct (null_or _ _ _ _ Hok Hp) as [->|(Hp0 & n & Hn)]; [by exists false, v, kids|].
    destruct (null_or _ _ _ _ Hok Hc) as [->|(Hc0 & cn & Hcn)].
    { exists false, v, kids. unfold vfs_node_remove. by rewrite orb_true_r. }
    destruct (remove_ok v held kids p c) as (b & v' & kids' & E & Hok' & _); [done|congruence..|]. by exists b, v', kids'.
  - destruct Hp as [Hp Hc]. destruct nm as [nm|]; [|by exists false, v, kids].
    destruct (null_or _ _ _ _ Hok Hp) as [->|(Hp0 & n & Hn)]; [by exists false, v, kids|].
    destruct (null_or _ _ _ _ Hok Hc) as [->|(Hc0 & cn & Hcn)].
    { exists false, v, kids. unfold vfs_node_rename. by rewrite orb_true_r. }
    destruct (rename_ok v held kids p c (Some nm)) as (b & v' & E & Hok' & _); [done|congruence..|]. by exists b, v', kids.
  - destruct Hp as (Ho & Hn & Hc). destruct nm as [nm|]; [|by exists false, v, kids].
    destruct (null_or _ _ _ _ Hok Ho) as [->|(Ho0 & k & Hon)]; [by exists false, v, kids|].
    destruct (null_or _ _ _ _ Hok Hn) as [->|(Hn0 & nn & Hnn)].
    { exists false, v, kids. unfold vfs_node_move. by rewrite orb_true_r. }
    destruct (null_or _ _ _ _ Hok Hc) as [->|(Hc0 & cn & Hcn)].
    { exists false, v, kids. unfold vfs_node_move. by rewrite orb_true_r. }
    destruct (move_ok v held kids old new c (Some nm)) as (b & v' & kids' & E & Hok' & _); [done|congruence..|].
    by exists b, v', kids'.
Qed.

Lemma field_calls_served v held kids call :
  vfs_ok v held kids -> permitted v held call ->
  match call with
  | SetMode _ _ _ | SetRead _ _ _ | SetWrite _ _ _ | SetTruncate _ _ | SetDestructor _ _ => served v held kids call
  | _ => True
  end.
Proof.
  intros Hok Hp. destruct call; try done; (eapply flag_served; [done..|]); cbn [permitted] in Hp;
    (destruct (null_or _ _ _ _ Hok Hp) as [->|(Hp0 & n & Hn)]; [try by exists false, v, kids|]).
  - exists false, v, kids. by destruct context.
  - destruct context as [context|]; [|by exists false, v, kids]. unfold vfs_node_set_mode. replace (p =? 0) with false by lia.
    destruct (_ || _); [by exists false, v, kids|]. rewrite Hn. cbn [mbind option_bind]. eexists _, _, kids. split; [done|].
    destruct (_ && _ && _); [|done]. by apply (node_touch_ok _ _ _ _ n).
  - unfold vfs_node_set_read. replace (p =? 0) with false by lia. destruct (_ || _); [by exists false, v, kids|].
    rewrite Hn. cbn [mbind option_bind]. destruct (_ || _); [by exists false, v, kids|]. eexists _, _, kids. split; [done|].
    by apply (node_touch_ok _ _ _ _ n).
  - unfold vfs_node_set_write. replace (p =? 0) with false by lia. destruct (_ || _); [by exists false, v, kids|].
    rewrite Hn. cbn [mbind option_bind]. destruct (_ || _); [by exists false, v, kids|]. eexists _, _, kids. split; [done|].
    destruct (private_data _ =? 0); by apply (node_touch_ok _ _ _ _ n).
  - unfold vfs_node_set_truncate. replace (p =? 0) with false by lia. destruct (_ || _); [by exists false, v, kids|].
    rewrite Hn. cbn [mbind option_bind]. destruct (negb _); [by exists false, v, kids|]. eexists _, _, kids. split; [done|].
    by apply (node_touch_ok _ _ _ _ n).
  - unfold vfs_node_set_private_destructor. replace (p =? 0) with false by lia. destruct (_ || _); [by exists false, v, kids|].
    rewrite Hn. cbn [mbind option_bind]. destruct (_ || _); [by exists false, v, kids|]. eexists _, _, kids. split; [done|].
    by apply (node_touch_ok _ _ _ _ n).
Qed.

(** Without two directories to start from a path denotes nothing. *)
Lemma lookup_at_refused v root working path context rn wn :
  nodes v !! root = Some rn -> nodes v !! working = Some wn ->
  (type rn =? VFS_NODE_DIRECTORY) && (type wn =? VFS_NODE_DIRECTORY) = false ->
  vfs_lookup_path_at v root working path = Some (0, v) /\ vfs_lookup_path_at_access v root working path context = Some (0, v).
Proof.
  intros Hr Hw E. unfold vfs_lookup_path_at, vfs_lookup_path_at_access. rewrite Hr, Hw. cbn [mbind option_bind].
  replace (negb (type rn =? VFS_NODE_DIRECTORY) || negb (type wn =? VFS_NODE_DIRECTORY)) with true by lia.
  destruct path as [[|c path]|], context as [context|]; try done; by destruct (_ || _).
Qed.

Lemma directories v held kids root working :
  vfs_ok v held kids -> known v root -> known v working ->
  root = 0 \/ working = 0 \/ (is_directory v root /\ is_directory v working) \/
  (exists rn wn, nodes v !! root = Some rn /\ nodes v !! working = Some wn /\
     (type rn =? VFS_NODE_DIRECTORY) && (type wn =? VFS_NODE_DIRECTORY) = false).
Proof.
  intros Hok Hr Hw. destruct (null_or _ _ _ _ Hok Hr) as [->|(_ & rn & Hrn)]; [by left|].
  destruct (null_or _ _ _ _ Hok Hw) as [->|(_ & wn & Hwn)]; [right; by left|]. right. right. unfold is_directory. rewrite Hrn, Hwn.
  cbn [fmap option_fmap option_map]. destruct ((type rn =? VFS_NODE_DIRECTORY) && (type wn =? VFS_NODE_DIRECTORY)) eqn:E; [left|right].
  - split; f_equal; lia.
  - by exists rn, wn.
Qed.

Lemma path_calls_served v held kids call :
  vfs_ok v held kids -> permitted v held call ->
  match call with
  | Lookup _ _ | Child _ _ | LookupPath _ _ | LookupPathAt _ _ _ | LookupPathAccess _ _ _ _ => served v held kids call
  | _ => True
  end.
Proof.
  intros Hok Hp. assert (forall call, run v call = Some (0, v) -> (forall r, account held call r = gain held r) -> served v held kids call) as Hnull.
  { intros call' Hrun Hacc. apply null_served; auto. }
  assert (forall call root working path check, run v call = Some (walk_result v (denotes v kids check root working path)) ->
    (forall r, account held call r = gain held r) -> served v held kids call) as Hwalk.
  { intros call' root working path check Hrun Hacc. apply found_served; [done|].
    destruct (walk_result v (denotes v kids check root working path)) as [r v'] eqn:E. exists r, v'. split; [done|].
    by eapply walk_result_ok. }
  destruct call as [| | | | | | |p nm|p index|root path|root working path|root working path context| | | | |]; try done; cbn [permitted] in Hp.
  - destruct (null_or _ _ _ _ Hok Hp) as [->|(Hp0 & n & Hn)]; [apply Hnull; [by destruct nm|done]|].
    apply found_served; [done|]. by apply (lookup_ok v held kids p nm n).
  - destruct Hp as [Hp Hi]. destruct (null_or _ _ _ _ Hok Hp) as [->|(Hp0 & n & Hn)]; [by apply Hnull|].
    apply found_served; [done|]. by apply (node_child_ok v held kids p index n).
  - destruct path as [path|]; [|by apply Hnull]. destruct (null_or _ _ _ _ Hok Hp) as [->|(Hp0 & n & Hn)].
    { apply Hnull; [|done]. by destruct path. }
    pose proof (lookup_path_spec _ _ _ _ path _ Hok Hn) as E. case_bool_decide; [by eapply Hwalk|by apply Hnull].
  - destruct path as [path|]; [|by apply Hnull]. destruct Hp as [Hr Hw].
    destruct (directories _ _ _ _ _ Hok Hr Hw) as [->|[->|[[Dr Dw]|(rn & wn & Hrn & Hwn & D)]]].
    + apply Hnull; [by destruct path|done].
    + apply Hnull; [|done]. destruct path; [done|]. cbn. by rewrite orb_true_r.
    + eapply Hwalk; [by eapply lookup_path_at_spec|done].
    + apply Hnull; [|done]. by apply (lookup_at_refused _ _ _ _ None rn wn).
  - destruct path as [path|]; [|by apply Hnull]. destruct context as [context|]; [|apply Hnull; [by destruct path|done]].
    destruct Hp as [Hr Hw]. destruct (directories _ _ _ _ _ Hok Hr Hw) as [->|[->|[[Dr Dw]|(rn & wn & Hrn & Hwn & D)]]].
    + apply Hnull; [by destruct path|done].
    + apply Hnull; [|done]. destruct path; [done|]. cbn. by rewrite orb_true_r.
    + eapply Hwalk; [by eapply lookup_path_at_access_spec|done].
    + apply Hnull; [|done]. by apply (lookup_at_refused _ _ _ _ (Some context) rn wn).
Qed.

Lemma call_served v held kids call : vfs_ok v held kids -> permitted v held call -> served v held kids call.
Proof.
  intros Hok Hp. pose proof (reference_calls_served _ _ _ _ Hok Hp). pose proof (tree_calls_served _ _ _ _ Hok Hp).
  pose proof (field_calls_served _ _ _ _ Hok Hp). pose proof (path_calls_served _ _ _ _ Hok Hp). by destruct call.
Qed.

Lemma history_ok v held : history v held -> exists kids, vfs_ok v held kids.
Proof.
  induction 1 as [h m Hm|v held call r v' _ [kids Hok] Hp Hrun].
  - exists (fun _ => []). split; cbn [nodes heap]; try done; [by intros p c Hc%elem_of_nil|].
    exists m. split; [done|]. intros p []. apply lookup_empty.
  - destruct (call_served _ _ _ _ Hok Hp) as (r' & v'' & kids' & Hrun' & Hok'). rewrite Hrun in Hrun'. simplify_eq. by exists kids'.
Qed.

(** The children of every node. *)
Definition children v kids : Prop :=
  forall p n, nodes v !! p = Some n -> linked next_sibling (nodes v) (first_child n) (kids p).

Lemma ok_children v held kids : vfs_ok v held kids -> children v kids.
Proof. intros Hok p n Hn. apply (ok_node _ _ _ _ Hok _ _ Hn). Qed.

(** C6. Every history of the tree is safe: the next call returns, so it touches only nodes
    that exist and its loops end; a node has as many references as its clients hold, and
    one more in its directory; a node exists as long as a client holds it, and a node that
    exists is held, has a directory or has children; the parents of a node form a chain
    without cycle; and no two children of a directory have the same name. *)
Theorem vfs_history_safe v held :
  history v held ->
  (forall call, permitted v held call -> exists r v', run v call = Some (r, v')) /\
  (forall p n, nodes v !! p = Some n ->
     references n = held p + attached n /\ references n <= U32_MAX /\
     (0 < held p \/ parent n <> 0 \/ child_count n <> 0) /\ exists l, linked parent (nodes v) p l) /\
  (forall p, 0 < held p -> nodes v !! p <> None) /\
  (forall c d cn dn, nodes v !! c = Some cn -> nodes v !! d = Some dn -> parent cn <> 0 -> parent dn = parent cn ->
     name dn = name cn -> c = d).
Proof.
  intros Hh. destruct (history_ok _ _ Hh) as [kids Hok]. pose proof (ok_node _ _ _ _ Hok) as Hnode. split_and!.
  - intros call Hp. destruct (call_served _ _ _ _ Hok Hp) as (r & v' & _ & Hrun & _). eauto.
  - intros p n Hn. destruct (Hnode _ _ Hn) as []. split_and!; try done.
    destruct (decide (0 < held p)) as [|Hz]; [by left|]. destruct (decide (parent n = 0)) as [E|]; [|auto].
    right. right. pose proof (ok_held _ _ _ _ Hok p). unfold attached in node_references0. rewrite E in node_references0.
    assert (kids p <> []) as Hk by (apply node_used0; [simpl in *; lia|apply not_elem_of_nil]).
    rewrite node_count0. destruct (kids p); [done|]. unfold zlen. simpl. lia.
  - intros p Hp. destruct (held_exists _ _ _ _ _ Hok Hp) as (n & Hn & _). by rewrite Hn.
  - intros c d cn dn Hcn Hdn Hp E En. pose proof (node_parent _ _ _ _ _ _ (Hnode _ _ Hcn) Hp) as Hc.
    pose proof (node_parent _ _ _ _ _ _ (Hnode _ _ Hdn)) as Hd. rewrite E in Hd.
    by apply (ok_names _ _ _ _ Hok (parent cn) c d cn dn); auto.
Qed.

(** C8. A path denotes the node that its components lead to, one after the other: the lookup
    returns this node with one more reference and changes nothing else; if there is no such
    node, or a component has more than 31 characters, it returns null and changes nothing. *)
Theorem vfs_paths_resolve v held :
  history v held ->
  exists kids, children v kids /\
  forall root working path context, is_directory v root -> is_directory v working ->
    vfs_lookup_path_at v root working (Some path) = Some (walk_result v (denotes v kids None root working path)) /\
    vfs_lookup_path_at_access v root working (Some path) (Some context) =
      Some (walk_result v (denotes v kids (Some context) root working path)) /\
    vfs_lookup_path v root (Some path) =
      Some (walk_result v (if bool_decide (head path = Some SLASH) then denotes v kids None root root path else None)).
Proof.
  intros Hh. destruct (history_ok _ _ Hh) as [kids Hok]. exists kids. split; [by eapply ok_children|].
  intros root working path context Hr Hw. split_and!.
  - by apply (lookup_path_at_spec v held).
  - by apply (lookup_path_at_access_spec v held).
  - destruct (is_directory_node _ _ Hr) as (n & Hn & _). by apply (lookup_path_spec v held kids root path n).
Qed.

(** C28. A lookup that checks permissions finds only what the lookup without check finds, and
    only if the caller may search every directory on the way. *)
Theorem vfs_access_checked v held root working path context r v' :
  history v held -> is_directory v root -> is_directory v working ->
  vfs_lookup_path_at_access v root working (Some path) (Some context) = Some (r, v') -> r <> 0 ->
  vfs_lookup_path_at v root working (Some path) = Some (r, v') /\
  exists kids, children v kids /\ forall l1 w l2, components path = l1 ++ w :: l2 ->
    exists d, resolve v kids None root (if bool_decide (head path = Some SLASH) then root else working) l1 = Some d /\
      searchable v (Some context) d = true.
Proof.
  intros Hh Hr Hw Hl Hr0. destruct (history_ok _ _ Hh) as [kids Hok].
  rewrite (lookup_path_at_access_spec _ held kids) in Hl by done. rewrite (lookup_path_at_spec _ held kids) by done.
  destruct path as [|c path]; [by injection Hl as <- _|]. unfold denotes in *.
  replace (bool_decide (head (c :: path) = Some SLASH)) with (c =? SLASH).
  2:{ cbn [head]. destruct (c =? SLASH) eqn:E; symmetry; [apply bool_decide_eq_true; f_equal; lia|].
      apply bool_decide_eq_false. intros [= ->]. lia. }
  set (start := if c =? SLASH then root else working) in *.
  destruct (from_start v kids (Some context) root start (c :: path)) as [x|] eqn:E; [|by injection Hl as <- _].
  unfold from_start in *. apply bind_Some in E as (n & Hn & E). rewrite Hn. cbn [mbind option_bind].
  destruct (retainable n); [|done]. apply resolve_checked in E as [-> Hall]. split; [exact Hl|].
  exists kids. split; [by eapply ok_children|done].
Qed.

(** Moving a file takes it out of the list of one directory and puts it at the front of the
    other, under the new name, which no child of that directory had; or it fails and
    changes nothing. *)
Theorem vfs_move_spec v held old new c nm :
  history v held -> nodes v !! old <> None -> nodes v !! new <> None -> nodes v !! c <> None ->
  exists b v', vfs_node_move v old new c (Some nm) = Some (b, v') /\
    if b : bool then
      exists kids kids' l1 l2, children v kids /\ children v' kids' /\ kids old = l1 ++ c :: l2 /\
        kids' old = l1 ++ l2 /\ kids' new = c :: kids new /\ (forall q, q <> old -> q <> new -> kids' q = kids q) /\
        child_named v' kids' new nm = Some c /\ child_named v kids new nm = None
    else v' = v.
Proof.
  intros Hh Ho Hn Hc. destruct (history_ok _ _ Hh) as [kids Hok].
  destruct (move_ok v held kids old new c (Some nm)) as (b & v' & kids' & E & Hok' & Hb); try done.
  exists b, v'. split; [done|]. destruct b; [|done]. destruct Hb as (l1 & l2 & s & [= <-] & Hne & Hk & Hnot & Hname & Hfree & Hkids).
  assert (kids' new = c :: kids new) as Hnew by (rewrite Hkids; apply fupd_eq).
  exists kids, kids', l1, l2. split_and!; try done; try (by eapply ok_children).
  - rewrite Hkids, fupd_ne by done. apply fupd_eq.
  - intros q Hq1 Hq2. by rewrite Hkids, !fupd_ne.
  - unfold child_named. by rewrite Hnew, filter_cons_True.
  - unfold child_named. destruct (filter _ (kids new)) as [|d l] eqn:Ef; [done|].
    assert (d ∈ filter (fun c => name <$> nodes v !! c = Some nm) (kids new)) as Hd by (rewrite Ef; by left).
    apply list_elem_of_filter in Hd as [(dn & Hdn & Edn)%fmap_Some Hd]. by destruct (Hfree d dn Hd Hdn).
Qed.

(** The last reference. *)
Lemma release_last v p n :
  nodes v !! p = Some n -> references n = 1 -> child_count n = 0 -> destroying n = false -> p <> 0 ->
  exists v2, vfs_node_release v p = Some v2 /\ nodes v2 = delete p (nodes v).
Proof.
  intros Hn Hr Hc Hd Hp. unfold vfs_node_release, drop_reference, try_destroy. rewrite Hn. replace (p =? 0) with false by lia.
  cbn [mbind option_bind]. rewrite Hd, Hr. cbn [Z.eqb orb mbind option_bind negb]. rewrite put_lookup.
  cbn [mbind option_bind]. set (n1 := n<| references := 1 - 1 |>).
  replace (destroying n1 || negb (references n1 =? 0) || negb (child_count n1 =? 0)) with false.
  2:{ unfold n1. cbn [set_field destroying references child_count]. by rewrite Hd, Hc. }
  eexists. split; [done|]. destruct (private_destroy n1 =? 0); unfold put; cbn [nodes set_field];
    by rewrite !insert_insert_eq, delete_insert_eq.
Qed.

(** C39. Two clients that give back their last two references at the same time: the first has
    dropped its reference, the second drops its own and destroys the node, and the first
    then looks at the memory that was freed. *)
Theorem vfs_release_race v held p n :
  history v held -> nodes v !! p = Some n -> held p = 2 -> parent n = 0 -> child_count n = 0 ->
  exists v1 v2, drop_reference v p = Some (true, v1) /\ vfs_node_release v1 p = Some v2 /\
    nodes v2 !! p = None /\ try_destroy v2 p = None.
Proof.
  intros Hh Hn Hp Hpar Hc. destruct (history_ok _ _ Hh) as [kids Hok]. destruct (ok_node _ _ _ _ Hok _ _ Hn) as [].
  unfold attached in node_references0. rewrite Hpar, Hp in node_references0. cbn [Z.eqb Z.add] in node_references0.
  unfold drop_reference. rewrite Hn. cbn [mbind option_bind]. rewrite node_alive0, node_references0. cbn [Z.eqb Pos.eqb orb].
  set (n1 := n<| references := 2 - 1 |>).
  destruct (release_last (put v p n1) p n1) as (v2 & Hrel & Hv2); [apply put_lookup|done..|]. exists (put v p n1), v2.
  split; [done|]. split; [done|]. assert (nodes v2 !! p = None) as Hgone by (rewrite Hv2; apply lookup_delete_eq).
  split; [done|]. unfold try_destroy. replace (p =? 0) with false by lia. by rewrite Hgone.
Qed.

End tree.

(** ** Examples: a tree in the memory of the kernel heap *)

#[local] Existing Instances Heap.frame_counter Heap.heap_allocator Heap.heap_allocator_laws.

Abbreviation heap_vfs := (vfs_t (Heap.heap_t Z)).

Definition call_after (v : heap_vfs) (call : vfs_call) : heap_vfs := default v (snd <$> run v call).

(** The directories [/] and [/etc] and the file [/etc/x], which belongs to user 7. *)
Definition node_1 : Z := 0x40000020.
Definition node_2 : Z := node_1 + 176.
Definition node_3 : Z := node_2 + 176.
Definition str_etc : list Z := [101; 116; 99].
Definition example_calls : list vfs_call :=
  [Create (Some [SLASH]) VFS_NODE_DIRECTORY 0 0 493;
   Create (Some str_etc) VFS_NODE_DIRECTORY 0 0 493;
   AddChild node_1 node_2;
   Create (Some [120]) VFS_NODE_REGULAR 7 7 384;
   AddChild node_2 node_3].

Definition example_tree (k : nat) : heap_vfs := foldl call_after (Vfs ∅ Heap.example_start []) (take k example_calls).

Lemma example_start_owns : owns Heap.example_start ∅.
Proof.
  exists [(4064, true)]. split; [split; [cbn [Heap.tiles]; split_and!| | |]; by vm_compute|].
  intros p n. split; [done|]. intros [(? & _)|[]]. done.
Qed.

Lemma example_step (v : heap_vfs) held call r :
  history v held -> permitted v held call -> fst <$> run v call = Some r -> history (call_after v call) (account held call r).
Proof.
  intros Hh Hp Hr. eapply history_call; [exact Hh|exact Hp|]. by apply Heap.result_of.
Qed.

Lemma example_history : exists held, history (example_tree 5) held /\ held node_3 = 1 /\ held node_1 = 1.
Proof.
  pose proof (history_start _ _ example_start_owns) as H0.
  apply (example_step _ _ (Create (Some [SLASH]) VFS_NODE_DIRECTORY 0 0 493) node_1) in H0; [|done|by vm_compute].
  apply (example_step _ _ (Create (Some str_etc) VFS_NODE_DIRECTORY 0 0 493) node_2) in H0; [|done|by vm_compute].
  apply (example_step _ _ (AddChild node_1 node_2) 1) in H0; [|split; right; by vm_compute|by vm_compute].
  apply (example_step _ _ (Create (Some [120]) VFS_NODE_REGULAR 7 7 384) node_3) in H0; [|done|by vm_compute].
  apply (example_step _ _ (AddChild node_2 node_3) 1) in H0; [|split; right; by vm_compute|by vm_compute].
  eexists. split; [exact H0|]. split; by vm_compute.
Qed.

Lemma vfs_history_witness : exists held r v', history (example_tree 5) held /\ run (example_tree 5) (Remove node_2 node_3) = Some (r, v').
Proof.
  destruct example_history as (held & Hh & _). destruct (vfs_history_safe _ _ Hh) as [H1 _].
  destruct (H1 (Remove node_2 node_3)) as (r & v' & Hr); [split; right; by vm_compute|].
  exists held, r, v'. split; [exact Hh|exact Hr].
Defined.

Definition path_x : list Z := SLASH :: str_etc ++ [SLASH; SLASH; DOT; SLASH; 120].

Lemma vfs_paths_witness : exists kids, children (example_tree 5) kids /\
  vfs_lookup_path (example_tree 5) node_1 (Some path_x)
    = Some (walk_result (example_tree 5) (denotes (example_tree 5) kids None node_1 node_1 path_x)).
Proof.
  destruct example_history as (held & Hh & _). destruct (vfs_paths_resolve _ _ Hh) as (kids & Hk & Hall).
  exists kids. split; [exact Hk|].
  destruct (Hall node_1 node_1 path_x {| uid := 0; gid := 0; capabilities := 0 |}) as (_ & _ & E); [by vm_compute..|].
  rewrite bool_decide_eq_true_2 in E by reflexivity. exact E.
Defined.

Definition user_7 : security_context_t := {| uid := 7; gid := 7; capabilities := 0 |}.

Abbreviation found_x := (vfs_lookup_path_at_access (example_tree 5) node_1 node_1 (Some path_x) (Some user_7)).

Lemma found_x_result : found_x = Some (node_3, default (example_tree 5) (snd <$> found_x)).
Proof. apply Heap.result_of. by vm_compute. Qed.

Lemma vfs_access_witness :
  vfs_lookup_path_at (example_tree 5) node_1 node_1 (Some path_x) = Some (node_3, default (example_tree 5) (snd <$> found_x)).
Proof.
  destruct example_history as (held & Hh & _).
  exact (proj1 (vfs_access_checked (example_tree 5) held node_1 node_1 path_x user_7 node_3
    (default (example_tree 5) (snd <$> found_x)) Hh
    ltac:(by vm_compute) ltac:(by vm_compute) found_x_result ltac:(done))).
Defined.

Lemma vfs_move_witness : exists b v', vfs_node_move (example_tree 5) node_2 node_1 node_3 (Some [121]) = Some (b, v').
Proof.
  destruct example_history as (held & Hh & _).
  destruct (vfs_move_spec (example_tree 5) held node_2 node_1 node_3 [121] Hh) as (b & v' & E & _); [by vm_compute..|].
  exists b, v'. exact E.
Defined.

Definition example_shared : heap_vfs := call_after (example_tree 1) (Retain node_1).

Lemma example_shared_history : exists held, history example_shared held /\ held node_1 = 2.
Proof.
  pose proof (history_start _ _ example_start_owns) as H0.
  apply (example_step _ _ (Create (Some [SLASH]) VFS_NODE_DIRECTORY 0 0 493) node_1) in H0; [|done|by vm_compute].
  apply (example_step _ _ (Retain node_1) 1) in H0; [|right; by vm_compute|by vm_compute].
  eexists. split; [exact H0|by vm_compute].
Qed.

Lemma vfs_release_race_witness : exists v1 v2,
  drop_reference example_shared node_1 = Some (true, v1) /\ vfs_node_release v1 node_1 = Some v2 /\
  nodes v2 !! node_1 = None /\ try_destroy v2 node_1 = None.
Proof.
  destruct example_shared_history as (held & Hh & H2).
  destruct (nodes example_shared !! node_1) as [n|] eqn:E; [|by vm_compute in E].
  assert (parent n = 0 /\ child_count n = 0) as [Hp Hc].
  { assert (Some n = nodes example_shared !! node_1) as E' by (symmetry; exact E). vm_compute in E'. injection E' as ->. done. }
  exact (vfs_release_race example_shared held node_1 n Hh E H2 Hp Hc).
Defined.

End VfsTree.
