(* ===== verification/Inflate.v ===== *)
(** * The zlib decompressor (kernel/fs/btrfs/deflate.c)

    The decompressor reads a stream of bits, builds Huffman codes from their lengths, and
    writes literals and copies of earlier output until the last block.  The output buffer is
    the list of the bytes written so far; its capacity is an argument.  A function that
    returns 0 gives [Reject].  The loops whose number of rounds depends on the input are
    bounded by the number of bits or lengths; [Stuck] would mean that the bound was not
    enough, which is shown not to happen.  The contents of an array that are never
    initialised are never read and are not modelled, nor are the tests for null pointers. *)

From S2P Require Import Prelude.

Module Inflate.

Inductive res (A : Type) :=
| Ok (a : A)
| Reject
| Stuck.
Arguments Ok {A}.
Arguments Reject {A}.
Arguments Stuck {A}.

#[export] Instance res_bind : MBind res := fun A B f x =>
  match x with Ok a => f a | Reject => Reject | Stuck => Stuck end.

(** A call that returns 0 on failure, and its caller returns 0 too. *)
Definition get {A} (o : option A) : res A := match o with Some a => Ok a | None => Reject end.

Record bit_reader_t := { data : list Z; size : Z; bit : Z }.
#[export] Instance eta_bit_reader : Eta bit_reader_t := fun r => {| data := data r; size := size r; bit := bit r |}.

Record huffman_t := { code : list Z; length : list Z; count : Z }.

Definition reverse_bits (value cnt : Z) : Z :=
  fst (for_z 0 cnt (fun _ '(result, value) =>
    (u32 (Z.lor (Z.shiftl result 1) (Z.land value 1)), Z.shiftr value 1)) (0, value)).

Definition read_bits (r : bit_reader_t) (cnt : Z) : option (Z * bit_reader_t) :=
  let total := u32 (size r * 8) in
  if (24 <? cnt) || (total <? bit r) || (total - bit r <? cnt) then None
  else
    let one i := Z.land (Z.shiftr (data r).[Z.shiftr (bit r + i) 3] (Z.land (bit r + i) 7)) 1 in
    Some (for_z 0 cnt (fun i result => Z.lor result (Z.shiftl (one i) i)) 0, r<| bit := bit r + cnt |>).

(** [++counts[lengths[i]]] for the lengths that are not 0; none may exceed 15. *)
Fixpoint count_lengths (lengths counts : list Z) : option (list Z) :=
  match lengths with
  | [] => Some counts
  | l :: lengths =>
    if 15 <? l then None
    else count_lengths lengths (if l =? 0 then counts else counts.[l <- u16 (counts.[l] + 1)])
  end.

(** The first code of every length from [bits] on; [n] lengths are left. *)
Fixpoint first_codes (n : nat) (bits c : Z) (counts next : list Z) : option (list Z) :=
  match n with
  | O => Some next
  | S n =>
    let c := u32 (Z.shiftl (c + counts.[bits - 1]) 1) in
    let next := next.[bits <- u16 c] in
    if Z.shiftl 1 bits <? c + counts.[bits] then None
    else first_codes n (bits + 1) c counts next
  end.

(** The code of every symbol: the next one of its length. *)
Fixpoint assign_codes (lengths next : list Z) : list Z :=
  match lengths with
  | [] => []
  | l :: lengths =>
    if l =? 0 then 0 :: assign_codes lengths next
    else u16 (reverse_bits (next.[l]) l) :: assign_codes lengths (next.[l <- u16 (next.[l] + 1)])
  end.

Definition huffman_build (lengths : list Z) (cnt : Z) : option huffman_t :=
  if (cnt =? 0) || (288 <? cnt) then None
  else
    let lengths := take (Z.to_nat cnt) lengths in
    counts ← count_lengths lengths (replicate 16 0);
    next ← first_codes 15 1 0 counts (replicate 16 0);
    Some {| code := assign_codes lengths next; length := lengths; count := cnt |}.

(** The loop of [huffman_read]; [n] lengths are left. *)
Fixpoint huffman_search (n : nat) (len c : Z) (r : bit_reader_t) (tree : huffman_t) : option (Z * bit_reader_t) :=
  match n with
  | O => None
  | S n =>
    '(b, r) ← read_bits r 1;
    let c := Z.lor c (Z.shiftl b (len - 1)) in
    match find_z 0 (count tree) (fun i => ((length tree).[i] =? len) && ((code tree).[i] =? c)) with
    | Some i => Some (i, r)
    | None => huffman_search n (len + 1) c r tree
    end
  end.

Definition huffman_read (r : bit_reader_t) (tree : huffman_t) : option (Z * bit_reader_t) :=
  huffman_search 15 1 0 r tree.

(** The loop of [read_code_lengths]. *)
Fixpoint code_lengths_loop (fuel : nat) (r : bit_reader_t) (tree : huffman_t) (lengths : list Z) (position cnt : Z)
    : res (list Z * bit_reader_t) :=
  if cnt <=? position then Ok (lengths, r)
  else
    match fuel with
    | O => Stuck
    | S fuel =>
      '(symbol, r) ← get (huffman_read r tree);
      if symbol <? 16 then code_lengths_loop fuel r tree (lengths.[position <- symbol]) (position + 1) cnt
      else
        let previous := if position =? 0 then 0 else lengths.[position - 1] in
        '(repeat, previous, r) ←
          (if symbol =? 16 then
             if position =? 0 then Reject
             else '(extra, r) ← get (read_bits r 2); Ok (extra + 3, previous, r)
           else if symbol =? 17 then '(extra, r) ← get (read_bits r 3); Ok (extra + 3, 0, r)
           else if symbol =? 18 then '(extra, r) ← get (read_bits r 7); Ok (extra + 11, 0, r)
           else Reject);
        if cnt - position <? repeat then Reject
        else code_lengths_loop fuel r tree (for_z 0 repeat (fun i l => l.[position + i <- previous]) lengths)
               (position + repeat) cnt
    end.

Definition read_code_lengths (r : bit_reader_t) (tree : huffman_t) (lengths : list Z) (cnt : Z)
    : res (list Z * bit_reader_t) :=
  code_lengths_loop (Z.to_nat cnt) r tree lengths 0 cnt.

Definition fixed_lengths : list Z :=
  (fun i => if i <? 144 then 8 else if i <? 256 then 9 else if i <? 280 then 7 else 8) <$> seqZ 0 288.
Definition fixed_distances : list Z := replicate 32 5.

Definition fixed_trees : option (huffman_t * huffman_t) :=
  literal ← huffman_build fixed_lengths 288;
  distance ← huffman_build fixed_distances 32;
  Some (literal, distance).

Definition adler32 (bytes : list Z) : Z :=
  let '(a, b) := foldl (fun '(a, b) x => let a := (a + x) mod 65521 in (a, (b + a) mod 65521)) (1, 0) bytes in
  Z.lor (u32 (Z.shiftl b 16)) a.

Definition length_base : list Z :=
  [3;4;5;6;7;8;9;10;11;13;15;17;19;23;27;31;35;43;51;59;67;83;99;115;131;163;195;227;258].
Definition length_extra : list Z :=
  [0;0;0;0;0;0;0;0;1;1;1;1;2;2;2;2;3;3;3;3;4;4;4;4;5;5;5;5;0].
Definition distance_base : list Z :=
  [1;2;3;4;5;7;9;13;17;25;33;49;65;97;129;193;257;385;513;769;1025;1537;2049;3073;4097;6145;8193;12289;16385;24577].
Definition distance_extra : list Z :=
  [0;0;0;0;1;1;2;2;3;3;4;4;5;5;6;6;7;7;8;8;9;9;10;10;11;11;12;12;13;13].
Definition order : list Z := [16;17;18;0;8;7;9;6;10;5;11;4;12;3;13;2;14;1;15].

(** The bytes of a block that is stored. *)
Fixpoint copy_stored (n : nat) (r : bit_reader_t) (output : list Z) : res (bit_reader_t * list Z) :=
  match n with
  | O => Ok (r, output)
  | S n => '(byte, r) ← get (read_bits r 8); copy_stored n r (output ++ [u8 byte])
  end.

Definition stored_block (capacity : Z) (r : bit_reader_t) (output : list Z) : res (bit_reader_t * list Z) :=
  let r := r<| bit := Z.land (u32 (bit r + 7)) (u32 (Z.lnot 7)) |> in
  '(len, r) ← get (read_bits r 16);
  '(inverse, r) ← get (read_bits r 16);
  if negb (Z.land (Z.lxor len inverse) 0xffff =? 0xffff) || (u32 (capacity - zlen output) <? len)
     || (u32 (u32 (size r * 8) - u32 (len * 8)) <? bit r)
  then Reject
  else copy_stored (Z.to_nat len) r output.

(** [for (i = 0; i < hclen; ++i) code_lengths[order[i]] = read_bits(3);] *)
Fixpoint read_order (os : list Z) (r : bit_reader_t) (lengths : list Z) : option (list Z * bit_reader_t) :=
  match os with
  | [] => Some (lengths, r)
  | o :: os => '(value, r) ← read_bits r 3; read_order os r (lengths.[o <- u8 value])
  end.

Definition dynamic_trees (r : bit_reader_t) : res (huffman_t * huffman_t * bit_reader_t) :=
  '(hlit, r) ← get (read_bits r 5);
  '(hdist, r) ← get (read_bits r 5);
  '(hclen, r) ← get (read_bits r 4);
  let hlit := hlit + 257 in
  let hdist := hdist + 1 in
  let hclen := hclen + 4 in
  '(code_lengths, r) ← get (read_order (take (Z.to_nat hclen) order) r (replicate 19 0));
  code_tree ← get (huffman_build code_lengths 19);
  '(all_lengths, r) ← read_code_lengths r code_tree (replicate 320 0) (hlit + hdist);
  let literal_lengths := copy_bytes (replicate 288 0) 0 all_lengths hlit in
  let distance_lengths := copy_bytes (replicate 32 0) 0 (drop (Z.to_nat hlit) all_lengths) hdist in
  literal ← get (huffman_build literal_lengths hlit);
  distance ← get (huffman_build distance_lengths hdist);
  Ok (literal, distance, r).

(** [output[produced] = output[produced - distance], ++produced;] repeated *)
Fixpoint copy_match (n : nat) (distance : Z) (output : list Z) : list Z :=
  match n with
  | O => output
  | S n => copy_match n distance (output ++ [output.[zlen output - distance]])
  end.

Fixpoint decode_symbols (fuel : nat) (capacity : Z) (literal distance : huffman_t) (r : bit_reader_t) (output : list Z)
    : res (bit_reader_t * list Z) :=
  match fuel with
  | O => Stuck
  | S fuel =>
    '(symbol, r) ← get (huffman_read r literal);
    if symbol <? 256 then
      if capacity <=? zlen output then Reject
      else decode_symbols fuel capacity literal distance r (output ++ [u8 symbol])
    else if symbol =? 256 then Ok (r, output)
    else if 285 <? symbol then Reject
    else
      let index := symbol - 257 in
      '(extra, r) ← get (read_bits r (length_extra.[index]));
      let len := length_base.[index] + extra in
      '(dsymbol, r) ← get (huffman_read r distance);
      if 30 <=? dsymbol then Reject
      else
        '(extra, r) ← get (read_bits r (distance_extra.[dsymbol]));
        let dist := distance_base.[dsymbol] + extra in
        if (zlen output <? dist) || (capacity - zlen output <? len) then Reject
        else decode_symbols fuel capacity literal distance r (copy_match (Z.to_nat len) dist output)
  end.

(** More than the number of bits. *)
Definition bit_bound (r : bit_reader_t) : nat := S (Z.to_nat (8 * size r)).

Definition block (capacity type : Z) (r : bit_reader_t) (output : list Z) : res (bit_reader_t * list Z) :=
  if type =? 0 then stored_block capacity r output
  else
    '(literal, distance, r) ←
      (if type =? 1 then '(literal, distance) ← get fixed_trees; Ok (literal, distance, r)
       else if type =? 2 then dynamic_trees r
       else Reject);
    decode_symbols (bit_bound r) capacity literal distance r output.

(** [do ... while (!final);] *)
Fixpoint blocks (fuel : nat) (capacity : Z) (r : bit_reader_t) (output : list Z) : res (list Z) :=
  match fuel with
  | O => Stuck
  | S fuel =>
    '(final, r) ← get (read_bits r 1);
    '(type, r) ← get (read_bits r 2);
    '(r, output) ← block capacity type r output;
    if final =? 0 then blocks fuel capacity r output else Ok output
  end.

(** The bytes of the output, or [Reject] when the function returns 0. *)
Definition btrfs_zlib_inflate (input : list Z) (input_size capacity : Z) : res (list Z) :=
  if (input_size <? 6) || (capacity =? 0)
     || negb (Z.land (input.[0]) 0x0f =? 8) || (7 <? Z.shiftr (input.[0]) 4) || negb (Z.land (input.[1]) 0x20 =? 0)
     || negb (Z.lor (u16 (Z.shiftl (input.[0]) 8)) (input.[1]) mod 31 =? 0)
  then Reject
  else
    let r := {| data := drop 2 input; size := input_size - 6; bit := 0 |} in
    output ← blocks (bit_bound r) capacity r [];
    let expected := Z.lor (Z.lor (Z.lor (u32 (Z.shiftl (input.[input_size - 4]) 24)) (Z.shiftl (input.[input_size - 3]) 16))
                                 (Z.shiftl (input.[input_size - 2]) 8)) (input.[input_size - 1]) in
    if negb (adler32 output =? expected) then Reject else Ok output.

(** ** Streams of bits *)

Definition byte_bits (b : Z) : list bool := Z.testbit b <$> seqZ 0 8.
Definition to_bits (bytes : list Z) : list bool := concat (byte_bits <$> bytes).

(** The number whose bits are given, the lowest one first. *)
Definition from_bits (l : list bool) : Z := foldr (fun b v => Z.b2z b + 2 * v) 0 l.

Lemma from_bits_app l k : from_bits (l ++ k) = from_bits l + 2 ^ zlen l * from_bits k.
Proof.
  induction l as [|b l IH]; [change (from_bits k = 0 + 1 * from_bits k); lia|].
  change (Z.b2z b + 2 * from_bits (l ++ k) = Z.b2z b + 2 * from_bits l + 2 ^ zlen (b :: l) * from_bits k). rewrite IH. unfold zlen. rewrite length_cons, Nat2Z.inj_succ, Z.pow_succ_r by lia. lia.
Qed.

Lemma from_bits_range l : 0 <= from_bits l < 2 ^ zlen l.
Proof.
  induction l as [|b l IH]; [done|]. cbn [from_bits foldr]. fold (from_bits l). unfold zlen in *.
  rewrite length_cons, Nat2Z.inj_succ, Z.pow_succ_r by lia. destruct b; simpl Z.b2z; lia.
Qed.

Lemma from_bits_inj l k : zlen l = zlen k -> from_bits l = from_bits k -> l = k.
Proof.
  revert k. induction l as [|b l IH]; intros [|c k] Hl E; try done; unfold zlen in *; simpl in Hl; try lia.
  cbn [from_bits foldr] in E. fold (from_bits l) (from_bits k) in E.
  assert (b = c /\ from_bits l = from_bits k) as [-> E'] by (destruct b, c; simpl Z.b2z in E; split; lia || done).
  f_equal. apply IH; [lia|done].
Qed.

Lemma to_bits_length l : zlen (to_bits l) = 8 * zlen l.
Proof.
  induction l as [|b l IH]; [done|]. unfold to_bits, zlen in *. cbn [fmap list_fmap concat]. rewrite length_app, Nat2Z.inj_add, IH.
  simpl. lia.
Qed.

Lemma to_bits_lookup l i :
  0 <= i < 8 * zlen l -> to_bits l !! Z.to_nat i = Some (Z.testbit (l.[i / 8]) (i mod 8)).
Proof.
  revert i. induction l as [|b l IH]; intros i Hi; [unfold zlen in Hi; simpl in Hi; lia|].
  unfold to_bits. cbn [fmap list_fmap concat]. fold (to_bits l). destruct (decide (i < 8)) as [Hlt|Hge].
  - rewrite lookup_app_l by (simpl; lia). rewrite Z.div_small, Z.mod_small by lia. cbn [Z.to_nat lookup_total list_lookup_total].
    unfold byte_bits. rewrite list_lookup_fmap, lookup_seqZ_lt by lia. cbn. by rewrite Z2Nat.id by lia.
  - rewrite lookup_app_r by (simpl; lia). change (Datatypes.length (byte_bits b)) with 8%nat.
    replace (Z.to_nat i - 8)%nat with (Z.to_nat (i - 8)) by lia. rewrite IH by (unfold zlen in *; rewrite length_cons in Hi; lia).
    replace i with ((i - 8) + 1 * 8) at 3 4 by lia. rewrite Z.mod_add, Z.div_add by lia.
    replace (Z.to_nat ((i - 8) / 8 + 1)) with (S (Z.to_nat ((i - 8) / 8))); [done|].
    pose proof (Z.div_pos (i - 8) 8). lia.
Qed.

(** The number of bits that can be read. *)
Definition total (r : bit_reader_t) : Z := u32 (size r * 8).

Record reader_ok (r : bit_reader_t) : Prop := {
  ok_bit : 0 <= bit r <= total r;
  ok_data : 0 <= size r <= zlen (data r);
}.

Lemma total_bound r : 0 <= size r -> 0 <= total r <= 8 * size r /\ total r <= U32_MAX.
Proof.
  intros Hs. unfold total. pose proof (wrap_range 32 (size r * 8) ltac:(lia)).
  pose proof (Z.mod_le (size r * 8) (2 ^ 32) ltac:(lia) ltac:(lia)). fold (u32 (size r * 8)) in *. widths. lia.
Qed.

(** The bits that are left. *)
Definition stream (r : bit_reader_t) : list bool := drop (Z.to_nat (bit r)) (take (Z.to_nat (total r)) (to_bits (data r))).

Lemma stream_length r : reader_ok r -> zlen (stream r) = total r - bit r.
Proof.
  intros []. destruct (total_bound r); [lia|]. unfold stream. pose proof (to_bits_length (data r)) as Hl.
  unfold zlen in *. rewrite length_drop, length_take. lia.
Qed.

Lemma stream_lookup r i :
  reader_ok r -> 0 <= i < total r - bit r ->
  stream r !! Z.to_nat i = Some (Z.testbit ((data r).[(bit r + i) / 8]) ((bit r + i) mod 8)).
Proof.
  intros [] Hi. destruct (total_bound r); [lia|]. unfold stream. rewrite lookup_drop, lookup_take_lt by lia.
  replace (Z.to_nat (bit r) + Z.to_nat i)%nat with (Z.to_nat (bit r + i)) by lia. apply to_bits_lookup. lia.
Qed.

Lemma skip_ok r n : reader_ok r -> 0 <= n <= zlen (stream r) -> reader_ok (r<| bit := bit r + n |>).
Proof.
  intros Hok Hn. rewrite stream_length in Hn by done. destruct Hok. split; [|done].
  change (0 <= bit r + n <= total r). lia.
Qed.

Lemma skip_stream r n : reader_ok r -> 0 <= n -> stream (r<| bit := bit r + n |>) = drop (Z.to_nat n) (stream r).
Proof.
  intros [] Hn. unfold stream. change (total (r<| bit := bit r + n |>)) with (total r). cbn [set_field bit data].
  rewrite drop_drop. f_equal. lia.
Qed.

Lemma land_bit x k : 0 <= k -> Z.land (Z.shiftr x k) 1 = Z.b2z (Z.testbit x k).
Proof.
  intros Hk. change 1 with (Z.ones 1). rewrite Z.land_ones by lia. change (2 ^ 1) with 2.
  rewrite <- Z.bit0_mod, Z.shiftr_spec by lia. done.
Qed.

Lemma read_bits_spec r n :
  reader_ok r -> 0 <= n <= 24 ->
  read_bits r n = if n <=? zlen (stream r)
                  then Some (from_bits (take (Z.to_nat n) (stream r)), r<| bit := bit r + n |>) else None.
Proof.
  intros Hok Hn. pose proof (stream_length _ Hok) as Hl. pose proof Hok as []. unfold read_bits. fold (total r).
  replace (24 <? n) with false by lia. replace (total r <? bit r) with false by lia.
  cbn [orb]. replace (total r - bit r <? n) with (negb (n <=? zlen (stream r))) by lia.
  destruct (n <=? zlen (stream r)) eqn:E; cbn [negb]; [|done]. f_equal. f_equal.
  apply (for_z_ind (fun i v => v = from_bits (take (Z.to_nat i) (stream r)))); [lia|done|].
  intros i v Hi ->. pose proof (stream_lookup r i Hok ltac:(lia)) as Hb.
  replace (Z.to_nat (i + 1)) with (S (Z.to_nat i)) by lia. rewrite (take_S_r _ _ _ Hb), from_bits_app.
  destruct (bitmap_index (bit r + i)) as [-> ->]; [lia|]. rewrite land_bit by (apply Z.mod_pos_bound; lia).
  assert (zlen (take (Z.to_nat i) (stream r)) = i) as Ht by (unfold zlen in *; rewrite length_take; lia).
  pose proof (from_bits_range (take (Z.to_nat i) (stream r))) as Hr. rewrite Ht in *.
  rewrite Z.lor_comm, lor_shift_add by lia. cbn [from_bits foldr]. lia.
Qed.

(** ** Canonical codes *)

(** The lowest [n] bits of a number, the lowest one first. *)
Definition z_bits (n x : Z) : list bool := Z.testbit x <$> seqZ 0 n.

Lemma z_bits_length n x : 0 <= n -> zlen (z_bits n x) = n.
Proof. intros. unfold z_bits, zlen. rewrite length_fmap, length_seqZ. lia. Qed.

Lemma z_bits_last n x : 0 <= n -> z_bits (n + 1) x = z_bits n x ++ [Z.testbit x n].
Proof. intros Hn. unfold z_bits. by rewrite seqZ_app, fmap_app by lia. Qed.

Lemma z_bits_split n k x : 0 <= n -> 0 <= k -> z_bits (n + k) x = z_bits n x ++ z_bits k (Z.shiftr x n).
Proof.
  intros Hn Hk. unfold z_bits. rewrite seqZ_app, fmap_app by lia. f_equal. rewrite Z.add_0_l, <- (Z.add_0_r n) at 1.
  rewrite <- fmap_add_seqZ, <- list_fmap_compose. apply list_fmap_ext. intros i j Hj. cbn.
  apply list_elem_of_lookup_2, elem_of_seqZ in Hj. rewrite Z.shiftr_spec by lia. f_equal. lia.
Qed.

Lemma from_bits_z_bits n x : 0 <= n -> from_bits (z_bits n x) = x mod 2 ^ n.
Proof.
  intros Hn. revert x. pattern n. apply natlike_ind; [|clear n Hn|done].
  - intros x. by rewrite Z.mod_1_r.
  - intros n Hn IH x. rewrite <- Z.add_1_r, z_bits_last, from_bits_app, IH, z_bits_length by lia. cbn [from_bits foldr].
    rewrite Z.add_1_r, Z.pow_succ_r, (Z.mul_comm 2 (2 ^ n)), Z.rem_mul_r by lia.
    rewrite <- (Z.testbit_spec' x n) by lia. ring.
Qed.

Lemma z_bits_from_bits l : z_bits (zlen l) (from_bits l) = l.
Proof.
  apply from_bits_inj; [apply z_bits_length, zlen_nonneg|].
  rewrite from_bits_z_bits by apply zlen_nonneg. apply Z.mod_small, from_bits_range.
Qed.

Lemma zlen_reverse {B} (l : list B) : zlen (reverse l) = zlen l.
Proof. unfold zlen. by rewrite length_reverse. Qed.

Lemma reverse_bits_spec x n : 0 <= n <= 32 -> reverse_bits x n = from_bits (reverse (z_bits n x)).
Proof.
  intros Hn. unfold reverse_bits.
  assert (for_z 0 n (fun _ '(result, value) => (u32 (Z.lor (Z.shiftl result 1) (Z.land value 1)), Z.shiftr value 1)) (0, x)
          = (from_bits (reverse (z_bits n x)), Z.shiftr x n)) as ->; [|done].
  apply (for_z_ind (fun i s => s = (from_bits (reverse (z_bits i x)), Z.shiftr x i))); [lia|by rewrite Z.shiftr_0_r|].
  intros i [a v] Hi [= -> ->]. pose proof (from_bits_range (reverse (z_bits i x))) as Hr.
  rewrite zlen_reverse, z_bits_length in Hr by lia. f_equal; [|by rewrite Z.shiftr_shiftr by lia].
  rewrite z_bits_last, reverse_snoc by lia. cbn [from_bits foldr]. fold (from_bits (reverse (z_bits i x))).
  rewrite land_bit, lor_shift_add by (destruct (Z.testbit x i); simpl; lia). change (2 ^ 1) with 2. rewrite wrap_small; [lia|].
  assert (2 ^ i <= 2 ^ 31) by (apply Z.pow_le_mono_r; lia). unfold in_width. change (2 ^ 32) with (2 * 2 ^ 31).
  destruct (Z.testbit x i); simpl Z.b2z; lia.
Qed.

(** How many of the lengths are [b]. *)
Definition num (lens : list Z) (b : Z) : Z := zlen (filter (fun l => l = b) lens).

Lemma num_cons l lens b : num (l :: lens) b = (if l =? b then 1 else 0) + num lens b.
Proof.
  unfold num. destruct (l =? b) eqn:E.
  - apply Z.eqb_eq in E. rewrite filter_cons_True by done. unfold zlen. simpl. lia.
  - apply Z.eqb_neq in E. by rewrite filter_cons_False.
Qed.

Lemma num_bound lens b : 0 <= num lens b <= zlen lens.
Proof.
  induction lens as [|l lens IH]; [done|]. rewrite num_cons. unfold zlen in *. rewrite length_cons. destruct (l =? b); lia.
Qed.

(** The first code of length [b] when there are [cnt l] codes of length [l]. *)
Fixpoint first (cnt : Z -> Z) (b : nat) : Z :=
  match b with
  | O => 0
  | S b => 2 * (first cnt b + match b with O => 0 | _ => cnt (Z.of_nat b) end)
  end.

Lemma count_lengths_spec lens counts :
  Forall (fun l => 0 <= l) lens -> zlen counts = 16 ->
  (forall b, 0 <= b < 16 -> 0 <= counts.[b] /\ counts.[b] + zlen lens <= 65535) ->
  match count_lengths lens counts with
  | Some c => zlen c = 16 /\ Forall (fun l => 0 <= l <= 15) lens /\ c.[0] = counts.[0] /\
              forall b, 1 <= b < 16 -> c.[b] = counts.[b] + num lens b
  | None => ~ Forall (fun l => 0 <= l <= 15) lens
  end.
Proof.
  revert counts. induction lens as [|l lens IH]; intros counts Hl Hc Hb; cbn [count_lengths].
  { split_and!; try done. intros b _. change (num [] b) with 0. lia. }
  apply Forall_cons in Hl as [Hl0 Hl]. unfold zlen in Hb. rewrite length_cons in Hb. fold (zlen lens) in Hb.
  destruct (15 <? l) eqn:E. { intros [? _]%Forall_cons. lia. }
  set (counts' := if l =? 0 then counts else counts.[l <- u16 (counts.[l] + 1)]).
  assert (zlen counts' = 16) as Hc' by (unfold counts'; destruct (l =? 0); [done|by rewrite zlen_set]).
  assert (forall b, 0 <= b < 16 -> counts'.[b] = counts.[b] + (if (l =? b) && negb (b =? 0) then 1 else 0)) as Hv.
  { intros b Hbr. unfold counts'. destruct (l =? 0) eqn:E0; [replace ((l =? b) && _) with false by lia; lia|].
    destruct (l =? b) eqn:Eb.
    - replace b with l by lia. rewrite arr_get_eq, wrap_small by (specialize (Hb l); widths; lia).
      by replace (l =? 0) with false by lia.
    - rewrite arr_get_ne by lia. simpl. lia. }
  specialize (IH counts' Hl Hc'). destruct (count_lengths lens counts') as [c|].
  - destruct IH as (I1 & I2 & I3 & I4).
    { intros b Hbr. rewrite Hv by done. specialize (Hb b Hbr). destruct (_ && _); unfold zlen in *; lia. }
    split_and!; try done.
    + apply Forall_cons. split; [lia|done].
    + rewrite I3, Hv by lia. rewrite andb_false_r. lia.
    + intros b Hbr. rewrite I4, Hv, num_cons by lia. replace (b =? 0) with false by lia. rewrite andb_true_r. destruct (l =? b); lia.
  - intros [_ ?]%Forall_cons. apply IH; [|done].
    intros b Hbr. rewrite Hv by done. specialize (Hb b Hbr). destruct (_ && _); unfold zlen in *; lia.
Qed.

(** The codes of length at most [b] in use, as numbers of [b] bits. *)
Definition full (cnt : Z -> Z) (b : Z) : Z := first cnt (Z.to_nat b) + (if b =? 0 then 0 else cnt b).

Lemma first_succ cnt b : 0 < b -> first cnt (Z.to_nat b) = 2 * full cnt (b - 1).
Proof.
  intros Hb. unfold full. destruct (Z.to_nat b) as [|n] eqn:E; [lia|]. replace (Z.to_nat (b - 1)) with n by lia.
  cbn [first]. destruct n as [|n]; [by replace (b - 1 =? 0) with true by lia|].
  replace (b - 1 =? 0) with false by lia. by replace (Z.of_nat (S n)) with (b - 1) by lia.
Qed.

Lemma full_succ cnt b : 0 < b -> full cnt b = 2 * full cnt (b - 1) + cnt b.
Proof. intros Hb. unfold full at 1. rewrite first_succ by done. by replace (b =? 0) with false by lia. Qed.

Section counts.
Context (cnt : Z -> Z) (Hcnt : forall b, 0 <= cnt b <= 288).

Lemma full_mono a b : 0 <= a <= b -> 2 ^ (b - a) * full cnt a <= full cnt b.
Proof.
  intros Hab. replace b with (a + (b - a)) by lia. replace (a + (b - a) - a) with (b - a) by lia.
  assert (0 <= b - a) as Hd by lia. revert Hd. generalize (b - a). intros d Hd. pattern d. apply natlike_ind; [|clear d Hd|done].
  - rewrite Z.add_0_r. change (2 ^ 0) with 1. lia.
  - intros d Hd IH. rewrite Z.pow_succ_r, (full_succ _ (a + Z.succ d)) by lia.
    replace (a + Z.succ d - 1) with (a + d) by lia. pose proof (Hcnt (a + Z.succ d)). lia.
Qed.

Lemma first_codes_spec n bits c counts next :
  1 <= bits -> bits + Z.of_nat n = 16 -> zlen counts = 16 -> zlen next = 16 ->
  (forall b, 0 <= b < 16 -> counts.[b] = if b =? 0 then 0 else cnt b) ->
  c = first cnt (Z.to_nat (bits - 1)) -> full cnt (bits - 1) <= 2 ^ (bits - 1) ->
  match first_codes n bits c counts next with
  | Some nx => forall b, bits <= b < 16 -> nx.[b] = first cnt (Z.to_nat b) /\ full cnt b <= 2 ^ b
  | None => exists b, bits <= b < 16 /\ 2 ^ b < full cnt b
  end.
Proof.
  enough (forall n bits c next, 1 <= bits -> bits + Z.of_nat n = 16 -> zlen counts = 16 -> zlen next = 16 ->
    (forall b, 0 <= b < 16 -> counts.[b] = if b =? 0 then 0 else cnt b) ->
    c = first cnt (Z.to_nat (bits - 1)) -> 0 <= full cnt (bits - 1) <= 2 ^ (bits - 1) ->
    match first_codes n bits c counts next with
    | Some nx => zlen nx = 16 /\ (forall b, 0 <= b < bits -> nx.[b] = next.[b]) /\
        forall b, bits <= b < 16 -> nx.[b] = first cnt (Z.to_nat b) /\ full cnt b <= 2 ^ b
    | None => exists b, bits <= b < 16 /\ 2 ^ b < full cnt b
    end) as Hgen.
  { intros H1 H2 H3 H4 H5 H6 H7. pose proof (full_mono 0 (bits - 1) ltac:(lia)) as Hf. change (full cnt 0) with 0 in Hf.
    specialize (Hgen n bits c next H1 H2 H3 H4 H5 H6 ltac:(lia)). destruct (first_codes n bits c counts next); [|done]. apply Hgen. }
  clear n bits c next. induction n as [|n IH]; intros bits c next H1 H2 H3 H4 H5 H6 H7; cbn [first_codes].
  { split_and!; try done. lia. }
  assert (2 ^ (bits - 1) <= 2 ^ 14) by (apply Z.pow_le_mono_r; lia).
  assert (u32 (Z.shiftl (c + counts.[bits - 1]) 1) = first cnt (Z.to_nat bits)) as ->.
  { rewrite Z.shiftl_mul_pow2 by lia. change (2 ^ 1) with 2. rewrite first_succ, H6, H5 by lia. fold (full cnt (bits - 1)).
    rewrite wrap_small; [lia|]. widths. lia. }
  assert (first cnt (Z.to_nat bits) = 2 * full cnt (bits - 1)) as Hfirst by (apply first_succ; lia).
  rewrite (wrap_small 16) by (widths; lia). rewrite Z.shiftl_1_l, H5 by lia. fold (full cnt bits).
  destruct (2 ^ bits <? full cnt bits) eqn:E; [exists bits; split; lia|].
  specialize (IH (bits + 1) (first cnt (Z.to_nat bits)) (next.[bits <- first cnt (Z.to_nat bits)])).
  pose proof (full_mono 0 bits ltac:(lia)) as Hf. change (full cnt 0) with 0 in Hf.
  replace (bits + 1 - 1) with bits in IH by lia. specialize (IH ltac:(lia) ltac:(lia) H3 ltac:(by rewrite zlen_set) H5 eq_refl ltac:(lia)).
  destruct (first_codes n (bits + 1) _ counts _) as [nx|].
  - destruct IH as (I1 & I2 & I3). split_and!; try done.
    + intros b Hb. rewrite I2, arr_get_ne by lia. done.
    + intros b Hb. destruct (decide (b = bits)) as [->|]; [|apply I3; lia]. rewrite I2, arr_get_eq by lia. split; [done|lia].
  - destruct IH as (b & Hb & Hlt). exists b. split; [lia|done].
Qed.

Lemma first_codes_len n bits c counts next nx :
  zlen next = 16 -> first_codes n bits c counts next = Some nx -> zlen nx = 16.
Proof.
  revert bits c next. induction n as [|n IH]; intros bits c next Hn; cbn [first_codes]; [by intros [= <-]|].
  destruct (_ <? _); [done|]. apply IH. by rewrite zlen_set.
Qed.

(** There is a code for the lengths exactly when the last length is not overfull. *)
Lemma full_last : full cnt 15 <= 2 ^ 15 <-> forall b, 1 <= b < 16 -> full cnt b <= 2 ^ b.
Proof.
  split; [|intros Hb; apply Hb; lia]. intros Hl b Hb. pose proof (full_mono b 15 ltac:(lia)) as Hm.
  assert (2 ^ 15 = 2 ^ (15 - b) * 2 ^ b) as E by (rewrite <- Z.pow_add_r by lia; f_equal; lia). rewrite E in Hl.
  assert (0 < 2 ^ (15 - b)) by (apply Z.pow_pos_nonneg; lia). nia.
Qed.

End counts.

Lemma num_app l k b : num (l ++ k) b = num l b + num k b.
Proof. unfold num, zlen. rewrite filter_app, length_app. lia. Qed.

(** The symbols of one length are numbered in their order. *)
Lemma rank_lt lens i j b :
  0 <= i < j -> j <= zlen lens -> lens.[i] = b -> num (take (Z.to_nat i) lens) b < num (take (Z.to_nat j) lens) b.
Proof.
  intros Hi Hj Hb. replace (take (Z.to_nat j) lens) with (take (Z.to_nat i) lens ++ b :: take (Z.to_nat (j - i - 1)) (drop (Z.to_nat (i + 1)) lens)).
  - rewrite num_app, num_cons, Z.eqb_refl. pose proof (num_bound (take (Z.to_nat (j - i - 1)) (drop (Z.to_nat (i + 1)) lens)) b). lia.
  - replace (Z.to_nat j) with (Z.to_nat i + Z.to_nat (j - i))%nat by lia. rewrite <- take_take_drop. f_equal.
    rewrite (drop_S lens b (Z.to_nat i)) by (rewrite arr_lookup by (unfold zlen in *; lia); congruence).
    replace (Z.to_nat (j - i)) with (S (Z.to_nat (j - i - 1))) by lia. cbn [take]. do 3 f_equal. lia.
Qed.

Lemma arr_cons {B} `{Inhabited B} (x : B) l i : 0 < i -> (x :: l).[i] = l.[i - 1].
Proof. intros Hi. replace (Z.to_nat i) with (S (Z.to_nat (i - 1))) by lia. done. Qed.

Lemma take_cons_Z {B} (x : B) l i : 0 < i -> take (Z.to_nat i) (x :: l) = x :: take (Z.to_nat (i - 1)) l.
Proof. intros Hi. replace (Z.to_nat i) with (S (Z.to_nat (i - 1))) by lia. done. Qed.

Lemma assign_codes_spec lens next :
  Forall (fun l => 0 <= l <= 15) lens -> zlen next = 16 ->
  (forall b, 1 <= b < 16 -> 0 <= next.[b] /\ next.[b] + num lens b <= 2 ^ b) ->
  zlen (assign_codes lens next) = zlen lens /\
  forall i l, 0 <= i < zlen lens -> lens.[i] = l -> l <> 0 ->
    (assign_codes lens next).[i] = from_bits (reverse (z_bits l (next.[l] + num (take (Z.to_nat i) lens) l))).
Proof.
  revert next. induction lens as [|x lens IH]; intros next Hl Hn Hb; cbn [assign_codes]; [split; [done|unfold zlen; simpl; lia]|].
  apply Forall_cons in Hl as [Hx Hl]. unfold zlen. destruct (x =? 0) eqn:E.
  - destruct (IH next) as [I1 I2]; try done.
    { intros b Hbr. specialize (Hb b Hbr). rewrite num_cons in Hb. destruct (x =? b); lia. }
    unfold zlen in *. rewrite !length_cons. split; [lia|]. intros i l Hi Hli Hl0.
    destruct (decide (i = 0)) as [->|]; [change (x = l) in Hli; lia|]. rewrite arr_cons in Hli by lia.
    rewrite arr_cons, take_cons_Z, num_cons by lia. replace (x =? l) with false by lia. apply I2; [lia|done..].
  - assert (2 ^ x <= 2 ^ 15) by (apply Z.pow_le_mono_r; lia). change (2 ^ 15) with 32768 in *.
    pose proof (Hb x ltac:(lia)) as Hbx. rewrite num_cons, Z.eqb_refl in Hbx. pose proof (num_bound lens x).
    rewrite (wrap_small 16 (next.[x] + 1)) by (widths; lia). destruct (IH (next.[x <- next.[x] + 1])) as [I1 I2]; try done.
    { by rewrite zlen_set. }
    { intros b Hbr. specialize (Hb b Hbr). rewrite num_cons in Hb. destruct (x =? b) eqn:Ex.
      - replace b with x in * by lia. rewrite arr_get_eq by lia. lia.
      - rewrite arr_get_ne by lia. lia. }
    unfold zlen in *. rewrite !length_cons. split; [lia|]. intros i l Hi Hli Hl0. destruct (decide (i = 0)) as [->|].
    + change (x = l) in Hli. subst l. change (u16 (reverse_bits (next.[x]) x) = from_bits (reverse (z_bits x (next.[x] + num [] x)))).
      rewrite reverse_bits_spec by lia. change (num [] x) with 0. rewrite Z.add_0_r.
      pose proof (from_bits_range (reverse (z_bits x (next.[x])))) as Hr. rewrite zlen_reverse, z_bits_length in Hr by lia.
      apply wrap_small. widths. lia.
    + rewrite arr_cons in Hli by lia. rewrite arr_cons, take_cons_Z, num_cons by lia. rewrite (I2 _ l) by (done || lia). do 3 f_equal. pose proof (Forall_lookup_1 _ _ (Z.to_nat (i - 1)) l Hl) as Hlr.
      rewrite list_lookup_lookup_total_lt in Hlr by lia. specialize (Hlr ltac:(by f_equal)). destruct (x =? l) eqn:Ex.
      * replace l with x in * by lia. rewrite arr_get_eq by (unfold zlen; lia). lia.
      * rewrite arr_get_ne by lia. lia.
Qed.

(** The code of symbol [i] in the order in which its bits are read. *)
Definition codeword (lens : list Z) (i : Z) : list bool :=
  let l := lens.[i] in
  reverse (z_bits l (first (num lens) (Z.to_nat l) + num (take (Z.to_nat i) lens) l)).

(** Lengths that have a code. *)
Definition codable (lens : list Z) : Prop := Forall (fun l => 0 <= l <= 15) lens /\ full (num lens) 15 <= 2 ^ 15.

(** The tree that belongs to the lengths. *)
Record tree_of (lens : list Z) (tree : huffman_t) : Prop := {
  tree_length : length tree = lens;
  tree_count : count tree = zlen lens;
  tree_codable : codable lens;
  tree_code i : 0 <= i < zlen lens -> lens.[i] <> 0 -> (code tree).[i] = from_bits (codeword lens i);
}.

Lemma num_range lens b : zlen lens <= 288 -> 0 <= num lens b <= 288.
Proof. pose proof (num_bound lens b). lia. Qed.

Lemma zeros_get (n : nat) i : 0 <= i < Z.of_nat n -> (replicate n 0).[i] = 0.
Proof. intros. apply lookup_total_replicate_2. lia. Qed.

Lemma length_range lens i : Forall (fun l => 0 <= l <= 15) lens -> 0 <= i < zlen lens -> 0 <= lens.[i] <= 15.
Proof. intros Hl Hi. apply (Forall_lookup_total_1 _ _ _ Hl). unfold zlen in Hi. lia. Qed.

(** [huffman_build] succeeds exactly on the lengths that have a code, and computes it. *)
Lemma huffman_build_spec lens n :
  0 < n <= 288 -> n <= zlen lens -> Forall (fun l => 0 <= l) lens ->
  match huffman_build lens n with
  | Some tree => tree_of (take (Z.to_nat n) lens) tree
  | None => ~ codable (take (Z.to_nat n) lens)
  end.
Proof.
  intros Hn Hl Hpos. unfold huffman_build. replace ((n =? 0) || (288 <? n)) with false by lia. cbv zeta.
  set (ls := take (Z.to_nat n) lens). assert (zlen ls = n) as Hls by (unfold ls, zlen in *; rewrite length_take; lia).
  pose proof (count_lengths_spec ls (replicate 16 0)) as Hc. destruct (count_lengths ls (replicate 16 0)) as [counts|].
  2:{ intros [? _]. destruct Hc; try done; [by apply Forall_take|]. intros b Hb. rewrite zeros_get by lia. lia. }
  destruct Hc as (C1 & C2 & C3 & C4); try done; [by apply Forall_take|intros b Hb; rewrite zeros_get by lia; lia|].
  cbn [mbind option_bind]. assert (forall b, 0 <= b < 16 -> counts.[b] = if b =? 0 then 0 else num ls b) as Hcounts.
  { intros b Hb. destruct (b =? 0) eqn:E; [replace b with 0 by lia; by rewrite C3|]. rewrite C4, zeros_get by lia. lia. }
  pose proof (first_codes_spec (num ls) (fun b => num_range ls b ltac:(lia)) 15 1 0 counts (replicate 16 0)) as Hf.
  specialize (Hf ltac:(lia) ltac:(lia) C1 ltac:(done) Hcounts ltac:(done) ltac:(done)).
  pose proof (first_codes_len 15 1 0 counts (replicate 16 0)) as Hlen.
  destruct (first_codes 15 1 0 counts (replicate 16 0)) as [next|]; cbn [mbind option_bind].
  - destruct (assign_codes_spec ls next) as [A1 A2]; try done.
    { by apply Hlen. }
    { intros b Hb. destruct (Hf b Hb) as [-> Hfb]. unfold full in Hfb. replace (b =? 0) with false in Hfb by lia. split; [|done].
      rewrite first_succ by lia. pose proof (full_mono (num ls) (fun b => num_range ls b ltac:(lia)) 0 (b - 1) ltac:(lia)) as Hm.
      change (full (num ls) 0) with 0 in Hm. lia. }
    split; cbn [length count code]; try done.
    + split; [done|]. apply (full_last (num ls) (fun b => num_range ls b ltac:(lia))). intros b Hb. by apply Hf.
    + intros i Hi Hi0. pose proof (length_range _ _ C2 Hi) as Hr. rewrite (A2 i (ls.[i])) by done.
      assert (1 <= ls.[i] < 16) as Hr' by lia. destruct (Hf (ls.[i]) Hr') as [-> _]. done.
  - intros [_ Hfull]. destruct Hf as (b & Hb & Hlt).
    pose proof (proj1 (full_last (num ls) (fun b => num_range ls b ltac:(lia))) Hfull b Hb). lia.
Qed.

(** ** Decoding *)

Section codable.
Context (lens : list Z) (Hlen : zlen lens <= 288) (Hcodable : codable lens).

Let cnt : Z -> Z := num lens.

Lemma code_range i :
  0 <= i < zlen lens -> lens.[i] <> 0 ->
  let l := lens.[i] in
  let c := first cnt (Z.to_nat l) + num (take (Z.to_nat i) lens) l in
  1 <= l <= 15 /\ first cnt (Z.to_nat l) <= c < full cnt l /\ full cnt l <= 2 ^ l /\ 0 <= first cnt (Z.to_nat l).
Proof.
  intros Hi Hl0 l c. destruct Hcodable as [Hl Hf]. pose proof (length_range _ _ Hl Hi) as Hr. fold l in Hr.
  assert (1 <= l < 16) as Hl1 by lia. split; [lia|].
  assert (forall b, 0 <= cnt b <= 288) as Hcnt by (intros b; by apply num_range).
  pose proof (proj1 (full_last cnt Hcnt) Hf l Hl1) as Hfl. pose proof (full_mono cnt Hcnt 0 (l - 1) ltac:(lia)) as Hm.
  change (full cnt 0) with 0 in Hm. rewrite first_succ in * by lia. pose proof (num_bound (take (Z.to_nat i) lens) l).
  pose proof (rank_lt lens i (zlen lens) l ltac:(lia) ltac:(lia) eq_refl) as Hrank. rewrite (take_ge lens (Z.to_nat (zlen lens))) in Hrank by (unfold zlen; lia).
  fold (cnt l) in Hrank. rewrite (full_succ cnt l) in * by lia. unfold c. rewrite first_succ by lia. split_and!; lia.
Qed.

Lemma codeword_length i : 0 <= i < zlen lens -> zlen (codeword lens i) = lens.[i].
Proof.
  intros Hi. unfold codeword. rewrite zlen_reverse. apply z_bits_length.
  destruct Hcodable as [Hl _]. pose proof (length_range _ _ Hl Hi). lia.
Qed.

(** No code is a prefix of another one. *)
Lemma codeword_prefix i j rest :
  0 <= i < zlen lens -> 0 <= j < zlen lens -> lens.[i] <> 0 -> lens.[j] <> 0 ->
  codeword lens i = codeword lens j ++ rest -> i = j.
Proof.
  intros Hi Hj Hi0 Hj0 E. pose proof (codeword_length i Hi) as Li. pose proof (codeword_length j Hj) as Lj.
  destruct (code_range i Hi Hi0) as (I1 & I2 & I3 & I4), (code_range j Hj Hj0) as (J1 & J2 & J3 & J4).
  unfold codeword in E. set (li := lens.[i]) in *. set (lj := lens.[j]) in *.
  fold cnt in E. set (ci := first cnt (Z.to_nat li) + _) in *. set (cj := first cnt (Z.to_nat lj) + _) in *.
  assert (lj <= li) as Hle.
  { pose proof (zlen_nonneg rest). apply (f_equal zlen) in E. fold li in Li. unfold zlen in *. rewrite length_app in E.
    rewrite !length_reverse in E. pose proof (z_bits_length li ci) as Z1. pose proof (z_bits_length lj cj) as Z2. unfold zlen in *. lia. }
  assert (Z.shiftr ci (li - lj) = cj) as Hshift.
  { replace li with ((li - lj) + lj) in E at 1 by lia. rewrite z_bits_split, reverse_app in E by lia.
    apply app_inj_1 in E as [E _]; [|apply Nat2Z.inj; rewrite !length_reverse; fold (zlen (z_bits lj (Z.shiftr ci (li - lj)))) (zlen (z_bits lj cj)); by rewrite !z_bits_length by lia].
    apply (inj reverse) in E. apply (f_equal from_bits) in E. rewrite !from_bits_z_bits in E by lia.
    assert (2 ^ li = 2 ^ lj * 2 ^ (li - lj)) as E2 by (rewrite <- Z.pow_add_r by lia; f_equal; lia).
    rewrite Z.shiftr_div_pow2 in * by lia. assert (0 < 2 ^ (li - lj)) by (apply Z.pow_pos_nonneg; lia).
    rewrite !Z.mod_small in E; [done|lia|]. split; [apply Z.div_pos; lia|]. apply Z.div_lt_upper_bound; lia. }
  destruct (decide (lj = li)) as [El|Hlt].
  - rewrite El, Z.sub_diag, Z.shiftr_0_r in Hshift. destruct (Z.lt_trichotomy i j) as [Hij|[Hij|Hij]]; [|done|].
    + pose proof (rank_lt lens i j li ltac:(lia) ltac:(lia) eq_refl) as Hr. unfold ci, cj in Hshift. rewrite El in Hshift. lia.
    + pose proof (rank_lt lens j i lj ltac:(lia) ltac:(lia) eq_refl) as Hr. unfold ci, cj in Hshift. rewrite El in Hshift, Hr. lia.
  - exfalso. assert (forall b, 0 <= cnt b <= 288) as Hcnt by (intros b; by apply num_range).
    pose proof (full_mono cnt Hcnt lj (li - 1) ltac:(lia)) as Hm. pose proof (first_succ cnt li ltac:(lia)) as Hf.
    assert (2 ^ (li - lj) = 2 * 2 ^ (li - 1 - lj)) as E2 by (rewrite <- Z.pow_succ_r by lia; f_equal; lia).
    rewrite Z.shiftr_div_pow2 in Hshift by lia. assert (full cnt lj <= ci / 2 ^ (li - lj)); [|lia].
    apply Z.div_le_lower_bound; [apply Z.pow_pos_nonneg; lia|]. rewrite E2. nia.
Qed.

Context (tree : huffman_t) (Htree : tree_of lens tree).

(** What the search for a code of [k] bits finds. *)
Lemma find_code bs r :
  0 < zlen bs -> find_z 0 (count tree) (fun i => ((length tree).[i] =? zlen bs) && ((code tree).[i] =? from_bits bs)) = Some r ->
  0 <= r < zlen lens /\ lens.[r] = zlen bs /\ codeword lens r = bs.
Proof.
  intros Hbs Hf. apply find_z_Some in Hf as (Hr & Hm & _). rewrite (tree_count _ _ Htree) in Hr.
  rewrite (tree_length _ _ Htree) in Hm. apply andb_prop in Hm as [H1 H2]. split; [done|]. split; [lia|].
  apply from_bits_inj; [rewrite codeword_length by done; lia|]. rewrite <- (tree_code _ _ Htree) by (done || lia). lia.
Qed.

Lemma huffman_search_spec n i pre suf r rest :
  0 <= i < zlen lens -> codeword lens i = pre ++ suf -> suf <> [] -> Z.of_nat n + zlen pre = 15 ->
  reader_ok r -> stream r = suf ++ rest ->
  huffman_search n (zlen pre + 1) (from_bits pre) r tree = Some (i, r<| bit := bit r + zlen suf |>).
Proof.
  revert pre suf r. induction n as [|n IH]; intros pre suf r Hi Hw Hsuf Hn Hr Hs;
    (destruct suf as [|b suf]; [done|]); pose proof (codeword_length i Hi) as Hl; rewrite Hw in Hl;
    pose proof (length_range _ _ (proj1 Hcodable) Hi) as Hli; unfold zlen in Hl; rewrite length_app, length_cons in Hl.
  { unfold zlen in *. lia. }
  cbn [huffman_search]. rewrite read_bits_spec by (done || lia). rewrite Hs. cbn [app].
  replace (1 <=? zlen (b :: suf ++ rest)) with true by (unfold zlen; rewrite length_cons; lia). cbn [mbind option_bind].
  change (take (Z.to_nat 1) (b :: suf ++ rest)) with [b]. fold (zlen pre).
  replace (zlen pre + 1 - 1) with (zlen pre) by lia. pose proof (from_bits_range pre) as Hp.
  rewrite Z.lor_comm, lor_shift_add by (apply zlen_nonneg || lia).
  replace (from_bits [b] * 2 ^ zlen pre + from_bits pre) with (from_bits (pre ++ [b])) by (rewrite from_bits_app; lia).
  assert (zlen (pre ++ [b]) = zlen pre + 1) as Hpre by (unfold zlen; rewrite length_app; simpl; lia).
  assert (stream (r<| bit := bit r + 1 |>) = suf ++ rest) as Hs1 by (rewrite skip_stream, Hs by (done || lia); done).
  assert (reader_ok (r<| bit := bit r + 1 |>)) as Hr1 by (apply skip_ok; [done|]; rewrite Hs; unfold zlen; simpl; lia).
  destruct suf as [|b' suf].
  - pose proof (find_code (pre ++ [b])) as Hfind. rewrite Hpre in *.
    destruct (find_z 0 (count tree) _) as [j|] eqn:Ef.
    + destruct (Hfind j) as (Hj & Hjl & Hjw); [pose proof (zlen_nonneg pre); lia|done|].
      assert (j = i) as -> by (apply (codeword_prefix j i []); [done..| | |by rewrite app_nil_r, Hjw, Hw]; pose proof (zlen_nonneg pre); unfold zlen in *; lia).
      do 2 f_equal.
    + apply find_z_None with (i := i) in Ef; [|rewrite (tree_count _ _ Htree); lia].
      rewrite (tree_length _ _ Htree), (tree_code _ _ Htree), Hw, Z.eqb_refl in Ef by (unfold zlen in *; lia || done).
      unfold zlen in *. simpl in Hl. lia.
  - pose proof (find_code (pre ++ [b])) as Hfind. rewrite Hpre in Hfind.
    destruct (find_z 0 (count tree) _) as [j|] eqn:Ef.
    + exfalso. destruct (Hfind j) as (Hj & Hjl & Hjw); [pose proof (zlen_nonneg pre); lia|done|].
      assert (i = j) as ->. { apply (codeword_prefix i j (b' :: suf)); try done; [unfold zlen in *; lia..|]. by rewrite Hjw, Hw, <- app_assoc. }
      unfold zlen in *. rewrite length_cons in Hl. lia.
    + rewrite <- Hpre. specialize (IH (pre ++ [b]) (b' :: suf) (r<| bit := bit r + 1 |>) Hi).
      rewrite Hpre in *. rewrite IH; [|by rewrite Hw, <- app_assoc|done|lia|done|done].
      do 2 f_equal. cbn [set_field bit data size]. f_equal. unfold zlen. rewrite !length_cons. lia.
Qed.

End codable.

(** ** Streams that were written *)

(** Reading took the reader to the point where [rest] is left. *)
Record reads (r r' : bit_reader_t) (rest : list bool) : Prop := {
  reads_ok : reader_ok r';
  reads_rest : stream r' = rest;
  reads_data : data r' = data r;
  reads_size : size r' = size r;
}.

Lemma reads_skip r w rest : reader_ok r -> stream r = w ++ rest -> reads r (r<| bit := bit r + zlen w |>) rest.
Proof.
  intros Hok Hs. pose proof (zlen_nonneg w). split; try done.
  - apply skip_ok; [done|]. rewrite Hs. unfold zlen in *. rewrite length_app. lia.
  - rewrite skip_stream, Hs by done. unfold zlen. rewrite Nat2Z.id. apply drop_app_length.
Qed.

Lemma reads_trans r1 r2 r3 rest2 rest3 : reads r1 r2 rest2 -> reads r2 r3 rest3 -> reads r1 r3 rest3.
Proof. intros [] []. split; congruence. Qed.

Lemma read_value r n x rest :
  reader_ok r -> 0 <= n <= 24 -> 0 <= x < 2 ^ n -> stream r = z_bits n x ++ rest ->
  exists r', read_bits r n = Some (x, r') /\ reads r r' rest.
Proof.
  intros Hok Hn Hx Hs. exists (r<| bit := bit r + n |>). pose proof (z_bits_length n x ltac:(lia)) as Hl. split.
  - rewrite read_bits_spec by done. rewrite Hs. unfold zlen in *. rewrite length_app.
    replace (n <=? _) with true by lia. rewrite take_app_length' by lia. by rewrite from_bits_z_bits, Z.mod_small by lia.
  - rewrite <- Hl. by apply reads_skip.
Qed.

Lemma read_code lens tree r i rest :
  zlen lens <= 288 -> tree_of lens tree -> 0 <= i < zlen lens -> lens.[i] <> 0 -> reader_ok r ->
  stream r = codeword lens i ++ rest ->
  exists r', huffman_read r tree = Some (i, r') /\ reads r r' rest.
Proof.
  intros Hl Ht Hi Hi0 Hok Hs. pose proof (tree_codable _ _ Ht) as Hc. eexists. split; [|by apply reads_skip].
  apply (huffman_search_spec lens Hl Hc tree Ht 15 i [] (codeword lens i) r rest); try done.
  pose proof (codeword_length lens Hc i Hi) as Hw. intros E. rewrite E in Hw. unfold zlen in Hw. simpl in Hw. lia.
Qed.

(** What a compressor writes: literals and copies, each with the symbols and the extra bits
    that stand for its length and distance. *)
Inductive token :=
| Lit (b : Z)
| Copy (lsym lextra dsym dextra : Z).

Definition copy_len (lsym lextra : Z) : Z := length_base.[lsym - 257] + lextra.
Definition copy_dist (dsym dextra : Z) : Z := distance_base.[dsym] + dextra.

Definition token_bits (lit dist : list Z) (t : token) : list bool :=
  match t with
  | Lit b => codeword lit b
  | Copy ls le ds de =>
    codeword lit ls ++ z_bits (length_extra.[ls - 257]) le ++ codeword dist ds ++ z_bits (distance_extra.[ds]) de
  end.

Definition expand (output : list Z) (t : token) : list Z :=
  match t with
  | Lit b => output ++ [b]
  | Copy ls le ds de => copy_match (Z.to_nat (copy_len ls le)) (copy_dist ds de) output
  end.

(** The token has a code and can be written at this point. *)
Definition token_ok (lit dist : list Z) (capacity : Z) (output : list Z) (t : token) : Prop :=
  match t with
  | Lit b => 0 <= b < 256 /\ b < zlen lit /\ lit.[b] <> 0 /\ zlen output < capacity
  | Copy ls le ds de =>
    257 <= ls <= 285 /\ ls < zlen lit /\ lit.[ls] <> 0 /\ 0 <= le < 2 ^ (length_extra.[ls - 257]) /\
    0 <= ds < 30 /\ ds < zlen dist /\ dist.[ds] <> 0 /\ 0 <= de < 2 ^ (distance_extra.[ds]) /\
    copy_dist ds de <= zlen output /\ zlen output + copy_len ls le <= capacity
  end.

Fixpoint tokens_ok (lit dist : list Z) (capacity : Z) (output : list Z) (ts : list token) : Prop :=
  match ts with
  | [] => True
  | t :: ts => token_ok lit dist capacity output t /\ tokens_ok lit dist capacity (expand output t) ts
  end.

Lemma extra_range ls : 257 <= ls <= 285 -> 0 <= length_extra.[ls - 257] <= 24.
Proof.
  intros Hls. apply (Forall_lookup_total_1 (fun x => 0 <= x <= 24)); [|simpl; lia].
  repeat (constructor; [lia|]). constructor.
Qed.

Lemma distance_extra_range ds : 0 <= ds < 30 -> 0 <= distance_extra.[ds] <= 24.
Proof.
  intros Hds. apply (Forall_lookup_total_1 (fun x => 0 <= x <= 24)); [|simpl; lia].
  repeat (constructor; [lia|]). constructor.
Qed.

Section decode.
Context (lit dist : list Z) (lt dt : huffman_t) (capacity : Z).
Context (Hlit : zlen lit <= 288) (Hdist : zlen dist <= 288) (Hlt : tree_of lit lt) (Hdt : tree_of dist dt).

Lemma decode_tokens ts fuel r output rest :
  (List.length ts < fuel)%nat -> tokens_ok lit dist capacity output ts -> 256 < zlen lit -> lit.[256] <> 0 ->
  reader_ok r -> stream r = concat (token_bits lit dist <$> ts) ++ codeword lit 256 ++ rest ->
  exists r', decode_symbols fuel capacity lt dt r output = Ok (r', foldl expand output ts) /\ reads r r' rest.
Proof.
  intros Hf Hts Hend Hend0. revert fuel r output Hf Hts.
  induction ts as [|t ts IH]; intros [|fuel] r output Hf Hts Hok Hs; try (simpl in Hf; lia); cbn [decode_symbols].
  - destruct (read_code lit lt r 256 rest) as (r' & -> & Hr'); try done. by exists r'.
  - destruct Hts as [Ht Hts]. cbn [fmap list_fmap concat] in Hs. rewrite <- app_assoc in Hs. destruct t as [b|ls le ds de].
    + destruct Ht as (Hb & Hbl & Hb0 & Hcap). destruct (read_code lit lt r b _ Hlit Hlt ltac:(lia) Hb0 Hok Hs) as (r1 & -> & Hr1).
      cbn [get mbind res_bind]. replace (b <? 256) with true by lia. replace (capacity <=? zlen output) with false by lia.
      rewrite (wrap_small 8) by (widths; lia).
      destruct (IH fuel r1 (output ++ [b])) as (r' & -> & Hr'); [simpl in Hf; lia|done|apply Hr1|apply Hr1|].
      exists r'. split; [done|]. by eapply reads_trans.
    + destruct Ht as (Hls & Hlsl & Hls0 & Hle & Hds & Hdsl & Hds0 & Hde & Hd & Hc). cbn [token_bits] in Hs. rewrite <- !app_assoc in Hs.
      destruct (read_code lit lt r ls _ Hlit Hlt ltac:(lia) Hls0 Hok Hs) as (r1 & -> & Hr1). cbn [get mbind res_bind].
      replace (ls <? 256) with false by lia. replace (ls =? 256) with false by lia. replace (285 <? ls) with false by lia. cbv zeta.
      destruct (read_value r1 _ le _ (reads_ok _ _ _ Hr1) (extra_range ls Hls) Hle (reads_rest _ _ _ Hr1)) as (r2 & -> & Hr2).
      cbn [get mbind res_bind].
      destruct (read_code dist dt r2 ds _ Hdist Hdt ltac:(lia) Hds0 (reads_ok _ _ _ Hr2) (reads_rest _ _ _ Hr2)) as (r3 & -> & Hr3).
      cbn [get mbind res_bind]. replace (30 <=? ds) with false by lia.
      destruct (read_value r3 _ de _ (reads_ok _ _ _ Hr3) (distance_extra_range ds Hds) Hde (reads_rest _ _ _ Hr3)) as (r4 & -> & Hr4).
      cbn [get mbind res_bind]. fold (copy_len ls le) (copy_dist ds de).
      replace (zlen output <? copy_dist ds de) with false by lia. replace (capacity - zlen output <? copy_len ls le) with false by lia.
      cbn [orb]. destruct (IH fuel r4 (expand output (Copy ls le ds de))) as (r' & E & Hr'); [simpl in Hf; lia|done|apply Hr4|apply Hr4|].
      exists r'. split; [exact E|]. eapply reads_trans; [|exact Hr']. eapply reads_trans; [|exact Hr4].
      eapply reads_trans; [|exact Hr3]. by eapply reads_trans.
Qed.

(** Every token takes at least one bit. *)
Lemma tokens_bits ts output :
  tokens_ok lit dist capacity output ts -> (List.length ts <= List.length (concat (token_bits lit dist <$> ts)))%nat.
Proof.
  revert output. induction ts as [|t ts IH]; intros output; [done|]. intros [Ht Hts]. specialize (IH _ Hts).
  cbn [fmap list_fmap concat]. rewrite length_app, length_cons.
  assert (0 < zlen (token_bits lit dist t)); [|unfold zlen in *; lia]. pose proof (tree_codable _ _ Hlt) as Hc. destruct t as [b|ls le ds de].
  - destruct Ht as (Hb & Hbl & Hb0 & _). cbn [token_bits]. rewrite codeword_length by (done || lia).
    pose proof (length_range _ b (proj1 Hc) ltac:(lia)). lia.
  - destruct Ht as (Hls & Hlsl & Hls0 & _). pose proof (codeword_length lit Hc ls ltac:(lia)) as Hl.
    pose proof (length_range _ ls (proj1 Hc) ltac:(lia)). cbn [token_bits]. unfold zlen in *. rewrite length_app. lia.
Qed.

End decode.

(** ** The codes of a block that carries them *)

(** What stands for the lengths: a length; or a symbol from 16 to 18 and its extra bits, for
    a repetition of the last length (16) or of zero. *)
Inductive length_token :=
| Len (l : Z)
| Repeat (sym extra : Z).

Definition repeat_width (sym : Z) : Z := if sym =? 16 then 2 else if sym =? 17 then 3 else 7.
Definition repeat_base (sym : Z) : Z := if sym =? 18 then 11 else 3.
Definition repeated (sym : Z) (acc : list Z) : Z := if sym =? 16 then acc.[zlen acc - 1] else 0.

Definition length_bits (codes : list Z) (t : length_token) : list bool :=
  match t with
  | Len l => codeword codes l
  | Repeat s e => codeword codes s ++ z_bits (repeat_width s) e
  end.

Definition add_lengths (acc : list Z) (t : length_token) : list Z :=
  match t with
  | Len l => acc ++ [l]
  | Repeat s e => acc ++ replicate (Z.to_nat (e + repeat_base s)) (repeated s acc)
  end.

Definition length_token_ok (codes acc : list Z) (t : length_token) : Prop :=
  match t with
  | Len l => 0 <= l < 16 /\ codes.[l] <> 0
  | Repeat s e => 16 <= s <= 18 /\ codes.[s] <> 0 /\ 0 <= e < 2 ^ repeat_width s /\ (s = 16 -> acc <> [])
  end.

Fixpoint length_tokens_ok (codes acc : list Z) (ts : list length_token) : Prop :=
  match ts with
  | [] => True
  | t :: ts => length_token_ok codes acc t /\ length_tokens_ok codes (add_lengths acc t) ts
  end.

(** The array of lengths: the ones read so far, and zeros. *)
Lemma fill_zeros acc k n v :
  0 <= n <= Z.of_nat k ->
  for_z 0 n (fun i l => l.[zlen acc + i <- v]) (acc ++ replicate k 0) =
  (acc ++ replicate (Z.to_nat n) v) ++ replicate (k - Z.to_nat n) 0.
Proof.
  intros Hn. apply (for_z_ind (fun i l => l = (acc ++ replicate (Z.to_nat i) v) ++ replicate (k - Z.to_nat i) 0)); [lia|..].
  { by rewrite Nat.sub_0_r, app_nil_r. }
  intros i l Hi ->. replace (k - Z.to_nat i)%nat with (S (k - Z.to_nat (i + 1))) by lia. cbn [replicate].
  replace (Z.to_nat (zlen acc + i)) with (List.length (acc ++ replicate (Z.to_nat i) v) + 0)%nat
    by (unfold zlen; rewrite length_app, length_replicate; lia).
  rewrite insert_app_r. cbn [insert list_insert]. rewrite (cons_middle v), app_assoc. f_equal. rewrite <- app_assoc. f_equal.
  replace (Z.to_nat (i + 1)) with (Z.to_nat i + 1)%nat by lia. by rewrite replicate_add.
Qed.

Lemma put_zeros acc k v :
  (0 < k)%nat -> (acc ++ replicate k 0).[zlen acc <- v] = (acc ++ [v]) ++ replicate (k - 1) 0.
Proof.
  intros Hk. pose proof (fill_zeros acc k 1 v ltac:(lia)) as Hf. unfold for_z in Hf.
  change (seqZ 0 (1 - 0)) with [0] in Hf. cbn [foldl] in Hf. by rewrite Z.add_0_r in Hf.
Qed.

(** One round of the loop that reads a length, and one that repeats. *)
Lemma length_step fuel r r1 tree acc k l cnt :
  huffman_read r tree = Some (l, r1) -> l < 16 -> zlen acc < cnt -> (0 < k)%nat ->
  code_lengths_loop (S fuel) r tree (acc ++ replicate k 0) (zlen acc) cnt =
  code_lengths_loop fuel r1 tree (add_lengths acc (Len l) ++ replicate (k - 1) 0) (zlen (add_lengths acc (Len l))) cnt.
Proof.
  intros Hh Hl Hc Hk. cbn [code_lengths_loop add_lengths]. replace (cnt <=? zlen acc) with false by lia. rewrite Hh. cbn [get mbind res_bind].
  replace (l <? 16) with true by lia. rewrite put_zeros by done. f_equal. unfold zlen. rewrite length_app. simpl. lia.
Qed.

Lemma repeat_step fuel r r1 r2 tree acc k s e cnt :
  huffman_read r tree = Some (s, r1) -> 16 <= s <= 18 -> read_bits r1 (repeat_width s) = Some (e, r2) -> 0 <= e ->
  (s = 16 -> acc <> []) -> zlen acc < cnt -> cnt - zlen acc <= Z.of_nat k ->
  code_lengths_loop (S fuel) r tree (acc ++ replicate k 0) (zlen acc) cnt =
  if cnt - zlen acc <? e + repeat_base s then Reject
  else code_lengths_loop fuel r2 tree (add_lengths acc (Repeat s e) ++ replicate (k - Z.to_nat (e + repeat_base s)) 0)
         (zlen (add_lengths acc (Repeat s e))) cnt.
Proof.
  intros Hh Hs Hr He Ha Hc Hk. cbn [code_lengths_loop add_lengths]. replace (cnt <=? zlen acc) with false by lia. rewrite Hh.
  cbn [get mbind res_bind]. replace (s <? 16) with false by lia.
  assert (0 <= e + repeat_base s) as Hb by (unfold repeat_base; case_if as E; lia).
  assert (zlen acc = 0 -> acc = []) as Hnil by (unfold zlen; intros; apply nil_length_inv; lia).
  assert (0 < zlen acc -> (acc ++ replicate k 0).[zlen acc - 1] = acc.[zlen acc - 1]) as Hlast.
  { intros Hp. apply lookup_total_app_l. unfold zlen in *. lia. }
  assert (forall v, (if cnt - zlen acc <? e + repeat_base s then @Reject (list Z * bit_reader_t) else
      code_lengths_loop fuel r2 tree (for_z 0 (e + repeat_base s) (fun i l => l.[zlen acc + i <- v]) (acc ++ replicate k 0))
        (zlen acc + (e + repeat_base s)) cnt) =
    if cnt - zlen acc <? e + repeat_base s then Reject else
      code_lengths_loop fuel r2 tree ((acc ++ replicate (Z.to_nat (e + repeat_base s)) v) ++
        replicate (k - Z.to_nat (e + repeat_base s)) 0) (zlen (acc ++ replicate (Z.to_nat (e + repeat_base s)) v)) cnt) as Hfill.
  { intros v. case_if as E; [done|]. rewrite fill_zeros by lia. f_equal. unfold zlen. rewrite length_app, length_replicate. lia. }
  pose proof (zlen_nonneg acc). rewrite <- Hfill. unfold repeated, repeat_width, repeat_base in *.
  assert (s = 16 \/ s = 17 \/ s = 18) as [-> | [-> | ->]] by lia; cbn in Hr; cbn.
  - assert (zlen acc <> 0) by (intros E; by apply Ha, Hnil). replace (zlen acc =? 0) with false by lia. rewrite Hr. cbn. by rewrite Hlast by lia.
  - by rewrite Hr.
  - by rewrite Hr.
Qed.

Lemma add_lengths_grows codes acc ts :
  length_tokens_ok codes acc ts -> (List.length acc + List.length ts <= List.length (foldl add_lengths acc ts))%nat.
Proof.
  revert acc. induction ts as [|t ts IH]; intros acc; [simpl; lia|]. intros [Ht Hts]. specialize (IH _ Hts).
  assert (List.length acc < List.length (add_lengths acc t))%nat; [|simpl in *; lia].
  destruct t as [l|s e]; cbn [add_lengths length_token_ok] in *; rewrite length_app, ?length_replicate; simpl; [lia|].
  unfold repeat_base. case_if as E; lia.
Qed.

Section lengths.
Context (codes : list Z) (tree : huffman_t) (Hcodes : zlen codes = 19) (Htree : tree_of codes tree).

Lemma code_lengths_spec ts fuel r acc rest n :
  (List.length ts <= fuel)%nat -> length_tokens_ok codes acc ts -> reader_ok r ->
  stream r = concat (length_bits codes <$> ts) ++ rest -> (List.length (foldl add_lengths acc ts) <= n)%nat ->
  exists r', code_lengths_loop fuel r tree (acc ++ replicate (n - List.length acc) 0) (zlen acc) (zlen (foldl add_lengths acc ts)) =
      Ok (foldl add_lengths acc ts ++ replicate (n - List.length (foldl add_lengths acc ts)) 0, r') /\ reads r r' rest.
Proof.
  intros Hf Hts. revert fuel r acc Hf Hts. induction ts as [|t ts IH]; intros fuel r acc Hf Hts Hok Hs Hn.
  { exists r. unfold code_lengths_loop. destruct fuel; cbn [foldl]; rewrite (proj2 (Z.leb_le _ _)) by lia; by split. }
  destruct fuel as [|fuel]; [simpl in Hf; lia|]. destruct Hts as [Ht Hts]. pose proof (add_lengths_grows _ _ _ Hts) as Hg.
  cbn [foldl] in *. cbn [fmap list_fmap concat] in Hs. rewrite <- app_assoc in Hs. set (all := foldl _ _ _) in *.
  destruct t as [l|s e].
  - destruct Ht as [Hl Hl0]. destruct (read_code codes tree r l _ ltac:(lia) Htree ltac:(lia) Hl0 Hok Hs) as (r1 & Hh & Hr1).
    cbn [add_lengths] in Hg. rewrite length_app in Hg. simpl in Hg.
    rewrite (length_step fuel r r1 tree acc _ l) by (done || unfold zlen; lia).
    destruct (IH fuel r1 (add_lengths acc (Len l))) as (r' & E & Hr'); [simpl in Hf; lia|done|apply Hr1|apply Hr1|done|].
    exists r'. split; [|by eapply reads_trans]. fold all in E. rewrite <- E. do 3 f_equal. cbn [add_lengths]. rewrite length_app. simpl. lia.
  - destruct Ht as (Hsym & Hs0 & He & Ha). cbn [length_bits] in Hs. rewrite <- app_assoc in Hs.
    destruct (read_code codes tree r s _ ltac:(lia) Htree ltac:(lia) Hs0 Hok Hs) as (r1 & Hh & Hr1).
    assert (0 <= repeat_width s <= 24) as Hw by (unfold repeat_width; split_ifs; lia).
    destruct (read_value r1 _ e _ (reads_ok _ _ _ Hr1) Hw He (reads_rest _ _ _ Hr1)) as (r2 & Hb & Hr2).
    cbn [add_lengths] in Hg. rewrite length_app, length_replicate in Hg.
    assert (3 <= repeat_base s) by (unfold repeat_base; case_if as E; lia).
    rewrite (repeat_step fuel r r1 r2 tree acc _ s e) by (done || unfold zlen; lia).
    replace (_ <? _) with false by (unfold zlen; lia).
    destruct (IH fuel r2 (add_lengths acc (Repeat s e))) as (r' & E & Hr'); [simpl in Hf; lia|done|apply Hr2|apply Hr2|done|].
    exists r'. split; [|eapply reads_trans; [|exact Hr']; by eapply reads_trans]. fold all in E. rewrite <- E. do 3 f_equal.
    cbn [add_lengths]. rewrite length_app, length_replicate. lia.
Qed.

End lengths.

(** The lengths of the code for lengths, in their own order. *)
Lemma read_order_spec codes os r lengths rest :
  zlen codes = 19 -> zlen lengths = 19 -> Forall (fun o => 0 <= o < 19) os -> NoDup os ->
  Forall (fun l => 0 <= l < 8) codes -> reader_ok r -> stream r = concat ((fun o => z_bits 3 (codes.[o])) <$> os) ++ rest ->
  exists lengths' r', read_order os r lengths = Some (lengths', r') /\ zlen lengths' = 19 /\ reads r r' rest /\
    forall i, 0 <= i < 19 -> lengths'.[i] = if bool_decide (i ∈ os) then codes.[i] else lengths.[i].
Proof.
  intros Hc. revert r lengths. induction os as [|o os IH]; intros r lengths Hl Hos Hnd Hcodes Hok Hs.
  { exists lengths, r. split_and!; by try split. }
  apply Forall_cons in Hos as [Ho Hos]. apply NoDup_cons in Hnd as [Hno Hnd]. cbn [fmap list_fmap concat] in Hs.
  rewrite <- app_assoc in Hs. assert (0 <= codes.[o] < 8) as Hco.
  { apply (Forall_lookup_total_1 _ _ _ Hcodes). unfold zlen in *. lia. }
  destruct (read_value r 3 _ _ Hok ltac:(lia) Hco Hs) as (r1 & E1 & Hr1). cbn [read_order]. rewrite E1. cbn [mbind option_bind].
  destruct (IH r1 (lengths.[o <- u8 (codes.[o])])) as (l' & r' & E & Hl' & Hr' & Hg);
    [by rewrite zlen_set|done|done|done|apply Hr1|apply Hr1|].
  exists l', r'. split_and!; [done|done|by eapply reads_trans|]. intros i Hi. rewrite Hg by done.
  destruct (decide (i = o)) as [-> |Hne].
  - rewrite bool_decide_eq_false_2, bool_decide_eq_true_2, arr_get_eq by (try set_solver; lia). apply wrap_small. widths. lia.
  - rewrite arr_get_ne by lia. do 2 case_bool_decide; done || set_solver.
Qed.

(** What a block says about its codes: the lengths of the code for lengths and how many of
    them are written, the tokens for the lengths, and how many belong to the literals. *)
Record code_header := { h_codes : list Z; h_clen : Z; h_tokens : list length_token; h_lit : Z }.

Definition h_lengths (h : code_header) : list Z := foldl add_lengths [] (h_tokens h).
Definition h_literals (h : code_header) : list Z := take (Z.to_nat (h_lit h)) (h_lengths h).
Definition h_distances (h : code_header) : list Z := drop (Z.to_nat (h_lit h)) (h_lengths h).

Definition header_bits (h : code_header) : list bool :=
  z_bits 5 (h_lit h - 257) ++ z_bits 5 (zlen (h_distances h) - 1) ++ z_bits 4 (h_clen h - 4) ++
  concat ((fun o => z_bits 3 ((h_codes h).[o])) <$> take (Z.to_nat (h_clen h)) order) ++
  concat (length_bits (h_codes h) <$> h_tokens h).

Record header_ok (h : code_header) : Prop := {
  ok_codes : zlen (h_codes h) = 19 /\ Forall (fun l => 0 <= l < 8) (h_codes h) /\ codable (h_codes h);
  ok_clen : 4 <= h_clen h <= 19;
  ok_left_out o : o ∈ drop (Z.to_nat (h_clen h)) order -> (h_codes h).[o] = 0;
  ok_tokens : length_tokens_ok (h_codes h) [] (h_tokens h);
  ok_counts : 257 <= h_lit h <= 288 /\ h_lit h < zlen (h_lengths h) <= h_lit h + 32;
  ok_literals : codable (h_literals h);
  ok_distances : codable (h_distances h);
}.

Lemma huffman_build_ok lens n ls :
  0 < n <= 288 -> n <= zlen lens -> Forall (fun l => 0 <= l) lens -> take (Z.to_nat n) lens = ls -> codable ls ->
  exists t, huffman_build lens n = Some t /\ tree_of ls t.
Proof.
  intros Hn Hl Hp Ht Hc. pose proof (huffman_build_spec lens n Hn Hl Hp) as Hs. rewrite Ht in Hs.
  destruct (huffman_build lens n) as [t|]; [by exists t|done].
Qed.

(** The lengths of one of the two codes are copied out of the array of all lengths. *)
Lemma copied_lengths (n : nat) all cnt :
  0 < cnt <= Z.of_nat n -> (n <= 288)%nat -> cnt <= zlen all -> Forall (fun l => 0 <= l) all -> codable (take (Z.to_nat cnt) all) ->
  exists t, huffman_build (copy_bytes (replicate n 0) 0 all cnt) cnt = Some t /\ tree_of (take (Z.to_nat cnt) all) t.
Proof.
  intros Hc Hn Ha Hp Hcod. assert (zlen (replicate n 0) = Z.of_nat n) as Hz by (unfold zlen; by rewrite length_replicate).
  rewrite copy_bytes_spec by lia. change (take (Z.to_nat 0) _) with (@nil Z). rewrite app_nil_l, Z.add_0_l.
  apply huffman_build_ok; [lia|..|done].
  - unfold zlen in *. rewrite length_app, length_take. lia.
  - apply Forall_app. split; [by apply Forall_take|]. apply Forall_drop, Forall_replicate. lia.
  - rewrite take_app_le, take_take by (rewrite length_take; unfold zlen in Ha; lia). f_equal. lia.
Qed.

Lemma order_ok : Forall (fun o => 0 <= o < 19) order /\ NoDup order /\ forall i, 0 <= i < 19 -> i ∈ order.
Proof.
  split_and!; [by apply (bool_decide_unpack _); vm_compute..|]. intros i Hi.
  assert (Forall (fun i => i ∈ order) (seqZ 0 19)) as Hf by (by apply (bool_decide_unpack _); vm_compute).
  eapply Forall_forall in Hf; [exact Hf|]. apply elem_of_seqZ. lia.
Qed.

Lemma read_codes_spec h r rest :
  zlen (h_codes h) = 19 -> Forall (fun l => 0 <= l < 8) (h_codes h) ->
  (forall o, o ∈ drop (Z.to_nat (h_clen h)) order -> (h_codes h).[o] = 0) -> reader_ok r ->
  stream r = concat ((fun o => z_bits 3 ((h_codes h).[o])) <$> take (Z.to_nat (h_clen h)) order) ++ rest ->
  exists r', read_order (take (Z.to_nat (h_clen h)) order) r (replicate 19 0) = Some (h_codes h, r') /\ reads r r' rest.
Proof.
  intros C1 C2 C5 Hok Hs. destruct order_ok as (O1 & O2 & O3). pose proof (take_drop (Z.to_nat (h_clen h)) order) as Ho.
  rewrite <- Ho in O2. apply NoDup_app in O2 as (O4 & _ & _).
  destruct (read_order_spec (h_codes h) (take (Z.to_nat (h_clen h)) order) r (replicate 19 0) rest C1 eq_refl
    ltac:(by apply Forall_take) O4 C2 Hok Hs) as (l' & r' & -> & Hl' & Hr' & Hg).
  exists r'. split; [|done]. do 2 f_equal. rewrite <- (arr_seq l' 19 Hl'), <- (arr_seq (h_codes h) 19 C1). apply list_fmap_ext. intros k i Hk.
  apply lookup_seqZ in Hk as [-> Hk]. rewrite Hg by lia. case_bool_decide as Hin; [done|]. rewrite zeros_get by lia. symmetry.
  apply C5. specialize (O3 (0 + Z.of_nat k) ltac:(lia)). rewrite <- Ho in O3. by apply elem_of_app in O3 as [|].
Qed.

Lemma dynamic_trees_spec h r rest :
  header_ok h -> reader_ok r -> stream r = header_bits h ++ rest ->
  exists lt dt r', dynamic_trees r = Ok (lt, dt, r') /\ tree_of (h_literals h) lt /\ tree_of (h_distances h) dt /\ reads r r' rest.
Proof.
  intros [(C1 & C2 & C3) C4 C5 C6 (C7 & C8) C9 C10] Hok Hs. unfold header_bits in Hs. rewrite <- !app_assoc in Hs.
  assert (zlen (h_literals h) = h_lit h) as Hll by (unfold h_literals, zlen in *; rewrite length_take; lia).
  assert (zlen (h_distances h) = zlen (h_lengths h) - h_lit h) as Hdl by (unfold h_distances, zlen in *; rewrite length_drop; lia).
  unfold dynamic_trees.
  destruct (read_value r 5 (h_lit h - 257) _ Hok ltac:(lia) ltac:(lia) Hs) as (r1 & -> & Hr1). cbn [get mbind res_bind].
  destruct (read_value r1 5 (zlen (h_distances h) - 1) _ (reads_ok _ _ _ Hr1) ltac:(lia) ltac:(lia) (reads_rest _ _ _ Hr1)) as (r2 & -> & Hr2). cbn [get mbind res_bind].
  destruct (read_value r2 4 (h_clen h - 4) _ (reads_ok _ _ _ Hr2) ltac:(lia) ltac:(lia) (reads_rest _ _ _ Hr2)) as (r3 & -> & Hr3). cbn [get mbind res_bind].
  rewrite !Z.sub_add.
  destruct (read_codes_spec h r3 _ C1 C2 C5 (reads_ok _ _ _ Hr3) (reads_rest _ _ _ Hr3)) as (r4 & -> & Hr4). cbn [get mbind res_bind].
  destruct (huffman_build_ok (h_codes h) 19 (h_codes h)) as (ct & -> & Hct); [lia|lia| |apply take_ge; unfold zlen in C1; lia|done|].
  { eapply Forall_impl; [exact C2|]. cbn. lia. }
  cbn [get mbind res_bind]. unfold read_code_lengths. pose proof (add_lengths_grows _ _ _ C6) as Hgr. fold (h_lengths h) in Hgr.
  destruct (code_lengths_spec (h_codes h) ct C1 Hct (h_tokens h) (Z.to_nat (zlen (h_lengths h))) r4 [] rest 320) as (r5 & E5 & Hr5);
    [unfold zlen; cbn in Hgr; lia|done|apply Hr4|apply Hr4|fold (h_lengths h); unfold zlen in *; lia|].
  fold (h_lengths h) in E5. replace (h_lit h + zlen (h_distances h)) with (zlen (h_lengths h)) by lia.
  change ([] ++ replicate (320 - List.length []) 0) with (replicate 320 0) in E5. change (zlen []) with 0 in E5.
  rewrite E5. cbn [get mbind res_bind]. set (all := h_lengths h ++ _).
  assert (Forall (fun l => 0 <= l) all) as Hpos.
  { apply Forall_app. split; [|apply Forall_replicate; lia]. rewrite <- (take_drop (Z.to_nat (h_lit h)) (h_lengths h)).
    apply Forall_app. split; (eapply Forall_impl; [apply C9 || apply C10|cbn; lia]). }
  assert (take (Z.to_nat (h_lit h)) all = h_literals h) as Ht by (apply take_app_le; unfold zlen in *; lia).
  assert (take (Z.to_nat (zlen (h_distances h))) (drop (Z.to_nat (h_lit h)) all) = h_distances h) as Hd.
  { unfold all. rewrite drop_app_le by (unfold zlen in *; lia). apply take_app_length'. unfold zlen. fold (h_distances h). lia. }
  assert (zlen all = 320) as Hall by (unfold all, zlen in *; rewrite length_app, length_replicate; lia).
  destruct (copied_lengths 288 all (h_lit h)) as (lt & -> & Hlt); [lia|lia|lia|done|by rewrite Ht|]. cbn [get mbind res_bind].
  destruct (copied_lengths 32 (drop (Z.to_nat (h_lit h)) all) (zlen (h_distances h))) as (dt & -> & Hdt);
    [lia|lia|unfold zlen in *; rewrite length_drop; lia|by apply Forall_drop|by rewrite Hd|]. cbn [get mbind res_bind].
  exists lt, dt, r5. rewrite Ht in Hlt. rewrite Hd in Hdt. split_and!; [done..|]. eapply reads_trans; [|exact Hr5].
  eapply reads_trans; [|exact Hr4]. eapply reads_trans; [|exact Hr3]. by eapply reads_trans.
Qed.

(** ** Whole streams *)

Inductive block_content :=
| StoredBlock (bytes : list Z)
| FixedBlock (ts : list token)
| DynamicBlock (h : code_header) (ts : list token).

Definition padding (pos : Z) : list bool := replicate (Z.to_nat ((- pos) mod 8)) false.

(** The bits of a block behind its header, which ends at the position [pos]. *)
Definition block_bits (pos : Z) (b : block_content) : list bool :=
  match b with
  | StoredBlock bytes => padding pos ++ z_bits 16 (zlen bytes) ++ z_bits 16 (65535 - zlen bytes) ++ to_bits bytes
  | FixedBlock ts => concat (token_bits fixed_lengths fixed_distances <$> ts) ++ codeword fixed_lengths 256
  | DynamicBlock h ts =>
    header_bits h ++ concat (token_bits (h_literals h) (h_distances h) <$> ts) ++ codeword (h_literals h) 256
  end.

Definition type_of (b : block_content) : Z :=
  match b with StoredBlock _ => 0 | FixedBlock _ => 1 | DynamicBlock _ _ => 2 end.

Definition one_block (pos : Z) (b : block_content) (last : bool) : list bool :=
  z_bits 1 (Z.b2z last) ++ z_bits 2 (type_of b) ++ block_bits (pos + 3) b.

Fixpoint stream_bits (pos : Z) (bs : list block_content) : list bool :=
  match bs with
  | [] => []
  | b :: bs =>
    let bits := one_block pos b (bool_decide (bs = [])) in
    bits ++ stream_bits (pos + zlen bits) bs
  end.

Definition contents (output : list Z) (b : block_content) : list Z :=
  match b with StoredBlock bytes => output ++ bytes | FixedBlock ts | DynamicBlock _ ts => foldl expand output ts end.

Definition block_ok (capacity : Z) (output : list Z) (b : block_content) : Prop :=
  match b with
  | StoredBlock bytes => zlen bytes <= 65535 /\ Forall is_u8 bytes /\ zlen output + zlen bytes <= capacity
  | FixedBlock ts => tokens_ok fixed_lengths fixed_distances capacity output ts
  | DynamicBlock h ts =>
    header_ok h /\ (h_literals h).[256] <> 0 /\ tokens_ok (h_literals h) (h_distances h) capacity output ts
  end.

Fixpoint blocks_ok (capacity : Z) (output : list Z) (bs : list block_content) : Prop :=
  match bs with
  | [] => True
  | b :: bs => block_ok capacity output b /\ blocks_ok capacity (contents output b) bs
  end.

Lemma codable_check l : bool_decide (Forall (fun l => 0 <= l <= 15) l) = true -> full (num l) 15 <= 2 ^ 15 -> codable l.
Proof. intros Hl Hf. split; [by apply bool_decide_eq_true in Hl|done]. Qed.

Lemma fixed_codable : codable fixed_lengths /\ codable fixed_distances.
Proof. split; apply codable_check; by vm_compute. Qed.

Lemma fixed_trees_spec :
  exists lt dt, fixed_trees = Some (lt, dt) /\ tree_of fixed_lengths lt /\ tree_of fixed_distances dt.
Proof.
  destruct fixed_codable as [H1 H2]. unfold fixed_trees.
  assert (forall l n, zlen l = n -> 0 < n <= 288 -> codable l -> exists t, huffman_build l n = Some t /\ tree_of l t) as Hb.
  { intros l n Hl Hn Hc. pose proof (huffman_build_spec l n Hn ltac:(lia)) as Hs.
    rewrite take_ge in Hs by (unfold zlen in Hl; lia). assert (Forall (fun x => 0 <= x) l) as Hp.
    { eapply Forall_impl; [apply Hc|]. cbn. lia. }
    specialize (Hs Hp). destruct (huffman_build l n) as [t|]; [by exists t|done]. }
  destruct (Hb fixed_lengths 288) as (lt & -> & Hlt); [by vm_compute|lia|done|].
  destruct (Hb fixed_distances 32) as (dt & -> & Hdt); [by vm_compute|lia|done|]. by exists lt, dt.
Qed.

Lemma aligned pos : 0 <= pos -> pos + 7 <= U32_MAX -> Z.land (u32 (pos + 7)) (u32 (Z.lnot 7)) = pos + (- pos) mod 8.
Proof.
  intros Hp Hm. rewrite (wrap_small 32 (pos + 7)) by (widths; lia). unfold wrap. rewrite <- (Z.land_ones (Z.lnot 7)) by lia.
  rewrite Z.land_assoc, <- Z.ldiff_land. change 7 with (Z.ones 3) at 2. rewrite Z.ldiff_ones_r, Z.land_ones by lia.
  rewrite Z.shiftr_div_pow2, Z.shiftl_mul_pow2 by lia. change (2 ^ 3) with 8. rewrite Z.mod_small; zlia.
Qed.

Lemma complement x : 0 <= x <= 65535 -> Z.land (Z.lxor x (65535 - x)) 0xffff = 0xffff.
Proof.
  intros Hx. assert (Z.lxor x (65535 - x) = Z.ones 16) as ->; [|done]. change 65535 with (Z.ones 16) in *.
  assert (Z.ldiff x (Z.ones 16) = 0) as Hd.
  { rewrite Z.ldiff_ones_r, Z.shiftr_div_pow2, Z.div_small by (change (Z.ones 16) with 65535 in *; lia). done. }
  rewrite Z.sub_nocarry_ldiff by done. apply Z.bits_inj'. intros n Hn. rewrite Z.lxor_spec, Z.ldiff_spec.
  apply (f_equal (fun z => Z.testbit z n)) in Hd. rewrite Z.ldiff_spec, Z.bits_0 in Hd.
  destruct (Z.testbit x n), (Z.testbit (Z.ones 16) n); done.
Qed.

Lemma copy_stored_spec bytes r output rest :
  Forall is_u8 bytes -> reader_ok r -> stream r = to_bits bytes ++ rest ->
  exists r', copy_stored (List.length bytes) r output = Ok (r', output ++ bytes) /\ reads r r' rest.
Proof.
  revert r output. induction bytes as [|b bytes IH]; intros r output Hb Hok Hs; cbn [copy_stored List.length].
  { exists r. rewrite app_nil_r. by split. }
  apply Forall_cons in Hb as [Hb0 Hb]. unfold to_bits in Hs. cbn [fmap list_fmap concat] in Hs. fold (to_bits bytes) in Hs.
  rewrite <- app_assoc in Hs. change (byte_bits b) with (z_bits 8 b) in Hs.
  destruct (read_value r 8 b _ Hok ltac:(lia) Hb0 Hs) as (r1 & -> & Hr1). cbn [get mbind res_bind]. rewrite (wrap_small 8) by done.
  destruct (IH r1 (output ++ [b]) Hb (reads_ok _ _ _ Hr1) (reads_rest _ _ _ Hr1)) as (r' & -> & Hr').
  exists r'. rewrite <- app_assoc. split; [done|]. by eapply reads_trans.
Qed.

Lemma stored_block_spec capacity r output bytes rest :
  reader_ok r -> zlen bytes <= 65535 -> Forall is_u8 bytes -> zlen output + zlen bytes <= capacity -> is_u32 capacity ->
  stream r = block_bits (bit r) (StoredBlock bytes) ++ rest ->
  exists r', stored_block capacity r output = Ok (r', output ++ bytes) /\ reads r r' rest.
Proof.
  intros Hok Hlen Hb Hcap Hc Hs. cbn [block_bits] in Hs. rewrite <- !app_assoc in Hs. pose proof (zlen_nonneg bytes). pose proof (zlen_nonneg output).
  destruct (reads_skip r _ _ Hok Hs) as [R1 R2 R3 R4]. pose proof (stream_length _ Hok) as Hsl. pose proof Hok as [Hbit Hdata].
  assert (zlen (padding (bit r)) = (- bit r) mod 8) as Hpad.
  { unfold padding, zlen. rewrite length_replicate. pose proof (Z.mod_pos_bound (- bit r) 8). lia. }
  unfold stored_block. rewrite aligned; [|lia|].
  2:{ rewrite Hs in Hsl. unfold zlen in Hsl. rewrite !length_app, !Nat2Z.inj_add in Hsl. fold (zlen (padding (bit r))) in Hsl.
      rewrite Hpad in Hsl. pose proof (total_bound r ltac:(lia)). widths. zlia. }
  rewrite <- Hpad. set (r0 := r<| bit := _ |>) in *.
  destruct (read_value r0 16 (zlen bytes) _ R1 ltac:(lia) ltac:(lia) R2) as (r1 & -> & Hr1). cbn [get mbind res_bind].
  destruct (read_value r1 16 (65535 - zlen bytes) _ (reads_ok _ _ _ Hr1) ltac:(lia) ltac:(lia) (reads_rest _ _ _ Hr1)) as (r2 & -> & Hr2).
  cbn [get mbind res_bind]. rewrite complement, Z.eqb_refl by lia. cbn [negb orb].
  rewrite (wrap_small 32 (capacity - zlen output)) by (widths; lia). replace (capacity - zlen output <? zlen bytes) with false by lia.
  cbn [orb]. pose proof (stream_length _ (reads_ok _ _ _ Hr2)) as Hl2. rewrite (reads_rest _ _ _ Hr2) in Hl2. unfold zlen in Hl2.
  rewrite length_app, Nat2Z.inj_add in Hl2. fold (zlen (to_bits bytes)) in Hl2. rewrite to_bits_length in Hl2.
  destruct (reads_ok _ _ _ Hr2) as [Hb2 Hd2]. destruct (total_bound r2) as [_ Ht2]; [lia|]. unfold total in *.
  rewrite (wrap_small 32 (zlen bytes * 8)) by (widths; lia). rewrite (wrap_small 32 (u32 _ - _)) by (widths; lia).
  replace (_ <? bit r2) with false by lia.
  replace (Z.to_nat (zlen bytes)) with (List.length bytes) by (unfold zlen; lia).
  destruct (copy_stored_spec bytes r2 output rest Hb (reads_ok _ _ _ Hr2) (reads_rest _ _ _ Hr2)) as (r' & -> & Hr').
  exists r'. split; [done|]. assert (reads r r0 (stream r0)) as Hr0 by (split; done).
  eapply reads_trans; [exact Hr0|]. eapply reads_trans; [exact Hr1|]. by eapply reads_trans.
Qed.

(** The tokens of a block with a code, the end of the block included. *)
Lemma decode_block lit dist lt dt capacity r output ts rest :
  zlen lit <= 288 -> zlen dist <= 288 -> tree_of lit lt -> tree_of dist dt -> 256 < zlen lit -> lit.[256] <> 0 ->
  tokens_ok lit dist capacity output ts -> reader_ok r ->
  stream r = concat (token_bits lit dist <$> ts) ++ codeword lit 256 ++ rest ->
  exists r', decode_symbols (bit_bound r) capacity lt dt r output = Ok (r', foldl expand output ts) /\ reads r r' rest.
Proof.
  intros Hl Hd Hlt Hdt H256 H0 Hts Hok Hs. apply (decode_tokens lit dist lt dt capacity); try done.
  pose proof (tokens_bits lit dist lt capacity Hlt ts output Hts) as Hlen. pose proof (stream_length _ Hok) as Hsl.
  rewrite Hs in Hsl. unfold zlen in Hsl. rewrite length_app, Nat2Z.inj_add in Hsl. destruct Hok as [? [? ?]].
  pose proof (total_bound r ltac:(lia)). unfold bit_bound. lia.
Qed.

Lemma block_spec capacity r output b rest :
  reader_ok r -> block_ok capacity output b -> is_u32 capacity -> stream r = block_bits (bit r) b ++ rest ->
  exists r', block capacity (type_of b) r output = Ok (r', contents output b) /\ reads r r' rest.
Proof.
  intros Hok Hb Hc Hs. destruct b as [bytes|ts|h ts].
  - destruct Hb as (H1 & H2 & H3). by apply stored_block_spec.
  - unfold block. cbn [type_of]. change (1 =? 0) with false. change (1 =? 1) with true. cbv iota.
    destruct fixed_trees_spec as (lt & dt & -> & Hlt & Hdt). cbn [get mbind res_bind]. cbn [block_bits] in Hs. rewrite <- app_assoc in Hs.
    apply (decode_block fixed_lengths fixed_distances lt dt); try done; by vm_compute.
  - destruct Hb as (Hh & H256 & Hts). unfold block. cbn [type_of]. change (2 =? 0) with false. change (2 =? 1) with false.
    change (2 =? 2) with true. cbv iota. cbn [block_bits] in Hs. rewrite <- !app_assoc in Hs.
    destruct (dynamic_trees_spec h r _ Hh Hok Hs) as (lt & dt & r1 & -> & Hlt & Hdt & Hr1). cbn [get mbind res_bind].
    pose proof (ok_counts _ Hh) as [Hn1 Hn2].
    assert (zlen (h_literals h) = h_lit h) as Hl by (unfold h_literals, zlen in *; rewrite length_take; lia).
    assert (zlen (h_distances h) <= 32) as Hd by (unfold h_distances, zlen in *; rewrite length_drop; lia).
    destruct (decode_block (h_literals h) (h_distances h) lt dt capacity r1 output ts rest ltac:(lia) ltac:(lia) Hlt Hdt ltac:(lia)
      H256 Hts (reads_ok _ _ _ Hr1) (reads_rest _ _ _ Hr1)) as (r' & -> & Hr').
    exists r'. split; [done|]. by eapply reads_trans.
Qed.

Lemma blocks_spec capacity bs fuel r output rest :
  bs <> [] -> (List.length bs <= fuel)%nat -> reader_ok r -> blocks_ok capacity output bs -> is_u32 capacity ->
  stream r = stream_bits (bit r) bs ++ rest ->
  blocks fuel capacity r output = Ok (foldl contents output bs).
Proof.
  intros Hne. revert fuel r output. induction bs as [|b bs IH]; intros [|fuel] r output Hf Hok Hbs Hc Hs; try done; [simpl in Hf; lia|].
  destruct Hbs as [Hb Hbs]. cbn [blocks stream_bits] in *. cbv zeta in Hs. set (last := bool_decide (bs = [])) in *.
  assert (forall r r' w rest', reader_ok r -> stream r = w ++ rest' -> reads r r' rest' -> bit r' = bit r + zlen w) as Hbit.
  { intros x x' w rest' Hx Hsx [X1 X2 X3 X4]. pose proof (stream_length _ Hx) as L1. pose proof (stream_length _ X1) as L2.
    rewrite Hsx in L1. rewrite X2 in L2. unfold total in *. rewrite X4 in L2. unfold zlen in *. rewrite length_app in L1. lia. }
  pose proof Hs as Hs0. rewrite <- app_assoc in Hs0. unfold one_block in Hs at 1. rewrite <- !app_assoc in Hs.
  destruct (read_value r 1 (Z.b2z last) _ Hok ltac:(lia) ltac:(destruct last; simpl; lia) Hs) as (r1 & -> & Hr1). cbn [get mbind res_bind].
  destruct (read_value r1 2 (type_of b) _ (reads_ok _ _ _ Hr1) ltac:(lia) ltac:(destruct b; cbn [type_of]; lia) (reads_rest _ _ _ Hr1)) as (r2 & -> & Hr2).
  cbn [get mbind res_bind]. assert (bit r2 = bit r + 3) as Hb2.
  { pose proof (Hbit _ _ _ _ (reads_ok _ _ _ Hr1) (reads_rest _ _ _ Hr1) Hr2) as E2. pose proof (Hbit _ _ _ _ Hok Hs Hr1) as E1.
    rewrite z_bits_length in E1, E2 by lia. lia. }
  destruct (block_spec capacity r2 output b _ (reads_ok _ _ _ Hr2) Hb Hc ltac:(rewrite Hb2; exact (reads_rest _ _ _ Hr2))) as (r3 & -> & Hr3).
  cbn [get mbind res_bind foldl]. assert (reads r r3 (stream_bits (bit r + zlen (one_block (bit r) b last)) bs ++ rest)) as Hr.
  { eapply reads_trans; [exact Hr1|]. by eapply reads_trans. }
  destruct bs as [|b' bs]; [done|]. change (Z.b2z last =? 0) with true. cbv iota.
  apply IH; [done|simpl in *; lia|apply Hr|done|done|]. rewrite (reads_rest _ _ _ Hr). by rewrite (Hbit _ _ _ _ Hok Hs0 Hr).
Qed.

(** Bytes from bits, the last byte filled with zeros. *)
Fixpoint pack (n : nat) (bits : list bool) : list Z :=
  match n with O => [] | S n => from_bits (take 8 bits) :: pack n (drop 8 bits) end.

(** A stream with a header and a checksum. *)
Definition zlib_stream (bs : list block_content) : list Z :=
  let bits := stream_bits 0 bs in
  let sum := adler32 (foldl contents [] bs) in
  [0x78; 0x01] ++ pack (Z.to_nat ((zlen bits + 7) / 8)) bits ++
  [Z.shiftr sum 24; Z.shiftr sum 16 mod 256; Z.shiftr sum 8 mod 256; sum mod 256].

Lemma pack_length n bits : List.length (pack n bits) = n.
Proof. revert bits. induction n as [|n IH]; intros bits; [done|]. cbn [pack List.length]. by rewrite IH. Qed.

Lemma byte_bits_from_bits w : zlen w <= 8 -> byte_bits (from_bits w) = w ++ replicate (8 - List.length w) false.
Proof.
  intros Hw. change (byte_bits (from_bits w)) with (z_bits 8 (from_bits w)). pose proof (zlen_nonneg w).
  apply from_bits_inj.
  - rewrite z_bits_length by lia. unfold zlen in *. rewrite length_app, length_replicate. lia.
  - rewrite from_bits_z_bits, from_bits_app by lia. pose proof (from_bits_range w).
    assert (2 ^ zlen w <= 2 ^ 8) by (apply Z.pow_le_mono_r; lia). rewrite Z.mod_small by lia.
    assert (forall n, from_bits (replicate n false) = 0) as ->; [|lia].
    intros n. induction n as [|n IH]; [done|]. change (0 + 2 * from_bits (replicate n false) = 0). lia.
Qed.

Lemma to_bits_pack n bits :
  (List.length bits <= 8 * n)%nat -> to_bits (pack n bits) = bits ++ replicate (8 * n - List.length bits) false.
Proof.
  revert bits. induction n as [|n IH]; intros bits Hl.
  { destruct bits; [done|simpl in Hl; lia]. }
  cbn [pack]. unfold to_bits. cbn [fmap list_fmap concat]. fold (to_bits (pack n (drop 8 bits))).
  rewrite byte_bits_from_bits, IH by (unfold zlen; rewrite ?length_take, ?length_drop; lia). rewrite length_take, length_drop.
  destruct (decide (List.length bits <= 8)%nat) as [Hs|Hs].
  - rewrite (take_ge bits), (drop_ge bits) by lia. rewrite <- app_assoc. f_equal. cbn [app]. rewrite <- replicate_add. f_equal. lia.
  - replace (8 - (8 `min` List.length bits))%nat with 0%nat by lia. cbn [replicate]. rewrite app_nil_r, app_assoc, take_drop. f_equal. f_equal. lia.
Qed.

Lemma adler32_range bytes : is_u32 (adler32 bytes).
Proof.
  unfold adler32. set (f := fun '(a, b) x => _).
  assert (forall l a b, 0 <= a < 65521 -> 0 <= b < 65521 ->
    exists a' b', foldl f (a, b) l = (a', b') /\ 0 <= a' < 65521 /\ 0 <= b' < 65521) as Hf.
  { induction l as [|x l IH]; intros a b Ha Hb; [by exists a, b|]. cbn [foldl f]. apply IH; apply Z.mod_pos_bound; lia. }
  destruct (Hf bytes 1 0) as (a & b & -> & Ha & Hb); [lia..|].
  rewrite (wrap_small 32) by (widths; rewrite Z.shiftl_mul_pow2 by lia; lia). rewrite lor_shift_add by lia. widths. lia.
Qed.

(** The four bytes behind the blocks are the checksum. *)
Lemma big_endian_sum s :
  is_u32 s ->
  Z.lor (Z.lor (Z.lor (u32 (Z.shiftl (Z.shiftr s 24) 24)) (Z.shiftl (Z.shiftr s 16 mod 256) 16))
               (Z.shiftl (Z.shiftr s 8 mod 256) 8)) (s mod 256) = s.
Proof.
  intros Hs. rewrite !Z.shiftr_div_pow2 by lia. change (2 ^ 24) with 16777216. change (2 ^ 16) with 65536. change (2 ^ 8) with 256.
  rewrite (wrap_small 32) by (rewrite Z.shiftl_mul_pow2 by lia; zlia).
  rewrite lor_shift_add by (rewrite ?Z.shiftl_mul_pow2 by lia; zlia).
  replace (s / 16777216 * 2 ^ 24 + Z.shiftl (s / 65536 mod 256) 16) with (Z.shiftl (s / 65536) 16) by (rewrite !Z.shiftl_mul_pow2 by lia; zlia).
  rewrite lor_shift_add by (rewrite ?Z.shiftl_mul_pow2 by lia; zlia).
  replace (s / 65536 * 2 ^ 16 + Z.shiftl (s / 256 mod 256) 8) with (Z.shiftl (s / 256) 8) by (rewrite !Z.shiftl_mul_pow2 by lia; zlia).
  rewrite lor_shift_add by zlia. zlia.
Qed.

Lemma stream_bits_length pos bs : (List.length bs <= List.length (stream_bits pos bs))%nat.
Proof.
  revert pos. induction bs as [|b bs IH]; intros pos; [done|]. cbn [stream_bits]. cbv zeta. rewrite length_app, length_cons.
  specialize (IH (pos + zlen (one_block pos b (bool_decide (bs = []))))). unfold one_block at 1. rewrite length_app.
  pose proof (z_bits_length 1 (Z.b2z (bool_decide (bs = []))) ltac:(lia)). unfold zlen in *. lia.
Qed.

(** C9. What a compressor wrote is what comes out: for every sequence of blocks, each stored,
    with the fixed codes or with codes of its own, and every choice of literals and copies in
    them, the stream with its header and checksum decompresses to the contents of the
    blocks, when they fit into the output and the number of bits into 32 bits. *)
Theorem inflate_roundtrip capacity bs :
  bs <> [] -> blocks_ok capacity [] bs -> 0 < capacity <= U32_MAX -> 8 * zlen (zlib_stream bs) <= U32_MAX ->
  btrfs_zlib_inflate (zlib_stream bs) (zlen (zlib_stream bs)) capacity = Ok (foldl contents [] bs).
Proof.
  intros Hne Hok Hcap Hsize. unfold zlib_stream in *. set (bits := stream_bits 0 bs) in *. set (n := Z.to_nat ((zlen bits + 7) / 8)) in *.
  set (sum := adler32 _) in *. set (tail := [_; _; _; _]) in *. pose proof (zlen_nonneg bits). pose proof (pack_length n bits) as Hpl.
  assert (8 * Z.of_nat n - 7 <= zlen bits <= 8 * Z.of_nat n) as Hn by (unfold n; zlia).
  assert (zlen ([0x78; 0x01] ++ pack n bits ++ tail) = Z.of_nat n + 6) as Hz.
  { unfold zlen. rewrite !length_app, Hpl. simpl. lia. }
  rewrite Hz in *. unfold btrfs_zlib_inflate.
  replace (Z.of_nat n + 6 <? 6) with false by lia. replace (capacity =? 0) with false by lia.
  match goal with |- (if ?c then _ else _) = _ => replace c with false by reflexivity end.
  replace (Z.of_nat n + 6 - 6) with (Z.of_nat n) by lia. set (r := {| data := _; size := _; bit := 0 |}). cbv zeta.
  assert (total r = 8 * Z.of_nat n) as Ht by (unfold total, r; cbn [size]; rewrite wrap_small by (widths; lia); lia).
  assert (reader_ok r) as Hr.
  { split; [rewrite Ht; cbn; lia|]. unfold r. cbn [size data]. unfold zlen. rewrite length_drop, !length_app, Hpl. simpl. lia. }
  assert (stream r = bits ++ replicate (8 * n - List.length bits) false) as Hs.
  { rewrite <- to_bits_pack by (unfold zlen in *; lia). unfold stream. rewrite Ht. unfold r. cbn [data bit drop app Z.to_nat].
    rewrite !drop_0. unfold to_bits. rewrite fmap_app, concat_app. apply take_app_length'. pose proof (to_bits_length (pack n bits)) as Hl.
    unfold to_bits, zlen in Hl. rewrite Hpl in Hl. lia. }
  assert (List.length bs <= bit_bound r)%nat as Hfuel.
  { pose proof (stream_bits_length 0 bs) as Hb. fold bits in Hb. unfold bit_bound, r, zlen in *. cbn [size]. lia. }
  rewrite (blocks_spec capacity bs _ r [] _ Hne Hfuel Hr Hok ltac:(widths; lia) Hs).
  cbn [mbind res_bind].
  assert (forall k, 0 <= k < 4 -> ([0x78; 0x01] ++ pack n bits ++ tail).[Z.of_nat n + 2 + k] = tail.[k]) as Hg.
  { intros k Hk. rewrite !lookup_total_app_r by (simpl; lia). rewrite Hpl. f_equal. simpl. lia. }
  replace (Z.of_nat n + 6 - 4) with (Z.of_nat n + 2 + 0) by lia. replace (Z.of_nat n + 6 - 3) with (Z.of_nat n + 2 + 1) by lia.
  replace (Z.of_nat n + 6 - 2) with (Z.of_nat n + 2 + 2) by lia. replace (Z.of_nat n + 6 - 1) with (Z.of_nat n + 2 + 3) by lia.
  rewrite !Hg by lia. change (tail.[0]) with (Z.shiftr sum 24). change (tail.[1]) with (Z.shiftr sum 16 mod 256).
  change (tail.[2]) with (Z.shiftr sum 8 mod 256). change (tail.[3]) with (sum mod 256).
  rewrite big_endian_sum by apply adler32_range. fold sum. by rewrite Z.eqb_refl.
Qed.

Definition example_header : code_header :=
  {| h_codes := [0; 1; 0; 0; 0; 0; 0; 0; 0; 0; 0; 0; 0; 0; 0; 0; 0; 0; 1]; h_clen := 18;
     h_tokens := [Repeat 18 86; Len 1; Repeat 18 127; Repeat 18 9; Len 1; Len 1]; h_lit := 257 |}.

Lemma example_header_ok : header_ok example_header.
Proof.
  split; cbn [h_codes h_clen h_tokens h_lit example_header].
  - split_and!; [done|by apply (bool_decide_unpack _); vm_compute|apply codable_check; by vm_compute].
  - lia.
  - intros o Ho. assert (o = 15) as -> by (by apply list_elem_of_singleton). done.
  - repeat (split; [cbn; split_and!; lia || done|]). done.
  - split; [lia|]. by vm_compute.
  - apply codable_check; by vm_compute.
  - apply codable_check; by vm_compute.
Qed.

Definition example_blocks : list block_content :=
  [StoredBlock [72; 105]; FixedBlock [Lit 33; Copy 258 0 1 0]; DynamicBlock example_header [Lit 97; Lit 97]].

(** The three kinds of blocks in one stream. *)
Lemma inflate_roundtrip_witness :
  btrfs_zlib_inflate (zlib_stream example_blocks) (zlen (zlib_stream example_blocks)) 9 = Ok [72; 105; 33; 105; 33; 105; 33; 97; 97].
Proof.
  apply (inflate_roundtrip 9 example_blocks); [done| |widths; lia|by vm_compute].
  split; [|split; [|split; [|done]]].
  - split_and!; [by vm_compute|by apply (bool_decide_unpack _); vm_compute|by vm_compute].
  - split; [split_and!; by vm_compute|]. split; [split_and!; by vm_compute|done].
  - split; [exact example_header_ok|]. split; [by vm_compute|]. split; [split_and!; by vm_compute|]. split; [split_and!; by vm_compute|done].
Defined.

(** ** Any input *)

(** The loop bounds are enough, and what comes out satisfies [P]. *)
Definition sound {A} (P : A -> Prop) (x : res A) : Prop :=
  match x with Ok a => P a | Reject => True | Stuck => False end.

Lemma sound_bind {A B} (P : A -> Prop) (Q : B -> Prop) x (f : A -> res B) :
  sound P x -> (forall a, P a -> sound Q (f a)) -> sound Q (x ≫= f).
Proof. destruct x; cbn; auto. Qed.

Lemma sound_get {A} (P : A -> Prop) o : (forall a, o = Some a -> P a) -> sound P (get o).
Proof. destruct o; cbn; auto. Qed.

(** The reader has moved on by [k] bits or more. *)
Record advanced (k : Z) (r r' : bit_reader_t) : Prop := {
  adv_ok : reader_ok r';
  adv_size : size r' = size r;
  adv_bit : bit r + k <= bit r';
}.

Lemma advanced_trans j k r1 r2 r3 : 0 <= j -> advanced j r1 r2 -> advanced k r2 r3 -> advanced k r1 r3.
Proof. intros Hj [] []. split; [done|congruence|lia]. Qed.

Lemma advanced_trans_l j k r1 r2 r3 : 0 <= k -> advanced j r1 r2 -> advanced k r2 r3 -> advanced j r1 r3.
Proof. intros Hj [] []. split; [done|congruence|lia]. Qed.

Lemma read_bits_advances r n v r' :
  reader_ok r -> 0 <= n <= 24 -> read_bits r n = Some (v, r') -> advanced n r r' /\ 0 <= v < 2 ^ n.
Proof.
  intros Hok Hn. rewrite read_bits_spec by done. case_if as E; [|done]. intros [= <- <-]. split.
  - split; [apply skip_ok; [done|lia]|done|cbn; lia].
  - pose proof (from_bits_range (take (Z.to_nat n) (stream r))) as Hr.
    assert (zlen (take (Z.to_nat n) (stream r)) = n) as Hl by (unfold zlen in *; rewrite length_take; lia). by rewrite Hl in Hr.
Qed.

Lemma huffman_read_advances r tree i r' :
  reader_ok r -> huffman_read r tree = Some (i, r') -> advanced 1 r r' /\ 0 <= i < count tree.
Proof.
  unfold huffman_read. enough (forall n r len c, reader_ok r -> huffman_search n len c r tree = Some (i, r') ->
    advanced 1 r r' /\ 0 <= i < count tree) as Hn by apply Hn.
  clear r. induction n as [|n IH]; intros r len c Hok; [done|].
  cbn [huffman_search]. destruct (read_bits r 1) as [[b r1]|] eqn:Hb; [|done]. cbn [mbind option_bind].
  destruct (read_bits_advances r 1 b r1 Hok ltac:(lia) Hb) as [Ha _]. destruct (find_z _ _ _) as [j|] eqn:Hf.
  - intros [= <- <-]. apply find_z_Some in Hf as [? _]. split; [done|lia].
  - intros Hs. apply IH in Hs as [Ha' Hi]; [|apply Ha]. split; [|done]. by eapply (advanced_trans 1).
Qed.

Lemma code_lengths_sound fuel r tree lengths position cnt :
  reader_ok r -> cnt - position <= Z.of_nat fuel -> sound (fun '(_, r') => advanced 0 r r') (code_lengths_loop fuel r tree lengths position cnt).
Proof.
  revert r lengths position. induction fuel as [|fuel IH]; intros r lengths position Hok Hf; cbn [code_lengths_loop].
  { rewrite (proj2 (Z.leb_le _ _)) by lia. by split; [|done|lia]. }
  case_if as E; [by split; [|done|lia]|].
  apply (sound_bind (fun '(_, r') => advanced 1 r r')).
  { apply sound_get. intros [i r'] Hr. by apply huffman_read_advances in Hr as []. }
  intros [symbol r1] Ha. cbn in Ha. assert (forall l r2 p, advanced 0 r1 r2 -> position < p -> sound (fun '(_, r') => advanced 0 r r')
    (code_lengths_loop fuel r2 tree l p cnt)) as Hnext.
  { intros l r2 p Hr2 Hp. assert (advanced 0 r r2) as H02 by (eapply (advanced_trans 1); [lia|done..]).
    specialize (IH r2 l p (adv_ok _ _ _ Hr2) ltac:(lia)). destruct (code_lengths_loop _ _ _ _ _ _) as [[l' r']| |]; [|done..].
    cbn in *. by eapply (advanced_trans 0). }
  case_if as E16; [apply Hnext; [split; [apply Ha|done|lia]|lia]|]. cbv zeta.
  apply (sound_bind (fun '(repeat, _, r') => advanced 0 r1 r' /\ 0 < repeat)).
  { assert (forall w k v : Z, 0 <= w <= 24 -> 0 < k -> sound (fun '(repeat, _, r') => advanced 0 r1 r' /\ 0 < repeat)
      ('(extra, r2) ← get (read_bits r1 w); Ok (extra + k, v, r2))) as Hx; [|split_ifs; try apply Hx; done || lia].
    intros w k v Hw Hk. destruct (read_bits r1 w) as [[x r2]|] eqn:Hb; [|done]. cbn.
    apply read_bits_advances in Hb as [Hb Hx]; [|apply Ha|done]. split; [|lia]. destruct Hb. split; [done..|lia]. }
  intros [[repeat previous] r2] [Hr2 Hrep]. case_if as Ec; [done|]. apply Hnext; [done|lia].
Qed.

Lemma read_sound r n : reader_ok r -> 0 <= n <= 24 -> sound (fun '(v, r') => advanced n r r' /\ 0 <= v < 2 ^ n) (get (read_bits r n)).
Proof. intros Hok Hn. apply sound_get. intros [v r'] Hr. by apply read_bits_advances. Qed.

Lemma symbol_sound r tree : reader_ok r -> sound (fun '(i, r') => advanced 1 r r' /\ 0 <= i < count tree) (get (huffman_read r tree)).
Proof. intros Hok. apply sound_get. intros [i r'] Hr. by apply huffman_read_advances. Qed.

Lemma read_order_sound os r lengths : reader_ok r -> sound (fun '(_, r') => advanced 0 r r') (get (read_order os r lengths)).
Proof.
  revert r lengths. induction os as [|o os IH]; intros r lengths Hok; [by split; [|done|lia]|]. cbn [read_order].
  pose proof (read_sound r 3 Hok ltac:(lia)) as Hr. destruct (read_bits r 3) as [[v r1]|]; [|done]. destruct Hr as [Hr _]. cbn [mbind option_bind].
  specialize (IH r1 (lengths.[o <- u8 v]) (adv_ok _ _ _ Hr)). destruct (read_order _ _ _) as [[l r']|]; [|done]. cbn in *.
  by eapply (advanced_trans 3).
Qed.

Lemma dynamic_trees_sound r : reader_ok r -> sound (fun '(_, _, r') => advanced 0 r r') (dynamic_trees r).
Proof.
  intros Hok. unfold dynamic_trees.
  eapply sound_bind; [apply (read_sound r 5 Hok); lia|]. intros [hlit r1] [H1 _].
  eapply sound_bind; [apply (read_sound r1 5 (adv_ok _ _ _ H1)); lia|]. intros [hdist r2] [H2 _].
  eapply sound_bind; [apply (read_sound r2 4 (adv_ok _ _ _ H2)); lia|]. intros [hclen r3] [H3 _]. cbv zeta.
  eapply sound_bind; [apply (read_order_sound _ r3), H3|]. intros [cl r4] H4. cbn in H4.
  eapply (sound_bind (fun _ => True)); [by apply sound_get|]. intros ct _.
  eapply sound_bind; [apply (code_lengths_sound _ r4); [apply H4|lia]|]. intros [al r5] H5. cbn in H5.
  eapply (sound_bind (fun _ => True)); [by apply sound_get|]. intros lt _.
  eapply (sound_bind (fun _ => True)); [by apply sound_get|]. intros dt _. cbn.
  eapply (advanced_trans 5); [lia|exact H1|]. eapply (advanced_trans 5); [lia|exact H2|]. eapply (advanced_trans 4); [lia|exact H3|].
  by eapply (advanced_trans 0).
Qed.

(** The bytes written so far. *)
Definition out_ok (capacity : Z) (output : list Z) : Prop := zlen output <= capacity /\ Forall is_u8 output.

Lemma copy_match_ok n distance output :
  0 < distance <= zlen output -> Forall is_u8 output ->
  zlen (copy_match n distance output) = zlen output + Z.of_nat n /\ Forall is_u8 (copy_match n distance output).
Proof.
  revert output. induction n as [|n IH]; intros output Hd Hf; cbn [copy_match]; [split; [lia|done]|].
  assert (zlen (output ++ [output.[zlen output - distance]]) = zlen output + 1) as Hz by (unfold zlen; rewrite length_app; simpl; lia).
  destruct (IH (output ++ [output.[zlen output - distance]])) as [Hl Hu]; [lia| |].
  - apply Forall_app. split; [done|]. constructor; [|done]. apply (Forall_lookup_total_1 _ _ _ Hf). unfold zlen in *. lia.
  - split; [lia|done].
Qed.

Lemma base_range s : 257 <= s <= 285 -> 0 < length_base.[s - 257].
Proof.
  intros Hs. apply (Forall_lookup_total_1 (fun x => 0 < x)); [|simpl; lia]. repeat (constructor; [lia|]). constructor.
Qed.

Lemma distance_range s : 0 <= s < 30 -> 0 < distance_base.[s].
Proof.
  intros Hs. apply (Forall_lookup_total_1 (fun x => 0 < x)); [|simpl; lia]. repeat (constructor; [lia|]). constructor.
Qed.

Lemma decode_symbols_sound fuel capacity lt dt r output :
  reader_ok r -> total r - bit r < Z.of_nat fuel -> out_ok capacity output ->
  sound (fun '(r', output') => advanced 0 r r' /\ out_ok capacity output') (decode_symbols fuel capacity lt dt r output).
Proof.
  revert r output. induction fuel as [|fuel IH]; intros r output Hok Hf Ho; [destruct Hok; lia|]. cbn [decode_symbols].
  eapply sound_bind; [by apply (symbol_sound r lt)|]. intros [symbol r1] [H1 Hsym].
  assert (forall r2 out, advanced 0 r1 r2 -> out_ok capacity out -> sound (fun '(r', output') => advanced 0 r r' /\ out_ok capacity output')
    (decode_symbols fuel capacity lt dt r2 out)) as Hnext.
  { intros r2 out H2 Hout. assert (advanced 1 r r2) as H02 by (eapply (advanced_trans_l 1 0); [lia|done..]).
    pose proof H02 as [? Hsz ?]. specialize (IH r2 out ltac:(done)). unfold total in *. rewrite Hsz in IH.
    specialize (IH ltac:(lia) Hout). destruct (decode_symbols _ _ _ _ _ _) as [[r' o']| |]; [|done..].
    destruct IH as [? ?]. split; [|done]. eapply (advanced_trans 1); [lia|done..]. }
  assert (advanced 0 r1 r1) as Hrefl by (split; [apply H1|done|lia]).
  case_if as E1.
  { case_if as E2; [done|]. apply Hnext; [done|]. destruct Ho. split; [unfold zlen in *; rewrite length_app; simpl; lia|].
    apply Forall_app. split; [done|]. constructor; [apply wrap_range; lia|done]. }
  case_if as E2; [split; [split; destruct H1; [done..|lia]|done]|]. case_if as E3; [done|]. cbv zeta.
  eapply sound_bind; [apply (read_sound r1); [apply H1|apply extra_range; lia]|]. intros [extra r2] [H2 Hx].
  eapply sound_bind; [apply (symbol_sound r2 dt), H2|]. intros [ds r3] [H3 Hds]. case_if as E4; [done|].
  pose proof (distance_extra_range ds ltac:(lia)). pose proof (extra_range symbol ltac:(lia)).
  eapply sound_bind; [apply (read_sound r3); [apply H3|done]|]. intros [dextra r4] [H4 Hdx]. case_if as E5; [done|].
  apply orb_false_iff in E5 as [E5 E6]. pose proof (distance_range ds ltac:(lia)). pose proof (base_range symbol ltac:(lia)).
  apply Hnext.
  - eapply (advanced_trans (length_extra.[symbol - 257])); [lia|done|]. eapply (advanced_trans 1); [lia|done|]. split; destruct H4; [done..|lia].
  - destruct Ho as [Ho1 Ho2]. destruct (copy_match_ok (Z.to_nat (length_base.[symbol - 257] + extra)) (distance_base.[ds] + dextra) output) as [Hl Hu];
      [lia|done|]. split; [lia|done].
Qed.

Lemma copy_stored_sound capacity n r output :
  reader_ok r -> Forall is_u8 output -> zlen output + Z.of_nat n <= capacity ->
  sound (fun '(r', output') => advanced 0 r r' /\ out_ok capacity output') (copy_stored n r output).
Proof.
  revert r output. induction n as [|n IH]; intros r output Hok Ho Hn; cbn [copy_stored].
  { split; [split; [done|done|lia]|split; [lia|done]]. }
  eapply sound_bind; [apply (read_sound r 8 Hok); lia|]. intros [b r1] [H1 _].
  assert (zlen (output ++ [u8 b]) = zlen output + 1) as Hz by (unfold zlen; rewrite length_app; simpl; lia).
  specialize (IH r1 (output ++ [u8 b]) (adv_ok _ _ _ H1)). destruct (copy_stored _ _ _) as [[r' o']| |]; try done.
  - destruct IH as [Ha Hout]; [|lia|split; [eapply (advanced_trans 8); [lia|done..]|done]].
    apply Forall_app. split; [done|]. constructor; [apply wrap_range; lia|done].
  - apply IH; [|lia]. apply Forall_app. split; [done|]. constructor; [apply wrap_range; lia|done].
Qed.

Lemma aligned_ok r : reader_ok r -> advanced 0 r (r<| bit := Z.land (u32 (bit r + 7)) (u32 (Z.lnot 7)) |>).
Proof.
  intros Hok. pose proof Hok as [Hb Hd]. assert (exists k, total r = 8 * k /\ 0 <= k < 2 ^ 29) as (k & Hk & Hkr).
  { exists (total r / 8). unfold total. zlia. }
  rewrite aligned by (widths; lia). split; [|done|].
  - split; [|done]. change (0 <= bit r + - bit r mod 8 <= total r). zlia.
  - change (bit r + 0 <= bit r + - bit r mod 8). zlia.
Qed.

Lemma stored_block_sound capacity r output :
  reader_ok r -> is_u32 capacity -> out_ok capacity output ->
  sound (fun '(r', output') => advanced 0 r r' /\ out_ok capacity output') (stored_block capacity r output).
Proof.
  intros Hok Hc [Ho1 Ho2]. unfold stored_block. pose proof (aligned_ok r Hok) as H0. set (r0 := r<| bit := _ |>) in *. cbv zeta.
  pose proof (zlen_nonneg output).
  eapply sound_bind; [apply (read_sound r0 16 (adv_ok _ _ _ H0)); lia|]. intros [len r1] [H1 Hlen].
  eapply sound_bind; [apply (read_sound r1 16 (adv_ok _ _ _ H1)); lia|]. intros [inverse r2] [H2 _]. case_if as E; [done|].
  apply orb_false_iff in E as [E _]. apply orb_false_iff in E as [_ E]. rewrite (wrap_small 32) in E by (widths; lia).
  pose proof (copy_stored_sound capacity (Z.to_nat len) r2 output (adv_ok _ _ _ H2) Ho2 ltac:(lia)) as Hs.
  destruct (copy_stored _ _ _) as [[r' o']| |]; [|done..]. destruct Hs as [Ha Hout]. split; [|done].
  eapply (advanced_trans 0); [lia|exact H0|]. eapply (advanced_trans 16); [lia|exact H1|]. by eapply (advanced_trans 16); [lia| |].
Qed.

Lemma block_sound capacity type r output :
  reader_ok r -> is_u32 capacity -> out_ok capacity output ->
  sound (fun '(r', output') => advanced 0 r r' /\ out_ok capacity output') (block capacity type r output).
Proof.
  intros Hok Hc Ho. unfold block. case_if as E0; [by apply stored_block_sound|].
  apply (sound_bind (fun '(_, _, r') => advanced 0 r r')).
  { assert (advanced 0 r r) by (split; [done|done|lia]). split_ifs; [|by apply dynamic_trees_sound|done].
    by destruct fixed_trees as [[lt dt]|]. }
  intros [[lt dt] r1] H1. cbn in H1. destruct H1 as [Hok1 Hs1 Hb1]. pose proof (total_bound r1 ltac:(apply Hok1)).
  pose proof (decode_symbols_sound (bit_bound r1) capacity lt dt r1 output Hok1 ltac:(unfold bit_bound; pose proof (ok_bit _ Hok1); lia) Ho) as Hd.
  destruct (decode_symbols _ _ _ _ _ _) as [[r' o']| |]; [|done..]. destruct Hd as [Ha Hout]. split; [|done].
  by eapply (advanced_trans 0); [lia|split|].
Qed.

Lemma blocks_sound fuel capacity r output :
  reader_ok r -> total r - bit r < Z.of_nat fuel -> is_u32 capacity -> out_ok capacity output ->
  sound (out_ok capacity) (blocks fuel capacity r output).
Proof.
  intros Hok Hf Hc. revert r output Hok Hf. induction fuel as [|fuel IH]; intros r output Hok Hf Ho; [destruct Hok; lia|]. cbn [blocks].
  eapply sound_bind; [apply (read_sound r 1 Hok); lia|]. intros [final r1] [H1 _].
  eapply sound_bind; [apply (read_sound r1 2 (adv_ok _ _ _ H1)); lia|]. intros [type r2] [H2 _].
  eapply sound_bind; [by apply block_sound; [apply H2|..]|]. intros [r3 out] [H3 Hout]. case_if as E; [|done].
  apply IH; [apply H3| |done]. destruct H1 as [_ S1 B1], H2 as [_ S2 B2], H3 as [_ S3 B3]. unfold total in *. rewrite S3, S2, S1. lia.
Qed.



End Inflate.
