(* ===== verification/AddressSpace.v ===== *)
(** * Address spaces (kernel/mm/virtual/address_space.c)

    Page tables of four levels in physical memory.  The kernel has static tables that map
    the first 4 GiB; an address space has a root and a table for the kernel part of its own,
    and tables for the addresses from 2^39 on that are allocated when a page is mapped and
    released when they become empty.  Physical memory is the word memory of the frame
    allocator, seen through the class [Frames].  The lock [address_space_lock] makes every
    function one atomic step; loading the page root and invalidating a page are logged.
    The address space objects are a function of their address, null being 0.

    The descents through the tables, which the functions repeat, are one definition,
    [walk]; the three places of [address_space_map_page_locked] that add a table are
    [ensure_table]. *)

From S2P Require Import Prelude Frame.

(** What address spaces need of physical memory: words, and frames to allocate. *)
Class Frames (P : Type) := {
  physical_alloc_frame : P -> Z * P;
  physical_free_frame : P -> Z -> P;
  word : P -> Z -> Z;
  store : P -> Z -> Z -> P;
}.

Definition in_frame (f a : Z) : bool := (f <=? a) && (a <? f + 4096).

(** The frames handed out are [taken], those that can be handed out are [spare]; a [reserved]
    frame is neither. *)
Class FramesLaws (P : Type) `{Frames P} := {
  frames_ok : P -> Prop;
  taken : P -> Z -> bool;
  spare : P -> Z -> bool;
  reserved : P -> Z -> bool;
  taken_frame p f : taken p f = true -> f mod 4096 = 0 /\ 0 < f < 4294967296;
  taken_reserved p f : taken p f = true -> reserved p f = false;
  alloc_law p :
    frames_ok p ->
    let '(f, p') := physical_alloc_frame p in
    frames_ok p' /\ ((f = 0 /\ p' = p /\ forall g, spare p g = false) \/
      ((forall g, spare p' g = spare p g && negb (g =? f)) /\ taken p f = false /\ reserved p f = false /\ (forall g, taken p' g = taken p g || (g =? f)) /\
       (forall g, reserved p' g = reserved p g) /\
       forall a, word p' a = if in_frame f a && (a mod 8 =? 0) then 0 else word p a));
  free_law p f :
    frames_ok p -> taken p f = true ->
    frames_ok (physical_free_frame p f) /\ (forall g, taken (physical_free_frame p f) g = taken p g && negb (g =? f)) /\
    (forall g, spare (physical_free_frame p f) g = spare p g || (g =? f)) /\
    (forall g, reserved (physical_free_frame p f) g = reserved p g) /\
    forall a, word (physical_free_frame p f) a = word p a;
  store_law p a v :
    frames_ok p ->
    frames_ok (store p a v) /\ (forall g, taken (store p a v) g = taken p g) /\ (forall g, spare (store p a v) g = spare p g) /\
    (forall g, reserved (store p a v) g = reserved p g) /\
    forall b, word (store p a v) b = if b =? a then v else word p b;
}.

Module AddressSpace.

Definition PAGE_SIZE : Z := 0x1000.
Definition HUGE_PAGE_SIZE : Z := 0x200000.
Definition PAGE_PRESENT : Z := 0x001.
Definition PAGE_WRITABLE : Z := 0x002.
Definition PAGE_USER : Z := 0x004.
Definition PAGE_HUGE : Z := 0x080.
Definition PAGE_NX : Z := Z.shiftl 1 63.
Definition HEAP_BASE : Z := 0x40000000.
Definition HEAP_PAGE_COUNT : Z := 4096.
Definition HEAP_PAGE_TABLE_COUNT : Z := HEAP_PAGE_COUNT / 512.
Definition ADDRESS_SPACE_WRITABLE : Z := 0x002.
Definition ADDRESS_SPACE_USER : Z := 0x004.
Definition ADDRESS_SPACE_EXECUTABLE : Z := 0x008.
Definition ADDRESS_SPACE_MAX_ANONYMOUS_PAGES : Z := 128.

Record anonymous_t := { virtual_address : Z; physical_address : Z; flags : Z }.
#[export] Instance anonymous_inhabited : Inhabited anonymous_t := populate {| virtual_address := 0; physical_address := 0; flags := 0 |}.

Record address_space_t := {
  root : Z;
  owned_frames : list Z;
  owned_count : Z;
  anonymous_frames : list anonymous_t;
  anonymous_count : Z;
}.
#[export] Instance eta_space : Eta address_space_t := fun s =>
  {| root := root s; owned_frames := owned_frames s; owned_count := owned_count s;
     anonymous_frames := anonymous_frames s; anonymous_count := anonymous_count s |}.

(** The effects on the processor. *)
Inductive call :=
| LoadRoot (address : Z)
| Invalidate (address : Z).

(** The static data of the file, the address space objects, and the EFER register. *)
Record vm_t (P : Type) := {
  phys : P;
  heap_page_table_active : bool;
  kernel_root : Z;
  active_roots : list Z;
  active_spaces : list Z;
  spaces : Z -> address_space_t;
  efer : Z;
  calls : list call;
}.
Arguments phys {P}.
Arguments heap_page_table_active {P}.
Arguments kernel_root {P}.
Arguments active_roots {P}.
Arguments active_spaces {P}.
Arguments spaces {P}.
Arguments efer {P}.
Arguments calls {P}.
#[export] Instance eta_vm {P} : Eta (vm_t P) := fun m =>
  {| phys := phys m; heap_page_table_active := heap_page_table_active m; kernel_root := kernel_root m;
     active_roots := active_roots m; active_spaces := active_spaces m; spaces := spaces m; efer := efer m; calls := calls m |}.

(** Where the linker put the static tables. *)
Record statics_t := { pml4 : Z; pdpt : Z; page_directories : Z -> Z; heap_page_tables : Z -> Z }.

Section operations.
Context {P : Type} `{Frames P} (statics : statics_t).
Implicit Types (m : vm_t P) (a : Z).

Definition entry m (table i : Z) : Z := word (phys m) (table + 8 * i).
Definition set_entry m (table i v : Z) : vm_t P := m<| phys := store (phys m) (table + 8 * i) v |>.
Definition set_space m a (s : address_space_t) : vm_t P := m<| spaces := fupd (spaces m) a s |>.
Definition free_frame m (frame : Z) : vm_t P := m<| phys := physical_free_frame (phys m) frame |>.
Definition log m (c : call) : vm_t P := m<| calls := calls m ++ [c] |>.

(** [e & ~(PAGE_SIZE - 1)] *)
Definition table_address (e : Z) : Z := Z.land e (u64 (Z.lnot (PAGE_SIZE - 1))).
(** [(v >> shift) & 0x1ff] *)
Definition index (v shift : Z) : Z := Z.land (Z.shiftr v shift) 0x1ff.
Definition has (e bits : Z) : bool := Z.land e bits =? bits.

(** [cpu] is the logical number of the processor, if it is known. *)
Definition address_space_cpu_index (cpu : option Z) : Z :=
  match cpu with Some id => if id <? 64 then id else 0 | None => 0 end.

Definition clear_table m (table : Z) : vm_t P := for_z 0 512 (fun i m => set_entry m table i 0) m.

Definition invalidate_active_page (cpu : option Z) m a (address : Z) : vm_t P :=
  if (active_spaces m).[address_space_cpu_index cpu] =? a then log m (Invalidate address) else m.

(** ** The kernel's tables *)

Definition identity_directory (directory : Z) m : vm_t P :=
  let m := clear_table m (page_directories statics directory) in
  let m := set_entry m (pdpt statics) directory
             (Z.lor (Z.lor (page_directories statics directory) PAGE_PRESENT) PAGE_WRITABLE) in
  for_z 0 512 (fun i m =>
    let physical := (directory * 512 + i) * HUGE_PAGE_SIZE in
    set_entry m (page_directories statics directory) i
      (Z.lor (Z.lor (Z.lor physical PAGE_PRESENT) PAGE_WRITABLE) PAGE_HUGE)) m.

Definition virtual_memory_initialize m : bool * vm_t P :=
  let m := m<| efer := Z.lor (efer m) (Z.shiftl 1 11) |> in
  let m := clear_table m (pml4 statics) in
  let m := clear_table m (pdpt statics) in
  let m := for_z 0 4 identity_directory m in
  let m := set_entry m (pml4 statics) 0 (Z.lor (Z.lor (pdpt statics) PAGE_PRESENT) PAGE_WRITABLE) in
  let m := m<| kernel_root := pml4 statics |> in
  let m := log m (LoadRoot (kernel_root m)) in
  (true, m<| active_roots := replicate 64 (kernel_root m) |><| active_spaces := replicate 64 0 |>).

Definition virtual_memory_map_identity m (address size flags : Z) : bool * vm_t P :=
  if negb (Z.land address (HUGE_PAGE_SIZE - 1) =? 0) || negb (Z.land size (HUGE_PAGE_SIZE - 1) =? 0)
     || (size =? 0) || (0x100000000 <=? address) || (0x100000000 - address <? size) then (false, m)
  else
    let first := address / HUGE_PAGE_SIZE in
    let count := size / HUGE_PAGE_SIZE in
    let m := for_z 0 count (fun i m =>
      set_entry m (page_directories statics ((first + i) / 512)) ((first + i) mod 512)
        (Z.lor (Z.lor (Z.lor (address + i * HUGE_PAGE_SIZE) flags) PAGE_PRESENT) PAGE_HUGE)) m in
    (true, log m (LoadRoot (kernel_root m))).

(** [if (!heap_page_table_active) ...] *)
Definition activate_heap_tables m : vm_t P :=
  if heap_page_table_active m then m
  else
    let m := for_z 0 HEAP_PAGE_TABLE_COUNT (fun table m => clear_table m (heap_page_tables statics table)) m in
    let m := for_z 0 HEAP_PAGE_TABLE_COUNT (fun table m =>
      set_entry m (page_directories statics 1) table
        (Z.lor (Z.lor (heap_page_tables statics table) PAGE_PRESENT) PAGE_WRITABLE)) m in
    m<| heap_page_table_active := true |>.

Definition virtual_memory_map_page m (virtual physical flags : Z) : bool * vm_t P :=
  if negb (Z.land virtual (PAGE_SIZE - 1) =? 0) || negb (Z.land physical (PAGE_SIZE - 1) =? 0)
     || (virtual <? HEAP_BASE) || (HEAP_BASE + HEAP_PAGE_COUNT * PAGE_SIZE <=? virtual)
     || (0x100000000 <=? physical) then (false, m)
  else
    let m := activate_heap_tables m in
    let page := (virtual - HEAP_BASE) / PAGE_SIZE in
    let m := set_entry m (heap_page_tables statics (page / 512)) (page mod 512)
               (Z.lor (Z.lor physical flags) PAGE_PRESENT) in
    (true, log m (LoadRoot (kernel_root m))).

Definition virtual_memory_root m : Z := kernel_root m.

(** ** Creating, activating and destroying an address space *)

Definition address_space_allocate_table m a : Z * vm_t P :=
  let s := spaces m a in
  if 32 <=? owned_count s then (0, m)
  else
    let '(frame, p) := physical_alloc_frame (phys m) in
    let m := m<| phys := p |> in
    if frame =? 0 then (0, m)
    else
      (frame, set_space (clear_table m frame) a
        (s<| owned_frames := (owned_frames s).[owned_count s <- frame] |><| owned_count := u32 (owned_count s + 1) |>)).

(** [while (space->owned_count > owned_before) physical_free_frame(...);] for [n] frames *)
Fixpoint free_owned (n : nat) m a : vm_t P :=
  match n with
  | O => m
  | S n =>
    let s := spaces m a in
    let count := owned_count s - 1 in
    let m := set_space m a (s<| owned_count := count |>) in
    free_owned n (free_frame m ((owned_frames s).[count])) a
  end.

Definition address_space_rollback_tables m a (owned_before root_table pdpt pml4_index pdpt_index : Z) (made_root made_pdpt : bool)
    : vm_t P :=
  let m := if made_pdpt then set_entry m pdpt pdpt_index 0 else m in
  let m := if made_root then set_entry m root_table pml4_index 0 else m in
  free_owned (Z.to_nat (owned_count (spaces m a) - owned_before)) m a.

Definition address_space_create m a : bool * vm_t P :=
  if (a =? 0) || negb (root (spaces m a) =? 0) then (false, m)
  else
    let m := set_space m a ((spaces m a)<| owned_count := 0 |><| anonymous_count := 0 |>) in
    let '(root_frame, m) := address_space_allocate_table m a in
    let '(pdpt_frame, m) := address_space_allocate_table m a in
    if (root_frame =? 0) || (pdpt_frame =? 0) then
      let m := for_z 0 (owned_count (spaces m a)) (fun i m => free_frame m ((owned_frames (spaces m a)).[i])) m in
      (false, set_space m a ((spaces m a)<| owned_count := 0 |>))
    else
      let m := for_z 0 512 (fun i m => set_entry m pdpt_frame i (entry m (pdpt statics) i)) m in
      let m := set_entry m root_frame 0 (Z.lor (Z.lor pdpt_frame PAGE_PRESENT) PAGE_WRITABLE) in
      (true, set_space m a ((spaces m a)<| root := root_frame |>)).

Definition address_space_activate (cpu : option Z) m a : bool * vm_t P :=
  let r := root (spaces m a) in
  if (a =? 0) || negb (Z.land r (PAGE_SIZE - 1) =? 0) || (r =? 0) then (false, m)
  else
    let m := log m (LoadRoot r) in
    let c := address_space_cpu_index cpu in
    (true, m<| active_roots := (active_roots m).[c <- r] |><| active_spaces := (active_spaces m).[c <- a] |>).

Definition address_space_activate_kernel (cpu : option Z) m : bool * vm_t P :=
  let m := log m (LoadRoot (kernel_root m)) in
  let c := address_space_cpu_index cpu in
  let m := m<| active_roots := (active_roots m).[c <- kernel_root m] |><| active_spaces := (active_spaces m).[c <- 0] |> in
  (negb (kernel_root m =? 0), m).

(** [for (i = count; i != 0; --i) physical_free_frame(frames[i - 1]);] *)
Fixpoint free_backwards (n : nat) (frames : Z -> Z) m : vm_t P :=
  match n with
  | O => m
  | S n => free_backwards n frames (free_frame m (frames (Z.of_nat n)))
  end.

Definition address_space_destroy (cpu : option Z) m a : bool * vm_t P :=
  let s := spaces m a in
  if (a =? 0) || (root s =? 0) || (root s =? kernel_root m) || (root s =? (active_roots m).[address_space_cpu_index cpu])
  then (false, m)
  else
    let m := free_backwards (Z.to_nat (anonymous_count s)) (fun i => physical_address ((anonymous_frames s).[i])) m in
    let m := set_space m a ((spaces m a)<| anonymous_count := 0 |>) in
    let m := free_backwards (Z.to_nat (owned_count s)) (fun i => (owned_frames s).[i]) m in
    (true, set_space m a ((spaces m a)<| owned_count := 0 |><| root := 0 |>)).

(** ** Pages *)

(** The addresses and flags that the functions refuse. *)
Definition bad_address (v : Z) : bool :=
  negb (Z.land v (PAGE_SIZE - 1) =? 0) || (v <? Z.shiftl 1 39) || (Z.shiftl 1 48 <=? v).
Definition bad_flags (flags allowed : Z) : bool := negb (Z.land flags (u64 (Z.lnot allowed)) =? 0).

(** The entries above the last table, if each of them has the bits [need]. *)
Definition walk (need : Z) m (r v : Z) : option (Z * Z * Z) :=
  let pml4e := entry m r (index v 39) in
  if negb (has pml4e need) then None
  else
    let pdpte := entry m (table_address pml4e) (index v 30) in
    if negb (has pdpte need) then None
    else
      let pde := entry m (table_address pdpte) (index v 21) in
      if negb (has pde need) then None else Some (pml4e, pdpte, pde).

(** [if ((table[i] & PAGE_PRESENT) == 0) { frame = address_space_allocate_table(space); ... }]:
    whether it worked, and whether a table was made. *)
Definition ensure_table m a (table i table_flags : Z) : bool * bool * vm_t P :=
  if has (entry m table i) PAGE_PRESENT then (true, false, m)
  else
    let '(frame, m) := address_space_allocate_table m a in
    if frame =? 0 then (false, false, m) else (true, true, set_entry m table i (Z.lor frame table_flags)).

(** The tables of a page; [None] when there was no frame for one of them, and those made before
    are gone again. *)
Definition make_tables m a (virtual table_flags : Z) : option Z * vm_t P :=
  let r := root (spaces m a) in
  let owned_before := owned_count (spaces m a) in
  let '(ok, made_root, m) := ensure_table m a r (index virtual 39) table_flags in
  if negb ok then (None, m)
  else
    let new_pdpt := table_address (entry m r (index virtual 39)) in
    let '(ok, made_pdpt, m) := ensure_table m a new_pdpt (index virtual 30) table_flags in
    if negb ok then
      (None, address_space_rollback_tables m a owned_before r new_pdpt (index virtual 39) (index virtual 30) made_root false)
    else
      let pd := table_address (entry m new_pdpt (index virtual 30)) in
      let '(ok, _, m) := ensure_table m a pd (index virtual 21) table_flags in
      if negb ok then
        (None, address_space_rollback_tables m a owned_before r new_pdpt (index virtual 39) (index virtual 30) made_root made_pdpt)
      else (Some (table_address (entry m pd (index virtual 21))), m).

Definition address_space_map_page m a (virtual physical flags : Z) : bool * vm_t P :=
  let r := root (spaces m a) in
  if (a =? 0) || (r =? 0) || bad_address virtual || negb (Z.land physical (PAGE_SIZE - 1) =? 0)
     || (0x100000000 <=? physical)
     || bad_flags flags (Z.lor (Z.lor ADDRESS_SPACE_WRITABLE ADDRESS_SPACE_USER) ADDRESS_SPACE_EXECUTABLE) then (false, m)
  else
    let table_flags := Z.lor (Z.lor PAGE_PRESENT PAGE_WRITABLE) (if Z.land flags PAGE_USER =? 0 then 0 else PAGE_USER) in
    let mapped :=
      match walk PAGE_PRESENT m r virtual with
      | Some (_, _, pde) => has (entry m (table_address pde) (index virtual 12)) PAGE_PRESENT
      | None => false
      end in
    if mapped then (false, m)
    else
      let '(pt, m) := make_tables m a virtual table_flags in
      match pt with
      | None => (false, m)
      | Some pt =>
        let m := set_entry m pt (index virtual 12) (Z.lor (Z.lor physical flags) PAGE_PRESENT) in
        let m := if Z.land flags ADDRESS_SPACE_EXECUTABLE =? 0
                 then set_entry m pt (index virtual 12) (Z.lor (entry m pt (index virtual 12)) PAGE_NX) else m in
        (true, m)
      end.

Definition address_space_update_page_flags (cpu : option Z) m a (virtual flags : Z) : bool * vm_t P :=
  let r := root (spaces m a) in
  if (a =? 0) || (r =? 0) || bad_address virtual
     || bad_flags flags (Z.lor (Z.lor ADDRESS_SPACE_WRITABLE ADDRESS_SPACE_USER) ADDRESS_SPACE_EXECUTABLE) then (false, m)
  else
    match walk PAGE_PRESENT m r virtual with
    | None => (false, m)
    | Some (_, _, pde) =>
      let pt := table_address pde in
      let pte := entry m pt (index virtual 12) in
      if negb (has pte (Z.lor PAGE_PRESENT PAGE_USER)) then (false, m)
      else
        let pte := Z.lor (Z.lor (Z.land pte (u64 (Z.lnot (Z.lor (Z.lor PAGE_WRITABLE PAGE_USER) PAGE_NX)))) PAGE_PRESENT) PAGE_USER in
        let pte := if Z.land flags ADDRESS_SPACE_WRITABLE =? 0 then pte else Z.lor pte PAGE_WRITABLE in
        let pte := if Z.land flags ADDRESS_SPACE_EXECUTABLE =? 0 then Z.lor pte PAGE_NX else pte in
        (true, invalidate_active_page cpu (set_entry m pt (index virtual 12) pte) a virtual)
    end.

Definition address_space_table_empty m (table : Z) : bool :=
  forallb (fun i => negb (has (entry m table i) PAGE_PRESENT)) (seqZ 0 512).

Definition address_space_release_table m a (frame : Z) : bool * vm_t P :=
  let s := spaces m a in
  if (a =? 0) || (frame =? 0) then (false, m)
  else
    match find_z 0 (owned_count s) (fun i => (owned_frames s).[i] =? frame) with
    | None => (false, m)
    | Some i =>
      let count := owned_count s - 1 in
      let m := set_space m a (s<| owned_count := count |>
                               <| owned_frames := (owned_frames s).[i <- (owned_frames s).[count]] |>) in
      (true, free_frame m frame)
    end.

(** [if (address_space_table_empty(child) && address_space_release_table(space, child)) table[i] = 0;] *)
Definition release_child m a (table i child : Z) : bool * vm_t P :=
  if address_space_table_empty m child then
    let '(ok, m) := address_space_release_table m a child in
    if ok then (true, set_entry m table i 0) else (false, m)
  else (false, m).

(** The tables of a page that have become empty go back to the allocator. *)
Definition release_tables m a (virtual pml4e pdpte pt : Z) : vm_t P :=
  let '(released, m) := release_child m a (table_address pdpte) (index virtual 21) pt in
  if negb released then m
  else
    let '(released, m) := release_child m a (table_address pml4e) (index virtual 30) (table_address pdpte) in
    if negb released then m
    else snd (release_child m a (root (spaces m a)) (index virtual 39) (table_address pml4e)).

Definition address_space_unmap_page (cpu : option Z) m a (virtual : Z) : bool * vm_t P :=
  let r := root (spaces m a) in
  if (a =? 0) || (r =? 0) || bad_address virtual then (false, m)
  else
    match walk PAGE_PRESENT m r virtual with
    | None => (false, m)
    | Some (pml4e, pdpte, pde) =>
      let pt := table_address pde in
      if negb (has (entry m pt (index virtual 12)) PAGE_PRESENT) then (false, m)
      else
        let m := set_entry m pt (index virtual 12) 0 in
        let m := invalidate_active_page cpu m a virtual in
        (true, release_tables m a virtual pml4e pdpte pt)
    end.

Definition address_space_page_executable m a (virtual : Z) : bool :=
  let r := root (spaces m a) in
  if (a =? 0) || (r =? 0) || bad_address virtual then false
  else
    match walk (Z.lor PAGE_PRESENT PAGE_USER) m r virtual with
    | None => false
    | Some (_, _, pde) =>
      let pte := entry m (table_address pde) (index virtual 12) in
      has pte (Z.lor PAGE_PRESENT PAGE_USER) && (Z.land pte PAGE_NX =? 0)
    end.

Definition address_space_active (cpu : option Z) m : Z := (active_spaces m).[address_space_cpu_index cpu].

(** One round of the loop of [address_space_user_range_valid_locked]. *)
Definition user_page_valid m (r page : Z) (writable : bool) : bool :=
  match walk (Z.lor PAGE_PRESENT PAGE_USER) m r page with
  | None => false
  | Some (_, _, pde) =>
    has (entry m (table_address pde) (index page 12))
        (Z.lor (Z.lor PAGE_PRESENT PAGE_USER) (if writable then PAGE_WRITABLE else 0))
  end.

(** [for (page = first; ; page += PAGE_SIZE) { ...; if (page == last_page) break; }]; [None] when
    [n] rounds do not reach the last page. *)
Fixpoint user_range_loop (n : nat) m (r page last_page : Z) (writable : bool) : option bool :=
  match n with
  | O => None
  | S n =>
    if negb (user_page_valid m r page writable) then Some false
    else if page =? last_page then Some true
    else user_range_loop n m r (u64 (page + PAGE_SIZE)) last_page writable
  end.

Definition address_space_user_range_valid m a (address size : Z) (writable : bool) : option bool :=
  let r := root (spaces m a) in
  if (a =? 0) || (r =? 0) || (size =? 0) || (address <? Z.shiftl 1 39) || (Z.shiftl 1 48 <=? address)
     || (Z.shiftl 1 48 - address <? size) then Some false
  else
    let last_page := table_address (u64 (address + size - 1)) in
    let first_page := table_address address in
    user_range_loop (Z.to_nat ((last_page - first_page) / PAGE_SIZE + 1)) m r first_page last_page writable.

(** [load] reads a byte of the virtual memory; the result is the buffer. *)
Definition address_space_copy_from_user (load : Z -> Z) (cpu : option Z) m (destination : option (list Z)) (source size : Z)
    : option (bool * option (list Z)) :=
  if size =? 0 then Some (true, destination)
  else
    match destination with
    | None => Some (false, None)
    | Some out =>
      valid ← address_space_user_range_valid m (address_space_active cpu m) source size false;
      Some (valid, Some (if (valid : bool) then for_z 0 size (fun i out => out.[i <- load (u64 (source + i))]) out else out))
    end.

(** The virtual memory is the function [mem]. *)
Definition address_space_copy_to_user (mem : Z -> Z) (cpu : option Z) m (destination : Z) (source : option (list Z)) (size : Z)
    : option (bool * (Z -> Z)) :=
  if size =? 0 then Some (true, mem)
  else
    match source with
    | None => Some (false, mem)
    | Some bytes =>
      valid ← address_space_user_range_valid m (address_space_active cpu m) destination size true;
      Some (valid, if (valid : bool) then for_z 0 size (fun i mem => fupd mem (u64 (destination + i)) (bytes.[i])) mem else mem)
    end.

(** ** Ranges of pages *)

(** What both functions on ranges refuse. *)
Definition bad_pages (pages : Z) : bool := (pages =? 0) || (ADDRESS_SPACE_MAX_ANONYMOUS_PAGES <? pages).
Definition bad_range (virtual pages : Z) : bool :=
  (U64_MAX - pages * PAGE_SIZE <? virtual) || (virtual <? Z.shiftl 1 39) || (Z.shiftl 1 48 <? virtual + pages * PAGE_SIZE)
  || negb (Z.land virtual (PAGE_SIZE - 1) =? 0).

(** The entry of a page, 0 when a table is missing, and where it is. *)
Definition page_entry m (r v : Z) : Z * Z :=
  let pml4e := if negb (r =? 0) then entry m r (index v 39) else 0 in
  let pdpte := if has pml4e PAGE_PRESENT then entry m (table_address pml4e) (index v 30) else 0 in
  let pde := if has pdpte PAGE_PRESENT then entry m (table_address pdpte) (index v 21) else 0 in
  let pt := table_address pde in
  (pt + 8 * index v 12, if has pde PAGE_PRESENT then entry m pt (index v 12) else 0).

(** The entries of [n] pages from page [i] on; [None] when one of them is not a user page. *)
Fixpoint collect_entries (n : nat) m (r virtual i : Z) : option (list (Z * Z)) :=
  match n with
  | O => Some []
  | S n =>
    let '(at_, pte) := page_entry m r (virtual + i * PAGE_SIZE) in
    if negb (has pte (Z.lor PAGE_PRESENT PAGE_USER)) then None
    else rest ← collect_entries n m r virtual (i + 1); Some ((at_, pte) :: rest)
  end.

(** [for (; changed < pages; ++changed) if (!update) break;]: the number of pages changed *)
Fixpoint update_pages (n : nat) (cpu : option Z) m a (virtual flags changed : Z) : Z * vm_t P :=
  match n with
  | O => (changed, m)
  | S n =>
    let '(ok, m) := address_space_update_page_flags cpu m a (virtual + changed * PAGE_SIZE) (Z.lor flags ADDRESS_SPACE_USER) in
    if negb ok then (changed, m) else update_pages n cpu m a virtual flags (changed + 1)
  end.

Definition restore_entries (cpu : option Z) m a (virtual changed : Z) (entries : list (Z * Z)) : vm_t P :=
  for_z 0 changed (fun i m =>
    let '(at_, pte) := entries.[i] in
    invalidate_active_page cpu (m<| phys := store (phys m) at_ pte |>) a (virtual + i * PAGE_SIZE)) m.

Definition address_space_protect_range (cpu : option Z) m a (virtual pages flags : Z) : bool * vm_t P :=
  if (a =? 0) || bad_pages pages || bad_range virtual pages
     || bad_flags flags (Z.lor ADDRESS_SPACE_WRITABLE ADDRESS_SPACE_EXECUTABLE) then (false, m)
  else
    match collect_entries (Z.to_nat pages) m (root (spaces m a)) virtual 0 with
    | None => (false, m)
    | Some entries =>
      let '(changed, m) := update_pages (Z.to_nat pages) cpu m a virtual flags 0 in
      if changed =? pages then (true, m) else (false, restore_entries cpu m a virtual changed entries)
    end.

(** The allocated frame is recorded with its address and flags. *)
Definition push_anonymous m a (address frame flags : Z) : vm_t P :=
  let s := spaces m a in
  set_space m a (s<| anonymous_frames := (anonymous_frames s).[anonymous_count s <-
                       {| virtual_address := address; physical_address := frame; flags := flags |}] |>
                  <| anonymous_count := u32 (anonymous_count s + 1) |>).

(** [while (mapped != 0) ...] *)
Fixpoint undo_anonymous (mapped : nat) (cpu : option Z) m a (virtual : Z) : vm_t P :=
  match mapped with
  | O => m
  | S mapped =>
    let m := snd (address_space_unmap_page cpu m a (virtual + Z.of_nat mapped * PAGE_SIZE)) in
    let s := spaces m a in
    let m := free_frame m (physical_address ((anonymous_frames s).[anonymous_count s - 1])) in
    undo_anonymous mapped cpu (set_space m a (s<| anonymous_count := anonymous_count s - 1 |>)) a virtual
  end.

Fixpoint map_anonymous_loop (n : nat) (cpu : option Z) m a (virtual flags mapped : Z) : bool * vm_t P :=
  match n with
  | O => (true, m)
  | S n =>
    let '(frame, p) := physical_alloc_frame (phys m) in
    let m := m<| phys := p |> in
    let address := virtual + mapped * PAGE_SIZE in
    let '(ok, m) := if frame =? 0 then (false, m)
                    else address_space_map_page m a address frame (Z.lor flags ADDRESS_SPACE_USER) in
    if negb ok then
      let m := if frame =? 0 then m else free_frame m frame in
      (false, undo_anonymous (Z.to_nat mapped) cpu m a virtual)
    else
      map_anonymous_loop n cpu (push_anonymous m a address frame (Z.lor flags ADDRESS_SPACE_USER)) a virtual flags (mapped + 1)
  end.

Definition address_space_map_anonymous (cpu : option Z) m a (virtual pages flags : Z) : bool * vm_t P :=
  if (a =? 0) || bad_pages pages || bad_range virtual pages
     || bad_flags flags (Z.lor ADDRESS_SPACE_WRITABLE ADDRESS_SPACE_EXECUTABLE) then (false, m)
  else if ADDRESS_SPACE_MAX_ANONYMOUS_PAGES - pages <? anonymous_count (spaces m a) then (false, m)
  else map_anonymous_loop (Z.to_nat pages) cpu m a virtual flags 0.

(** [while (index < count && frames[index].virtual_address != address) ++index;] *)
Definition find_anonymous (s : address_space_t) (address : Z) : option Z :=
  find_z 0 (anonymous_count s) (fun i => virtual_address ((anonymous_frames s).[i]) =? address).

Fixpoint unmap_anonymous_loop (n : nat) (cpu : option Z) m a (virtual page : Z) : bool * vm_t P :=
  match n with
  | O => (true, m)
  | S n =>
    let address := virtual + page * PAGE_SIZE in
    let i := default (anonymous_count (spaces m a)) (find_anonymous (spaces m a) address) in
    let frame := physical_address ((anonymous_frames (spaces m a)).[i]) in
    let '(ok, m) := address_space_unmap_page cpu m a address in
    if negb ok then (false, m)
    else
      let s := spaces m a in
      let count := anonymous_count s - 1 in
      let m := set_space m a (s<| anonymous_count := count |>
                               <| anonymous_frames := (anonymous_frames s).[i <- (anonymous_frames s).[count]] |>) in
      unmap_anonymous_loop n cpu (free_frame m frame) a virtual (page + 1)
  end.

Definition address_space_unmap_anonymous (cpu : option Z) m a (virtual pages : Z) : bool * vm_t P :=
  if (a =? 0) || bad_pages pages || (U64_MAX - pages * PAGE_SIZE <? virtual) || negb (Z.land virtual (PAGE_SIZE - 1) =? 0)
  then (false, m)
  else if negb (forallb (fun page => match find_anonymous (spaces m a) (virtual + page * PAGE_SIZE) with Some _ => true | None => false end)
                  (seqZ 0 pages)) then (false, m)
  else unmap_anonymous_loop (Z.to_nat pages) cpu m a virtual 0.

(** ** Cloning *)

(** The 4096 bytes of a frame, a word at a time. *)
Definition copy_frame m (to from : Z) : vm_t P := for_z 0 512 (fun i m => set_entry m to i (entry m from i)) m.

(** [while (destination->anonymous_count > anonymous_before) ...], [n] times *)
Fixpoint undo_clone (n : nat) (cpu : option Z) m a : vm_t P :=
  match n with
  | O => m
  | S n =>
    let last := anonymous_count (spaces m a) - 1 in
    let e := (anonymous_frames (spaces m a)).[last] in
    let m := snd (address_space_unmap_page cpu m a (virtual_address e)) in
    let m := set_space m a ((spaces m a)<| anonymous_count := last |>) in
    undo_clone n cpu (free_frame m (physical_address e)) a
  end.

Fixpoint clone_loop (n : nat) (cpu : option Z) m destination source (before : Z) (created : bool) (i : Z) : bool * vm_t P :=
  match n with
  | O => (true, m)
  | S n =>
    let e := (anonymous_frames (spaces m source)).[i] in
    let '(frame, p) := physical_alloc_frame (phys m) in
    let m := m<| phys := p |> in
    let '(ok, m) := if frame =? 0 then (false, m)
                    else address_space_map_page m destination (virtual_address e) frame (flags e) in
    if negb ok then
      let m := if frame =? 0 then m else free_frame m frame in
      let m := undo_clone (Z.to_nat (anonymous_count (spaces m destination) - before)) cpu m destination in
      (false, if created then snd (address_space_destroy cpu m destination) else m)
    else
      let m := copy_frame m frame (physical_address e) in
      clone_loop n cpu (push_anonymous m destination (virtual_address e) frame (flags e)) destination source before created (i + 1)
  end.

Definition address_space_clone_anonymous (cpu : option Z) m destination source : bool * vm_t P :=
  if (destination =? 0) || (source =? 0) || (destination =? source) || (root (spaces m source) =? 0)
     || (ADDRESS_SPACE_MAX_ANONYMOUS_PAGES <? anonymous_count (spaces m source)) then (false, m)
  else
    let '(ok, created, m) :=
      if root (spaces m destination) =? 0 then
        let '(ok, m) := address_space_create m destination in (ok, ok, m)
      else (true, false, m) in
    if negb ok then (false, m)
    else clone_loop (Z.to_nat (anonymous_count (spaces m source))) cpu m destination source
           (anonymous_count (spaces m destination)) created 0.

End operations.

(** ** Bits of entries and addresses *)

Lemma table_address_spec e : is_u64 e -> table_address e = e - e mod 4096.
Proof.
  intros He. unfold table_address, PAGE_SIZE. change (4096 - 1) with (Z.ones 12).
  unfold wrap. rewrite <- Z.land_ones, Z.land_assoc by lia. rewrite <- Z.ldiff_land, Z.land_ones by lia.
  rewrite Z.ldiff_ones_r, Z.shiftr_div_pow2, Z.shiftl_mul_pow2 by lia. change (2 ^ 12) with 4096. rewrite Z.mod_small; zlia.
Qed.

Lemma index_spec v k : 0 <= k -> index v k = (v / 2 ^ k) mod 512.
Proof. intros Hk. unfold index. change 0x1ff with (Z.ones 9). by rewrite Z.land_ones, Z.shiftr_div_pow2 by lia. Qed.

Lemma lor_low c x : c mod 4096 = 0 -> 0 <= x < 4096 -> Z.lor c x = c + x.
Proof.
  intros Hc Hx. replace c with (Z.shiftl (c / 4096) 12) by (rewrite Z.shiftl_mul_pow2 by lia; change (2 ^ 12) with 4096; zlia).
  rewrite lor_shift_add by lia. rewrite Z.shiftl_mul_pow2 by lia. lia.
Qed.

Lemma has_present e : has e PAGE_PRESENT = Z.odd e.
Proof.
  unfold has, PAGE_PRESENT. change 1 with (Z.ones 1) at 1. rewrite Z.land_ones by lia. change (2 ^ 1) with 2.
  rewrite Zmod_odd. by destruct (Z.odd e).
Qed.

(** A page of the part of the address space that belongs to the process. *)
Definition user_page (v : Z) : Prop := v mod 4096 = 0 /\ 2 ^ 39 <= v < 2 ^ 48.

Lemma bad_address_spec v : bad_address v = false <-> user_page v.
Proof.
  unfold bad_address, user_page, PAGE_SIZE. change (4096 - 1) with (Z.ones 12). rewrite Z.land_ones by lia.
  change (2 ^ 12) with 4096. change (Z.shiftl 1 39) with (2 ^ 39). change (Z.shiftl 1 48) with (2 ^ 48). lia.
Qed.

(** ** Page tables as trees *)

Section proofs.
Context {P : Type} `{FramesLaws P} (statics : statics_t).
Implicit Types (m : vm_t P) (a r k : Z) (T : gmap (Z * Z) Z).

(** The tables of an address space by level and by the part of the virtual address that leads
    to them: [(3, 0)] is the root, [(0, v / 2 ^ 21)] holds the entry of the page [v]. *)
Definition link (o : option Z) (e : Z) : Prop := match o with Some c => e = c + 3 \/ e = c + 7 | None => e = 0 end.

Record tree m r k T : Prop := {
  tree_root : T !! (3, 0) = Some r;
  tree_taken x t : T !! x = Some t -> taken (phys m) t = true;
  tree_inj x y t : T !! x = Some t -> T !! y = Some t -> x = y;
  tree_parent l q t : T !! (l, q) = Some t ->
    (l = 3 /\ q = 0) \/ (0 <= l < 3 /\ 1 <= q / 512 ^ (2 - l) < 512 /\ is_Some (T !! (l + 1, q / 512)));
  tree_entry l q t i : T !! (l, q) = Some t -> 0 < l -> 0 <= i < 512 -> ~ (l = 3 /\ i = 0) ->
    link (T !! (l - 1, 512 * q + i)) (entry m t i);
  tree_pte q t i : T !! (0, q) = Some t -> 0 <= i < 512 -> entry m t i = 0 \/ Z.odd (entry m t i) = true;
  tree_kernel : entry m r 0 = k + 3;
}.

(** The words of a frame. *)
Definition same_frame m m' (f : Z) : Prop := forall x, in_frame f x = true -> word (phys m') x = word (phys m) x.

Lemma same_frame_entry m m' t i : same_frame m m' t -> 0 <= i < 512 -> entry m' t i = entry m t i.
Proof. intros Hs Hi. apply Hs. unfold in_frame. lia. Qed.

Lemma tree_ext m m' r k T :
  tree m r k T -> (forall x t, T !! x = Some t -> taken (phys m') t = true /\ same_frame m m' t) -> tree m' r k T.
Proof.
  intros [T1 T2 T3 T4 T5 T6 T7] Hs. split; try done.
  - intros x t Ht. by eapply Hs.
  - intros l q t i Ht Hl Hi Hn. rewrite (same_frame_entry m) by (done || by eapply Hs). by eapply T5.
  - intros q t i Ht Hi. rewrite (same_frame_entry m) by (done || by eapply Hs). by eapply T6.
  - rewrite (same_frame_entry m) by (lia || by eapply Hs). done.
Qed.

(** The entry of a page, 0 when its table is missing. *)
Definition pte m T (v : Z) : Z := match T !! (0, v / 2 ^ 21) with Some t => entry m t (index v 12) | None => 0 end.

Lemma link_spec m c e :
  taken (phys m) c = true -> link (Some c) e -> has e PAGE_PRESENT = true /\ table_address e = c.
Proof.
  intros Hc He. apply taken_frame in Hc as [Hm Hr]. rewrite has_present. split.
  - assert (exists j, e = 2 * j + 1) as [j ->] by (exists ((c + 2) / 2 + (e - c - 3) / 2); destruct He as [-> | ->]; zlia).
    by rewrite Z.add_comm, Z.odd_add_mul_2.
  - rewrite table_address_spec; destruct He as [-> | ->]; try (widths; lia); zlia.
Qed.

(** The prefixes of a page's tables. *)
Lemma prefixes v :
  user_page v ->
  0 <= index v 39 < 512 /\ 0 <= index v 30 < 512 /\ 0 <= index v 21 < 512 /\ 0 <= index v 12 < 512 /\ index v 39 <> 0 /\
  512 * 0 + index v 39 = v / 2 ^ 39 /\ 512 * (v / 2 ^ 39) + index v 30 = v / 2 ^ 30 /\
  512 * (v / 2 ^ 30) + index v 21 = v / 2 ^ 21 /\ v = 4096 * (512 * (v / 2 ^ 21) + index v 12).
Proof.
  intros [Hm Hr]. rewrite !index_spec by lia.
  change (2 ^ 39) with 549755813888 in *. change (2 ^ 48) with 281474976710656 in *. change (2 ^ 30) with 1073741824.
  change (2 ^ 21) with 2097152. change (2 ^ 12) with 4096. zlia.
Qed.

(** With a tree the descent of the code finds exactly the last table of the page. *)
Lemma walk_tree m r k T v :
  tree m r k T -> user_page v ->
  match T !! (0, v / 2 ^ 21) with
  | Some pt => exists pdpt pd e3 e2 e1, T !! (2, v / 2 ^ 39) = Some pdpt /\ T !! (1, v / 2 ^ 30) = Some pd /\
      entry m r (index v 39) = e3 /\ entry m pdpt (index v 30) = e2 /\ entry m pd (index v 21) = e1 /\
      link (Some pdpt) e3 /\ link (Some pd) e2 /\ link (Some pt) e1 /\
      walk PAGE_PRESENT m r v = Some (e3, e2, e1)
  | None => walk PAGE_PRESENT m r v = None
  end.
Proof.
  intros Ht Hv. destruct (prefixes v Hv) as (I3 & I2 & I1 & I0 & N3 & P2 & P1 & P0 & _).
  pose proof (tree_entry _ _ _ _ Ht 3 0 r (index v 39) (tree_root _ _ _ _ Ht) ltac:(lia) I3 ltac:(lia)) as L3.
  rewrite P2 in L3. change (3 - 1) with 2 in L3. unfold walk.
  destruct (T !! (2, v / 2 ^ 39)) as [pdpt|] eqn:E2.
  2:{ cbn in L3. rewrite L3. change (negb (has 0 PAGE_PRESENT)) with true. cbv iota.
      destruct (T !! (0, v / 2 ^ 21)) as [pt|] eqn:E0; [|done]. exfalso.
      destruct (tree_parent _ _ _ _ Ht _ _ _ E0) as [?|(_ & _ & [pd Hpd])]; [lia|].
      replace (v / 2 ^ 21 / 512) with (v / 2 ^ 30) in Hpd by zlia.
      destruct (tree_parent _ _ _ _ Ht _ _ _ Hpd) as [?|(_ & _ & [pdpt Hpdpt])]; [lia|].
      replace (v / 2 ^ 30 / 512) with (v / 2 ^ 39) in Hpdpt by zlia. change (0 + 1 + 1) with 2 in Hpdpt. congruence. }
  destruct (link_spec m pdpt _ (tree_taken _ _ _ _ Ht _ _ E2) L3) as [H3 A3]. rewrite H3, A3. cbn [negb].
  pose proof (tree_entry _ _ _ _ Ht 2 _ pdpt (index v 30) E2 ltac:(lia) I2 ltac:(lia)) as L2.
  rewrite P1 in L2. change (2 - 1) with 1 in L2. destruct (T !! (1, v / 2 ^ 30)) as [pd|] eqn:E1.
  2:{ cbn in L2. rewrite L2. change (negb (has 0 PAGE_PRESENT)) with true. cbv iota.
      destruct (T !! (0, v / 2 ^ 21)) as [pt|] eqn:E0; [|done]. exfalso.
      destruct (tree_parent _ _ _ _ Ht _ _ _ E0) as [?|(_ & _ & [pd Hpd])]; [lia|].
      replace (v / 2 ^ 21 / 512) with (v / 2 ^ 30) in Hpd by zlia. change (0 + 1) with 1 in Hpd. congruence. }
  destruct (link_spec m pd _ (tree_taken _ _ _ _ Ht _ _ E1) L2) as [H2 A2]. rewrite H2, A2. cbn [negb].
  pose proof (tree_entry _ _ _ _ Ht 1 _ pd (index v 21) E1 ltac:(lia) I1 ltac:(lia)) as L1.
  rewrite P0 in L1. change (1 - 1) with 0 in L1. destruct (T !! (0, v / 2 ^ 21)) as [pt|] eqn:E0.
  - destruct (link_spec m pt _ (tree_taken _ _ _ _ Ht _ _ E0) L1) as [H1 A1]. rewrite H1. cbn [negb].
    by exists pdpt, pd, (entry m r (index v 39)), (entry m pdpt (index v 30)), (entry m pd (index v 21)).
  - cbn in L1. by rewrite L1.
Qed.

(** ** Steps on physical memory

    [moved m F m' F']: the frames [F] that one owner had became [F']; every other frame that is
    handed out stays so and keeps its contents, none is lost, and the reserved frames keep
    their contents. *)

Record moved m (F : list Z) m' (F' : list Z) : Prop := {
  moved_ok : frames_ok (phys m');
  moved_keep f : taken (phys m) f = true -> f ∉ F -> taken (phys m') f = true /\ f ∉ F' /\ same_frame m m' f;
  moved_new f : taken (phys m') f = true -> f ∉ F' -> taken (phys m) f = true /\ f ∉ F;
  moved_reserved f : reserved (phys m) f = true -> reserved (phys m') f = true;
  moved_static f : f mod 4096 = 0 -> reserved (phys m) f = true -> same_frame m m' f;
}.

Lemma moved_refl m F F' : frames_ok (phys m) -> (forall f, f ∈ F <-> f ∈ F') -> moved m F m F'.
Proof.
  intros Hok HF. split; try done; intros f Hf Hn.
  - split_and!; [done|by rewrite <- HF|done].
  - split; [done|by rewrite HF].
Qed.

Lemma moved_trans m1 F1 m2 F2 m3 F3 : moved m1 F1 m2 F2 -> moved m2 F2 m3 F3 -> moved m1 F1 m3 F3.
Proof.
  intros [A1 A2 A3 A4 A5] [B1 B2 B3 B4 B5]. split; [done| | |auto|].
  - intros f Hf Hn. destruct (A2 f Hf Hn) as (Hf2 & Hn2 & Hs2). destruct (B2 f Hf2 Hn2) as (Hf3 & Hn3 & Hs3).
    split_and!; [done..|]. intros x Hx. by rewrite Hs3, Hs2.
  - intros f Hf Hn. destruct (B3 f Hf Hn) as [Hf2 Hn2]. by apply A3.
  - intros f Hf Hr x Hx. rewrite (B5 f Hf (A4 f Hr) x Hx). by apply (A5 f).
Qed.

Lemma moved_perm m F m' F' G G' : moved m F m' F' -> (forall f, f ∈ F <-> f ∈ G) -> (forall f, f ∈ F' <-> f ∈ G') -> moved m G m' G'.
Proof.
  intros [A1 A2 A3 A4 A5] HG HG'. split; [done| | |done|done].
  - intros f. rewrite <- HG, <- HG'. apply A2.
  - intros f. rewrite <- HG, <- HG'. apply A3.
Qed.

(** Only physical memory matters. *)
Lemma moved_phys m F m' F' n n' : moved m F m' F' -> phys n = phys m -> phys n' = phys m' -> moved n F n' F'.
Proof. intros [A1 A2 A3 A4 A5] E E'. unfold same_frame in *. split; unfold same_frame; rewrite ?E, ?E'; done. Qed.

Lemma tree_phys m r k T n : tree m r k T -> phys n = phys m -> tree n r k T.
Proof. intros Ht E. apply (tree_ext m); [done|]. intros x t Hx. unfold same_frame. rewrite E. split; [by eapply tree_taken|done]. Qed.

(** Frames are aligned, so they are equal or apart. *)
Lemma frames_apart f g x : f mod 4096 = 0 -> g mod 4096 = 0 -> in_frame f x = true -> in_frame g x = true -> f = g.
Proof. unfold in_frame. intros. zlia. Qed.

Lemma moved_store m F t i v :
  frames_ok (phys m) -> t ∈ F -> taken (phys m) t = true -> 0 <= i < 512 -> moved m F (set_entry m t i v) F.
Proof.
  intros Hok Ht Htk Hi. destruct (store_law (phys m) (t + 8 * i) v Hok) as (S1 & S2 & _ & S3 & S4). apply taken_frame in Htk as Hf.
  assert (forall f, f mod 4096 = 0 -> f <> t -> same_frame m (set_entry m t i v) f) as Hsame.
  { intros f Hm Hne x Hx. change (word (store (phys m) (t + 8 * i) v) x = word (phys m) x). rewrite S4.
    destruct (x =? t + 8 * i) eqn:E; [|done]. destruct Hne. apply (frames_apart f t x); [done|lia|done|]. unfold in_frame. lia. }
  split; cbn -[store]; [done| | | |].
  - intros f Hf' Hn. rewrite S2. split_and!; [done..|]. apply Hsame; [by apply (taken_frame _ _ Hf')|]. by intros ->.
  - intros f. rewrite S2. done.
  - intros f. by rewrite S3.
  - intros f Hm Hr. apply Hsame; [done|]. intros ->. apply taken_reserved in Htk. congruence.
Qed.

Lemma set_entry_spec m t i v t' i' :
  frames_ok (phys m) -> t mod 4096 = 0 -> t' mod 4096 = 0 -> 0 <= i < 512 -> 0 <= i' < 512 ->
  entry (set_entry m t i v) t' i' = if (t' =? t) && (i' =? i) then v else entry m t' i'.
Proof.
  intros Hok Ht Ht' Hi Hi'. destruct (store_law (phys m) (t + 8 * i) v Hok) as (_ & _ & _ & _ & S4). unfold entry at 1, set_entry. cbn -[store].
  rewrite S4. replace (t' + 8 * i' =? t + 8 * i) with ((t' =? t) && (i' =? i)); [done|]. zlia.
Qed.

Lemma set_entry_taken m t i v f : frames_ok (phys m) -> taken (phys (set_entry m t i v)) f = taken (phys m) f.
Proof. intros Hok. apply store_law. done. Qed.

Lemma set_entry_spare m t i v f : frames_ok (phys m) -> spare (phys (set_entry m t i v)) f = spare (phys m) f.
Proof. intros Hok. apply store_law. done. Qed.

Lemma set_entry_ok m t i v : frames_ok (phys m) -> frames_ok (phys (set_entry m t i v)).
Proof. intros Hok. by apply store_law. Qed.

Lemma moved_free m F f :
  frames_ok (phys m) -> taken (phys m) f = true -> f ∉ F ->
  moved m (f :: F) (free_frame m f) F /\ (forall g, taken (phys (free_frame m f)) g = taken (phys m) g && negb (g =? f)) /\
  (forall x, word (phys (free_frame m f)) x = word (phys m) x).
Proof.
  intros Hok Ht HF. destruct (free_law (phys m) f Hok Ht) as (F1 & F2 & _ & F3 & F4). split; [|done].
  split; cbn -[physical_free_frame]; [done| | | |].
  - intros g Hg Hn. rewrite F2. apply not_elem_of_cons in Hn as [Hne Hn]. split_and!; [lia|done|]. by intros x _.
  - intros g. rewrite F2. intros Hg Hn. split; [lia|]. apply not_elem_of_cons. split; [lia|done].
  - intros g. by rewrite F3.
  - by intros g _ _ x _.
Qed.

Lemma alloc_spec m :
  frames_ok (phys m) ->
  let '(f, p) := physical_alloc_frame (phys m) in
  let m' := m<| phys := p |> in
  (f = 0 /\ p = phys m /\ forall g, spare (phys m) g = false) \/
  (f <> 0 /\ (forall g, spare p g = spare (phys m) g && negb (g =? f)) /\ taken (phys m) f = false /\ taken p f = true /\ (forall g, taken p g = taken (phys m) g || (g =? f)) /\
   (forall F, f ∉ F -> moved m F m' (f :: F)) /\ (forall g, g mod 4096 = 0 -> g <> f -> same_frame m m' g) /\
   forall i, 0 <= i < 512 -> entry m' f i = 0).
Proof.
  intros Hok. pose proof (alloc_law (phys m) Hok) as Ha. destruct (physical_alloc_frame (phys m)) as [f p].
  destruct Ha as [Hok' [(-> & -> & Hno)|(A0 & A1 & A2 & A3 & A4 & A5)]]; [by left|right].
  assert (taken p f = true) as Htf by (rewrite A3; lia). apply taken_frame in Htf as Hf. cbv zeta.
  assert (forall g, g mod 4096 = 0 -> g <> f -> same_frame m (m<| phys := p |>) g) as Hsame.
  { intros g Hg Hne x Hx. change (word p x = word (phys m) x). rewrite A5. destruct (in_frame f x) eqn:E; [|done].
    destruct Hne. by eapply (frames_apart g f x); try lia. }
  split_and!; try done; [lia| |].
  - intros F HF. split; cbn; [done| | | |].
    + intros g Hg Hn. rewrite A3. split_and!; [lia| |].
      * apply not_elem_of_cons. split; [|done]. intros ->. congruence.
      * apply Hsame; [by apply (taken_frame _ _ Hg)|]. intros ->. congruence.
    + intros g Hg Hn. apply not_elem_of_cons in Hn as [Hne Hn]. rewrite A3 in Hg. split; [lia|done].
    + intros g. by rewrite A4.
    + intros g Hg Hr. apply Hsame; [done|]. intros ->. congruence.
  - intros i Hi. change (word p (f + 8 * i) = 0). rewrite A5. replace (in_frame f (f + 8 * i) && _) with true; [done|].
    unfold in_frame. zlia.
Qed.

(** ** Steps on trees *)

Definition child (l q i : Z) : Z * Z := (l - 1, 512 * q + i).

Lemma child_inj l q i l' q' i' : 0 <= i < 512 -> 0 <= i' < 512 -> child l q i = child l' q' i' -> l = l' /\ q = q' /\ i = i'.
Proof. unfold child. intros Hi Hi' [= ? ?]. lia. Qed.

(** Only the entry [i] of table [t] differs. *)
Definition entries_but m m' (t i e : Z) : Prop :=
  forall t' j, taken (phys m) t' = true -> taken (phys m') t' = true -> 0 <= j < 512 ->
    entry m' t' j = if (t' =? t) && (j =? i) then e else entry m t' j.

Lemma tree_level m r k T l q t : tree m r k T -> T !! (l, q) = Some t -> 0 <= l <= 3.
Proof. intros Ht Hlq. destruct (tree_parent _ _ _ _ Ht _ _ _ Hlq) as [?|?]; lia. Qed.

Section tree_steps.
Context (m m' : vm_t P) (r k : Z) (T : gmap (Z * Z) Z) (Ht : tree m r k T).
Context (l q t i : Z) (Hlq : T !! (l, q) = Some t) (Hi : 0 <= i < 512) (Hkern : ~ (l = 3 /\ i = 0)).

Lemma tree_no_child : 0 < l -> T !! child l q i = None -> forall j, T !! (l - 2, 512 * (512 * q + i) + j) = None \/ ~ 0 <= j < 512.
Proof.
  intros Hl Hn j. destruct (decide (0 <= j < 512)); [|by right]. left.
  destruct (T !! (l - 2, 512 * (512 * q + i) + j)) as [c|] eqn:E; [|done]. pose proof (tree_level _ _ _ _ _ _ _ Ht Hlq).
  destruct (tree_parent _ _ _ _ Ht _ _ _ E) as [?|(_ & _ & [y Hy])]; [lia|]. unfold child in Hn.
  replace (l - 2 + 1) with (l - 1) in Hy by lia. replace ((512 * (512 * q + i) + j) / 512) with (512 * q + i) in Hy by zlia. congruence.
Qed.

Lemma tree_child_prefix : 0 < l -> 1 <= (512 * q + i) / 512 ^ (2 - (l - 1)) < 512.
Proof.
  intros Hl. destruct (tree_parent _ _ _ _ Ht _ _ _ Hlq) as [[-> ->]|(Hl' & Hq & _)].
  - change (512 ^ (2 - (3 - 1))) with 1. rewrite Z.div_1_r. lia.
  - assert (l = 1 \/ l = 2) as [-> | ->] by lia; cbn in *; zlia.
Qed.

Lemma tree_add c fl :
  0 < l -> T !! child l q i = None -> fl = 3 \/ fl = 7 -> taken (phys m) c = false -> taken (phys m') c = true ->
  (forall f, taken (phys m) f = true -> taken (phys m') f = true) -> entries_but m m' t i (c + fl) ->
  (forall j, 0 <= j < 512 -> entry m' c j = 0) ->
  tree m' r k (<[child l q i := c]> T) /\ forall v, user_page v -> pte m' (<[child l q i := c]> T) v = pte m T v.
Proof.
  intros Hl Hn Hfl Hc Hc' Hkeep He Hz. pose proof (tree_level _ _ _ _ _ _ _ Ht Hlq) as Hlev. pose proof (tree_no_child Hl Hn) as Hno.
  pose proof (tree_child_prefix Hl) as Hpre. pose proof Ht as [T1 T2 T3 T4 T5 T6 T7].
  assert (forall x, T !! x <> Some c) as Hfresh by (intros x Hx; apply T2 in Hx; congruence).
  assert (forall x t', T !! x = Some t' -> <[child l q i := c]> T !! x = Some t') as Hold.
  { intros x t' Hx. rewrite lookup_insert_ne; [done|]. intros <-. congruence. }
  assert (forall x t' j, T !! x = Some t' -> 0 <= j < 512 -> entry m' t' j = if (t' =? t) && (j =? i) then c + fl else entry m t' j) as He'.
  { intros x t' j Hx Hj. apply He; [by eapply T2|by eapply Hkeep, T2|done]. }
  split; [split|].
  - by apply Hold.
  - intros x t' Hx. apply lookup_insert_Some in Hx as [[_ <-]|[_ Hx]]; [done|]. by eapply Hkeep, T2.
  - intros x y t' Hx Hy. apply lookup_insert_Some in Hx as [[<- <-]|[_ Hx]], Hy as [[<- Hy]|[_ Hy]]; try done.
    + by destruct (Hfresh y).
    + subst t'. by destruct (Hfresh x).
    + by eapply T3.
  - intros l' q' t' Hx. apply lookup_insert_Some in Hx as [[[= <- <-] <-]|[_ Hx]].
    + right. split; [lia|]. split; [done|]. replace (l - 1 + 1) with l by lia. replace ((512 * q + i) / 512) with q by zlia.
      exists t. by apply Hold.
    + destruct (T4 _ _ _ Hx) as [?|(? & ? & [y Hy])]; [by left|right]. split_and!; [lia..|]. exists y. by apply Hold.
  - intros l' q' t' j Hx Hl' Hj Hk'. apply lookup_insert_Some in Hx as [[[= <- <-] <-]|[Hne Hx]].
    + rewrite Hz by done. replace (l - 1 - 1) with (l - 2) by lia. rewrite lookup_insert_ne by (unfold child; intros [= ? ?]; lia).
      destruct (Hno j) as [-> |?]; done.
    + rewrite (He' _ _ _ Hx Hj). destruct (decide (child l q i = child l' q' j)) as [E|E].
      * apply child_inj in E as (<- & <- & <-); [|done..]. assert (t' = t) as -> by congruence. rewrite !Z.eqb_refl.
        cbn [andb]. fold (child l q i). rewrite lookup_insert_eq. unfold link. destruct Hfl as [-> | ->]; [by left|by right].
      * rewrite (lookup_insert_ne _ _ _ _ E). replace ((t' =? t) && (j =? i)) with false; [by apply (T5 _ _ _ _ Hx)|].
        symmetry. apply andb_false_iff. destruct (decide (t' = t)) as [-> |]; [right|left; lia]. apply Z.eqb_neq. intros ->.
        pose proof (T3 _ _ _ Hx Hlq) as [= -> ->]. done.
  - intros q' t' j Hx Hj. apply lookup_insert_Some in Hx as [[_ <-]|[_ Hx]]; [left; by apply Hz|].
    rewrite (He' _ _ _ Hx Hj). replace (t' =? t) with false; [by apply (T6 _ _ _ Hx)|]. symmetry. apply Z.eqb_neq. intros ->.
    pose proof (T3 _ _ _ Hx Hlq) as [= <- <-]. lia.
  - rewrite (He' _ _ _ T1) by lia. replace ((r =? t) && (0 =? i)) with false; [done|]. symmetry. apply andb_false_iff.
    destruct (decide (i = 0)) as [-> |]; [left|right; lia]. apply Z.eqb_neq. intros ->. pose proof (T3 _ _ _ T1 Hlq) as [= <- <-]. by apply Hkern.
  - intros v Hv. destruct (prefixes v Hv) as (_ & _ & _ & I0 & _). unfold pte.
    destruct (decide (child l q i = (0, v / 2 ^ 21))) as [E|E].
    + rewrite <- E, lookup_insert_eq, Hn. by apply Hz.
    + rewrite lookup_insert_ne by done. destruct (T !! (0, v / 2 ^ 21)) as [t'|] eqn:Ex; [|done]. rewrite (He' _ _ _ Ex I0).
      replace (t' =? t) with false; [done|]. symmetry. apply Z.eqb_neq. intros ->. pose proof (T3 _ _ _ Ex Hlq) as [= <- _]. lia.
Qed.

(** A table without entries is unlinked. *)
Lemma tree_remove c :
  0 < l -> T !! child l q i = Some c -> (forall j, 0 <= j < 512 -> entry m c j = 0) ->
  (forall f, taken (phys m) f = true -> f <> c -> taken (phys m') f = true) -> entries_but m m' t i 0 ->
  tree m' r k (delete (child l q i) T) /\ forall v, user_page v -> pte m' (delete (child l q i) T) v = pte m T v.
Proof.
  intros Hl Hn Hz Hkeep He. pose proof (tree_level _ _ _ _ _ _ _ Ht Hlq) as Hlev. pose proof Ht as [T1 T2 T3 T4 T5 T6 T7].
  assert (forall l' q' t', T !! (l', q') = Some t' -> l' < 3 -> (l' + 1, q' / 512) <> child l q i) as Hparent.
  { intros l' q' t' Hx Hl3 E. pose proof E as [= E1 E2]. rewrite <- E in Hn. destruct (T4 _ _ _ Hx) as [?|(Hl' & _ & _)]; [lia|].
    pose proof (T5 _ _ _ (q' mod 512) Hn ltac:(lia) ltac:(apply Z.mod_pos_bound; lia) ltac:(lia)) as Hlink.
    rewrite Hz in Hlink by (apply Z.mod_pos_bound; lia). replace (l' + 1 - 1) with l' in Hlink by lia.
    rewrite <- (Z.div_mod q' 512), Hx in Hlink by lia. apply T2, taken_frame in Hx. cbn in Hlink. lia. }
  assert (forall x t', delete (child l q i) T !! x = Some t' -> T !! x = Some t' /\ taken (phys m') t' = true /\ x <> child l q i) as Hold.
  { intros x t' Hx. apply lookup_delete_Some in Hx as [Hne Hx]. split_and!; [done| |done]. apply Hkeep; [by eapply T2|].
    intros ->. by rewrite (T3 _ _ _ Hx Hn) in Hne. }
  assert (forall x t' j, delete (child l q i) T !! x = Some t' -> 0 <= j < 512 ->
    entry m' t' j = if (t' =? t) && (j =? i) then 0 else entry m t' j) as He'.
  { intros x t' j Hx Hj. apply Hold in Hx as (Hx & Htk & _). apply He; [by eapply T2|done|done]. }
  assert ((3, 0) <> child l q i) as Hroot by (unfold child; intros [= ? ?]; lia).
  split; [split|].
  - by rewrite lookup_delete_ne by done.
  - intros x t' Hx. by destruct (Hold _ _ Hx) as (_ & ? & _).
  - intros x y t' Hx Hy. apply Hold in Hx as (Hx & _), Hy as (Hy & _). by eapply T3.
  - intros l' q' t' Hx. apply Hold in Hx as (Hx & _). destruct (T4 _ _ _ Hx) as [?|(? & ? & [y Hy])]; [by left|right].
    split_and!; [lia..|]. exists y. rewrite lookup_delete_ne; [done|]. intros E. symmetry in E. revert E. eapply Hparent; [done|lia].
  - intros l' q' t' j Hx Hl' Hj Hk'. rewrite (He' _ _ _ Hx Hj). apply Hold in Hx as (Hx & _).
    destruct (decide (child l q i = child l' q' j)) as [E|E].
    + apply child_inj in E as (<- & <- & <-); [|done..]. assert (t' = t) as -> by congruence. rewrite !Z.eqb_refl.
      fold (child l q i). by rewrite lookup_delete_eq.
    + rewrite (lookup_delete_ne _ _ _ E). replace ((t' =? t) && (j =? i)) with false; [by apply (T5 _ _ _ _ Hx)|].
      symmetry. apply andb_false_iff. destruct (decide (t' = t)) as [-> |]; [right|left; lia]. apply Z.eqb_neq. intros ->.
      pose proof (T3 _ _ _ Hx Hlq) as [= -> ->]. done.
  - intros q' t' j Hx Hj. rewrite (He' _ _ _ Hx Hj). apply Hold in Hx as (Hx & _).
    case_if as E; [by left|by apply (T6 _ _ _ Hx)].
  - rewrite (He' (3, 0)) by (lia || by rewrite lookup_delete_ne). replace ((r =? t) && (0 =? i)) with false; [done|].
    symmetry. apply andb_false_iff. destruct (decide (i = 0)) as [-> |]; [left|right; lia]. apply Z.eqb_neq. intros ->.
    pose proof (T3 _ _ _ T1 Hlq) as [= <- <-]. by apply Hkern.
  - intros v Hv. destruct (prefixes v Hv) as (_ & _ & _ & I0 & _). unfold pte.
    destruct (decide (child l q i = (0, v / 2 ^ 21))) as [E|E].
    + rewrite <- E, lookup_delete_eq, Hn. by rewrite Hz.
    + rewrite lookup_delete_ne by done. destruct (T !! (0, v / 2 ^ 21)) as [t'|] eqn:Ex; [|done].
      rewrite (He' (0, v / 2 ^ 21) t') by (done || by rewrite lookup_delete_ne).
      replace (t' =? t) with false; [done|]. symmetry. apply Z.eqb_neq. intros ->. pose proof (T3 _ _ _ Ex Hlq) as [= <- _]. lia.
Qed.

(** The entry of a page is set. *)
Lemma tree_set_pte e :
  l = 0 -> e = 0 \/ Z.odd e = true -> (forall f, taken (phys m) f = true -> taken (phys m') f = true) -> entries_but m m' t i e ->
  tree m' r k T /\ forall v, user_page v -> pte m' T v = if v =? 4096 * (512 * q + i) then e else pte m T v.
Proof.
  intros -> Hodd Hkeep He. pose proof Ht as [T1 T2 T3 T4 T5 T6 T7].
  assert (forall x t' j, T !! x = Some t' -> 0 <= j < 512 -> entry m' t' j = if (t' =? t) && (j =? i) then e else entry m t' j) as He'.
  { intros x t' j Hx Hj. apply He; [by eapply T2|by eapply Hkeep, T2|done]. }
  assert (forall x t', T !! x = Some t' -> x <> (0, q) -> (t' =? t) = false) as Hne.
  { intros x t' Hx Hn. apply Z.eqb_neq. intros ->. by apply Hn, (T3 _ _ _ Hx Hlq). }
  split; [split|]; try done.
  - intros x t' Hx. by eapply Hkeep, T2.
  - intros l' q' t' j Hx Hl' Hj Hk'. rewrite (He' _ _ _ Hx Hj), (Hne _ _ Hx) by (intros [= ? ?]; lia). by apply (T5 _ _ _ _ Hx).
  - intros q' t' j Hx Hj. rewrite (He' _ _ _ Hx Hj). case_if as E; [done|by apply (T6 _ _ _ Hx)].
  - rewrite (He' _ _ _ T1), (Hne _ _ T1) by (lia || done). done.
  - intros v Hv. destruct (prefixes v Hv) as (_ & _ & _ & I0 & _ & _ & _ & _ & Ev). unfold pte.
    destruct (T !! (0, v / 2 ^ 21)) as [t'|] eqn:Ex.
    + rewrite (He' _ _ _ Ex I0). destruct (decide (v / 2 ^ 21 = q)) as [Eq|Eq].
      * rewrite Eq in Ex. assert (t' = t) as -> by congruence. rewrite Z.eqb_refl. cbn [andb].
        replace (v =? _) with (index v 12 =? i); [done|]. rewrite Eq in Ev. lia.
      * rewrite (Hne _ _ Ex) by (intros [= ?]; lia). cbn [andb]. replace (v =? _) with false; [done|]. lia.
    + replace (v =? _) with false; [done|]. symmetry. apply Z.eqb_neq. intros E. assert (v / 2 ^ 21 = q) as Eq by lia. congruence.
Qed.

End tree_steps.

(** ** The frames of an address space *)

Definition owned (s : address_space_t) : list Z := take (Z.to_nat (owned_count s)) (owned_frames s).
Definition anonymous (s : address_space_t) : list anonymous_t := take (Z.to_nat (anonymous_count s)) (anonymous_frames s).
Definition footprint (s : address_space_t) : list Z := owned s ++ (physical_address <$> anonymous s).

(** What an operation on the space [a] leaves alone; [E] are frames that it holds without
    having recorded them. *)
Record step m a (E : list Z) m' (E' : list Z) : Prop := {
  step_moved : moved m (E ++ footprint (spaces m a)) m' (E' ++ footprint (spaces m' a));
  step_spaces b : b <> a -> spaces m' b = spaces m b;
  step_kernel : kernel_root m' = kernel_root m /\ heap_page_table_active m' = heap_page_table_active m /\
    active_roots m' = active_roots m /\ active_spaces m' = active_spaces m /\ efer m' = efer m;
}.

Lemma step_trans a m1 E1 m2 E2 m3 E3 : step m1 a E1 m2 E2 -> step m2 a E2 m3 E3 -> step m1 a E1 m3 E3.
Proof.
  intros [M1 S1 K1] [M2 S2 K2]. split; [by eapply moved_trans| |].
  - intros b Hb. by rewrite S2, S1.
  - destruct K1 as (-> & -> & -> & -> & ->) in K2. exact K2.
Qed.

Lemma step_refl m a E : frames_ok (phys m) -> step m a E m E.
Proof. intros Hok. split; [by apply moved_refl|done|done]. Qed.

(** An operation on tables touches only the frames that the space owns. *)
Record tstep m a m' : Prop := {
  ts_moved : moved m (owned (spaces m a)) m' (owned (spaces m' a));
  ts_spaces b : b <> a -> spaces m' b = spaces m b;
  ts_kernel : kernel_root m' = kernel_root m /\ heap_page_table_active m' = heap_page_table_active m /\
    active_roots m' = active_roots m /\ active_spaces m' = active_spaces m /\ efer m' = efer m;
}.

Lemma tstep_trans a m1 m2 m3 : tstep m1 a m2 -> tstep m2 a m3 -> tstep m1 a m3.
Proof.
  intros [M1 S1 K1] [M2 S2 K2]. split; [by eapply moved_trans| |].
  - intros b Hb. by rewrite S2, S1.
  - destruct K1 as (-> & -> & -> & -> & ->) in K2. exact K2.
Qed.

Lemma tstep_refl m a : frames_ok (phys m) -> tstep m a m.
Proof. intros Hok. split; [by apply moved_refl|done|done]. Qed.

Lemma tstep_step m a E m' : tstep m a m' -> anonymous (spaces m' a) = anonymous (spaces m a) -> step m a E m' E.
Proof.
  intros [[A1 A2 A3 A4 A5] S1 K1] Ea. split; [|done|done]. split; [done| | |done|done].
  - intros f Hf Hn. unfold footprint in *. rewrite Ea, !not_elem_of_app in *. destruct Hn as (Hn1 & Hn2 & Hn3).
    destruct (A2 f Hf Hn2) as (B1 & B2 & B3). by split_and!.
  - intros f Hf Hn. unfold footprint in *. rewrite Ea, !not_elem_of_app in *. destruct Hn as (Hn1 & Hn2 & Hn3).
    destruct (A3 f Hf Hn2) as [B1 B2]. by split_and!.
Qed.

(** The lists of frames are within their arrays, without repetition, and handed out. *)
Record accounted m a (E : list Z) : Prop := {
  acc_ok : frames_ok (phys m);
  acc_owned : zlen (owned_frames (spaces m a)) = 32 /\ 0 <= owned_count (spaces m a) <= 32;
  acc_anonymous : zlen (anonymous_frames (spaces m a)) = 128 /\ 0 <= anonymous_count (spaces m a) <= 128;
  acc_nodup : NoDup (E ++ footprint (spaces m a));
  acc_taken f : f ∈ E ++ footprint (spaces m a) -> taken (phys m) f = true;
}.

(** A table filled word by word with values that do not depend on it. *)
Lemma fill_table m t (val : vm_t P -> Z -> Z) (v : Z -> Z) :
  frames_ok (phys m) -> taken (phys m) t = true ->
  (forall m' i, frames_ok (phys m') -> (forall g, g mod 4096 = 0 -> g <> t -> same_frame m m' g) -> 0 <= i < 512 -> val m' i = v i) ->
  let m' := for_z 0 512 (fun i m => set_entry m t i (val m i)) m in
  m' = m<| phys := phys m' |> /\ (forall g, taken (phys m') g = taken (phys m) g) /\
  (forall g, spare (phys m') g = spare (phys m) g) /\ (forall F, t ∈ F -> moved m F m' F) /\
  (forall g, g mod 4096 = 0 -> g <> t -> same_frame m m' g) /\ (forall i, 0 <= i < 512 -> entry m' t i = v i).
Proof.
  intros Hok Ht Hval. apply taken_frame in Ht as Hf. cbv zeta.
  apply (for_z_ind (fun k m' => m' = m<| phys := phys m' |> /\ (forall g, taken (phys m') g = taken (phys m) g) /\
    (forall g, spare (phys m') g = spare (phys m) g) /\
    (forall F, t ∈ F -> moved m F m' F) /\ (forall g, g mod 4096 = 0 -> g <> t -> same_frame m m' g) /\
    (forall i, 0 <= i < k -> entry m' t i = v i))); [lia| |].
  { split_and!; [by destruct m|done|done|by intros; apply moved_refl|done|lia]. }
  intros i m1 Hi (I1 & I2 & I2' & I3 & I4 & I5). assert (frames_ok (phys m1)) as Hok1 by (apply (I3 [t]); set_solver).
  assert (taken (phys m1) t = true) as Ht1 by by rewrite I2. split_and!.
  - rewrite I1. done.
  - intros g. by rewrite set_entry_taken, I2.
  - intros g. by rewrite set_entry_spare, I2'.
  - intros F HF. eapply moved_trans; [by apply I3|]. by apply moved_store.
  - intros g Hg Hne x Hx. rewrite <- (I4 g Hg Hne x Hx). destruct (store_law (phys m1) (t + 8 * i) (val m1 i) Hok1) as (_ & _ & _ & _ & S4).
    change (word (store (phys m1) (t + 8 * i) (val m1 i)) x = word (phys m1) x). rewrite S4. unfold in_frame in Hx.
    replace (x =? t + 8 * i) with false by zlia. done.
  - intros j Hj. rewrite set_entry_spec by (done || lia). rewrite Z.eqb_refl. cbn [andb].
    destruct (j =? i) eqn:E; [replace j with i by lia; by apply Hval|]. apply I5. lia.
Qed.

Lemma take_set_last {A} `{Inhabited A} (l : list A) n v :
  0 <= n < zlen l -> take (Z.to_nat (n + 1)) (l.[n <- v]) = take (Z.to_nat n) l ++ [v].
Proof.
  intros Hn. unfold zlen in Hn. replace (Z.to_nat (n + 1)) with (S (Z.to_nat n)) by lia.
  rewrite (take_S_r _ _ v) by (apply list_lookup_insert_eq; lia). f_equal. apply take_insert_ge. lia.
Qed.

Lemma allocate_table_spec m a E :
  accounted m a E ->
  let '(f, m') := address_space_allocate_table m a in
  (f = 0 /\ phys m' = phys m /\ spaces m' = spaces m /\ tstep m a m' /\
   (32 <= owned_count (spaces m a) \/ forall g, spare (phys m) g = false)) \/
  (f <> 0 /\ (forall g, spare (phys m') g = spare (phys m) g && negb (g =? f)) /\ taken (phys m) f = false /\ accounted m' a E /\ tstep m a m' /\
   owned (spaces m' a) = owned (spaces m a) ++ [f] /\ anonymous_frames (spaces m' a) = anonymous_frames (spaces m a) /\
   root (spaces m' a) = root (spaces m a) /\ owned_count (spaces m' a) = owned_count (spaces m a) + 1 /\
   anonymous_count (spaces m' a) = anonymous_count (spaces m a) /\
   (forall g, taken (phys m') g = taken (phys m) g || (g =? f)) /\ (forall g, g mod 4096 = 0 -> g <> f -> same_frame m m' g) /\
   (forall i, 0 <= i < 512 -> entry m' f i = 0)).
Proof.
  intros [A1 [A2 A2'] A3 A4 A5]. unfold address_space_allocate_table. set (s := spaces m a) in *. cbv zeta.
  case_if as Ec; [left; split_and!; try done; left; lia|].
  pose proof (alloc_spec m A1) as Ha. destruct (physical_alloc_frame (phys m)) as [f p].
  destruct Ha as [(-> & -> & Hno)|(F1 & F0 & F2 & F3 & F4 & F5 & F6 & F7)].
  { left. cbn. split_and!; try done. by right. }
  replace (f =? 0) with false by lia. set (m1 := m<| phys := p |>) in *. right.
  assert (f ∉ E ++ footprint s) as Hf by (intros Hin; rewrite A5 in F2 by done; done).
  destruct (fill_table m1 f (fun _ _ => 0) (fun _ => 0)) as (C1 & C2 & C2' & C3 & C4 & C5);
    [apply (moved_ok _ _ _ _ (F5 [] ltac:(set_solver)))|done|done|]. fold (clear_table m1 f) in *. set (m2 := clear_table m1 f) in *. clearbody m2.
  assert (spaces m2 = spaces m) as Hsp by by rewrite C1.
  rewrite (wrap_small 32) by (widths; lia). set (s' := s<| owned_frames := _ |><| owned_count := _ |>).
  assert (owned s' = owned s ++ [f]) as Ho by (apply take_set_last; lia).
  assert (E ++ footprint s' ≡ₚ f :: E ++ footprint s) as Hfp.
  { unfold footprint. rewrite Ho, !app_assoc, <- (app_assoc _ [f]). symmetry. apply Permutation_middle. }
  assert (forall g, taken (phys m2) g = taken (phys m) g || (g =? f)) as Htk by (intros g; rewrite C2; apply F4).
  assert (spaces (set_space m2 a s') a = s') as Es by apply fupd_eq.
  split_and!; try done.
  - intros g. change (spare (phys m2) g = spare (phys m) g && negb (g =? f)). rewrite C2'. apply F0.
  - split; rewrite ?Es; [apply (moved_ok _ _ _ _ (C3 [f] ltac:(set_solver)))|..].
    + unfold s'. cbn. rewrite zlen_set. lia.
    + done.
    + rewrite Hfp. by apply NoDup_cons.
    + intros g. rewrite Hfp. intros Hg%elem_of_cons. change (taken (phys m2) g = true). rewrite Htk. destruct Hg as [-> |Hg]; [lia|].
      by rewrite A5.
  - split.
    + rewrite Es. eapply moved_trans; [apply (F5 (owned s)); unfold footprint in Hf; set_solver|]. eapply (moved_phys m1 _ m2); [|done..].
      eapply moved_perm; [apply (C3 (f :: owned s)); set_solver|done|]. intros g. rewrite Ho. set_solver.
    + intros b Hb. unfold set_space. cbn. rewrite fupd_ne by done. by rewrite Hsp.
    + by rewrite C1.
  - by rewrite Es.
  - by rewrite Es.
  - by rewrite Es.
  - by rewrite Es.
  - by rewrite Es.
  - intros g Hg Hne x Hx. change (word (phys m2) x = word (phys m) x). by rewrite (C4 g Hg Hne x Hx), (F6 g Hg Hne x Hx).
Qed.

(** ** Address spaces *)

Definition values T : list Z := (map_to_list T).*2.

Lemma elem_of_values T f : f ∈ values T <-> exists x, T !! x = Some f.
Proof.
  unfold values. rewrite list_elem_of_fmap. split.
  - intros ([x y] & -> & Hin). apply elem_of_map_to_list in Hin. by exists x.
  - intros [x Hx]. exists (x, f). split; [done|]. by apply elem_of_map_to_list.
Qed.

(** The tables of the tree [T] and the kernel's table [k] are the frames that [a] owns, apart
    from those in [X], which are not linked. *)
Record core m a k T (X E : list Z) : Prop := {
  core_acc : accounted m a E;
  core_null : a <> 0;
  core_tree : tree m (root (spaces m a)) k T;
  core_perm : owned (spaces m a) ≡ₚ X ++ k :: values T;
  core_kernel i : 0 <= i < 512 -> entry m k i = entry m (pdpt statics) i;
  core_static : reserved (phys m) (pdpt statics) = true /\ pdpt statics mod 4096 = 0;
}.

Lemma core_in_footprint m a k T X E f : core m a k T X E -> f ∈ X ++ k :: values T -> f ∈ E ++ footprint (spaces m a).
Proof. intros Hc Hf. apply elem_of_app. right. apply elem_of_app. left. by rewrite (core_perm _ _ _ _ _ _ Hc). Qed.

Lemma core_distinct m a k T X E : core m a k T X E -> NoDup (X ++ k :: values T).
Proof.
  intros Hc. rewrite <- (core_perm _ _ _ _ _ _ Hc). pose proof (acc_nodup _ _ _ (core_acc _ _ _ _ _ _ Hc)) as Hn.
  apply NoDup_app in Hn as (_ & _ & Hn). by apply NoDup_app in Hn as (Hn & _).
Qed.

Lemma core_k m a k T X E : core m a k T X E -> taken (phys m) k = true /\ forall x, T !! x <> Some k.
Proof.
  intros Hc. split.
  - apply (acc_taken _ _ _ (core_acc _ _ _ _ _ _ Hc)). eapply core_in_footprint; [done|]. set_solver.
  - intros x Hx. pose proof (core_distinct _ _ _ _ _ _ Hc) as Hn. apply NoDup_app in Hn as (_ & _ & Hn).
    apply NoDup_cons in Hn as [Hn _]. apply Hn, elem_of_values. by exists x.
Qed.

Lemma accounted_store m a E t i v : accounted m a E -> accounted (set_entry m t i v) a E.
Proof.
  intros [A1 A2 A3 A4 A5]. split; try done; [by apply set_entry_ok|]. intros f Hf. rewrite set_entry_taken by done. by apply A5.
Qed.

Lemma tstep_store m a t i v :
  frames_ok (phys m) -> t ∈ owned (spaces m a) -> taken (phys m) t = true -> 0 <= i < 512 -> tstep m a (set_entry m t i v).
Proof. intros Hok Hin Ht Hi. split; [by apply moved_store|done|done]. Qed.

(** The kernel's static table is reserved, so no step touches it. *)
Lemma static_moved m F m' F' :
  moved m F m' F' -> reserved (phys m) (pdpt statics) = true /\ pdpt statics mod 4096 = 0 ->
  (reserved (phys m') (pdpt statics) = true /\ pdpt statics mod 4096 = 0) /\
  forall i, 0 <= i < 512 -> entry m' (pdpt statics) i = entry m (pdpt statics) i.
Proof.
  intros [M1 M2 M3 M4 M5] [Hr Hm]. split; [split; [by apply M4|done]|]. intros i Hi.
  apply same_frame_entry; [by apply M5|done].
Qed.

Lemma values_insert T x c : T !! x = None -> values (<[x := c]> T) ≡ₚ c :: values T.
Proof. intros Hx. unfold values. by rewrite map_to_list_insert. Qed.

Lemma values_delete T x c : T !! x = Some c -> c :: values (delete x T) ≡ₚ values T.
Proof. intros Hx. unfold values. by rewrite <- (map_to_list_delete T x c). Qed.

(** What does not change of the address space while tables are added or removed. *)
Definition same_pages m m' a : Prop :=
  root (spaces m' a) = root (spaces m a) /\ anonymous_frames (spaces m' a) = anonymous_frames (spaces m a) /\
  anonymous_count (spaces m' a) = anonymous_count (spaces m a).

Lemma same_pages_anonymous m m' a : same_pages m m' a -> anonymous (spaces m' a) = anonymous (spaces m a).
Proof. intros (_ & E1 & E2). unfold anonymous. by rewrite E1, E2. Qed.

Lemma pages_step m a E m' : tstep m a m' -> same_pages m m' a -> step m a E m' E.
Proof. intros Hst Hsp. by apply tstep_step, same_pages_anonymous. Qed.

Lemma same_pages_trans m1 m2 m3 a : same_pages m1 m2 a -> same_pages m2 m3 a -> same_pages m1 m3 a.
Proof. intros (A1 & A2 & A3) (B1 & B2 & B3). split_and!; congruence. Qed.

Lemma ensure_spec m a k T X E l q t i fl :
  core m a k T X E -> T !! (l, q) = Some t -> 0 < l -> 0 <= i < 512 -> ~ (l = 3 /\ i = 0) -> fl = 3 \/ fl = 7 ->
  let '(ok, made, m') := ensure_table m a t i fl in
  tstep m a m' /\ same_pages m m' a /\
  if (ok : bool) then
    if (made : bool) then exists c, T !! child l q i = None /\ core m' a k (<[child l q i := c]> T) X E /\
      (forall v, user_page v -> pte m' (<[child l q i := c]> T) v = pte m T v) /\
      owned (spaces m' a) = owned (spaces m a) ++ [c] /\ owned_count (spaces m' a) = owned_count (spaces m a) + 1 /\
      (forall g, spare (phys m') g = spare (phys m) g && negb (g =? c)) /\ forall j, 0 <= j < 512 -> entry m' c j = 0
    else m' = m /\ is_Some (T !! child l q i)
  else made = false /\ phys m' = phys m /\ spaces m' = spaces m /\
    (32 <= owned_count (spaces m a) \/ forall g, spare (phys m) g = false).
Proof.
  intros Hc Hlq Hl Hi Hk Hfl. pose proof (core_tree _ _ _ _ _ _ Hc) as Ht. pose proof (core_acc _ _ _ _ _ _ Hc) as Hacc.
  pose proof (acc_ok _ _ _ Hacc) as Hok. pose proof (tree_entry _ _ _ _ Ht _ _ _ i Hlq Hl Hi Hk) as Hlink. fold (child l q i) in Hlink.
  unfold ensure_table. destruct (T !! child l q i) as [c|] eqn:Ec.
  { destruct (link_spec m c _ (tree_taken _ _ _ _ Ht _ _ Ec) Hlink) as [-> _]. by split_and!. }
  cbn in Hlink. rewrite Hlink. change (has 0 PAGE_PRESENT) with false. cbv iota.
  pose proof (allocate_table_spec m a E Hacc) as Hal. destruct (address_space_allocate_table m a) as [f m1].
  destruct Hal as [(-> & Hp & Hs & Hst & Hex)|(F1 & F0 & F2 & Hacc1 & Hst1 & Ho & Ha & Hr & Hn & Han & Htk & Hsame & Hz)].
  { cbn. unfold same_pages. rewrite Hs. by split_and!. }
  replace (f =? 0) with false by lia. set (m2 := set_entry m1 t i (Z.lor f fl)).
  pose proof (acc_ok _ _ _ Hacc1) as Hok1. assert (taken (phys m1) f = true) as Hf1 by (rewrite Htk; lia).
  apply taken_frame in Hf1 as Hff. pose proof (tree_taken _ _ _ _ Ht _ _ Hlq) as Htt. apply taken_frame in Htt as Htf.
  assert (t <> f) as Htne by congruence. assert (taken (phys m1) t = true) as Ht1 by (rewrite Htk, Htt; done).
  assert (Z.lor f fl = f + fl) as Hlor by (apply lor_low; lia).
  assert (forall t' j, t' mod 4096 = 0 -> 0 <= j < 512 -> t' <> f -> entry m2 t' j = if (t' =? t) && (j =? i) then f + fl else entry m t' j) as He.
  { intros t' j Ht' Hj Hne. unfold m2. rewrite set_entry_spec, Hlor by (done || lia). case_if as E2; [done|].
    apply same_frame_entry; [by apply Hsame|done]. }
  assert (t ∈ owned (spaces m1 a)) as Hin.
  { rewrite Ho. apply elem_of_app. left.
    rewrite (core_perm _ _ _ _ _ _ Hc). apply elem_of_app. right. right. apply elem_of_values. by exists (l, q). }
  pose proof (tstep_trans _ _ _ _ Hst1 (tstep_store m1 a t i (Z.lor f fl) Hok1 Hin Ht1 Hi)) as Hst. fold m2 in Hst.
  destruct (tree_add m m2 _ k T Ht l q t i Hlq Hi Hk f fl) as [Ht2 Hpte]; try done.
  { unfold m2. by rewrite set_entry_taken. }
  { intros g Hg. unfold m2. rewrite set_entry_taken, Htk, Hg by done. done. }
  { intros t' j Ht' _ Hj. apply He; [by apply (taken_frame _ _ Ht')|done|congruence]. }
  { intros j Hj. unfold m2. rewrite set_entry_spec by (done || lia). replace (f =? t) with false by lia. by apply Hz. }
  destruct (static_moved _ _ _ _ (ts_moved _ _ _ Hst) (core_static _ _ _ _ _ _ Hc)) as [Hstat Hpd].
  destruct (core_k _ _ _ _ _ _ Hc) as [Hkt Hkn]. split; [done|].
  split; [by split_and!|]. exists f. split; [done|]. split_and!; try done.
  - split; try done.
    + by apply accounted_store.
    + by apply Hc.
    + change (tree m2 (root (spaces m1 a)) k (<[child l q i:=f]> T)). by rewrite Hr.
    + change (owned (spaces m1 a) ≡ₚ X ++ k :: values (<[child l q i:=f]> T)). rewrite Ho, (core_perm _ _ _ _ _ _ Hc), values_insert by done.
      rewrite <- app_assoc. apply Permutation_app_head. cbn. apply perm_skip. symmetry. apply Permutation_cons_append.
    + intros j Hj. rewrite He, Hpd, <- (core_kernel _ _ _ _ _ _ Hc) by (done || (apply (taken_frame _ _ Hkt)) || congruence).
      replace (k =? t) with false; [done|]. symmetry. apply Z.eqb_neq. intros ->. by apply (Hkn (l, q)).
  - intros g. unfold m2. by rewrite set_entry_spare.
  - intros j Hj. unfold m2. rewrite set_entry_spec by (done || lia). replace (f =? t) with false by lia. by apply Hz.
Qed.

Lemma unlink_spec m a k T X E l q t i c :
  core m a k T X E -> T !! (l, q) = Some t -> 0 < l -> 0 <= i < 512 -> ~ (l = 3 /\ i = 0) -> T !! child l q i = Some c ->
  (forall j, 0 <= j < 512 -> entry m c j = 0) ->
  let m' := set_entry m t i 0 in
  core m' a k (delete (child l q i) T) (c :: X) E /\ (forall v, user_page v -> pte m' (delete (child l q i) T) v = pte m T v) /\
  tstep m a m' /\ (forall t' j, t' mod 4096 = 0 -> 0 <= j < 512 -> entry m' t' j = if (t' =? t) && (j =? i) then 0 else entry m t' j).
Proof.
  intros Hc Hlq Hl Hi Hk Hch Hz m'. pose proof (core_tree _ _ _ _ _ _ Hc) as Ht. pose proof (core_acc _ _ _ _ _ _ Hc) as Hacc.
  pose proof (acc_ok _ _ _ Hacc) as Hok. pose proof (tree_taken _ _ _ _ Ht _ _ Hlq) as Htt. apply taken_frame in Htt as Htf.
  assert (forall t' j, t' mod 4096 = 0 -> 0 <= j < 512 -> entry m' t' j = if (t' =? t) && (j =? i) then 0 else entry m t' j) as He.
  { intros t' j Ht' Hj. unfold m'. apply set_entry_spec; done || lia. }
  assert (tstep m a m') as Hst.
  { apply tstep_store; [done| |done|done]. rewrite (core_perm _ _ _ _ _ _ Hc). apply elem_of_app. right. right. apply elem_of_values. by exists (l, q). }
  destruct (tree_remove m m' _ k T Ht l q t i Hlq Hi Hk c) as [Ht' Hpte]; try done.
  { intros f Hf _. unfold m'. by rewrite set_entry_taken. }
  { intros t' j Ht' _ Hj. apply He; [|done]. by apply (taken_frame _ _ Ht'). }
  destruct (static_moved _ _ _ _ (ts_moved _ _ _ Hst) (core_static _ _ _ _ _ _ Hc)) as [Hstat Hpd]. destruct (core_k _ _ _ _ _ _ Hc) as [Hkt Hkn].
  split_and!; try done. split; try done; [by apply accounted_store|by apply Hc| |].
  - change (owned (spaces m a) ≡ₚ (c :: X) ++ k :: values (delete (child l q i) T)). rewrite (core_perm _ _ _ _ _ _ Hc).
    rewrite <- (values_delete T (child l q i) c Hch). cbn. rewrite (perm_swap c k). symmetry. apply Permutation_middle.
  - intros j Hj. rewrite He, Hpd, <- (core_kernel _ _ _ _ _ _ Hc) by (done || apply (taken_frame _ _ Hkt)).
    replace (k =? t) with false; [done|]. symmetry. apply Z.eqb_neq. intros ->. by apply (Hkn (l, q)).
Qed.

(** The last frame owned goes back to the allocator. *)
Definition pop_owned m a : vm_t P :=
  let s := spaces m a in
  let count := owned_count s - 1 in
  free_frame (set_space m a (s<| owned_count := count |>)) ((owned_frames s).[count]).

Lemma pop_owned_spec m a k T X E L f :
  core m a k T X E -> owned (spaces m a) = L ++ [f] -> f ∈ X ->
  exists X', X ≡ₚ f :: X' /\ core (pop_owned m a) a k T X' E /\ owned (spaces (pop_owned m a) a) = L /\
    owned_count (spaces (pop_owned m a) a) = owned_count (spaces m a) - 1 /\
    tstep m a (pop_owned m a) /\ same_pages m (pop_owned m a) a /\ (forall x, word (phys (pop_owned m a)) x = word (phys m) x).
Proof.
  intros Hc Ho Hf. pose proof (core_acc _ _ _ _ _ _ Hc) as [A1 [A2 A2'] A3 A4 A5]. pose proof (core_distinct _ _ _ _ _ _ Hc) as Hdis.
  apply elem_of_Permutation in Hf as [X' HX]. set (s := spaces m a) in *.
  assert (List.length (owned s) = S (List.length L)) as Hlen by (rewrite Ho, length_app; simpl; lia).
  assert (Z.of_nat (List.length (owned s)) = owned_count s) as Hcnt by (unfold owned, zlen in *; rewrite length_take; lia).
  assert ((owned_frames s).[owned_count s - 1] = f) as Hlast.
  { apply list_lookup_total_correct. rewrite <- (lookup_take_lt _ (Z.to_nat (owned_count s))) by lia. fold (owned s).
    rewrite Ho. apply list_lookup_middle. lia. }
  set (m1 := set_space m a (s<| owned_count := owned_count s - 1 |>)).
  assert (pop_owned m a = free_frame m1 f) as Ep by (unfold pop_owned; fold s; by rewrite Hlast). rewrite Ep.
  assert (owned (spaces m1 a) = L) as HL.
  { unfold m1, set_space. cbn. rewrite fupd_eq. unfold owned. cbn. replace (Z.to_nat (owned_count s - 1)) with (List.length L) by lia.
    transitivity (take (List.length L) (owned s)); [unfold owned; rewrite take_take; f_equal; lia|rewrite Ho; apply take_app_length]. }
  assert (E ++ footprint s ≡ₚ f :: E ++ footprint (spaces m1 a)) as Hfp.
  { unfold footprint. rewrite Ho, HL. unfold m1, set_space. cbn. rewrite fupd_eq. rewrite !app_assoc, <- (app_assoc _ [f]). cbn.
    symmetry. apply Permutation_middle. }
  rewrite Hfp in A4. apply NoDup_cons in A4 as [Hnf Hnd].
  assert (taken (phys m) f = true) as Htf by (apply A5; rewrite Hfp; set_solver).
  destruct (moved_free m1 (owned (spaces m1 a)) f A1 Htf) as (Hmv & Htk & Hw); [unfold footprint in Hnf; set_solver|].
  exists X'. split; [done|].
  assert (tstep m a (free_frame m1 f)) as Hst.
  { split; [|intros b Hb; by apply fupd_ne|done]. eapply moved_phys; [eapply moved_perm; [exact Hmv| |done]|done..]. intros g. fold s. rewrite Ho, HL. set_solver. }
  assert (forall g, taken (phys m) g = true -> g <> f -> taken (phys (free_frame m1 f)) g = true) as Hkeep.
  { intros g Hg Hne. rewrite Htk. change (taken (phys m) g && negb (g =? f) = true). lia. }
  assert (spaces (free_frame m1 f) a = s<| owned_count := owned_count s - 1 |>) as Es by apply fupd_eq.
  assert (f ∉ k :: values T) as Hfk.
  { rewrite HX in Hdis. cbn in Hdis. apply NoDup_cons in Hdis as [Hdis _]. set_solver. }
  split_and!; try done; try (by rewrite Es).
  - destruct (static_moved _ _ _ _ (ts_moved _ _ _ Hst) (core_static _ _ _ _ _ _ Hc)) as [Hstat Hpd]. split; try done; [|by apply Hc| | |].
    + split; [apply Hmv| | |done|]; [rewrite Es; cbn; lia|by rewrite Es|]. intros g Hg.
      change (g ∈ E ++ footprint (spaces m1 a)) in Hg. apply Hkeep; [|by intros ->]. apply A5. rewrite Hfp. by right.
    + rewrite Es. eapply tree_ext; [by apply Hc|]. intros x t Hx. split; [|by intros y _; apply Hw].
      apply Hkeep; [by eapply tree_taken, Hx; apply Hc|]. intros ->. apply Hfk. right. apply elem_of_values. by exists x.
    + change (owned (spaces m1 a) ≡ₚ X' ++ k :: values T). rewrite HL. pose proof (core_perm _ _ _ _ _ _ Hc) as Hp.
      fold s in Hp. rewrite Ho, HX, <- Permutation_cons_append in Hp. by apply Permutation_cons_inv in Hp.
    + intros j Hj. unfold entry. rewrite !Hw. by apply (core_kernel _ _ _ _ _ _ Hc).
  - unfold same_pages. by rewrite Es.
Qed.

Lemma free_owned_spec n m a k T X E L Y :
  core m a k T X E -> owned (spaces m a) = L ++ Y -> X ≡ₚ Y -> List.length Y = n ->
  let m' := free_owned n m a in
  core m' a k T [] E /\ owned (spaces m' a) = L /\ tstep m a m' /\ same_pages m m' a /\
  (forall x, word (phys m') x = word (phys m) x).
Proof.
  revert m X Y. induction n as [|n IH]; intros m X Y Hc Ho HX Hn; cbn [free_owned].
  { destruct Y; [|done]. apply Permutation_nil_r in HX as ->. rewrite app_nil_r in Ho. split_and!; try done. by apply tstep_refl, Hc. }
  destruct Y as [|f Y _] using rev_ind; [done|]. rewrite length_app in Hn. simpl in Hn. rewrite app_assoc in Ho.
  destruct (pop_owned_spec m a k T X E (L ++ Y) f Hc Ho) as (X' & HX' & Hc1 & Ho1 & _ & Hst1 & Hp1 & Hw1); [rewrite HX; set_solver|].
  assert (X' ≡ₚ Y) as HXY by (rewrite HX', <- Permutation_cons_append in HX; by apply Permutation_cons_inv in HX).
  destruct (IH (pop_owned m a) X' Y Hc1 Ho1 HXY ltac:(lia)) as (Hc2 & Ho2 & Hst2 & Hp2 & Hw2).
  change (free_owned n _ a) with (free_owned n (pop_owned m a) a).
  split_and!; [done|done|by eapply tstep_trans|by eapply same_pages_trans|]. intros x. by rewrite Hw2, Hw1.
Qed.

Lemma core_phys m a k T X E n : core m a k T X E -> phys n = phys m -> spaces n a = spaces m a -> core n a k T X E.
Proof.
  intros Hc Ep Es. pose proof Hc as [[A1 A2 A3 A4 A5] C2 C3 C4 C5 C6]. unfold entry in *. split; rewrite ?Es; try done.
  - split; rewrite ?Es, ?Ep; done.
  - by apply (tree_phys m).
  - unfold entry. by rewrite Ep.
  - by rewrite Ep.
Qed.

Lemma pte_phys m T v n : phys n = phys m -> pte n T v = pte m T v.
Proof. intros E. unfold pte, entry. by rewrite E. Qed.

Lemma pte_words m T v n : (forall x, word (phys n) x = word (phys m) x) -> pte n T v = pte m T v.
Proof. intros E. unfold pte, entry. by destruct (T !! _). Qed.

(** The two tables that [address_space_map_page] may have made on its way. *)
Lemma rollback_spec m a k T E i3 i2 (o1 o2 : option Z) (r pdpt : Z) (before : Z) L :
  let T1 := match o1 with Some c => <[child 3 0 i3 := c]> T | None => T end in
  let T2 := match o2 with Some c => <[child 2 i3 i2 := c]> T1 | None => T1 end in
  0 < i3 < 512 -> 0 <= i2 < 512 -> core m a k T2 [] E -> r = root (spaces m a) -> T1 !! (2, i3) = Some pdpt ->
  match o1 with Some c => T !! child 3 0 i3 = None /\ forall j, 0 <= j < 512 -> o2 <> None /\ j = i2 \/ entry m c j = 0 | None => True end ->
  match o2 with Some c => T1 !! child 2 i3 i2 = None /\ forall j, 0 <= j < 512 -> entry m c j = 0 | None => True end ->
  owned (spaces m a) = L ++ option_list o1 ++ option_list o2 -> before = Z.of_nat (List.length L) ->
  let m' := address_space_rollback_tables m a before r pdpt i3 i2 (bool_decide (is_Some o1)) (bool_decide (is_Some o2)) in
  core m' a k T [] E /\ owned (spaces m' a) = L /\ tstep m a m' /\ same_pages m m' a /\
  forall v, user_page v -> pte m' T v = pte m T2 v.
Proof.
  intros T1 T2 Hi3 Hi2 Hc -> Hp H1 H2 Ho -> m'. unfold m', address_space_rollback_tables. clear m'.
  set (m1 := if bool_decide (is_Some o2) then _ else m).
  assert (core m1 a k T1 (option_list o2) E /\ tstep m a m1 /\ spaces m1 = spaces m /\
    (forall v, user_page v -> pte m1 T1 v = pte m T2 v) /\
    (forall c, o1 = Some c -> forall j, 0 <= j < 512 -> entry m1 c j = 0)) as (Hc1 & Hst1 & Hs1 & Hp1 & Hz1).
  { destruct o2 as [c2|]; cbn in m1; unfold m1.
    - destruct H2 as [Hn2 Hz2]. assert (T2 !! (2, i3) = Some pdpt) as HT2 by (unfold T2; rewrite lookup_insert_ne by (unfold child; intros [= ? ?]); done).
      destruct (unlink_spec m a k T2 [] E 2 i3 pdpt i2 c2 Hc HT2) as (U1 & U2 & U3 & U4); [lia|lia|lia|apply lookup_insert_eq|done|].
      assert (delete (child 2 i3 i2) T2 = T1) as E2 by by apply delete_insert_id. rewrite E2 in *. split_and!; try done.
      intros c1 -> j Hj. destruct H1 as [_ H1]. assert (c1 = pdpt) as ->.
      { unfold T1 in Hp. change (child 3 0 i3) with (2, 512 * 0 + i3) in Hp. rewrite Z.mul_0_r, Z.add_0_l, lookup_insert_eq in Hp. congruence. }
      assert (taken (phys m) pdpt = true) as Htp by (eapply tree_taken, HT2; apply Hc). rewrite U4 by (done || apply (taken_frame _ _ Htp)).
      rewrite Z.eqb_refl. destruct (j =? i2) eqn:Ej; [done|]. destruct (H1 j Hj) as [[_ ?]|?]; [lia|done].
    - split_and!; try done; [by apply tstep_refl, Hc|]. intros c1 -> j Hj. destruct H1 as [_ H1]. by destruct (H1 j Hj) as [[? _]|?]. }
  set (m2 := if bool_decide (is_Some o1) then _ else m1).
  assert (core m2 a k T (option_list o1 ++ option_list o2) E /\ tstep m a m2 /\ spaces m2 = spaces m /\
    (forall v, user_page v -> pte m2 T v = pte m T2 v)) as (Hc2 & Hst2 & Hs2 & Hp2).
  { destruct o1 as [c1|]; cbn in m2; unfold m2; [|by split_and!]. rewrite <- Hs1.
    destruct (unlink_spec m1 a k T1 (option_list o2) E 3 0 (root (spaces m1 a)) i3 c1 Hc1) as (U1 & U2 & U3 & U4);
      [by eapply tree_root, Hc1|lia|lia|lia|apply lookup_insert_eq|by apply Hz1|].
    assert (delete (child 3 0 i3) T1 = T) as E1 by (apply delete_insert_id, H1). rewrite E1 in *. split_and!; try done; [by eapply tstep_trans|].
    intros v Hv. rewrite U2 by done. by apply Hp1. }
  assert (Z.of_nat (List.length (owned (spaces m a))) = owned_count (spaces m a)) as Hcnt.
  { destruct Hc as [[_ [? ?] _ _ _] _ _ _ _ _]. unfold owned, zlen in *. rewrite length_take. lia. }
  destruct (free_owned_spec (Z.to_nat (owned_count (spaces m2 a) - Z.of_nat (List.length L))) m2 a k T _ E L
    (option_list o1 ++ option_list o2) Hc2) as (Hc3 & Ho3 & Hst3 & Hsp3 & Hw3); [by rewrite Hs2|done| |].
  { rewrite Hs2, <- Hcnt, Ho, !length_app. lia. }
  split_and!; [done|done|by eapply tstep_trans| |].
  - eapply same_pages_trans; [|exact Hsp3]. unfold same_pages. by rewrite Hs2.
  - intros v Hv. rewrite (pte_words m2) by done. by apply Hp2.
Qed.

(** ** Mapping a page *)

Definition new_pte (physical flags : Z) : Z :=
  let e := Z.lor (Z.lor physical flags) PAGE_PRESENT in
  if Z.land flags ADDRESS_SPACE_EXECUTABLE =? 0 then Z.lor e PAGE_NX else e.

Lemma new_pte_odd physical flags : Z.odd (new_pte physical flags) = true.
Proof. unfold new_pte. rewrite <- !Z.bit0_odd. case_if as E; rewrite !Z.lor_spec; by rewrite ?orb_true_r. Qed.

Definition with_table T (l q i : Z) (o : option Z) : gmap (Z * Z) Z :=
  match o with Some c => <[child l q i := c]> T | None => T end.

Lemma ensure_cases m a k T E l q t i fl :
  core m a k T [] E -> T !! (l, q) = Some t -> 0 < l -> 0 <= i < 512 -> ~ (l = 3 /\ i = 0) -> fl = 3 \/ fl = 7 ->
  exists m', tstep m a m' /\ same_pages m m' a /\
  ((ensure_table m a t i fl = (false, false, m') /\ phys m' = phys m /\ spaces m' = spaces m /\
    (32 <= owned_count (spaces m a) \/ forall g, spare (phys m) g = false)) \/
   exists o c, let T' := with_table T l q i o in
     ensure_table m a t i fl = (true, bool_decide (is_Some o), m') /\ core m' a k T' [] E /\ T' !! child l q i = Some c /\
     T' !! (l, q) = Some t /\ table_address (entry m' t i) = c /\ (forall v, user_page v -> pte m' T' v = pte m T v) /\
     owned (spaces m' a) = owned (spaces m a) ++ option_list o /\
     (forall g, spare (phys m') g = spare (phys m) g && negb (bool_decide (o = Some g))) /\
     match o with Some c => T !! child l q i = None /\ forall j, 0 <= j < 512 -> entry m' c j = 0 | None => m' = m end).
Proof.
  intros Hc Hlq Hl Hi Hk Hfl. pose proof (ensure_spec m a k T [] E l q t i fl Hc Hlq Hl Hi Hk Hfl) as He.
  destruct (ensure_table m a t i fl) as [[ok made] m']. destruct He as (Hst & Hsp & He). exists m'. split; [done|]. split; [done|].
  destruct ok; [right|left; by destruct He as (-> & ? & ? & ?)].
  assert (forall T' c, core m' a k T' [] E -> T' !! (l, q) = Some t -> T' !! child l q i = Some c -> table_address (entry m' t i) = c) as Hlink.
  { intros T' c Hc' Hlq' Hch. pose proof (core_tree _ _ _ _ _ _ Hc') as Ht'.
    pose proof (tree_entry _ _ _ _ Ht' _ _ _ i Hlq' Hl Hi Hk) as Hlk. fold (child l q i) in Hlk. rewrite Hch in Hlk.
    by destruct (link_spec m' c _ (tree_taken _ _ _ _ Ht' _ _ Hch) Hlk). }
  destruct made.
  - destruct He as (c & Hn & Hc' & Hp & Ho & _ & Hsp' & Hz). exists (Some c), c. cbn.
    assert (<[child l q i:=c]> T !! (l, q) = Some t) as Hlq' by (rewrite lookup_insert_ne; [done|]; unfold child; intros [= ? ?]; lia).
    split_and!; try done; [apply lookup_insert_eq|by eapply Hlink; [done|done|apply lookup_insert_eq]|].
    intros g. rewrite Hsp'. f_equal. f_equal. rewrite (bool_decide_ext _ (c = g)) by (split; congruence). case_bool_decide; lia.
  - destruct He as (-> & [c Hch]). exists None, c. cbn. split_and!; try done; [by eapply Hlink|by rewrite app_nil_r|].
    intros g. by rewrite andb_true_r.
Qed.

Lemma walk_mapped m a k T X E v :
  core m a k T X E -> user_page v ->
  match walk PAGE_PRESENT m (root (spaces m a)) v with
  | Some (_, _, pde) => has (entry m (table_address pde) (index v 12)) PAGE_PRESENT
  | None => false
  end = Z.odd (pte m T v).
Proof.
  intros Hc Hv. pose proof (core_tree _ _ _ _ _ _ Hc) as Ht. pose proof (walk_tree m _ k T v Ht Hv) as Hw. unfold pte.
  destruct (T !! (0, v / 2 ^ 21)) as [pt|] eqn:E0; [|by rewrite Hw].
  destruct Hw as (? & ? & ? & ? & e1 & _ & _ & _ & _ & _ & _ & _ & L1 & ->).
  destruct (link_spec m pt _ (tree_taken _ _ _ _ Ht _ _ E0) L1) as [_ ->]. apply has_present.
Qed.

Lemma set_pte_spec m a k T E q t i e :
  core m a k T [] E -> T !! (0, q) = Some t -> 0 <= i < 512 -> e = 0 \/ Z.odd e = true ->
  let m' := set_entry m t i e in
  core m' a k T [] E /\ tstep m a m' /\ (forall j, 0 <= j < 512 -> entry m' t j = if j =? i then e else entry m t j) /\
  forall v, user_page v -> pte m' T v = if v =? 4096 * (512 * q + i) then e else pte m T v.
Proof.
  intros Hc Hq Hi He m'. pose proof (core_tree _ _ _ _ _ _ Hc) as Ht. pose proof (core_acc _ _ _ _ _ _ Hc) as Hacc.
  pose proof (acc_ok _ _ _ Hacc) as Hok. pose proof (tree_taken _ _ _ _ Ht _ _ Hq) as Htt. apply taken_frame in Htt as Htf.
  assert (forall t' j, t' mod 4096 = 0 -> 0 <= j < 512 -> entry m' t' j = if (t' =? t) && (j =? i) then e else entry m t' j) as Hent.
  { intros t' j Ht' Hj. unfold m'. apply set_entry_spec; done || lia. }
  assert (tstep m a m') as Hst.
  { apply tstep_store; [done| |done|done]. rewrite (core_perm _ _ _ _ _ _ Hc). apply elem_of_app. right. right. apply elem_of_values. by exists (0, q). }
  destruct (tree_set_pte m m' _ k T Ht 0 q t i Hq Hi ltac:(lia) e) as [Ht' Hpte]; try done.
  { intros f Hf. unfold m'. by rewrite set_entry_taken. }
  { intros t' j Ht' _ Hj. apply Hent; [|done]. by apply (taken_frame _ _ Ht'). }
  destruct (static_moved _ _ _ _ (ts_moved _ _ _ Hst) (core_static _ _ _ _ _ _ Hc)) as [Hstat Hpd]. destruct (core_k _ _ _ _ _ _ Hc) as [Hkt Hkn].
  split_and!; try done.
  - split; try done; [by apply accounted_store|by apply Hc|by apply Hc|].
    intros j Hj. rewrite Hent, Hpd, <- (core_kernel _ _ _ _ _ _ Hc) by (done || apply (taken_frame _ _ Hkt)).
    replace (k =? t) with false; [done|]. symmetry. apply Z.eqb_neq. intros ->. by apply (Hkn (0, q)).
  - intros j Hj. rewrite Hent by lia. by rewrite Z.eqb_refl.
Qed.

(** The arguments that [address_space_map_page] accepts. *)
Definition mappable (v physical flags : Z) : bool :=
  negb (bad_address v || negb (Z.land physical (PAGE_SIZE - 1) =? 0) || (0x100000000 <=? physical)
        || bad_flags flags (Z.lor (Z.lor ADDRESS_SPACE_WRITABLE ADDRESS_SPACE_USER) ADDRESS_SPACE_EXECUTABLE)).

(** The tables made while the entries of a new table are still empty. *)
Lemma fresh_table_empty m n a k T E i3 i2 c1 o2 :
  core m a k T [] E -> 0 < i3 < 512 -> T !! child 3 0 i3 = None ->
  core n a k (with_table (<[child 3 0 i3 := c1]> T) 2 i3 i2 o2) [] E ->
  forall j, 0 <= j < 512 -> o2 <> None /\ j = i2 \/ entry n c1 j = 0.
Proof.
  intros Hc Hi3 Hn Hc2 j Hj. pose proof (core_tree _ _ _ _ _ _ Hc) as Ht. pose proof (core_tree _ _ _ _ _ _ Hc2) as Ht2.
  assert (child 3 0 i3 = (2, i3)) as Ech by (unfold child; f_equal; lia).
  assert (with_table (<[child 3 0 i3 := c1]> T) 2 i3 i2 o2 !! (2, i3) = Some c1) as Hl.
  { rewrite Ech. destruct o2; cbn; [rewrite lookup_insert_ne by (unfold child; intros [= ? ?])|]; apply lookup_insert_eq. }
  pose proof (tree_entry _ _ _ _ Ht2 2 i3 c1 j Hl ltac:(lia) Hj ltac:(lia)) as Hlk.
  pose proof (tree_no_child m _ k T Ht 3 0 _ i3 (tree_root _ _ _ _ Ht) ltac:(lia) ltac:(lia) ltac:(lia) Hn j) as [Hno|?]; [|done].
  assert (<[child 3 0 i3 := c1]> T !! (2 - 1, 512 * i3 + j) = None) as Hno1.
  { rewrite Ech, lookup_insert_ne by (intros [= ? ?]). rewrite <- Hno. by f_equal; f_equal; lia. }
  destruct o2 as [c2|]; cbn in Hlk; [|right; by rewrite Hno1 in Hlk].
  destruct (decide (j = i2)) as [-> |Hne]; [by left|right]. rewrite lookup_insert_ne in Hlk by (unfold child; intros [= ?]; lia).
  by rewrite Hno1 in Hlk.
Qed.

(** At most two frames can still be allocated. *)
Definition few_spare m : Prop := exists f g, forall x, spare (phys m) x = true -> x = f \/ x = g.

Lemma few_spare_two m m1 m2 (o1 o2 : option Z) :
  (forall g, spare (phys m1) g = spare (phys m) g && negb (bool_decide (o1 = Some g))) ->
  (forall g, spare (phys m2) g = spare (phys m1) g && negb (bool_decide (o2 = Some g))) ->
  (forall g, spare (phys m2) g = false) -> few_spare m.
Proof.
  intros H1 H2 Hno. exists (default 0 o1), (default 0 o2). intros x Hx. specialize (H2 x). rewrite Hno, H1, Hx in H2.
  destruct (bool_decide (o1 = Some x)) eqn:E1; [apply bool_decide_eq_true in E1 as ->; by left|].
  destruct (bool_decide (o2 = Some x)) eqn:E2; [apply bool_decide_eq_true in E2 as ->; by right|done].
Qed.

Lemma length_owned m a E : accounted m a E -> Z.of_nat (List.length (owned (spaces m a))) = owned_count (spaces m a).
Proof. intros [_ [? ?] _ _ _]. unfold owned, zlen in *. rewrite length_take. lia. Qed.

Section make_tables.
Context (m : vm_t P) (a k : Z) (T : gmap (Z * Z) Z) (E : list Z) (Hc : core m a k T [] E) (v : Z) (Hv : user_page v).

(** Without a frame for the next table the tables made before are taken back. *)
Lemma make_tables_fails n (o1 o2 : option Z) (pdpt3 : Z) :
  let T1 := with_table T 3 0 (index v 39) o1 in
  let T2 := with_table T1 2 (index v 39) (index v 30) o2 in
  core n a k T2 [] E -> tstep m a n -> same_pages m n a -> T1 !! (2, index v 39) = Some pdpt3 ->
  match o1 with Some c => T !! child 3 0 (index v 39) = None | None => True end ->
  match o2 with Some c => T1 !! child 2 (index v 39) (index v 30) = None /\ forall j, 0 <= j < 512 -> entry n c j = 0 | None => True end ->
  owned (spaces n a) = owned (spaces m a) ++ option_list o1 ++ option_list o2 ->
  let m' := address_space_rollback_tables n a (owned_count (spaces m a)) (root (spaces m a)) pdpt3 (index v 39) (index v 30)
              (bool_decide (is_Some o1)) (bool_decide (is_Some o2)) in
  core m' a k T [] E /\ tstep m a m' /\ same_pages m m' a /\ owned (spaces m' a) = owned (spaces m a) /\
  forall w, user_page w -> pte m' T w = pte n T2 w.
Proof.
  intros T1 T2 Hn Hst Hsp Hp H1 H2 Ho m'. destruct (prefixes v Hv) as (I3 & I2 & _ & _ & N3 & _).
  destruct (rollback_spec n a k T E (index v 39) (index v 30) o1 o2 (root (spaces m a)) pdpt3 (owned_count (spaces m a)) (owned (spaces m a)))
    as (R1 & R2 & R3 & R4 & R5); try done; try lia.
  - by rewrite (proj1 Hsp).
  - destruct o1 as [c1|]; [|done]. split; [done|]. apply (fresh_table_empty m n a k T E (index v 39) (index v 30) c1 o2); done || lia.
  - symmetry. apply (length_owned m a E), Hc.
  - split_and!; try done; [by eapply tstep_trans|by eapply same_pages_trans].
Qed.

Lemma make_tables_spec tf :
  tf = 3 \/ tf = 7 ->
  exists m' T' o, make_tables m a v tf = (o, m') /\ core m' a k T' [] E /\ tstep m a m' /\ same_pages m m' a /\
    (forall w, user_page w -> pte m' T' w = pte m T w) /\
    match o with
    | Some pt => T' !! (0, v / 2 ^ 21) = Some pt
    | None => owned (spaces m' a) = owned (spaces m a) /\ (30 <= owned_count (spaces m a) \/ few_spare m)
    end.
Proof.
  intros Htf. destruct (prefixes v Hv) as (I3 & I2 & I1 & _ & N3 & P2 & P1 & P0 & _). unfold make_tables.
  pose proof (make_tables_fails) as Hfail. set (r := root (spaces m a)) in *. pose proof (core_tree _ _ _ _ _ _ Hc) as Ht. fold r in Ht.
  set (i3 := index v 39) in *. set (i2 := index v 30) in *. set (i1 := index v 21) in *.
  assert (v / 2 ^ 39 = i3) as P2' by lia. rewrite P2' in P1.
  destruct (ensure_cases m a k T E 3 0 r i3 tf Hc (tree_root _ _ _ _ Ht)) as (m1 & Hst1 & Hsp1 &
    [(-> & Hp & Hs & Hex)|(o1 & pdpt3 & -> & Hc1 & Hch1 & _ & A1 & Hpt1 & Ho1 & Hs1 & Hn1)]); [lia|lia|lia|done| |]; cbn [negb].
  { exists m1, T, None. split_and!; try done; [by apply (core_phys m); rewrite ?Hs|intros; by apply pte_phys|by rewrite Hs|].
    destruct Hex as [?|Hex]; [left; lia|right]. exists 0, 0. intros x. by rewrite Hex. }
  rewrite A1. set (T1 := with_table T 3 0 i3 o1) in *. assert (child 3 0 i3 = (2, i3)) as Ech3 by (unfold child; f_equal; lia).
  rewrite Ech3 in Hch1.
  destruct (ensure_cases m1 a k T1 E 2 i3 pdpt3 i2 tf Hc1 Hch1) as (m2 & Hst2 & Hsp2 &
    [(-> & Hp & Hs & Hex)|(o2 & pd2 & -> & Hc2 & Hch2 & _ & A2 & Hpt2 & Ho2 & Hs2 & Hn2)]); [lia|lia|lia|done| |]; cbn [negb].
  { destruct (Hfail m2 o1 None pdpt3) as (R1 & R2 & R3 & R4 & R5); try done; [apply (core_phys m1); rewrite ?Hs; done|
      by eapply tstep_trans|by eapply same_pages_trans|destruct o1; [apply Hn1|done]|by rewrite Hs, Ho1, app_nil_r|].
    eexists _, T, None. split; [reflexivity|]. split_and!; try done.
    - intros w Hw. rewrite R5 by done. cbn. rewrite (pte_phys m1) by done. by apply Hpt1.
    - destruct Hex as [Hex|Hex]; [left|right; by apply (few_spare_two m m1 m1 o1 None); [|intros; rewrite andb_true_r|]].
      rewrite <- (length_owned m1 a E), Ho1, length_app in Hex by apply Hc1. rewrite <- (length_owned m a E) by apply Hc.
      destruct o1; cbn in Hex; lia. }
  rewrite A2. set (T2 := with_table T1 2 i3 i2 o2) in *. assert (child 2 i3 i2 = (1, v / 2 ^ 30)) as Ech2 by (unfold child; f_equal; lia).
  rewrite Ech2 in Hch2.
  destruct (ensure_cases m2 a k T2 E 1 _ pd2 i1 tf Hc2 Hch2) as (m3 & Hst3 & Hsp3 &
    [(-> & Hp & Hs & Hex)|(o3 & pt & -> & Hc3 & Hch3 & _ & A3 & Hpt3 & _)]); [lia|lia|lia|done| |]; cbn [negb].
  { destruct (Hfail m3 o1 o2 pdpt3) as (R1 & R2 & R3 & R4 & R5); try done; [apply (core_phys m2); rewrite ?Hs; done|
      do 2 (eapply tstep_trans; [done|]); done|do 2 (eapply same_pages_trans; [done|]); done|destruct o1; [apply Hn1|done]| |by rewrite Hs, Ho2, Ho1, app_assoc|].
    { destruct o2; [|done]. split; [apply Hn2|]. intros j Hj. unfold entry. rewrite Hp. by apply Hn2. }
    eexists _, T, None. split; [reflexivity|]. split_and!; try done.
    - intros w Hw. rewrite R5 by done. rewrite (pte_phys m2) by done. by rewrite Hpt2, Hpt1.
    - destruct Hex as [Hex|Hex]; [left|right; by apply (few_spare_two m m1 m2 o1 o2)].
      rewrite <- (length_owned m2 a E), Ho2, Ho1, !length_app in Hex by apply Hc2. rewrite <- (length_owned m a E) by apply Hc.
      destruct o1, o2; cbn in Hex; lia. }
  rewrite A3. eexists m3, _, (Some pt). assert (child 1 (v / 2 ^ 30) i1 = (0, v / 2 ^ 21)) as Ech1 by (unfold child; f_equal; lia).
  split; [done|]. split_and!; [exact Hc3|do 2 (eapply tstep_trans; [done|]); done|do 2 (eapply same_pages_trans; [done|]); done| |by rewrite <- Ech1].
  intros w Hw. by rewrite Hpt3, Hpt2, Hpt1.
Qed.

End make_tables.

Lemma pte_zero_or_odd m a k T X E v : core m a k T X E -> user_page v -> Z.odd (pte m T v) = false -> pte m T v = 0.
Proof.
  intros Hc Hv Hodd. unfold pte in *. destruct (T !! (0, v / 2 ^ 21)) as [t|] eqn:E0; [|done].
  destruct (prefixes v Hv) as (_ & _ & _ & I0 & _). destruct (tree_pte _ _ _ _ (core_tree _ _ _ _ _ _ Hc) _ _ _ E0 I0); congruence.
Qed.

Lemma core_root m a k T X E : core m a k T X E -> root (spaces m a) <> 0.
Proof.
  intros Hc. pose proof (core_tree _ _ _ _ _ _ Hc) as Ht. pose proof (tree_taken _ _ _ _ Ht _ _ (tree_root _ _ _ _ Ht)) as Hrt.
  apply taken_frame in Hrt. lia.
Qed.

Lemma map_page_spec m a k T E v physical fl :
  core m a k T [] E ->
  exists m' T' ok, address_space_map_page m a v physical fl = (ok, m') /\ core m' a k T' [] E /\ tstep m a m' /\ same_pages m m' a /\
  if (ok : bool) then mappable v physical fl = true /\ pte m T v = 0 /\
    forall w, user_page w -> pte m' T' w = if w =? v then new_pte physical fl else pte m T w
  else owned (spaces m' a) = owned (spaces m a) /\ (forall w, user_page w -> pte m' T' w = pte m T w) /\
    (mappable v physical fl = true -> pte m T v = 0 -> 30 <= owned_count (spaces m a) \/ few_spare m).
Proof.
  intros Hc. unfold address_space_map_page. pose proof (core_root _ _ _ _ _ _ Hc) as Hr. pose proof (core_null _ _ _ _ _ _ Hc) as Hnull.
  pose proof (acc_ok _ _ _ (core_acc _ _ _ _ _ _ Hc)) as Hok.
  replace (a =? 0) with false by lia. replace (root (spaces m a) =? 0) with false by lia. cbn [orb]. unfold mappable.
  destruct (bad_address v || _ || _ || _) eqn:Ebad; [exists m, T, false; by split_and!|].
  assert (user_page v) as Hv by (apply bad_address_spec; rewrite !orb_false_iff in Ebad; apply Ebad).
  cbv zeta. rewrite (walk_mapped m a k T [] E v Hc Hv). destruct (Z.odd (pte m T v)) eqn:Eodd.
  { exists m, T, false. split_and!; try done. intros _ E0. by rewrite E0 in Eodd. }
  pose proof (pte_zero_or_odd _ _ _ _ _ _ _ Hc Hv Eodd) as Hpte0. set (tf := Z.lor (Z.lor PAGE_PRESENT PAGE_WRITABLE) _).
  assert (tf = 3 \/ tf = 7) as Htf by (unfold tf; case_if as Eu; [by left|by right]).
  destruct (make_tables_spec m a k T E Hc v Hv tf Htf) as (m1 & T1 & [pt|] & -> & Hc1 & Hst & Hsp & Hpt & Ho).
  2:{ exists m1, T1, false. destruct Ho. by split_and!. }
  destruct (prefixes v Hv) as (_ & _ & _ & I0 & _ & _ & _ & _ & Ev). set (e := Z.lor (Z.lor physical fl) PAGE_PRESENT).
  assert (Z.odd e = true) as Hodd by (unfold e; rewrite <- Z.bit0_odd, Z.lor_spec; by rewrite orb_true_r).
  destruct (set_pte_spec m1 a k T1 E _ pt (index v 12) e Hc1 Ho I0 ltac:(by right)) as (Q1 & Q2 & Q3 & Q4). set (m2 := set_entry m1 pt _ e) in *.
  assert (Z.odd (Z.lor e PAGE_NX) = true) as Hodd' by (rewrite <- Z.bit0_odd, Z.lor_spec, Z.bit0_odd, Hodd; done).
  destruct (set_pte_spec m2 a k T1 E _ pt (index v 12) (Z.lor e PAGE_NX) Q1 Ho I0 ltac:(by right)) as (Q1' & Q2' & _ & Q4').
  assert (entry m2 pt (index v 12) = e) as He by (rewrite Q3 by lia; by rewrite Z.eqb_refl). rewrite He.
  assert (tstep m a m2) as Hst2 by by eapply tstep_trans.
  destruct (Z.land fl ADDRESS_SPACE_EXECUTABLE =? 0) eqn:Ex;
    [exists (set_entry m2 pt (index v 12) (Z.lor e PAGE_NX)), T1, true|exists m2, T1, true]; split_and!; try done; try by eapply tstep_trans.
  - intros w Hw. unfold new_pte. rewrite Ex, Q4', Q4, Hpt, <- Ev by done. by case_if as E1.
  - intros w Hw. unfold new_pte. rewrite Ex, Q4, Hpt, <- Ev by done. done.
Qed.

(** ** Unmapping a page *)

(** [frames[i] = frames[--count];] *)
Lemma swap_remove {A} `{Inhabited A} (l : list A) n i :
  0 <= i < n -> n <= zlen l ->
  l.[i] :: take (Z.to_nat (n - 1)) (l.[i <- l.[n - 1]]) ≡ₚ take (Z.to_nat n) l.
Proof.
  intros Hi Hn. unfold zlen in Hn. replace (Z.to_nat n) with (S (Z.to_nat (n - 1))) by lia.
  rewrite (take_S_r l (Z.to_nat (n - 1)) (l.[n - 1])) by (apply list_lookup_lookup_total_lt; lia).
  destruct (decide (i = n - 1)) as [-> |Hne].
  { rewrite take_insert_ge by lia. apply Permutation_cons_append. }
  rewrite take_insert_lt by lia. set (l' := take (Z.to_nat (n - 1)) l).
  assert (l' !! Z.to_nat i = Some (l.[i])) as Hl by (unfold l'; rewrite lookup_take_lt by lia; apply list_lookup_lookup_total_lt; lia).
  rewrite insert_take_drop by (eapply lookup_lt_Some; exact Hl). rewrite <- (take_drop_middle _ _ _ Hl) at 3.
  rewrite <- Permutation_cons_append, <- !Permutation_middle. apply perm_swap.
Qed.

Lemma release_table_spec m a E c :
  accounted m a E -> a <> 0 -> c ∈ owned (spaces m a) ->
  exists m', address_space_release_table m a c = (true, m') /\ accounted m' a E /\ tstep m a m' /\ same_pages m m' a /\
    c :: owned (spaces m' a) ≡ₚ owned (spaces m a) /\ (forall g, taken (phys m') g = taken (phys m) g && negb (g =? c)) /\
    (forall x, word (phys m') x = word (phys m) x).
Proof.
  intros [A1 [A2 A2'] A3 A4 A5] Ha Hin. unfold address_space_release_table. set (s := spaces m a) in *. replace (a =? 0) with false by lia.
  assert (taken (phys m) c = true) as Hc by (apply A5; apply elem_of_app; right; apply elem_of_app; by left).
  apply taken_frame in Hc as Hcf. replace (c =? 0) with false by lia. cbn [orb].
  destruct (find_z 0 (owned_count s) (fun i => (owned_frames s).[i] =? c)) as [i|] eqn:Hf.
  2:{ exfalso. apply list_elem_of_lookup in Hin as [j Hj]. unfold owned in Hj. pose proof (lookup_lt_Some _ _ _ Hj) as Hlt.
      rewrite length_take in Hlt. rewrite lookup_take_lt in Hj by lia.
      pose proof (proj1 (find_z_None _ _ _) Hf (Z.of_nat j) ltac:(lia)) as Hne. cbn in Hne. rewrite Nat2Z.id in Hne.
      rewrite (list_lookup_total_correct _ _ _ Hj) in Hne. lia. }
  apply find_z_Some in Hf as (Hi & Heq & _). apply Z.eqb_eq in Heq.
  set (s' := s<| owned_count := _ |><| owned_frames := _ |>). set (m1 := set_space m a s').
  assert (c :: owned s' ≡ₚ owned s) as Hperm by (rewrite <- Heq; apply swap_remove; lia).
  assert (E ++ footprint s ≡ₚ c :: E ++ footprint s') as Hfp.
  { unfold footprint. rewrite <- Hperm. cbn. symmetry. apply Permutation_middle. }
  rewrite Hfp in A4. apply NoDup_cons in A4 as [Hnc Hnd]. assert (spaces m1 a = s') as Es by apply fupd_eq.
  destruct (moved_free m1 (owned s') c A1 Hc) as (Hmv & Htk & Hw); [unfold footprint in Hnc; set_solver|]. exists (free_frame m1 c). split; [done|].
  split_and!; try done.
  - split; [apply Hmv| | | |]; change (spaces (free_frame m1 c) a) with (spaces m1 a); rewrite ?Es; [|done|done|].
    + unfold s'. cbn. rewrite zlen_set. lia.
    + intros g Hg. rewrite Htk. change (taken (phys m) g && negb (g =? c) = true). rewrite A5 by (rewrite Hfp; by right).
      cbn. apply negb_true_iff, Z.eqb_neq. by intros ->.
  - split; [|intros b Hb; by apply fupd_ne|done]. change (spaces (free_frame m1 c) a) with (spaces m1 a). rewrite Es.
    eapply moved_phys; [eapply moved_perm; [exact Hmv| |done]|done..]. intros g. fold s. by rewrite <- Hperm.
  - unfold same_pages. change (spaces (free_frame m1 c) a) with (spaces m1 a). by rewrite Es.
  - change (spaces (free_frame m1 c) a) with (spaces m1 a). by rewrite Es.
Qed.

Lemma table_empty_spec m a k T X E l q t :
  core m a k T X E -> T !! (l, q) = Some t -> l < 3 -> address_space_table_empty m t = true ->
  forall j, 0 <= j < 512 -> entry m t j = 0.
Proof.
  intros Hc Hx Hl He j Hj. pose proof (core_tree _ _ _ _ _ _ Hc) as Ht. unfold address_space_table_empty in He.
  rewrite forallb_forall in He. specialize (He j). rewrite <- list_elem_of_In, elem_of_seqZ, has_present in He. specialize (He ltac:(lia)).
  pose proof (tree_level _ _ _ _ _ _ _ Ht Hx) as Hlev. destruct (decide (l = 0)) as [-> |].
  - destruct (tree_pte _ _ _ _ Ht _ _ _ Hx Hj) as [?|Hodd]; [done|]. by rewrite Hodd in He.
  - pose proof (tree_entry _ _ _ _ Ht l q t j Hx ltac:(lia) Hj ltac:(lia)) as Hlk. destruct (T !! (l - 1, 512 * q + j)) as [c|] eqn:Ec; [|done].
    destruct (link_spec m c _ (tree_taken _ _ _ _ Ht _ _ Ec) Hlk) as [Hh _]. rewrite has_present in Hh. by rewrite Hh in He.
Qed.

Lemma release_child_spec m a k T E l q t i c :
  core m a k T [] E -> T !! (l, q) = Some t -> 0 < l -> 0 <= i < 512 -> ~ (l = 3 /\ i = 0) -> T !! child l q i = Some c ->
  exists m' ok, release_child m a t i c = (ok, m') /\ tstep m a m' /\ same_pages m m' a /\
    let T' := if (ok : bool) then delete (child l q i) T else T in
    core m' a k T' [] E /\ forall w, user_page w -> pte m' T' w = pte m T w.
Proof.
  intros Hc Hlq Hl Hi Hk Hch. pose proof (core_acc _ _ _ _ _ _ Hc) as Hacc. pose proof (core_tree _ _ _ _ _ _ Hc) as Ht.
  pose proof (acc_ok _ _ _ Hacc) as Hok. unfold release_child. destruct (address_space_table_empty m c) eqn:Ee.
  2:{ exists m, false. by split_and!. }
  pose proof (tree_level _ _ _ _ _ _ _ Ht Hlq) as Hlev.
  assert (forall j, 0 <= j < 512 -> entry m c j = 0) as Hz by (apply (table_empty_spec m a k T [] E (l - 1) (512 * q + i) c); done || lia).
  assert (c ∈ owned (spaces m a)) as Hin by (rewrite (core_perm _ _ _ _ _ _ Hc); right; apply elem_of_values; by eexists).
  destruct (release_table_spec m a E c Hacc (core_null _ _ _ _ _ _ Hc) Hin) as (m1 & -> & Hacc1 & Hst1 & Hsp1 & Hperm & Htk & Hw).
  exists (set_entry m1 t i 0), true. split; [done|]. pose proof (acc_ok _ _ _ Hacc1) as Hok1.
  pose proof (tree_taken _ _ _ _ Ht _ _ Hlq) as Htt. apply taken_frame in Htt as Htf.
  assert (t <> c) as Hne.
  { intros ->. pose proof (tree_inj _ _ _ _ Ht _ _ _ Hlq Hch) as [= ? ?]. lia. }
  assert (forall t' j, t' mod 4096 = 0 -> 0 <= j < 512 -> entry (set_entry m1 t i 0) t' j = if (t' =? t) && (j =? i) then 0 else entry m t' j) as He.
  { intros t' j Ht' Hj. rewrite set_entry_spec by (done || lia). unfold entry. by rewrite Hw. }
  assert (taken (phys m1) t = true) as Ht1 by (rewrite Htk, Htt; cbn; lia).
  assert (t ∈ owned (spaces m1 a)) as Htin.
  { assert (t ∈ c :: owned (spaces m1 a)) as Htc.
    { rewrite Hperm, (core_perm _ _ _ _ _ _ Hc). right. apply elem_of_values. by exists (l, q). }
    by apply elem_of_cons in Htc as [?|?]. }
  pose proof (tstep_trans _ _ _ _ Hst1 (tstep_store m1 a t i 0 Hok1 Htin Ht1 Hi)) as Hst.
  destruct (tree_remove m (set_entry m1 t i 0) _ k T Ht l q t i Hlq Hi Hk c Hl Hch Hz) as [Ht' Hpte].
  { intros f Hf Hfc. rewrite set_entry_taken, Htk, Hf by done. cbn. lia. }
  { intros t' j Ht' _ Hj. apply He; [|done]. by apply (taken_frame _ _ Ht'). }
  destruct (static_moved _ _ _ _ (ts_moved _ _ _ Hst) (core_static _ _ _ _ _ _ Hc)) as [Hstat Hpd]. destruct (core_k _ _ _ _ _ _ Hc) as [Hkt Hkn].
  split_and!; try done. split; try done; [by apply accounted_store|by apply Hc|..].
  - change (tree (set_entry m1 t i 0) (root (spaces m1 a)) k (delete (child l q i) T)). by rewrite (proj1 Hsp1).
  - change (owned (spaces m1 a) ≡ₚ k :: values (delete (child l q i) T)). pose proof (core_perm _ _ _ _ _ _ Hc) as Hp. cbn in Hp.
    rewrite <- Hperm, <- (values_delete T _ c Hch), perm_swap in Hp. by apply Permutation_cons_inv in Hp.
  - intros j Hj. rewrite He, Hpd, <- (core_kernel _ _ _ _ _ _ Hc) by (done || apply (taken_frame _ _ Hkt)).
    replace (k =? t) with false; [done|]. symmetry. apply Z.eqb_neq. intros ->. by apply (Hkn (l, q)).
Qed.

Lemma core_invalidate cpu m a k T X E b v : core m a k T X E -> core (invalidate_active_page cpu m b v) a k T X E.
Proof. intros Hc. unfold invalidate_active_page. case_if as Ei; [|done]. by apply (core_phys m). Qed.

Lemma tstep_invalidate cpu m a b v : frames_ok (phys m) -> tstep m a (invalidate_active_page cpu m b v).
Proof. intros Hok. unfold invalidate_active_page. case_if as Ei; [|by apply tstep_refl]. split; [|done|done]. by apply (moved_phys m _ m); [apply moved_refl|..]. Qed.

Lemma pte_invalidate cpu m T b v w : pte (invalidate_active_page cpu m b v) T w = pte m T w.
Proof. unfold invalidate_active_page. by case_if as Ei. Qed.

Lemma release_tables_spec m a k T E v pdpt3 pd pt e3 e2 :
  core m a k T [] E -> user_page v -> T !! (2, v / 2 ^ 39) = Some pdpt3 -> T !! (1, v / 2 ^ 30) = Some pd -> T !! (0, v / 2 ^ 21) = Some pt ->
  table_address e3 = pdpt3 -> table_address e2 = pd ->
  exists m' T', release_tables m a v e3 e2 pt = m' /\ core m' a k T' [] E /\ tstep m a m' /\ same_pages m m' a /\
  forall w, user_page w -> pte m' T' w = pte m T w.
Proof.
  intros Hc Hv E2 E1 E0 A3 A2. destruct (prefixes v Hv) as (I3 & I2 & I1 & I0 & N3 & P2 & P1 & P0 & Ev). unfold release_tables. rewrite A2, A3.
  assert (child 1 (v / 2 ^ 30) (index v 21) = (0, v / 2 ^ 21)) as C1 by (unfold child; f_equal; lia).
  assert (child 2 (v / 2 ^ 39) (index v 30) = (1, v / 2 ^ 30)) as C2 by (unfold child; f_equal; lia).
  assert (child 3 0 (index v 39) = (2, v / 2 ^ 39)) as C3 by (unfold child; f_equal; lia).
  destruct (release_child_spec m a k T E 1 _ pd (index v 21) pt Hc E1) as (m3 & ok3 & -> & St3 & Sp3 & Hc3 & Hp3); [lia|lia|lia|by rewrite C1|].
  rewrite C1 in *. destruct ok3; cbn [negb]; [|by exists m3, T].
  destruct (release_child_spec m3 a k _ E 2 (v / 2 ^ 39) pdpt3 (index v 30) pd Hc3) as (m4 & ok4 & -> & St4 & Sp4 & Hc4 & Hp4);
    [by rewrite lookup_delete_ne by (intros [= ?])|lia|lia|lia|rewrite C2; by rewrite lookup_delete_ne by (intros [= ?])|].
  rewrite C2 in *. destruct ok4; cbn [negb].
  2:{ eexists m4, _. split_and!; try done; [by eapply tstep_trans|by eapply same_pages_trans|]. intros w Hw. by rewrite Hp4, Hp3. }
  destruct (release_child_spec m4 a k _ E 3 0 (root (spaces m4 a)) (index v 39) pdpt3 Hc4) as (m5 & ok5 & -> & St5 & Sp5 & Hc5 & Hp5);
    [by eapply tree_root, Hc4|lia|lia|lia|rewrite C3; by rewrite !lookup_delete_ne by (intros [= ?])|].
  eexists m5, _. split_and!; try done; [do 2 (eapply tstep_trans; [done|]); done|do 2 (eapply same_pages_trans; [done|]); done|].
  intros w Hw. by rewrite Hp5, Hp4, Hp3.
Qed.

(** The entry of a page is replaced and the processor told so. *)
Lemma write_page_spec cpu m a k T E v pt e :
  core m a k T [] E -> user_page v -> T !! (0, v / 2 ^ 21) = Some pt -> e = 0 \/ Z.odd e = true ->
  let m' := invalidate_active_page cpu (set_entry m pt (index v 12) e) a v in
  core m' a k T [] E /\ tstep m a m' /\ same_pages m m' a /\ forall w, user_page w -> pte m' T w = if w =? v then e else pte m T w.
Proof.
  intros Hc Hv E0 He m'. destruct (prefixes v Hv) as (_ & _ & _ & I0 & _ & _ & _ & _ & Ev).
  destruct (set_pte_spec m a k T E _ pt (index v 12) e Hc E0 I0 He) as (Q1 & Q2 & _ & Q4). set (m1 := set_entry m pt _ e) in *.
  assert (same_pages m m' a) as Hsp by (unfold m', invalidate_active_page; destruct (_ =? a); done).
  split_and!.
  - by apply core_invalidate.
  - eapply tstep_trans; [exact Q2|]. by apply tstep_invalidate, Q1.
  - done.
  - intros w Hw. unfold m'. rewrite pte_invalidate, Q4, <- Ev by done. done.
Qed.

Lemma unmap_page_spec cpu m a k T E v :
  core m a k T [] E ->
  exists m' T' ok, address_space_unmap_page cpu m a v = (ok, m') /\ core m' a k T' [] E /\ tstep m a m' /\ same_pages m m' a /\
  (ok = true <-> user_page v /\ pte m T v <> 0) /\
  forall w, user_page w -> pte m' T' w = if ok && (w =? v) then 0 else pte m T w.
Proof.
  intros Hc. unfold address_space_unmap_page. pose proof (core_root _ _ _ _ _ _ Hc) as Hr. pose proof (core_null _ _ _ _ _ _ Hc) as Hnull.
  pose proof (acc_ok _ _ _ (core_acc _ _ _ _ _ _ Hc)) as Hok. pose proof (core_tree _ _ _ _ _ _ Hc) as Ht.
  replace (a =? 0) with false by lia. replace (root (spaces m a) =? 0) with false by lia. cbn [orb].
  pose proof (bad_address_spec v) as Hbad. destruct (bad_address v).
  { exists m, T, false. split_and!; try done. split; [done|]. intros [Hv _]. by apply Hbad in Hv. }
  assert (user_page v) as Hv by by apply Hbad.
  pose proof (walk_tree m _ k T v Ht Hv) as Hw. pose proof (pte_zero_or_odd _ _ _ _ _ _ _ Hc Hv) as Hzo.
  destruct (T !! (0, v / 2 ^ 21)) as [pt|] eqn:E0.
  2:{ rewrite Hw. exists m, T, false. split_and!; try done. split; [done|]. intros [_ Hn]. unfold pte in Hn. by rewrite E0 in Hn. }
  destruct Hw as (pdpt3 & pd & e3 & e2 & e1 & E2 & E1 & _ & _ & _ & L3 & L2 & L1 & ->).
  destruct (link_spec m pdpt3 _ (tree_taken _ _ _ _ Ht _ _ E2) L3) as [_ A3]. destruct (link_spec m pd _ (tree_taken _ _ _ _ Ht _ _ E1) L2) as [_ A2].
  destruct (link_spec m pt _ (tree_taken _ _ _ _ Ht _ _ E0) L1) as [_ A1]. rewrite A1, has_present.
  assert (entry m pt (index v 12) = pte m T v) as Ept by (unfold pte; by rewrite E0). rewrite Ept.
  destruct (Z.odd (pte m T v)) eqn:Eodd; cbn [negb].
  2:{ exists m, T, false. split_and!; try done. split; [done|]. intros [_ Hn]. by destruct Hn, Hzo. }
  assert (pte m T v <> 0) as Hnz by (intros Ez; by rewrite Ez in Eodd).
  destruct (write_page_spec cpu m a k T E v pt 0 Hc Hv E0 ltac:(by left)) as (Q1 & Q2 & Q3 & Q4).
  destruct (release_tables_spec _ a k T E v pdpt3 pd pt e3 e2 Q1 Hv E2 E1 E0 A3 A2) as (m' & T' & -> & R1 & R2 & R3 & R4).
  exists m', T', true. split_and!; try done; [by eapply tstep_trans|by eapply same_pages_trans|]. intros w Hw. by rewrite R4, Q4.
Qed.

(** ** Changing the flags of a page *)

Definition protected (e flags : Z) : Z :=
  let e := Z.lor (Z.lor (Z.land e (u64 (Z.lnot (Z.lor (Z.lor PAGE_WRITABLE PAGE_USER) PAGE_NX)))) PAGE_PRESENT) PAGE_USER in
  let e := if Z.land flags ADDRESS_SPACE_WRITABLE =? 0 then e else Z.lor e PAGE_WRITABLE in
  if Z.land flags ADDRESS_SPACE_EXECUTABLE =? 0 then Z.lor e PAGE_NX else e.

Lemma protected_odd e flags : Z.odd (protected e flags) = true.
Proof. unfold protected. rewrite <- Z.bit0_odd. split_ifs; rewrite !Z.lor_spec; by rewrite ?orb_true_r. Qed.

Lemma update_flags_spec cpu m a k T E v flags :
  core m a k T [] E ->
  exists m' ok, address_space_update_page_flags cpu m a v flags = (ok, m') /\ core m' a k T [] E /\ tstep m a m' /\ same_pages m m' a /\
  (ok = true <-> user_page v /\ has (pte m T v) (Z.lor PAGE_PRESENT PAGE_USER) = true /\
     bad_flags flags (Z.lor (Z.lor ADDRESS_SPACE_WRITABLE ADDRESS_SPACE_USER) ADDRESS_SPACE_EXECUTABLE) = false) /\
  forall w, user_page w -> pte m' T w = if ok && (w =? v) then protected (pte m T v) flags else pte m T w.
Proof.
  intros Hc. unfold address_space_update_page_flags. pose proof (core_root _ _ _ _ _ _ Hc) as Hr. pose proof (core_null _ _ _ _ _ _ Hc) as Hnull.
  pose proof (acc_ok _ _ _ (core_acc _ _ _ _ _ _ Hc)) as Hok. pose proof (core_tree _ _ _ _ _ _ Hc) as Ht.
  replace (a =? 0) with false by lia. replace (root (spaces m a) =? 0) with false by lia. cbn [orb].
  pose proof (bad_address_spec v) as Hbad. destruct (bad_address v); cbn [orb].
  { exists m, false. split_and!; try done. split; [done|]. intros [Hv _]. by apply Hbad in Hv. }
  assert (user_page v) as Hv by by apply Hbad. destruct (bad_flags flags _).
  { exists m, false. split_and!; try done. split; [done|]. by intros (_ & _ & ?). }
  pose proof (walk_tree m _ k T v Ht Hv) as Hw. destruct (T !! (0, v / 2 ^ 21)) as [pt|] eqn:E0.
  2:{ rewrite Hw. exists m, false. split_and!; try done. split; [done|]. intros (_ & Hn & _). unfold pte in Hn. by rewrite E0 in Hn. }
  destruct Hw as (pdpt3 & pd & e3 & e2 & e1 & _ & _ & _ & _ & _ & _ & _ & L1 & ->).
  destruct (link_spec m pt _ (tree_taken _ _ _ _ Ht _ _ E0) L1) as [_ A1]. rewrite A1.
  assert (entry m pt (index v 12) = pte m T v) as Ept by (unfold pte; by rewrite E0). rewrite Ept.
  destruct (has (pte m T v) (Z.lor PAGE_PRESENT PAGE_USER)) eqn:Eh; cbn [negb].
  2:{ exists m, false. split_and!; try done. split; [done|]. by intros (_ & ? & _). }
  destruct (write_page_spec cpu m a k T E v pt (protected (pte m T v) flags) Hc Hv E0 ltac:(right; apply protected_odd)) as (Q1 & Q2 & Q3 & Q4).
  eexists _, true. by split_and!.
Qed.

(** ** Creating and destroying *)

(** An address space that does not exist. *)
Record dormant m a : Prop := {
  dorm_root : root (spaces m a) = 0;
  dorm_counts : owned_count (spaces m a) = 0 /\ anonymous_count (spaces m a) = 0;
  dorm_lengths : zlen (owned_frames (spaces m a)) = 32 /\ zlen (anonymous_frames (spaces m a)) = 128;
}.

Lemma dormant_accounted m a : frames_ok (phys m) -> dormant m a -> accounted m a [] /\ footprint (spaces m a) = [].
Proof.
  intros Hok [D1 [D2 D2'] [D3 D3']]. assert (footprint (spaces m a) = []) as Hf by (unfold footprint, owned, anonymous; by rewrite D2, D2').
  split; [|done]. split; rewrite ?Hf; try done; [lia|lia|constructor|]. intros f Hn. by apply elem_of_nil in Hn.
Qed.

Lemma step_set_space m a E s : frames_ok (phys m) -> footprint s = footprint (spaces m a) -> step m a E (set_space m a s) E.
Proof.
  intros Hok Hf. split; [|intros b Hb; by apply fupd_ne|done]. unfold set_space at 2. cbn. rewrite fupd_eq, Hf.
  apply (moved_phys m _ m); [by apply moved_refl|done|done].
Qed.

(** The empty tree: only the root. *)
Lemma tree_fresh m r k :
  taken (phys m) r = true -> (forall i, 0 <= i < 512 -> entry m r i = if i =? 0 then k + 3 else 0) -> tree m r k {[(3, 0) := r]}.
Proof.
  intros Hr He. assert (forall x t, ({[(3, 0) := r]} : gmap (Z * Z) Z) !! x = Some t -> x = (3, 0) /\ t = r) as Hs.
  { intros x t Hx. by apply lookup_singleton_Some in Hx as [<- <-]. }
  split.
  - apply lookup_singleton_eq.
  - intros x t Hx. by apply Hs in Hx as [_ ->].
  - intros x y t Hx Hy. apply Hs in Hx as [-> _], Hy as [-> _]. done.
  - intros l q t Hx. apply Hs in Hx as [[= -> ->] _]. by left.
  - intros l q t i Hx Hl Hi Hn. apply Hs in Hx as [[= -> ->] ->]. rewrite He by done. replace (i =? 0) with false by lia.
    rewrite lookup_singleton_ne by (intros [= ?]). done.
  - intros q t i Hx. by apply Hs in Hx as [[= ?] _].
  - by rewrite He.
Qed.

Lemma create_fails_spec m0 m a :
  step m0 a [] m [] -> accounted m a [] -> root (spaces m a) = 0 -> anonymous_count (spaces m a) = 0 -> 0 <= owned_count (spaces m a) <= 1 ->
  let m1 := for_z 0 (owned_count (spaces m a)) (fun i m => free_frame m ((owned_frames (spaces m a)).[i])) m in
  let m' := set_space m1 a ((spaces m1 a)<| owned_count := 0 |>) in
  step m0 a [] m' [] /\ dormant m' a.
Proof.
  intros Hst [A1 [A2 A2'] [A3 _] A4 A5] Hr Ha Hc m1 m'. set (s := spaces m a) in *.
  assert (spaces m1 = spaces m /\ frames_ok (phys m1) /\ moved m (footprint s) m1 [] /\ active_roots m1 = active_roots m /\
    kernel_root m1 = kernel_root m /\ heap_page_table_active m1 = heap_page_table_active m /\ active_spaces m1 = active_spaces m /\
    efer m1 = efer m) as (Es & Hok & Hmv & Hk).
  { assert (footprint s = owned s) as Hf by (unfold footprint, anonymous; rewrite Ha; apply app_nil_r).
    assert (owned_count s = 0 \/ owned_count s = 1) as [Hn|Hn] by lia; unfold m1; rewrite Hn.
    - rewrite for_z_empty by lia. split_and!; try done. rewrite Hf. unfold owned. rewrite Hn. by apply moved_refl.
    - change 1 with (0 + 1). rewrite for_z_last, for_z_empty by lia. fold s. assert (owned s = [(owned_frames s).[0]]) as Ho.
      { unfold owned. rewrite Hn. unfold zlen in A2. destruct (owned_frames s); [done|]. done. }
      rewrite Hf, Ho in *. cbn [app] in A5. destruct (moved_free m [] ((owned_frames s).[0]) A1) as (M1 & _); [apply A5; set_solver|set_solver|].
      split_and!; try done. apply M1. }
  assert (spaces m' a = s<| owned_count := 0 |>) as Es' by (unfold m', set_space; cbn; by rewrite fupd_eq, Es).
  assert (footprint (spaces m' a) = []) as Hf' by (rewrite Es'; unfold footprint, owned, anonymous; cbn; by rewrite Ha).
  split.
  - eapply step_trans; [exact Hst|]. split; cbn [app].
    + rewrite Hf'. by apply (moved_phys m _ m1).
    + intros b Hb. unfold m', set_space. cbn. by rewrite fupd_ne, Es by done.
    + destruct Hk as (? & ? & ? & ? & ?). by split_and!.
  - by split; rewrite Es'.
Qed.

(** The kernel's static table is where no frame is handed out. *)
Definition statics_reserved m : Prop := reserved (phys m) (pdpt statics) = true /\ pdpt statics mod 4096 = 0.

(** The two tables of a new space are filled. *)
Lemma create_tables_spec m0 m a f1 f2 :
  step m0 a [] m [] -> statics_reserved m0 -> accounted m a [] -> a <> 0 -> anonymous (spaces m a) = [] -> owned (spaces m a) = [f1; f2] ->
  (forall i, 0 <= i < 512 -> entry m f1 i = 0) ->
  let m1 := for_z 0 512 (fun i m => set_entry m f2 i (entry m (pdpt statics) i)) m in
  let m2 := set_entry m1 f1 0 (Z.lor (Z.lor f2 PAGE_PRESENT) PAGE_WRITABLE) in
  let m' := set_space m2 a ((spaces m2 a)<| root := f1 |>) in
  step m0 a [] m' [] /\ core m' a f2 {[(3, 0) := f1]} [] [] /\ anonymous (spaces m' a) = [].
Proof.
  intros Hst Hres Hacc Ha Han Ho Hz m1 m2 m'. pose proof Hacc as [A1 A2 A3 A4 A5]. set (s := spaces m a) in *.
  assert (footprint s = [f1; f2]) as Hf by (unfold footprint; by rewrite Ho, Han). cbn [app] in A4, A5. rewrite Hf in A4, A5.
  assert (f1 <> f2) as Hne by (apply NoDup_cons in A4 as [A4 _]; intros ->; apply A4; constructor).
  assert (taken (phys m) f1 = true) as Ht1 by (apply A5; constructor). assert (taken (phys m) f2 = true) as Ht2 by (apply A5; repeat constructor).
  apply taken_frame in Ht1 as Hf1, Ht2 as Hf2. destruct (static_moved _ _ _ _ (step_moved _ _ _ _ _ Hst) Hres) as [[Hr Hm] Hpd].
  destruct (fill_table m f2 (fun m i => entry m (pdpt statics) i) (fun i => entry m (pdpt statics) i)) as (C1 & C2 & _ & C3 & C4 & C5); [done|done| |].
  { intros n i _ Hsame Hi. apply same_frame_entry; [|done]. apply Hsame; [done|]. intros Efs. apply taken_reserved in Ht2. congruence. }
  fold m1 in C1, C2, C3, C4, C5. clearbody m1. assert (spaces m1 = spaces m) as Es1 by by rewrite C1.
  assert (frames_ok (phys m1)) as Hok1 by (apply (moved_ok _ _ _ _ (C3 [f2] ltac:(constructor)))).
  assert (spaces m' a = s<| root := f1 |>) as Es by (unfold m', set_space; cbn; by rewrite fupd_eq, Es1).
  assert (footprint (spaces m' a) = [f1; f2]) as Hf' by by rewrite Es.
  assert (step m a [] m' []) as Hst'.
  { split; cbn [app].
    - rewrite Hf'. fold s. rewrite Hf. apply (moved_phys m _ m2); [|done..]. eapply moved_trans; [apply (C3 [f1; f2]); repeat constructor|].
      apply moved_store; [done|constructor|by rewrite C2|lia].
    - intros b Hb. unfold m', set_space. cbn. by rewrite fupd_ne, Es1 by done.
    - unfold m', m2. cbn. by rewrite C1. }
  assert (Z.lor (Z.lor f2 PAGE_PRESENT) PAGE_WRITABLE = f2 + 3) as Hlor.
  { rewrite <- Z.lor_assoc. change (Z.lor PAGE_PRESENT PAGE_WRITABLE) with 3. apply lor_low; lia. }
  assert (forall t i, t mod 4096 = 0 -> 0 <= i < 512 -> entry m' t i = if (t =? f1) && (i =? 0) then f2 + 3 else entry m1 t i) as He.
  { intros t i Ht Hi. change (entry m2 t i = if (t =? f1) && (i =? 0) then f2 + 3 else entry m1 t i). unfold m2. rewrite set_entry_spec, Hlor by (done || lia). done. }
  assert (forall g, taken (phys m') g = taken (phys m) g) as Htk by (intros g; change (taken (phys m2) g = taken (phys m) g); unfold m2; by rewrite set_entry_taken, C2).
  split; [by eapply step_trans|]. split; [|by rewrite Es]. split; try done.
  - split; [by apply set_entry_ok|by rewrite Es|by rewrite Es|by cbn [app]; rewrite Hf'|].
    cbn [app]. rewrite Hf'. intros f Hin. rewrite Htk. by apply A5.
  - rewrite Es. apply tree_fresh; [by rewrite Htk|]. cbn. intros i Hi. rewrite He by (done || lia). rewrite Z.eqb_refl. cbn [andb].
    case_if as E0; [done|]. rewrite (same_frame_entry m m1); [by apply Hz|by apply C4; [apply Hf1|]|done].
  - rewrite Es. change (owned s ≡ₚ [] ++ f2 :: values {[(3, 0) := f1]}). rewrite Ho. unfold values. rewrite map_to_list_singleton. apply perm_swap.
  - intros i Hi. rewrite He by (done || lia). replace (f2 =? f1) with false by lia. cbn [andb]. rewrite C5 by done.
    destruct (static_moved _ _ _ _ (step_moved _ _ _ _ _ Hst') (conj Hr Hm)) as [_ Hpd']. by rewrite Hpd'.
  - by apply (static_moved _ _ _ _ (step_moved _ _ _ _ _ Hst')).
Qed.

Lemma create_spec m a :
  frames_ok (phys m) -> statics_reserved m -> dormant m a ->
  exists m' ok, address_space_create statics m a = (ok, m') /\ step m a [] m' [] /\
  if (ok : bool) then a <> 0 /\ anonymous (spaces m' a) = [] /\
    exists k T, core m' a k T [] [] /\ forall v, user_page v -> pte m' T v = 0
  else dormant m' a /\ (a <> 0 -> few_spare m).
Proof.
  intros Hok Hres Hd. destruct (dormant_accounted _ _ Hok Hd) as [Hacc Hfp]. pose proof Hd as [D1 [D2 D2'] D3]. unfold address_space_create.
  rewrite D1. change (0 =? 0) with true. cbn [negb]. rewrite orb_false_r. destruct (a =? 0) eqn:Ea.
  { exists m, false. split_and!; try done. lia. }
  set (m0 := set_space m a _). assert (step m a [] m0 []) as Hst0 by (apply step_set_space; [done|]; unfold footprint, owned, anonymous; cbn; by rewrite D2, D2').
  assert (spaces m0 a = (spaces m a)<| owned_count := 0 |><| anonymous_count := 0 |>) as Es0 by apply fupd_eq.
  assert (accounted m0 a []) as Hacc0.
  { apply dormant_accounted; [done|]. split; rewrite Es0; done. }
  pose proof (allocate_table_spec m0 a [] Hacc0) as Hal1. destruct (address_space_allocate_table m0 a) as [f1 m1].
  assert (accounted m1 a [] /\ step m a [] m1 [] /\ root (spaces m1 a) = 0 /\ anonymous_count (spaces m1 a) = 0 /\
    owned (spaces m1 a) = (if f1 =? 0 then [] else [f1]) /\ owned_count (spaces m1 a) = (if f1 =? 0 then 0 else 1) /\
    (f1 = 0 -> forall g, spare (phys m) g = false) /\ (f1 <> 0 -> (forall i, 0 <= i < 512 -> entry m1 f1 i = 0) /\
      forall g, spare (phys m1) g = spare (phys m) g && negb (g =? f1))) as (Hacc1 & Hst1 & Hr1 & Ha1 & Ho1 & Hn1 & Hz1 & Hs1).
  { destruct Hal1 as [(-> & Hp & Hs & Hst & Hex)|(F1 & F0 & _ & Hacc' & Hst & Ho & Han & Hr & Hn & Hac & _ & _ & Hz)].
    - assert (spaces m1 a = spaces m0 a) as Es by by rewrite Hs. apply (tstep_step _ _ []) in Hst; [|by rewrite Es]. split_and!; try done; rewrite ?Es, ?Es0; try done.
      + destruct Hacc0 as [B1 B2 B3 B4 B5]. split; rewrite ?Es, ?Hp; done.
      + by eapply step_trans.
      + intros _. destruct Hex as [Hex|Hex]; [rewrite Es0 in Hex; cbn in Hex; lia|done].
    - apply (tstep_step _ _ []) in Hst; [|by unfold anonymous; rewrite Han, Hac].
      replace (f1 =? 0) with false by lia. split_and!; try done; [by eapply step_trans|by rewrite Hr, Es0|by rewrite Hac, Es0|by rewrite Ho, Es0|by rewrite Hn, Es0]. }
  clear Hal1. pose proof (allocate_table_spec m1 a [] Hacc1) as Hal2. destruct (address_space_allocate_table m1 a) as [f2 m2].
  destruct Hal2 as [(-> & Hp & Hs & Hst & Hex)|(F1 & F0 & Hfr & Hacc2 & Hst & Ho & Han & Hr & Hn & Hac & _ & Hsame & Hz)].
  - rewrite orb_true_r. assert (spaces m2 a = spaces m1 a) as Es by by rewrite Hs. apply (tstep_step _ _ []) in Hst; [|by rewrite Es].
    destruct (create_fails_spec m m2 a) as [Hst' Hd']; [by eapply step_trans| |by rewrite Es|by rewrite Es|rewrite Es, Hn1; case_if as E1; lia|].
    { destruct Hacc1 as [B1 B2 B3 B4 B5]. split; rewrite ?Es, ?Hp; done. }
    eexists _, false. split_and!; try done. intros _. exists f1, f1. intros x Hx.
    destruct Hex as [Hex|Hex]; [rewrite Hn1 in Hex; destruct (f1 =? 0); lia|].
    destruct (decide (f1 = 0)) as [E1|E1]; [by rewrite (Hz1 E1) in Hx|]. specialize (Hex x). rewrite (proj2 (Hs1 E1)), Hx in Hex. lia.
  - apply (tstep_step _ _ []) in Hst; [|by unfold anonymous; rewrite Han, Hac].
    replace (f2 =? 0) with false by lia. rewrite orb_false_r. destruct (f1 =? 0) eqn:E1.
    + destruct (create_fails_spec m m2 a) as [Hst' Hd']; [by eapply step_trans|done|congruence|congruence|lia|].
      eexists _, false. split_and!; try done. intros _. exists 0, 0. intros x Hx. by rewrite Hz1 in Hx by lia.
    + destruct (create_tables_spec m m2 a f1 f2) as (Hst' & Hc & Hanon); [by eapply step_trans|done|done|lia| |by rewrite Ho, Ho1| |].
      { unfold anonymous. by rewrite Hac, Ha1. }
      { intros i Hi. assert (f1 <> f2) as Hne by (intros ->; destruct Hacc1 as [_ _ _ _ B5]; rewrite B5 in Hfr; [done|];
          unfold footprint; rewrite Ho1; constructor).
        assert (taken (phys m1) f1 = true) as Ht1 by (apply (acc_taken _ _ _ Hacc1); unfold footprint; rewrite Ho1; constructor).
        rewrite (same_frame_entry m1 m2); [apply Hs1; [lia|done]|apply Hsame; [apply (taken_frame _ _ Ht1)|done]|done]. }
      eexists _, true. split; [done|]. split_and!; [done|lia|done|]. eexists f2, _. split; [exact Hc|]. intros v Hv. unfold pte.
      by rewrite lookup_singleton_ne by (intros [= ?]).
Qed.

Lemma free_backwards_spec n frames m F :
  let L := (fun i => frames (Z.of_nat i)) <$> seq 0 n in
  frames_ok (phys m) -> NoDup (L ++ F) -> (forall f, f ∈ L -> taken (phys m) f = true) ->
  let m' := free_backwards n frames m in
  moved m (L ++ F) m' F /\ m' = m<| phys := phys m' |> /\ (forall g, taken (phys m') g = true <-> taken (phys m) g = true /\ g ∉ L).
Proof.
  revert m. induction n as [|n IH]; intros m L Hok Hnd Htk; cbn [free_backwards].
  { cbv zeta. split_and!; [by apply moved_refl|by destruct m|]. intros g. split; [|by intros [? _]]. intros Hg. split; [done|]. apply not_elem_of_nil. }
  set (f := frames (Z.of_nat n)). set (L' := (fun i => frames (Z.of_nat i)) <$> seq 0 n).
  assert (L = L' ++ [f]) as EL by (unfold L; rewrite seq_S, fmap_app; done). rewrite EL in *.
  assert (L' ++ [f] ++ F ≡ₚ f :: L' ++ F) as Hp by (symmetry; apply Permutation_middle).
  rewrite <- app_assoc, Hp in Hnd. apply NoDup_cons in Hnd as [Hnf Hnd].
  destruct (moved_free m (L' ++ F) f Hok) as (M1 & M2 & M3); [apply Htk; apply elem_of_app; right; constructor|done|].
  destruct (IH (free_frame m f)) as (I1 & I2 & I3); [apply M1|done| |].
  { intros g Hg. rewrite M2, Htk by (apply elem_of_app; by left). cbn. apply negb_true_iff, Z.eqb_neq. intros ->. apply Hnf, elem_of_app. by left. }
  fold L' in I1, I3. split_and!.
  - eapply moved_trans; [|exact I1]. eapply moved_perm; [exact M1| |done]. intros g. by rewrite <- app_assoc, Hp.
  - by rewrite I2.
  - intros g. rewrite I3, M2, elem_of_app, list_elem_of_singleton. destruct (g =? f) eqn:E.
    + replace g with f by lia. rewrite andb_false_r. naive_solver.
    + rewrite andb_true_r. assert (g <> f) by lia. naive_solver.
Qed.

Lemma take_seq {A} `{Inhabited A} (l : list A) n :
  0 <= n <= zlen l -> take (Z.to_nat n) l = (fun i => l.[Z.of_nat i]) <$> seq 0 (Z.to_nat n).
Proof.
  intros Hn. unfold zlen in Hn. apply list_eq. intros i. rewrite list_lookup_fmap. destruct (decide (i < Z.to_nat n)%nat).
  - rewrite lookup_take_lt, lookup_seq_lt by lia. cbn. rewrite Nat2Z.id. apply list_lookup_lookup_total_lt. lia.
  - rewrite lookup_take_ge, lookup_seq_ge by lia. done.
Qed.

Lemma destroy_spec cpu m a k T :
  core m a k T [] [] ->
  exists m' ok, address_space_destroy cpu m a = (ok, m') /\ step m a [] m' [] /\
  (ok = true <-> root (spaces m a) <> kernel_root m /\ root (spaces m a) <> (active_roots m).[address_space_cpu_index cpu]) /\
  if (ok : bool) then dormant m' a else m' = m.
Proof.
  intros Hc. unfold address_space_destroy. pose proof (core_root _ _ _ _ _ _ Hc) as Hr. pose proof (core_null _ _ _ _ _ _ Hc) as Hnull.
  pose proof (core_acc _ _ _ _ _ _ Hc) as [A1 [A2 A2'] [A3 A3'] A4 A5]. set (s := spaces m a) in *. cbn [app] in A4, A5.
  replace (a =? 0) with false by lia. replace (root s =? 0) with false by lia. cbn [orb].
  destruct ((root s =? kernel_root m) || _) eqn:Eb.
  { exists m, false. split_and!; try done. split; [done|]. lia. }
  pose proof (take_seq (owned_frames s) (owned_count s) ltac:(lia)) as Eo. fold (owned s) in Eo.
  pose proof (take_seq (anonymous_frames s) (anonymous_count s) ltac:(lia)) as Ea. fold (anonymous s) in Ea.
  assert (physical_address <$> anonymous s = (fun i => physical_address ((anonymous_frames s).[Z.of_nat i])) <$> seq 0 (Z.to_nat (anonymous_count s))) as Ea'.
  { rewrite Ea, <- list_fmap_compose. done. }
  unfold footprint in A4, A5. rewrite Ea' in A4, A5. rewrite (Permutation_app_comm (owned s)) in A4.
  destruct (free_backwards_spec (Z.to_nat (anonymous_count s)) (fun i => physical_address ((anonymous_frames s).[i])) m (owned s)) as (B1 & B2 & B3);
    [done|done|intros f Hf; apply A5, elem_of_app; by right|].
  set (m1 := free_backwards _ _ m) in *. clearbody m1. set (m2 := set_space m1 a _).
  apply NoDup_app in A4 as (N1 & N2 & N3). rewrite Eo in N3.
  destruct (free_backwards_spec (Z.to_nat (owned_count s)) (fun i => (owned_frames s).[i]) m2 []) as (C1 & C2 & _);
    [apply B1|by rewrite app_nil_r| |].
  { intros f Hf. change (taken (phys m1) f = true). apply B3. rewrite <- Eo in Hf. split; [apply A5, elem_of_app; by left|].
    intros Hin. by apply (N2 f Hin). }
  rewrite app_nil_r, <- Eo in C1. set (m3 := free_backwards _ _ m2) in *. clearbody m3.
  assert (spaces m1 = spaces m) as Es1 by by rewrite B2. assert (spaces m3 = spaces m2) as Es3 by by rewrite C2.
  set (m4 := set_space m3 a _). assert (spaces m4 a = s<| anonymous_count := 0 |><| owned_count := 0 |><| root := 0 |>) as Es4.
  { unfold m4, set_space. cbn. rewrite fupd_eq, Es3. unfold m2, set_space. cbn. by rewrite fupd_eq, Es1. }
  exists m4, true. split; [done|]. split_and!.
  - split; cbn [app].
    + rewrite Es4. change (footprint _) with (@nil Z) at 2. fold s. unfold footprint. rewrite Ea'.
      eapply moved_trans; [eapply moved_perm; [exact B1| |done]; intros f; rewrite !elem_of_app; naive_solver|].
      eapply (moved_phys m2 _ m3); [exact C1|done|done].
    + intros b Hb. unfold m4, set_space. cbn. rewrite fupd_ne, Es3 by done. unfold m2, set_space. cbn. by rewrite fupd_ne, Es1 by done.
    + unfold m4. cbn. rewrite C2. cbn. by rewrite B2.
  - split; [intros _|done]. lia.
  - by split; rewrite Es4.
Qed.

(** ** Anonymous pages *)

(** Frames come from the allocator and go back while nothing else of the space changes. *)
Lemma core_words m n a k T X E E' :
  core m a k T X E -> accounted n a E' -> step m a E n E' -> root (spaces n a) = root (spaces m a) ->
  owned (spaces n a) = owned (spaces m a) ->
  (forall f, f ∈ owned (spaces m a) -> same_frame m n f) -> core n a k T X E' /\ forall w, pte n T w = pte m T w.
Proof.
  intros Hc Hacc Hst Hr Ho Hsame. pose proof (core_tree _ _ _ _ _ _ Hc) as Ht. destruct (core_k _ _ _ _ _ _ Hc) as [Hkt Hkn].
  assert (forall x t, T !! x = Some t -> t ∈ owned (spaces m a)) as Hin.
  { intros x t Hx. rewrite (core_perm _ _ _ _ _ _ Hc). apply elem_of_app. right. right. apply elem_of_values. by exists x. }
  assert (k ∈ owned (spaces m a)) as Hk by (rewrite (core_perm _ _ _ _ _ _ Hc); apply elem_of_app; right; constructor).
  destruct (static_moved _ _ _ _ (step_moved _ _ _ _ _ Hst) (core_static _ _ _ _ _ _ Hc)) as [Hstat Hpd]. split; [split; try done|].
  - by apply Hc.
  - rewrite Hr. apply (tree_ext m); [done|]. intros x t Hx. split; [|by eapply Hsame, Hin].
    apply (acc_taken _ _ _ Hacc). apply elem_of_app. right. apply elem_of_app. left. rewrite Ho. by eapply Hin.
  - rewrite Ho. apply Hc.
  - intros i Hi. rewrite (same_frame_entry m n) by (done || by apply Hsame). rewrite Hpd by done. by apply (core_kernel _ _ _ _ _ _ Hc).
  - intros w. unfold pte. destruct (T !! (0, w / 2 ^ 21)) as [t|] eqn:Ex; [|done]. apply same_frame_entry; [by eapply Hsame, Hin|].
    rewrite index_spec by lia. apply Z.mod_pos_bound. lia.
Qed.

Lemma alloc_loose m a k T :
  core m a k T [] [] ->
  let '(f, p) := physical_alloc_frame (phys m) in
  let m1 := m<| phys := p |> in
  (f = 0 /\ p = phys m /\ forall g, spare (phys m) g = false) \/
  (f <> 0 /\ f mod 4096 = 0 /\ f < 4294967296 /\ core m1 a k T [] [f] /\ step m a [] m1 [f] /\
   (forall g, taken (phys m) g = true -> g <> f /\ taken p g = true /\ same_frame m m1 g) /\
   (forall i, 0 <= i < 512 -> entry m1 f i = 0) /\ forall w, pte m1 T w = pte m T w).
Proof.
  intros Hc. pose proof (core_acc _ _ _ _ _ _ Hc) as [A1 A2 A3 A4 A5]. pose proof (alloc_spec m A1) as Ha.
  destruct (physical_alloc_frame (phys m)) as [f p]. destruct Ha as [?|(F1 & F0 & F2 & F3 & F4 & F5 & F6 & F7)]; [by left|right]. cbv zeta.
  set (m1 := m<| phys := p |>). apply taken_frame in F3 as Hf. cbn [app] in A4, A5.
  assert (f ∉ footprint (spaces m a)) as Hn by (intros Hin; rewrite A5 in F2; done).
  assert (step m a [] m1 [f]) as Hst by (split; [by apply F5|done|done]).
  assert (accounted m1 a [f]) as Hacc.
  { split; try done; [apply Hst|by apply NoDup_cons|]. intros g Hg. apply elem_of_cons in Hg as [-> |Hg]; [done|].
    change (taken p g = true). rewrite F4, A5; done. }
  destruct (core_words m m1 a k T [] [] [f] Hc Hacc Hst eq_refl eq_refl) as [Hc1 Hp1].
  { intros g Hg. assert (taken (phys m) g = true) as Hg1 by (apply A5, elem_of_app; by left).
    apply F6; [apply (taken_frame _ _ Hg1)|]. intros ->. congruence. }
  split_and!; try done; try lia. intros g Hg. assert (g <> f) as Hne by congruence. split_and!; [done|by rewrite F4, Hg|].
  apply F6; [apply (taken_frame _ _ Hg)|done].
Qed.

Lemma free_loose m a k T f :
  core m a k T [] [f] ->
  core (free_frame m f) a k T [] [] /\ step m a [f] (free_frame m f) [] /\ forall w, pte (free_frame m f) T w = pte m T w.
Proof.
  intros Hc. pose proof (core_acc _ _ _ _ _ _ Hc) as [A1 A2 A3 A4 A5]. cbn in A4. apply NoDup_cons in A4 as [Hn A4].
  destruct (moved_free m (footprint (spaces m a)) f A1) as (M1 & M2 & M3); [apply A5; constructor|done|].
  assert (step m a [f] (free_frame m f) []) as Hst by by split.
  assert (accounted (free_frame m f) a []) as Hacc.
  { split; try done; [apply M1|]. intros g Hg. rewrite M2, A5 by (by right). cbn. apply negb_true_iff, Z.eqb_neq. by intros ->. }
  destruct (core_words m (free_frame m f) a k T [] [f] [] Hc Hacc Hst eq_refl eq_refl) as [Hc1 Hp1]; [|done]. intros g _ x _. apply M3.
Qed.

Lemma push_anonymous_spec m a k T v f fl :
  core m a k T [] [f] -> anonymous_count (spaces m a) < 128 ->
  let m' := push_anonymous m a v f fl in
  core m' a k T [] [] /\ step m a [f] m' [] /\ (forall w, pte m' T w = pte m T w) /\
  anonymous (spaces m' a) = anonymous (spaces m a) ++ [{| virtual_address := v; physical_address := f; flags := fl |}] /\
  anonymous_count (spaces m' a) = anonymous_count (spaces m a) + 1.
Proof.
  intros Hc Hn m'. pose proof (core_acc _ _ _ _ _ _ Hc) as [A1 A2 [A3 A3'] A4 A5]. set (s := spaces m a) in *.
  set (e := {| virtual_address := v; physical_address := f; flags := fl |}).
  assert (spaces m' a = s<| anonymous_frames := (anonymous_frames s).[anonymous_count s <- e] |><| anonymous_count := anonymous_count s + 1 |>) as Es.
  { unfold m', push_anonymous, set_space. cbn. rewrite fupd_eq. fold s. by rewrite (wrap_small 32) by (widths; lia). }
  assert (anonymous (spaces m' a) = anonymous s ++ [e]) as Han by (rewrite Es; apply take_set_last; lia).
  assert (owned (spaces m' a) = owned s) as Ho by by rewrite Es.
  assert (footprint (spaces m' a) ≡ₚ f :: footprint s) as Hfp.
  { unfold footprint. rewrite Ho, Han, fmap_app, app_assoc. symmetry. apply Permutation_cons_append. }
  assert (step m a [f] m' []) as Hst.
  { split; [|intros b Hb; by apply fupd_ne|done]. apply (moved_phys m _ m); [|done..]. apply moved_refl; [done|]. intros g. cbn [app]. by rewrite Hfp. }
  assert (accounted m' a []) as Hacc.
  { split; cbn [app]; [done|by rewrite Es|rewrite Es; cbn; rewrite zlen_set; lia|by rewrite Hfp|]. intros g. rewrite Hfp. apply A5. }
  destruct (core_words m m' a k T [] [f] [] Hc Hacc Hst) as [Hc1 Hp1]; [by rewrite Es|done|done|].
  split_and!; try done. by rewrite Es.
Qed.

(** A record of an anonymous page is dropped and its frame freed. *)
Lemma drop_anonymous_spec m m' a k T s' e :
  core m a k T [] [] -> phys m' = physical_free_frame (phys m) (physical_address e) -> spaces m' = fupd (spaces m) a s' ->
  kernel_root m' = kernel_root m /\ heap_page_table_active m' = heap_page_table_active m /\
    active_roots m' = active_roots m /\ active_spaces m' = active_spaces m /\ efer m' = efer m ->
  root s' = root (spaces m a) -> owned_frames s' = owned_frames (spaces m a) -> owned_count s' = owned_count (spaces m a) ->
  zlen (anonymous_frames s') = 128 -> 0 <= anonymous_count s' <= 128 -> e :: anonymous s' ≡ₚ anonymous (spaces m a) ->
  core m' a k T [] [] /\ step m a [] m' [] /\ forall w, pte m' T w = pte m T w.
Proof.
  intros Hc Hp Hs Hk Hr Hof Hoc Hl Hn Hperm. pose proof (core_acc _ _ _ _ _ _ Hc) as [A1 A2 A3 A4 A5]. set (s := spaces m a) in *.
  set (f := physical_address e) in *. assert (spaces m' a = s') as Es by (rewrite Hs; apply fupd_eq).
  assert (owned s' = owned s) as Ho by (unfold owned; by rewrite Hof, Hoc).
  assert (footprint s ≡ₚ f :: footprint s') as Hfp.
  { unfold footprint. rewrite Ho, <- Hperm. cbn. symmetry. apply Permutation_middle. }
  cbn [app] in A4, A5. rewrite Hfp in A4. apply NoDup_cons in A4 as [Hnf A4].
  destruct (moved_free m (footprint s') f A1) as (M1 & M2 & M3); [apply A5; rewrite Hfp; constructor|done|].
  assert (step m a [] m' []) as Hst.
  { split; [|intros b Hb; rewrite Hs; by apply fupd_ne|done]. rewrite Es. apply (moved_phys m _ (free_frame m f)); [|done|done].
    eapply moved_perm; [exact M1| |done]. intros g. cbn [app]. fold s. by rewrite Hfp. }
  assert (accounted m' a []) as Hacc.
  { split; cbn [app]; rewrite ?Es; try done; [apply Hst|by rewrite Hof, Hoc|]. intros g Hg. rewrite Hp.
    change (taken (phys (free_frame m f)) g = true). rewrite M2, A5 by (rewrite Hfp; by right). cbn. apply negb_true_iff, Z.eqb_neq. by intros ->. }
  destruct (core_words m m' a k T [] [] [] Hc Hacc Hst) as [Hc1 Hp1]; rewrite ?Es; try done.
  intros g _ x _. rewrite Hp. apply M3.
Qed.

(** The pages [f] with those of the records [N] on top. *)
Definition with_pages (N : list anonymous_t) (f : Z -> Z) (w : Z) : Z :=
  match List.find (fun e => virtual_address e =? w) N with Some e => new_pte (physical_address e) (flags e) | None => f w end.

Lemma with_pages_snoc N e f w :
  virtual_address e ∉ virtual_address <$> N ->
  with_pages (N ++ [e]) f w = if w =? virtual_address e then new_pte (physical_address e) (flags e) else with_pages N f w.
Proof.
  intros Hn. unfold with_pages. induction N as [|n N IH]; cbn in *.
  { rewrite (Z.eqb_sym w). by case_if as E. }
  apply not_elem_of_cons in Hn as [Hne Hn]. destruct (virtual_address n =? w) eqn:E; [|by apply IH].
  by replace (w =? virtual_address e) with false by lia.
Qed.

Lemma with_pages_out N f w : w ∉ virtual_address <$> N -> with_pages N f w = f w.
Proof.
  intros Hn. unfold with_pages. induction N as [|n N IH]; cbn in *; [done|]. apply not_elem_of_cons in Hn as [Hne Hn].
  replace (virtual_address n =? w) with false by lia. by apply IH.
Qed.

Lemma new_pte_nonzero p f : new_pte p f <> 0.
Proof. intros E. pose proof (new_pte_odd p f) as Ho. by rewrite E in Ho. Qed.

Lemma take_pop {A} (l : list A) n L e : 0 <= n <= zlen l -> take (Z.to_nat n) l = L ++ [e] -> take (Z.to_nat (n - 1)) l = L /\ l !! Z.to_nat (n - 1) = Some e /\ 0 < n.
Proof.
  intros Hn Hl. unfold zlen in Hn. assert (List.length (L ++ [e]) = Z.to_nat n) as Hlen by (rewrite <- Hl, length_take; lia).
  rewrite length_app in Hlen. simpl in Hlen. split_and!; [| |lia].
  - transitivity (take (List.length L) (take (Z.to_nat n) l)); [rewrite take_take; f_equal; lia|]. rewrite Hl. apply take_app_length.
  - rewrite <- (lookup_take_lt _ (Z.to_nat n)) by lia. rewrite Hl. apply list_lookup_middle. lia.
Qed.

Lemma undo_step cpu m a k T A N e base :
  core m a k T [] [] -> anonymous (spaces m a) = A ++ [e] -> (forall w, user_page w -> pte m T w = with_pages (N ++ [e]) base w) ->
  base (virtual_address e) = 0 -> virtual_address e ∉ virtual_address <$> N -> user_page (virtual_address e) ->
  let m1 := snd (address_space_unmap_page cpu m a (virtual_address e)) in
  let m' := set_space (free_frame m1 (physical_address e)) a ((spaces m1 a)<| anonymous_count := anonymous_count (spaces m a) - 1 |>) in
  anonymous_count (spaces m1 a) = anonymous_count (spaces m a) /\ anonymous_frames (spaces m1 a) = anonymous_frames (spaces m a) /\
  (anonymous_frames (spaces m a)).[anonymous_count (spaces m a) - 1] = e /\
  exists T', core m' a k T' [] [] /\ step m a [] m' [] /\ anonymous (spaces m' a) = A /\
    forall w, user_page w -> pte m' T' w = with_pages N base w.
Proof.
  intros Hc Han Hp Hbase Hn Hv m1 m'. destruct (unmap_page_spec cpu m a k T [] (virtual_address e) Hc) as (m1' & T1 & ok & E1 & Hc1 & Hst1 & Hsp1 & Hok & Hp1).
  assert (m1' = m1) as -> by (unfold m1; by rewrite E1). clearbody m1.
  assert (ok = true) as ->.
  { apply Hok. split; [done|]. rewrite Hp, with_pages_snoc, Z.eqb_refl by done. apply new_pte_nonzero. }
  pose proof (core_acc _ _ _ _ _ _ Hc1) as [_ _ [A3 A3'] _ _]. pose proof Hsp1 as (_ & Ef & Ec). pose proof (same_pages_anonymous _ _ _ Hsp1) as Ea.
  rewrite Han in Ea. unfold anonymous in Ea. destruct (take_pop (anonymous_frames (spaces m1 a)) (anonymous_count (spaces m1 a)) A e ltac:(lia) Ea) as (Et & El & Hpos).
  split; [done|]. split; [done|]. rewrite <- Ef, <- Ec. split; [by apply list_lookup_total_correct|].
  destruct (drop_anonymous_spec m1 m' a k T1 ((spaces m1 a)<| anonymous_count := anonymous_count (spaces m a) - 1 |>) e) as (Hc2 & Hst2 & Hp2);
    try done; [cbn; lia| |].
  { change (e :: take (Z.to_nat (anonymous_count (spaces m a) - 1)) (anonymous_frames (spaces m1 a)) ≡ₚ anonymous (spaces m1 a)).
    rewrite <- Ec, Et. unfold anonymous. rewrite Ea. apply Permutation_cons_append. }
  exists T1. split; [done|]. split; [by eapply step_trans; [apply pages_step|]|]. split.
  - unfold m', set_space. cbn. rewrite fupd_eq. change (take (Z.to_nat (anonymous_count (spaces m a) - 1)) (anonymous_frames (spaces m1 a)) = A).
    by rewrite <- Ec.
  - intros w Hw. rewrite Hp2, Hp1 by done. cbn [andb]. rewrite Hp, with_pages_snoc by done. case_if as Ew; [|done].
    replace w with (virtual_address e) by lia. by rewrite with_pages_out.
Qed.

Lemma undo_anonymous_spec N cpu m a k T A base virtual :
  core m a k T [] [] -> anonymous (spaces m a) = A ++ N -> (forall w, user_page w -> pte m T w = with_pages N base w) ->
  (forall i e, N !! i = Some e -> virtual_address e = virtual + Z.of_nat i * PAGE_SIZE /\ user_page (virtual_address e) /\ base (virtual_address e) = 0) ->
  let m' := undo_anonymous (List.length N) cpu m a virtual in
  exists T', core m' a k T' [] [] /\ step m a [] m' [] /\ anonymous (spaces m' a) = A /\ forall w, user_page w -> pte m' T' w = base w.
Proof.
  revert m T. induction N as [|e N IH] using rev_ind; intros m T Hc Han Hp HN.
  { cbn. exists T. rewrite app_nil_r in Han. split_and!; try done. by apply step_refl, Hc. }
  rewrite length_app, Nat.add_1_r. cbn [undo_anonymous]. rewrite app_assoc in Han.
  destruct (HN (List.length N) e) as (Ev & Hv & Hb); [by apply list_lookup_middle|]. rewrite <- Ev.
  assert (virtual_address e ∉ virtual_address <$> N) as Hn.
  { rewrite list_elem_of_fmap. intros (e' & Ee & Hin). apply list_elem_of_lookup in Hin as [i Hi]. pose proof (lookup_lt_Some _ _ _ Hi).
    destruct (HN i e') as (Ev' & _); [by rewrite lookup_app_l|]. unfold PAGE_SIZE in *. lia. }
  destruct (undo_step cpu m a k T (A ++ N) N e base Hc Han Hp Hb Hn Hv) as (Ec & Ef & El & T1 & Hc1 & Hst1 & Ha1 & Hp1).
  rewrite Ef, Ec, El. destruct (IH _ T1 Hc1 Ha1 Hp1) as (T2 & Hc2 & Hst2 & Ha2 & Hp2).
  { intros i e' Hi. apply HN. rewrite lookup_app_l; [done|]. by eapply lookup_lt_Some. }
  exists T2. split_and!; try done. by eapply step_trans.
Qed.

(** The records of consecutive pages, none of them mapped in [base]. *)
Definition fresh_pages (virtual fl : Z) (base : Z -> Z) (N : list anonymous_t) : Prop :=
  forall i e, N !! i = Some e -> virtual_address e = virtual + Z.of_nat i * PAGE_SIZE /\ user_page (virtual_address e) /\
    base (virtual_address e) = 0 /\ flags e = fl /\ physical_address e mod 4096 = 0.

Lemma fresh_pages_snoc virtual fl base N e :
  fresh_pages virtual fl base N -> virtual_address e = virtual + zlen N * PAGE_SIZE -> user_page (virtual_address e) ->
  base (virtual_address e) = 0 -> flags e = fl -> physical_address e mod 4096 = 0 -> fresh_pages virtual fl base (N ++ [e]).
Proof.
  intros HN Hv Hu Hb Hf Hm i e' Hi. apply lookup_app_Some in Hi as [Hi|[Hi He]]; [by apply HN|].
  destruct (i - List.length N)%nat eqn:Ei; [|done]. injection He as <-. split_and!; try done. rewrite Hv. unfold zlen. do 2 f_equal. lia.
Qed.

Lemma fresh_pages_not_in virtual fl base N v :
  fresh_pages virtual fl base N -> v = virtual + zlen N * PAGE_SIZE -> v ∉ virtual_address <$> N.
Proof.
  intros HN ->. rewrite list_elem_of_fmap. intros (e & Ee & Hin). apply list_elem_of_lookup in Hin as [i Hi].
  pose proof (lookup_lt_Some _ _ _ Hi). destruct (HN i e Hi) as (Ev & _). unfold PAGE_SIZE, zlen in *. lia.
Qed.

(** Frames that are in use and that the space does not own. *)
Definition kept m a m' : Prop := forall g,
  taken (phys m) g = true -> g ∉ owned (spaces m a) -> taken (phys m') g = true /\ g ∉ owned (spaces m' a) /\ same_frame m m' g.

Lemma kept_trans m1 m2 m3 a : kept m1 a m2 -> kept m2 a m3 -> kept m1 a m3.
Proof.
  intros K1 K2 g Hg Hn. destruct (K1 g Hg Hn) as (Hg2 & Hn2 & S1). destruct (K2 g Hg2 Hn2) as (Hg3 & Hn3 & S2).
  split_and!; try done. intros x Hx. by rewrite S2, S1.
Qed.

Lemma anonymous_kept m a k T E e :
  core m a k T [] E -> e ∈ anonymous (spaces m a) -> taken (phys m) (physical_address e) = true /\ physical_address e ∉ owned (spaces m a).
Proof.
  intros Hc He. pose proof (core_acc _ _ _ _ _ _ Hc) as [_ _ _ A4 A5].
  assert (physical_address e ∈ physical_address <$> anonymous (spaces m a)) as Hin by by apply list_elem_of_fmap_2. split.
  - apply A5. unfold footprint. rewrite !elem_of_app. by right; right.
  - intros Ho. apply NoDup_app in A4 as (_ & _ & A4). apply NoDup_app in A4 as (_ & A4 & _). by apply (A4 _ Ho).
Qed.

(** A frame is allocated and mapped. *)
Lemma fresh_page_spec m a k T v fl :
  core m a k T [] [] ->
  let '(f, p) := physical_alloc_frame (phys m) in
  f <> 0 -> forall m', address_space_map_page (m<| phys := p |>) a v f fl = (true, m') ->
  exists T', core m' a k T' [] [f] /\ step m a [] m' [f] /\ same_pages m m' a /\ kept m a m' /\ f mod 4096 = 0 /\
    (forall g, taken (phys m) g = true -> g <> f) /\ (forall i, 0 <= i < 512 -> entry m' f i = 0) /\
    user_page v /\ pte m T v = 0 /\ forall w, user_page w -> pte m' T' w = if w =? v then new_pte f fl else pte m T w.
Proof.
  intros Hc. pose proof (alloc_loose m a k T Hc) as Hal. destruct (physical_alloc_frame (phys m)) as [f p]. set (m1 := m<| phys := p |>) in *.
  intros Hf m' Em. destruct Hal as [(-> & _)|(_ & F2 & F3 & Hc1 & Hst1 & Hk1 & Hz1 & Hp1)]; [done|].
  destruct (map_page_spec m1 a k T [f] v f fl Hc1) as (m2' & T2 & ok & Em' & Hc2 & Hst2 & Hsp2 & Hok2).
  rewrite Em in Em'. injection Em' as <- <-. destruct Hok2 as (Hmap & Hz & Hp2). exists T2. split_and!; try done.
  - eapply step_trans; [exact Hst1|]. by apply pages_step.
  - intros h Hh Hho. destruct (Hk1 h Hh) as (_ & Hh1 & Hs1). destruct (moved_keep _ _ _ _ (ts_moved _ _ _ Hst2) h Hh1 Hho) as (B1 & B2 & B3).
    split_and!; try done. intros x Hx. by rewrite B3, (Hs1 x Hx).
  - intros g Hg. by apply Hk1.
  - intros i Hi. rewrite <- (Hz1 i Hi). apply same_frame_entry; [|done]. pose proof (core_acc _ _ _ _ _ _ Hc1) as [_ _ _ A4 A5].
    cbn [app] in A4, A5. apply NoDup_cons in A4 as [A4 _]. apply (moved_keep _ _ _ _ (ts_moved _ _ _ Hst2)); [apply A5; constructor|].
    intros Hin. apply A4, elem_of_app. by left.
  - apply bad_address_spec. unfold mappable in Hmap. apply negb_true_iff in Hmap. rewrite !orb_false_iff in Hmap. apply Hmap.
  - by rewrite <- Hp1.
  - intros w Hw. rewrite Hp2 by done. by rewrite Hp1.
Qed.

Definition zeroed m (e : anonymous_t) : Prop := forall i, 0 <= i < 512 -> entry m (physical_address e) i = 0.

(** What a loop of allocations does: it adds [n] fresh pages to the pages [N], or undoes what
    was done since there were none. *)
Definition anonymous_result m a k A N n (base : Z -> Z) (virtual fl : Z) (r : bool * vm_t P) : Prop := exists m' T' ok,
  r = (ok, m') /\ core m' a k T' [] [] /\ step m a [] m' [] /\
  if (ok : bool) then exists N', List.length N' = n /\ anonymous (spaces m' a) = A ++ N ++ N' /\ fresh_pages virtual fl base (N ++ N') /\
    (forall w, user_page w -> pte m' T' w = with_pages (N ++ N') base w) /\ kept m a m' /\ Forall (zeroed m') N'
  else anonymous (spaces m' a) = A /\ forall w, user_page w -> pte m' T' w = base w.

Lemma anonymous_fails cpu m m1 a k T A N n base virtual fl :
  core m1 a k T [] [] -> step m a [] m1 [] -> anonymous (spaces m1 a) = A ++ N -> (forall w, user_page w -> pte m1 T w = with_pages N base w) ->
  fresh_pages virtual fl base N ->
  anonymous_result m a k A N n base virtual fl (false, undo_anonymous (Z.to_nat (zlen N)) cpu m1 a virtual).
Proof.
  intros Hc Hst Ha Hp HN. unfold zlen. rewrite Nat2Z.id.
  destruct (undo_anonymous_spec N cpu m1 a k T A base virtual Hc Ha Hp) as (T2 & Hc2 & Hst2 & Ha2 & Hp2).
  { intros i e Hi. by destruct (HN i e Hi) as (? & ? & ? & _). }
  eexists _, T2, false. split; [done|]. split_and!; try done. by eapply step_trans.
Qed.

Lemma map_anonymous_loop_spec n cpu m a k T A N base virtual fl :
  core m a k T [] [] -> anonymous (spaces m a) = A ++ N -> (forall w, user_page w -> pte m T w = with_pages N base w) ->
  fresh_pages virtual (Z.lor fl ADDRESS_SPACE_USER) base N -> anonymous_count (spaces m a) + Z.of_nat n <= 128 ->
  anonymous_result m a k A N n base virtual (Z.lor fl ADDRESS_SPACE_USER) (map_anonymous_loop n cpu m a virtual fl (zlen N)).
Proof.
  revert m T N. induction n as [|n IH]; intros m T N Hc Han Hp HN Hn; cbn [map_anonymous_loop].
  { exists m, T, true. split_and!; try done; [by apply step_refl, Hc|]. exists []. rewrite app_nil_r. by split_and!. }
  set (v := virtual + zlen N * PAGE_SIZE). set (fl' := Z.lor fl ADDRESS_SPACE_USER) in *.
  pose proof (fresh_page_spec m a k T v fl' Hc) as Hfr. pose proof (alloc_loose m a k T Hc) as Hal.
  destruct (physical_alloc_frame (phys m)) as [f p]. set (m1 := m<| phys := p |>) in *.
  destruct Hal as [(-> & Ep & _)|(F1 & _ & _ & Hc1 & Hst1 & _ & _ & Hp1)].
  { cbn. apply (anonymous_fails cpu m m1 a k T); [by apply (core_phys m)| |done| |done]; [|intros w Hw; rewrite (pte_phys m) by done; by apply Hp].
    split; [|done|done]. apply (moved_phys m _ m); [apply moved_refl; [apply Hc|done]|done|done]. }
  replace (f =? 0) with false by lia.
  destruct (map_page_spec m1 a k T [f] v f fl' Hc1) as (m2 & T2 & ok & Em & Hc2 & Hst2 & Hsp2 & Hok2). rewrite Em. destruct ok; cbn [negb].
  2:{ destruct Hok2 as (_ & Hp2 & _). destruct (free_loose m2 a k T2 f Hc2) as (Hc3 & Hst3 & Hp3).
      apply (anonymous_fails cpu m (free_frame m2 f) a k T2); [done|..|done].
      - eapply step_trans; [exact Hst1|]. eapply step_trans; [by apply pages_step|done].
      - change (spaces (free_frame m2 f) a) with (spaces m2 a). by rewrite (same_pages_anonymous _ _ _ Hsp2).
      - intros w Hw. by rewrite Hp3, Hp2, Hp1, Hp. }
  clear T2 Hc2 Hst2 Hsp2 Hok2. destruct (Hfr F1 m2 Em) as (T2 & Hc2 & Hst2 & Hsp2 & K2 & Hfm & _ & Hz2 & Hv & Hz & Hp2).
  pose proof (same_pages_anonymous _ _ _ Hsp2) as Ha2. destruct Hsp2 as (_ & _ & Ec2).
  destruct (push_anonymous_spec m2 a k T2 v f fl' Hc2) as (Hc3 & Hst3 & Hp3 & Ha3 & Hn3); [lia|].
  set (e := {| virtual_address := v; physical_address := f; flags := fl' |}) in *. set (m3 := push_anonymous m2 a v f fl') in *.
  pose proof (fresh_pages_not_in _ _ _ _ v HN eq_refl) as Hnin. rewrite Hp, with_pages_out in Hz by done.
  assert (fresh_pages virtual fl' base (N ++ [e])) as HN' by by apply fresh_pages_snoc.
  assert (kept m a m3) as K3.
  { intros g Hg Hgo. destruct (K2 g Hg Hgo) as (? & Hgo2 & ?). split_and!; try done. unfold m3, push_anonymous, set_space. cbn. by rewrite fupd_eq. }
  destruct (IH m3 T2 (N ++ [e]) Hc3) as (m' & T' & ok & Eq & Hc' & Hst' & Hres); [by rewrite Ha3, Ha2, Han, app_assoc|intros w Hw|done|lia|].
  { by rewrite Hp3, Hp2, Hp, with_pages_snoc by done. }
  replace (zlen N + 1) with (zlen (N ++ [e])) by (unfold zlen; rewrite length_app; simpl; lia). exists m', T', ok.
  split_and!; [done|done|by do 2 (eapply step_trans; [done|])|]. destruct ok; [|done]. destruct Hres as (N' & Hl & Ha' & HN2 & Hp' & K' & Hz').
  exists (e :: N'). rewrite <- app_assoc in Ha', HN2, Hp'. cbn [app] in *. split_and!; try done; [cbn; lia|by eapply kept_trans|].
  constructor; [|done]. intros i Hi. rewrite <- (Hz2 i Hi). apply (same_frame_entry m3); [|done].
  destruct (anonymous_kept _ _ _ _ _ e Hc3) as [He1 He2]; [rewrite Ha3; apply elem_of_app; right; constructor|]. by apply K'.
Qed.

Lemma find_anonymous_spec s v :
  0 <= anonymous_count s <= zlen (anonymous_frames s) ->
  match find_anonymous s v with
  | Some i => 0 <= i < anonymous_count s /\ virtual_address ((anonymous_frames s).[i]) = v
  | None => v ∉ virtual_address <$> anonymous s
  end.
Proof.
  intros Hn. unfold find_anonymous. destruct (find_z _ _ _) as [i|] eqn:Hf.
  - apply find_z_Some in Hf as (Hi & Heq & _). split; [done|lia].
  - rewrite list_elem_of_fmap. intros (e & Ev & Hin). apply list_elem_of_lookup in Hin as [j Hj]. unfold anonymous in Hj.
    pose proof (lookup_lt_Some _ _ _ Hj) as Hlt. rewrite length_take in Hlt. rewrite lookup_take_lt in Hj by lia.
    pose proof (proj1 (find_z_None _ _ _) Hf (Z.of_nat j) ltac:(lia)) as Hne. cbn in Hne. rewrite Nat2Z.id in Hne.
    rewrite (list_lookup_total_correct _ _ _ Hj) in Hne. lia.
Qed.

(** In the first [n] pages from [virtual] on. *)
Definition in_pages (virtual n w : Z) : bool := (virtual <=? w) && (w <? virtual + n * PAGE_SIZE).

Lemma unmap_anonymous_loop_spec n cpu m a k T virtual page :
  core m a k T [] [] -> virtual mod 4096 = 0 ->
  (forall j, page <= j < page + Z.of_nat n -> virtual + j * PAGE_SIZE ∈ virtual_address <$> anonymous (spaces m a)) ->
  exists m' T' ok D, unmap_anonymous_loop n cpu m a virtual page = (ok, m') /\ core m' a k T' [] [] /\ step m a [] m' [] /\
    D ++ anonymous (spaces m' a) ≡ₚ anonymous (spaces m a) /\
    virtual_address <$> D = (fun i => virtual + (page + Z.of_nat i) * PAGE_SIZE) <$> seq 0 (List.length D) /\
    (if (ok : bool) then List.length D = n else (List.length D < n)%nat /\
       ~ (user_page (virtual + (page + zlen D) * PAGE_SIZE) /\ pte m T (virtual + (page + zlen D) * PAGE_SIZE) <> 0)) /\
    forall w, user_page w -> pte m' T' w = if in_pages (virtual + page * PAGE_SIZE) (zlen D) w then 0 else pte m T w.
Proof.
  intros Hc Hmod. revert m T page Hc. induction n as [|n IH]; intros m T page Hc Hfound; cbn [unmap_anonymous_loop].
  { exists m, T, true, []. split_and!; try done; [by apply step_refl, Hc|]. intros w Hw. unfold in_pages, zlen. cbn [List.length].
    by replace (_ && _) with false by lia. }
  pose proof (core_acc _ _ _ _ _ _ Hc) as [_ _ [A3 A3'] _ _]. set (v := virtual + page * PAGE_SIZE) in *. set (s := spaces m a) in *.
  pose proof (find_anonymous_spec s v ltac:(lia)) as Hf. destruct (find_anonymous s v) as [i|]; [|by destruct Hf; apply Hfound; lia].
  destruct Hf as [Hi Hv]. cbn [default]. set (e := (anonymous_frames s).[i]) in *.
  destruct (unmap_page_spec cpu m a k T [] v Hc) as (m1 & T1 & ok & -> & Hc1 & Hst1 & Hsp1 & Hok & Hp1).
  apply (pages_step _ _ []) in Hst1; [|done]. destruct ok; cbn [negb].
  2:{ exists m1, T1, false, []. pose proof (same_pages_anonymous _ _ _ Hsp1) as Ea. fold s in Ea. split_and!; try done; [by rewrite <- Ea|cbn; lia| |].
      - change (zlen []) with 0. rewrite Z.add_0_r. fold v. intros Hn. by apply Hok in Hn.
      - intros w Hw. rewrite Hp1 by done. cbn [andb]. unfold in_pages, zlen. cbn [List.length]. by replace (_ && _) with false by lia. }
  destruct Hsp1 as (Er1 & Ef1 & Ec1). fold s in Ef1, Ec1. set (s' := (spaces m1 a)<| anonymous_count := _ |><| anonymous_frames := _ |>).
  set (m2 := free_frame (set_space m1 a s') (physical_address e)).
  assert (e :: anonymous s' ≡ₚ anonymous s) as Hperm.
  { unfold s'. rewrite Ef1, Ec1. apply (swap_remove (anonymous_frames s) (anonymous_count s) i); lia. }
  destruct (drop_anonymous_spec m1 m2 a k T1 s' e Hc1) as (Hc2 & Hst2 & Hp2); try done.
  { unfold s'. cbn. rewrite zlen_set. by rewrite Ef1. }
  { unfold s'. cbn. lia. }
  { rewrite Hperm. unfold anonymous. by rewrite Ef1, Ec1. }
  assert (spaces m2 a = s') as Es2 by apply fupd_eq.
  destruct (IH m2 T1 (page + 1) Hc2) as (m' & T' & ok & D & Eq & Hc' & Hst' & HD & Hvs & Hres & Hp').
  { intros j Hj. specialize (Hfound j ltac:(lia)). rewrite <- Hperm in Hfound. rewrite Es2. cbn in Hfound.
    apply elem_of_cons in Hfound as [Hfound|?]; [|done]. fold e in Hv. unfold v, PAGE_SIZE in *. lia. }
  exists m', T', ok, (e :: D). split_and!; [done|done|do 2 (eapply step_trans; [done|]); done| | | |].
  - cbn. rewrite HD, Es2. done.
  - cbn. rewrite Hvs. rewrite Hv. f_equal; [unfold v; lia|]. rewrite <- (fmap_S_seq 0), <- list_fmap_compose. apply list_fmap_ext.
    intros ? j _. cbn. lia.
  - assert (zlen (e :: D) = zlen D + 1) as Hz by (unfold zlen; cbn; lia). rewrite Hz.
    destruct ok; [cbn; lia|]. destruct Hres as [Hlt Hn]. split; [cbn; lia|]. replace (page + (zlen D + 1)) with (page + 1 + zlen D) by lia.
    intros [Hu Hn']. apply Hn. split; [done|]. rewrite Hp2, Hp1 by done. cbn [andb].
    replace (_ =? v) with false; [done|]. unfold v, PAGE_SIZE, zlen. lia.
  - intros w Hw. rewrite Hp', Hp2, Hp1 by done. cbn [andb]. assert (zlen (e :: D) = zlen D + 1) as -> by (unfold zlen; cbn; lia).
    fold v. replace (virtual + (page + 1) * PAGE_SIZE) with (v + PAGE_SIZE) by (unfold v; lia). unfold in_pages, PAGE_SIZE in *.
    pose proof (zlen_nonneg D). destruct Hw as [Hw _]. assert (v mod 4096 = 0) as Hvm by (unfold v; zlia).
    destruct (w =? v) eqn:Ew; [replace (v <=? w) with true by lia; replace (w <? v + (zlen D + 1) * 4096) with true by lia; by case_if as E1|].
    replace ((v <=? w) && (w <? v + (zlen D + 1) * 4096)) with ((v + 4096 <=? w) && (w <? v + 4096 + zlen D * 4096)); [done|]. zlia.
Qed.

(** ** Protecting a range *)

Lemma page_entry_spec m a k T X E v :
  core m a k T X E -> user_page v -> snd (page_entry m (root (spaces m a)) v) = pte m T v.
Proof.
  intros Hc Hv. pose proof (core_tree _ _ _ _ _ _ Hc) as Ht. pose proof (core_root _ _ _ _ _ _ Hc) as Hr.
  pose proof (walk_tree m _ k T v Ht Hv) as Hw. unfold page_entry, pte. replace (root (spaces m a) =? 0) with false by lia. cbn [negb snd].
  unfold walk in Hw. destruct (T !! (0, v / 2 ^ 21)) as [pt|] eqn:E0.
  - destruct Hw as (pdpt3 & pd & e3 & e2 & e1 & E2 & E1 & <- & <- & <- & L3 & L2 & L1 & _).
    destruct (link_spec m pdpt3 _ (tree_taken _ _ _ _ Ht _ _ E2) L3) as [-> ->].
    destruct (link_spec m pd _ (tree_taken _ _ _ _ Ht _ _ E1) L2) as [-> ->].
    by destruct (link_spec m pt _ (tree_taken _ _ _ _ Ht _ _ E0) L1) as [-> ->].
  - destruct (has (entry m (root (spaces m a)) (index v 39)) PAGE_PRESENT) eqn:H3; cbn [negb] in Hw; [|done].
    destruct (has (entry m _ (index v 30)) PAGE_PRESENT) eqn:H2; cbn [negb] in Hw; [|done].
    by destruct (has (entry m _ (index v 21)) PAGE_PRESENT) eqn:H1; cbn [negb] in Hw.
Qed.

Lemma collect_entries_spec n m a k T X E virtual i :
  core m a k T X E -> (forall j, i <= j < i + Z.of_nat n -> user_page (virtual + j * PAGE_SIZE)) ->
  is_Some (collect_entries n m (root (spaces m a)) virtual i) <->
  forall j, i <= j < i + Z.of_nat n -> has (pte m T (virtual + j * PAGE_SIZE)) (Z.lor PAGE_PRESENT PAGE_USER) = true.
Proof.
  intros Hc. revert i. induction n as [|n IH]; intros i Hu; cbn [collect_entries].
  { split; [intros _ j Hj; lia|by eexists]. }
  pose proof (page_entry_spec m a k T X E (virtual + i * PAGE_SIZE) Hc (Hu i ltac:(lia))) as Hp.
  destruct (page_entry m (root (spaces m a)) (virtual + i * PAGE_SIZE)) as [at_ e]. cbn in Hp. subst e.
  specialize (IH (i + 1) ltac:(intros j Hj; apply Hu; lia)).
  destruct (has (pte m T (virtual + i * PAGE_SIZE)) _) eqn:Eh; cbn [negb].
  - destruct (collect_entries n m _ virtual (i + 1)) as [rest|]; cbn [mbind option_bind].
    + split; [|by eexists]. intros _ j Hj. destruct (decide (j = i)) as [-> |]; [done|]. apply IH; [by eexists|lia].
    + split; [by intros [? ?]|]. intros Hall. apply IH. intros j Hj. apply Hall. lia.
  - split; [by intros [? ?]|]. intros Hall. rewrite Hall in Eh by lia. done.
Qed.

Lemma user_flags flags :
  bad_flags flags (Z.lor ADDRESS_SPACE_WRITABLE ADDRESS_SPACE_EXECUTABLE) = false ->
  bad_flags (Z.lor flags ADDRESS_SPACE_USER) (Z.lor (Z.lor ADDRESS_SPACE_WRITABLE ADDRESS_SPACE_USER) ADDRESS_SPACE_EXECUTABLE) = false.
Proof.
  unfold bad_flags. rewrite !negb_false_iff, !Z.eqb_eq, Z.land_lor_distr_l. intros Hf.
  set (wide := u64 (Z.lnot (Z.lor (Z.lor _ _) _))). set (narrow := u64 (Z.lnot (Z.lor _ _))) in Hf.
  assert (wide = Z.land narrow wide) as -> by reflexivity. by rewrite Z.land_assoc, Hf.
Qed.

Lemma update_pages_spec n cpu m a k T virtual flags changed :
  core m a k T [] [] -> virtual mod 4096 = 0 -> bad_flags flags (Z.lor ADDRESS_SPACE_WRITABLE ADDRESS_SPACE_EXECUTABLE) = false ->
  (forall j, changed <= j < changed + Z.of_nat n -> user_page (virtual + j * PAGE_SIZE) /\
     has (pte m T (virtual + j * PAGE_SIZE)) (Z.lor PAGE_PRESENT PAGE_USER) = true) ->
  exists m', update_pages n cpu m a virtual flags changed = (changed + Z.of_nat n, m') /\ core m' a k T [] [] /\ tstep m a m' /\ same_pages m m' a /\
  forall w, user_page w -> pte m' T w =
    if in_pages (virtual + changed * PAGE_SIZE) (Z.of_nat n) w then protected (pte m T w) (Z.lor flags ADDRESS_SPACE_USER) else pte m T w.
Proof.
  intros Hc Hmod Hfl. revert m changed Hc. induction n as [|n IH]; intros m changed Hc Hall; cbn [update_pages].
  { exists m. rewrite Z.add_0_r. split_and!; try done; [by apply tstep_refl, Hc|]. intros w Hw. unfold in_pages.
    by replace (_ && _) with false by lia. }
  set (v := virtual + changed * PAGE_SIZE). destruct (Hall changed ltac:(lia)) as [Hv Hh].
  destruct (update_flags_spec cpu m a k T [] v (Z.lor flags ADDRESS_SPACE_USER) Hc) as (m1 & ok & -> & Hc1 & Hst1 & Hsp1 & Hok & Hp1).
  assert (ok = true) as -> by (apply Hok; split_and!; [done|done|by apply user_flags]). cbn [negb]. cbn [andb] in Hp1.
  destruct (IH m1 (changed + 1) Hc1) as (m' & -> & Hc' & Hst' & Hsp' & Hp').
  { intros j Hj. destruct (Hall j ltac:(lia)) as [Hu Hh']. split; [done|]. rewrite Hp1 by done. case_if as Ej; [|done].
    exfalso. unfold v, PAGE_SIZE in *. lia. }
  exists m'. split_and!; [f_equal; lia|done|by eapply tstep_trans|by eapply same_pages_trans|]. intros w Hw. rewrite Hp', !Hp1 by done.
  replace (virtual + (changed + 1) * PAGE_SIZE) with (v + PAGE_SIZE) by (unfold v; lia). unfold in_pages, PAGE_SIZE in *.
  destruct Hw as [Hw _]. assert (v mod 4096 = 0) as Hvm by apply Hv.
  destruct (w =? v) eqn:Ew; [replace w with v by lia|].
  - replace ((v + 4096 <=? v) && _) with false by lia. by replace ((v <=? v) && _) with true by lia.
  - replace ((v <=? w) && (w <? v + Z.of_nat (S n) * 4096)) with ((v + 4096 <=? w) && (w <? v + 4096 + Z.of_nat n * 4096)); [done|]. zlia.
Qed.

(** The arguments of the functions on ranges. *)
Lemma range_pages virtual pages :
  0 <= pages -> bad_pages pages = false -> bad_range virtual pages = false ->
  0 < pages <= 128 /\ virtual mod 4096 = 0 /\ forall j, 0 <= j < pages -> user_page (virtual + j * PAGE_SIZE).
Proof.
  unfold bad_pages, bad_range, ADDRESS_SPACE_MAX_ANONYMOUS_PAGES, PAGE_SIZE, user_page. change (4096 - 1) with (Z.ones 12). rewrite Z.land_ones by lia.
  change (2 ^ 12) with 4096. change (Z.shiftl 1 39) with (2 ^ 39). change (Z.shiftl 1 48) with (2 ^ 48). intros Hs Hp Hr.
  rewrite !orb_false_iff in *. split; [lia|]. split; [lia|]. intros j Hj. split; [zlia|lia].
Qed.

Lemma protect_range_spec cpu m a k T virtual pages flags :
  core m a k T [] [] -> 0 <= pages ->
  exists m' ok, address_space_protect_range cpu m a virtual pages flags = (ok, m') /\ core m' a k T [] [] /\ tstep m a m' /\ same_pages m m' a /\
  (ok = true <-> bad_pages pages = false /\ bad_range virtual pages = false /\
     bad_flags flags (Z.lor ADDRESS_SPACE_WRITABLE ADDRESS_SPACE_EXECUTABLE) = false /\
     forall j, 0 <= j < pages -> has (pte m T (virtual + j * PAGE_SIZE)) (Z.lor PAGE_PRESENT PAGE_USER) = true) /\
  forall w, user_page w -> pte m' T w =
    if ok && in_pages virtual pages w then protected (pte m T w) (Z.lor flags ADDRESS_SPACE_USER) else pte m T w.
Proof.
  intros Hc Hpg. unfold address_space_protect_range. pose proof (core_null _ _ _ _ _ _ Hc) as Hnull. replace (a =? 0) with false by lia. cbn [orb].
  pose proof (acc_ok _ _ _ (core_acc _ _ _ _ _ _ Hc)) as Hok. destruct (bad_pages pages || bad_range virtual pages || bad_flags flags _) eqn:Eb.
  { exists m, false. split_and!; try done. split; [done|]. intros (B1 & B2 & B3 & _). by rewrite B1, B2, B3 in Eb. }
  rewrite !orb_false_iff in Eb. destruct Eb as [[B1 B2] B3]. destruct (range_pages virtual pages Hpg B1 B2) as (Hn & Hmod & Hu).
  pose proof (collect_entries_spec (Z.to_nat pages) m a k T [] [] virtual 0 Hc) as Hcol.
  rewrite Z2Nat.id, Z.add_0_l in Hcol by lia. specialize (Hcol Hu).
  destruct (collect_entries _ _ _ _ _) as [es|].
  2:{ exists m, false. split_and!; try done. split; [done|]. intros (_ & _ & _ & Hall). by destruct (proj2 Hcol Hall). }
  destruct (update_pages_spec (Z.to_nat pages) cpu m a k T virtual flags 0 Hc Hmod B3) as (m' & -> & Hc' & Hst' & Hsp' & Hp').
  { intros j Hj. split; [apply Hu; lia|]. apply Hcol; [by eexists|lia]. }
  rewrite Z2Nat.id, Z.add_0_l, Z.eqb_refl in * by lia. exists m', true. split_and!; try done.
  - split; [|done]. intros _. split_and!; try done. apply Hcol. by eexists.
  - intros w Hw. rewrite Hp' by done. by rewrite Z.mul_0_l, Z.add_0_r.
Qed.


(** ** Cloning *)

(** Pages that were not mapped in [base], each once. *)
Definition new_pages (base : Z -> Z) (N : list anonymous_t) : Prop :=
  NoDup (virtual_address <$> N) /\ forall e, e ∈ N -> user_page (virtual_address e) /\ base (virtual_address e) = 0.

Lemma new_pages_snoc base N e :
  new_pages base N -> user_page (virtual_address e) -> with_pages N base (virtual_address e) = 0 ->
  new_pages base (N ++ [e]) /\ virtual_address e ∉ virtual_address <$> N.
Proof.
  intros [Hnd HN] Hu Hz. assert (virtual_address e ∉ virtual_address <$> N) as Hn.
  { intros Hin. unfold with_pages in Hz. destruct (List.find _ N) as [e'|] eqn:Ef; [by apply new_pte_nonzero in Hz|].
    apply list_elem_of_fmap in Hin as (e' & Ee & Hin). rewrite list_elem_of_In in Hin. apply (List.find_none _ _ Ef) in Hin. lia. }
  rewrite with_pages_out in Hz by done. split; [|done]. split.
  - rewrite fmap_app. apply NoDup_app. split_and!; [done| |by apply NoDup_singleton]. intros v Hv Hv2. apply list_elem_of_singleton in Hv2 as ->. done.
  - intros e' He'. apply elem_of_app in He' as [He'|He']; [by apply HN|]. by apply list_elem_of_singleton in He' as ->.
Qed.

Lemma new_pages_init base N e : new_pages base (N ++ [e]) -> new_pages base N /\ user_page (virtual_address e) /\ base (virtual_address e) = 0 /\ virtual_address e ∉ virtual_address <$> N.
Proof.
  intros [Hnd HN]. rewrite fmap_app in Hnd. apply NoDup_app in Hnd as (Hnd & Hdis & _). split_and!; [split; [done|]|..].
  - intros e' He'. apply HN, elem_of_app. by left.
  - apply HN, elem_of_app. right. constructor.
  - apply HN, elem_of_app. right. constructor.
  - intros Hin. apply (Hdis _ Hin). constructor.
Qed.

Lemma undo_clone_spec N cpu m a k T A base :
  core m a k T [] [] -> anonymous (spaces m a) = A ++ N -> (forall w, user_page w -> pte m T w = with_pages N base w) -> new_pages base N ->
  let m' := undo_clone (List.length N) cpu m a in
  exists T', core m' a k T' [] [] /\ step m a [] m' [] /\ anonymous (spaces m' a) = A /\ forall w, user_page w -> pte m' T' w = base w.
Proof.
  revert m T. induction N as [|e N IH] using rev_ind; intros m T Hc Han Hp HN.
  { cbn. exists T. rewrite app_nil_r in Han. split_and!; try done. by apply step_refl, Hc. }
  rewrite length_app, Nat.add_1_r. cbn [undo_clone]. rewrite app_assoc in Han. apply new_pages_init in HN as (HN & Hv & Hb & Hn).
  destruct (undo_step cpu m a k T (A ++ N) N e base Hc Han Hp Hb Hn Hv) as (Ec & Ef & El & T1 & Hc1 & Hst1 & Ha1 & Hp1).
  rewrite El. change (free_frame (set_space ?x a ?y) ?z) with (set_space (free_frame x z) a y).
  destruct (IH _ T1 Hc1 Ha1 Hp1 HN) as (T2 & Hc2 & Hst2 & Ha2 & Hp2). exists T2. split_and!; try done. by eapply step_trans.
Qed.

(** A clone of a record: the same page with the same flags in another frame with the same
    contents. *)
Definition clones m (e e' : anonymous_t) : Prop :=
  virtual_address e' = virtual_address e /\ flags e' = flags e /\
  forall i, 0 <= i < 512 -> entry m (physical_address e') i = entry m (physical_address e) i.

Lemma copy_loose m a k T f g :
  core m a k T [] [f] -> g mod 4096 = 0 -> g <> f ->
  let m' := copy_frame m f g in
  core m' a k T [] [f] /\ step m a [f] m' [f] /\ (forall w, pte m' T w = pte m T w) /\ spaces m' = spaces m /\
  (forall h, taken (phys m') h = taken (phys m) h) /\ (forall h, h mod 4096 = 0 -> h <> f -> same_frame m m' h) /\
  forall i, 0 <= i < 512 -> entry m' f i = entry m g i.
Proof.
  intros Hc Hg Hne m'. pose proof (core_acc _ _ _ _ _ _ Hc) as [A1 A2 A3 A4 A5]. cbn [app] in A4, A5.
  destruct (fill_table m f (fun m i => entry m g i) (fun i => entry m g i)) as (C1 & C2 & _ & C3 & C4 & C5); [done|apply A5; constructor| |].
  { intros n i _ Hsame Hi. apply same_frame_entry; [by apply Hsame|done]. }
  unfold copy_frame in m'. fold m' in C1, C2, C3, C4, C5. clearbody m'.
  assert (spaces m' = spaces m) as Es by by rewrite C1.
  assert (step m a [f] m' [f]) as Hst by (split; [rewrite Es; apply C3; constructor|intros; by rewrite Es|by rewrite C1]).
  assert (accounted m' a [f]) as Hacc by (split; rewrite ?Es; try done; [apply Hst|]; intros h Hh; rewrite C2; by apply A5).
  destruct (core_words m m' a k T [] [f] [f] Hc Hacc Hst) as [Hc' Hp']; [by rewrite Es|by rewrite Es| |done].
  intros h Hh. apply NoDup_cons in A4 as [A4 _]. assert (h <> f) as Hhf by (intros ->; apply A4, elem_of_app; by left).
  apply C4; [|done]. assert (taken (phys m) h = true) as Ht by (apply A5; right; apply elem_of_app; by left). apply (taken_frame _ _ Ht).
Qed.

Lemma clone_page_spec m a k T e :
  core m a k T [] [] -> anonymous_count (spaces m a) < 128 ->
  taken (phys m) (physical_address e) = true -> physical_address e ∉ owned (spaces m a) ->
  let '(f, p) := physical_alloc_frame (phys m) in
  f <> 0 -> forall m2, address_space_map_page (m<| phys := p |>) a (virtual_address e) f (flags e) = (true, m2) ->
  let m' := push_anonymous (copy_frame m2 f (physical_address e)) a (virtual_address e) f (flags e) in
  let e' := {| virtual_address := virtual_address e; physical_address := f; flags := flags e |} in
  exists T', core m' a k T' [] [] /\ step m a [] m' [] /\ anonymous (spaces m' a) = anonymous (spaces m a) ++ [e'] /\
    anonymous_count (spaces m' a) = anonymous_count (spaces m a) + 1 /\ clones m' e e' /\ f mod 4096 = 0 /\
    user_page (virtual_address e) /\ pte m T (virtual_address e) = 0 /\
    (forall w, user_page w -> pte m' T' w = if w =? virtual_address e then new_pte f (flags e) else pte m T w) /\ kept m a m'.
Proof.
  intros Hc Hn Ht Ho. set (g := physical_address e) in *. pose proof (fresh_page_spec m a k T (virtual_address e) (flags e) Hc) as Hfr.
  destruct (physical_alloc_frame (phys m)) as [f p]. intros Hf m2 Em. cbv zeta.
  destruct (Hfr Hf m2 Em) as (T2 & Hc2 & Hst2 & Hsp2 & K2 & Hfm & Hne & _ & Hv & Hz & Hp2). destruct (taken_frame _ _ Ht) as [Hgm _].
  destruct (copy_loose m2 a k T2 f g Hc2 Hgm (Hne g Ht)) as (Hc3 & Hst3 & Hp3 & Es3 & Ht3 & Hs3 & Hw3).
  generalize dependent (copy_frame m2 f g). intros m3 Hc3 Hst3 Hp3 Es3 Ht3 Hs3 Hw3.
  pose proof (same_pages_anonymous _ _ _ Hsp2) as Ha2. destruct Hsp2 as (Er2 & Ef2 & Ec2).
  destruct (push_anonymous_spec m3 a k T2 (virtual_address e) f (flags e) Hc3) as (Hc4 & Hst4 & Hp4 & Ha4 & Hn4); [by rewrite Es3, Ec2|].
  set (m' := push_anonymous _ _ _ _ _) in *. assert (kept m a m') as K4.
  { intros h Hh Hho. destruct (K2 h Hh Hho) as (B1 & B2 & B3). split_and!; [by change (taken (phys m3) h = true); rewrite Ht3| |].
    - unfold m', push_anonymous, set_space. cbn. rewrite fupd_eq. rewrite Es3. done.
    - intros x Hx. change (word (phys m3) x = word (phys m) x).
      rewrite (Hs3 h (proj1 (taken_frame _ _ Hh)) (Hne h Hh) x Hx). by apply B3. }
  exists T2. split_and!; try done.
  - by do 2 (eapply step_trans; [done|]).
  - by rewrite Ha4, Es3, Ha2.
  - by rewrite Hn4, Es3, Ec2.
  - split_and!; try done. intros i Hi. cbn. fold g. rewrite (same_frame_entry m m' g i) by (done || by apply K4).
    change (entry m3 f i = entry m g i). rewrite Hw3 by done. apply same_frame_entry; [by apply K2|done].
  - intros w Hw. by rewrite Hp4, Hp3, Hp2 by done.
Qed.

Lemma clones_kept m a m' e e' :
  kept m a m' -> clones m e e' ->
  taken (phys m) (physical_address e) = true /\ physical_address e ∉ owned (spaces m a) ->
  taken (phys m) (physical_address e') = true /\ physical_address e' ∉ owned (spaces m a) -> clones m' e e'.
Proof.
  intros K (C1 & C2 & C3) [He Ho] [He' Ho']. split_and!; try done. intros i Hi.
  rewrite (same_frame_entry m m' (physical_address e)), (same_frame_entry m m' (physical_address e')); [by apply C3|apply K|done|apply K|done]; done.
Qed.

Lemma anonymous_lookup s i :
  0 <= anonymous_count s <= zlen (anonymous_frames s) -> 0 <= i < anonymous_count s -> anonymous s !! Z.to_nat i = Some ((anonymous_frames s).[i]).
Proof.
  intros Hn Hi. unfold anonymous, zlen in *. rewrite lookup_take_lt by lia. apply list_lookup_lookup_total_lt. lia.
Qed.

Lemma anonymous_length s : 0 <= anonymous_count s <= zlen (anonymous_frames s) -> zlen (anonymous s) = anonymous_count s.
Proof. intros Hn. unfold anonymous, zlen in *. rewrite length_take. lia. Qed.

(** The source of a clone: its records, whose frames stay as they are. *)
Record cloneable m a source (S : list anonymous_t) : Prop := {
  cl_other : source <> a;
  cl_source : anonymous (spaces m source) = S;
  cl_count : 0 <= anonymous_count (spaces m source) <= zlen (anonymous_frames (spaces m source));
  cl_kept e : e ∈ S -> taken (phys m) (physical_address e) = true /\ physical_address e ∉ owned (spaces m a);
}.

Lemma cloneable_kept m a m' source S E E' : cloneable m a source S -> step m a E m' E' -> kept m a m' -> cloneable m' a source S.
Proof.
  intros [C1 C2 C3 C4] Hst K. pose proof (step_spaces _ _ _ _ _ Hst source C1) as Es. split; rewrite ?Es; try done.
  intros e He. destruct (C4 e He) as [Ht Ho]. destruct (K _ Ht Ho) as (? & ? & _). done.
Qed.

(** What a loop of clones does: it maps a clone of each record of [S], or undoes what it did. *)
Definition clone_result cpu m a k A S (base : Z -> Z) (created : bool) (r : bool * vm_t P) : Prop := exists m' T' ok,
  r = (ok, if (ok : bool) then m' else if created then snd (address_space_destroy cpu m' a) else m') /\
  core m' a k T' [] [] /\ step m a [] m' [] /\
  if ok then exists N, anonymous (spaces m' a) = A ++ N /\ new_pages base N /\ Forall2 (clones m') S N /\
    forall w, user_page w -> pte m' T' w = with_pages N base w
  else anonymous (spaces m' a) = A /\ forall w, user_page w -> pte m' T' w = base w.

Lemma clone_fails cpu m m1 a k T A N S base created :
  core m1 a k T [] [] -> step m a [] m1 [] -> anonymous (spaces m1 a) = A ++ N ->
  (forall w, user_page w -> pte m1 T w = with_pages N base w) -> new_pages base N ->
  let m2 := undo_clone (Z.to_nat (anonymous_count (spaces m1 a) - zlen A)) cpu m1 a in
  clone_result cpu m a k A S base created (false, if created then snd (address_space_destroy cpu m2 a) else m2).
Proof.
  intros Hc Hst Ha Hp HN m2. pose proof (core_acc _ _ _ _ _ _ Hc) as [_ _ [A3 A3'] _ _].
  pose proof (undo_clone_spec N cpu m1 a k T A base Hc Ha Hp HN) as Hu. cbv zeta in Hu.
  replace (List.length N) with (Z.to_nat (anonymous_count (spaces m1 a) - zlen A)) in Hu.
  - destruct Hu as (T2 & Hc2 & Hst2 & Ha2 & Hp2). exists m2, T2, false. split_and!; try done. by eapply step_trans.
  - rewrite <- (anonymous_length (spaces m1 a)), Ha by lia. unfold zlen. rewrite length_app. lia.
Qed.

Lemma all_clones_kept m a m' L N :
  kept m a m' -> (forall e, e ∈ L ++ N -> taken (phys m) (physical_address e) = true /\ physical_address e ∉ owned (spaces m a)) ->
  Forall2 (clones m) L N -> Forall2 (clones m') L N.
Proof.
  intros K He Hf. induction Hf as [|e e' L N Hcl Hf IH]; [done|]. constructor.
  - apply (clones_kept m a m' e e' K Hcl); apply He; [constructor|]. apply elem_of_app. right. constructor.
  - apply IH. intros e2 He2. apply He. set_solver.
Qed.

Lemma clone_loop_spec n cpu m a source S k T A N base created :
  core m a k T [] [] -> cloneable m a source S -> List.length S = (List.length N + n)%nat ->
  anonymous (spaces m a) = A ++ N -> anonymous_count (spaces m a) + Z.of_nat n <= 128 ->
  (forall w, user_page w -> pte m T w = with_pages N base w) -> new_pages base N -> Forall2 (clones m) (take (List.length N) S) N ->
  clone_result cpu m a k A S base created (clone_loop n cpu m a source (zlen A) created (zlen N)).
Proof.
  revert m T N. induction n as [|n IH]; intros m T N Hc Hcl HS Han Hn Hp HN Hf; cbn [clone_loop].
  { exists m, T, true. split_and!; try done; [by apply step_refl, Hc|]. exists N. split_and!; try done. by rewrite take_ge in Hf by lia. }
  pose proof Hcl as [Hsa Hsrc Hcnt Hkept]. pose proof (anonymous_length _ Hcnt) as Hls. rewrite Hsrc in Hls. unfold zlen in Hls.
  set (e := (anonymous_frames (spaces m source)).[zlen N]).
  assert (S !! List.length N = Some e) as He.
  { rewrite <- Hsrc, <- (Nat2Z.id (List.length N)). apply anonymous_lookup; [done|lia]. }
  destruct (Hkept e) as [Het Heo]; [by eapply list_elem_of_lookup_2|].
  pose proof (clone_page_spec m a k T e Hc ltac:(lia) Het Heo) as Hcp. pose proof (alloc_loose m a k T Hc) as Hal.
  destruct (physical_alloc_frame (phys m)) as [f p]. set (m1 := m<| phys := p |>) in *. destruct (f =? 0) eqn:Ef.
  { cbn [negb]. destruct Hal as [(_ & Ep & _)|(F1 & _)]; [|lia]. apply (clone_fails cpu m m1 a k T A N); [by apply (core_phys m)| |done| |done].
    - split; [|done|done]. apply (moved_phys m _ m); [apply moved_refl; [apply Hc|done]|done|done].
    - intros w Hw. rewrite (pte_phys m) by done. by apply Hp. }
  destruct Hal as [(F1 & _)|(_ & _ & _ & Hc1 & Hst1 & _ & _ & Hp1)]; [lia|].
  destruct (map_page_spec m1 a k T [f] (virtual_address e) f (flags e) Hc1) as (m2 & T2 & ok & Em & Hc2 & Hst2 & Hsp2 & Hok2).
  rewrite Em. destruct ok; cbn [negb].
  2:{ destruct Hok2 as (_ & Hp2 & _). destruct (free_loose m2 a k T2 f Hc2) as (Hc3 & Hst3 & Hp3). apply (clone_fails cpu m (free_frame m2 f) a k T2 A N); [done|..|done].
      - eapply step_trans; [exact Hst1|]. eapply step_trans; [by apply pages_step|done].
      - change (spaces (free_frame m2 f) a) with (spaces m2 a). by rewrite (same_pages_anonymous _ _ _ Hsp2).
      - intros w Hw. by rewrite Hp3, Hp2, Hp1, Hp. }
  destruct (Hcp ltac:(lia) m2 Em) as (T3 & Hc3 & Hst3 & Ha3 & Hn3 & Hcl3 & _ & Hu & Hz & Hp3 & K3). clear Hcp.
  set (e' := {| virtual_address := virtual_address e; physical_address := f; flags := flags e |}) in *.
  generalize dependent (push_anonymous (copy_frame m2 f (physical_address e)) a (virtual_address e) f (flags e)). intros m3 Hc3 Hst3 Ha3 Hn3 Hcl3 Hp3 K3.
  rewrite Hp in Hz by done. destruct (new_pages_snoc base N e' HN Hu Hz) as [HN' Hnin].
  destruct (IH m3 T3 (N ++ [e'])) as (m' & T' & ok & Eq & Hc' & Hst' & Hres); [done|by eapply cloneable_kept|rewrite length_app; simpl; lia| |lia| |done| |].
  - by rewrite Ha3, Han, app_assoc.
  - intros w Hw. rewrite Hp3, Hp by done. by rewrite with_pages_snoc.
  - rewrite length_app, Nat.add_1_r, (take_S_r _ _ e) by done. apply Forall2_app; [|by constructor]. apply (all_clones_kept m a); [done| |done].
    intros e2 He2. apply elem_of_app in He2 as [He2|He2]; [apply Hkept; by eapply elem_of_take in He2 as (? & ?%list_elem_of_lookup_2 & _)|].
    apply (anonymous_kept _ _ _ _ _ _ Hc). rewrite Han. apply elem_of_app. by right.
  - replace (zlen N + 1) with (zlen (N ++ [e'])) by (unfold zlen; rewrite length_app; simpl; lia). exists m', T', ok. split_and!; [done|done|by eapply step_trans|done].
Qed.

End proofs.

End AddressSpace.
