(* ===== verification/Spaces.v ===== *)
(** * Address spaces together (kernel/mm/virtual/address_space.c)

    The functions of AddressSpace.v as one system: the invariant of all address spaces, what a
    call does to the space it is about, and that it leaves all others alone. *)

From S2P Require Import Prelude Frame AddressSpace.

Module Spaces.

Import AddressSpace.AddressSpace.

Section proofs.
Context {P : Type} `{FramesLaws P} (statics : statics_t).
Implicit Types (m : vm_t P) (a : Z) (T : gmap (Z * Z) Z).

#[local] Abbreviation core := (core statics).
#[local] Abbreviation statics_reserved := (statics_reserved statics).

(** ** All address spaces together *)

(** The entry that the tables of a space have for a page. *)
Definition page_of m a (v : Z) : Z := snd (page_entry m (root (spaces m a)) v).

(** Every object is unused or has well-formed tables, and no two of them share a frame. *)
Record world m : Prop := {
  world_ok : frames_ok (phys m);
  world_static : statics_reserved m;
  world_space a : dormant m a \/ exists k T, core m a k T [] [];
  world_apart a b f : a <> b -> f ∈ footprint (spaces m a) -> f ∉ footprint (spaces m b);
}.

(** What a step on one space leaves alone: another space, its entries and the contents of its
    frames. *)
Definition untouched m m' b : Prop :=
  spaces m' b = spaces m b /\ (forall v, user_page v -> page_of m' b v = page_of m b v) /\
  forall f, f ∈ footprint (spaces m b) -> same_frame m m' f.

(** A request changes only the frames of one space. *)
Definition change m a m' : Prop :=
  moved m (footprint (spaces m a)) m' (footprint (spaces m' a)) /\ (forall b, b <> a -> spaces m' b = spaces m b) /\
  kernel_root m' = kernel_root m /\ heap_page_table_active m' = heap_page_table_active m.

(** The frames in use that belong to no space. *)
Definition foreign m (f : Z) : Prop := taken (phys m) f = true /\ forall a, f ∉ footprint (spaces m a).

Lemma dormant_page m a v : dormant m a -> page_of m a v = 0.
Proof. intros Hd. unfold page_of, page_entry. rewrite (dorm_root _ _ Hd). done. Qed.

Lemma core_page m a k T X E v : core m a k T X E -> user_page v -> page_of m a v = pte m T v.
Proof. intros Hc Hv. by eapply page_entry_spec. Qed.

Lemma world_taken m a f : world m -> f ∈ footprint (spaces m a) -> taken (phys m) f = true.
Proof.
  intros Hw Hf. destruct (world_space m Hw a) as [Hd|(k & T & Hc)].
  - destruct (dormant_accounted _ _ (world_ok m Hw) Hd) as [_ Ef]. rewrite Ef in Hf. by apply not_elem_of_nil in Hf.
  - by apply (acc_taken _ _ _ (core_acc _ _ _ _ _ _ _ Hc)).
Qed.

(** The tables of a space depend on its object, its frames and the kernel's table only. *)
Lemma core_frame m m' b k T :
  frames_ok (phys m') -> statics_reserved m' -> spaces m' b = spaces m b ->
  (forall i, 0 <= i < 512 -> entry m' (pdpt statics) i = entry m (pdpt statics) i) ->
  (forall f, f ∈ footprint (spaces m b) -> taken (phys m') f = true /\ same_frame m m' f) ->
  core m b k T [] [] -> core m' b k T [] [] /\ forall v, pte m' T v = pte m T v.
Proof.
  intros Hok Hstat Es Hpd Hkeep Hc. pose proof (core_acc _ _ _ _ _ _ _ Hc) as [A1 A2 A3 A4 A5].
  assert (forall x t, T !! x = Some t -> t ∈ footprint (spaces m b)) as HT.
  { intros x t Hx. eapply (core_in_footprint _ _ _ _ _ _ [] t Hc). cbn. right. apply elem_of_values. by exists x. }
  assert (k ∈ footprint (spaces m b)) as Hk by (eapply (core_in_footprint _ _ _ _ _ _ [] k Hc); constructor).
  split; [split; rewrite ?Es; try done; [|by apply Hc| |by apply Hc|]|].
  - split; rewrite ?Es; try done. intros f Hf. by apply Hkeep.
  - eapply tree_ext; [by apply Hc|]. intros x t Hx. by eapply Hkeep, HT.
  - intros i Hi. rewrite Hpd, <- (core_kernel _ _ _ _ _ _ _ Hc) by done. apply same_frame_entry; [by apply Hkeep|done].
  - intros v. unfold pte. destruct (T !! (0, v / 2 ^ 21)) as [t|] eqn:Et; [|done].
    apply same_frame_entry; [by eapply Hkeep, HT|]. rewrite index_spec by lia. zlia.
Qed.

(** A step on [a] keeps the tables of [b]. *)
Lemma core_other m a m' b k T :
  moved m (footprint (spaces m a)) m' (footprint (spaces m' a)) -> spaces m' b = spaces m b ->
  (forall f, f ∈ footprint (spaces m b) -> taken (phys m') f = true /\ same_frame m m' f) ->
  core m b k T [] [] -> core m' b k T [] [] /\ forall v, pte m' T v = pte m T v.
Proof.
  intros Hmv Es Hkeep Hc. destruct (static_moved _ _ _ _ _ Hmv (core_static _ _ _ _ _ _ _ Hc)) as [Hstat Hpd].
  by apply core_frame; [apply Hmv|..].
Qed.

Lemma world_change m a m' :
  world m -> change m a m' -> (dormant m' a \/ exists k T, core m' a k T [] []) ->
  world m' /\ (forall b, b <> a -> untouched m m' b) /\
  forall f, (foreign m' f <-> foreign m f) /\ (foreign m f -> same_frame m m' f).
Proof.
  intros Hw (Hmv & Hsp & _) Ha. pose proof Hw as [W1 W2 W3 W4].
  assert (forall b, b <> a -> forall f, f ∈ footprint (spaces m b) ->
    taken (phys m') f = true /\ f ∉ footprint (spaces m' a) /\ same_frame m m' f) as Hkeep.
  { intros b Hb f Hf. apply (moved_keep _ _ _ _ Hmv); [by eapply world_taken|]. by apply (W4 b a). }
  assert (forall f, foreign m f -> foreign m' f /\ same_frame m m' f) as Hfor.
  { intros f [Hf Hn]. destruct (moved_keep _ _ _ _ Hmv f Hf (Hn a)) as (B1 & B2 & B3). split; [|done]. split; [done|]. intros b.
    destruct (decide (b = a)) as [-> |Hb]; [done|]. rewrite Hsp by done. apply Hn. }
  split; [split|split].
  - apply Hmv.
  - by apply (static_moved _ _ _ _ _ Hmv).
  - intros b. destruct (decide (b = a)) as [-> |Hb]; [done|]. specialize (Hsp b Hb). destruct (W3 b) as [[D1 D2 D3]|(k & T & Hc)].
    + left. by split; rewrite Hsp.
    + right. exists k, T. eapply core_other; try done. intros f Hf. by destruct (Hkeep b Hb f Hf) as (? & _ & ?).
  - intros b c f Hbc. destruct (decide (b = a)) as [-> |Hb], (decide (c = a)) as [-> |Hca]; [done| | |].
    + rewrite (Hsp c Hca). intros Hf Hf2. by destruct (Hkeep c Hca f Hf2) as (_ & ? & _).
    + rewrite (Hsp b Hb). intros Hf. by apply (Hkeep b Hb f Hf).
    + rewrite (Hsp b Hb), (Hsp c Hca). by apply W4.
  - intros b Hb. specialize (Hsp b Hb). split; [done|]. split; [|intros f Hf; by apply (Hkeep b Hb)]. intros v Hv.
    destruct (W3 b) as [Hd|(k & T & Hc)].
    + rewrite !dormant_page; [done|done|]. destruct Hd as [D1 D2 D3]. by split; rewrite Hsp.
    + destruct (core_other m a m' b k T Hmv Hsp) as [Hc' Hp]; [|done|].
      { intros f Hf. by destruct (Hkeep b Hb f Hf) as (? & _ & ?). }
      by rewrite (core_page _ _ _ _ _ _ _ Hc' Hv), (core_page _ _ _ _ _ _ _ Hc Hv).
  - intros f. split; [|by intros [? ?]%Hfor]. split; [|by intros [? ?]%Hfor]. intros [Hf Hn].
    destruct (moved_new _ _ _ _ Hmv f Hf (Hn a)) as [B1 B2]. split; [done|]. intros b.
    destruct (decide (b = a)) as [-> |Hb]; [done|]. rewrite <- Hsp by done. apply Hn.
Qed.

(** ** The requests *)

Inductive request :=
| Create (a : Z)
| Destroy (cpu : option Z) (a : Z)
| MapPage (a v physical flags : Z)
| UnmapPage (cpu : option Z) (a v : Z)
| UpdateFlags (cpu : option Z) (a v flags : Z)
| ProtectRange (cpu : option Z) (a v pages flags : Z)
| MapAnonymous (cpu : option Z) (a v pages flags : Z)
| UnmapAnonymous (cpu : option Z) (a v pages : Z)
| Clone (cpu : option Z) (a source : Z)
| Activate (cpu : option Z) (a : Z)
| ActivateKernel (cpu : option Z).

(** The space that a request is about. *)
Definition subject (r : request) : Z :=
  match r with
  | Create a | Destroy _ a | MapPage a _ _ _ | UnmapPage _ a _ | UpdateFlags _ a _ _ | ProtectRange _ a _ _ _
  | MapAnonymous _ a _ _ _ | UnmapAnonymous _ a _ _ | Clone _ a _ | Activate _ a => a
  | ActivateKernel _ => 0
  end.

Definition run m (r : request) : bool * vm_t P :=
  match r with
  | Create a => address_space_create statics m a
  | Destroy cpu a => address_space_destroy cpu m a
  | MapPage a v physical flags => address_space_map_page m a v physical flags
  | UnmapPage cpu a v => address_space_unmap_page cpu m a v
  | UpdateFlags cpu a v flags => address_space_update_page_flags cpu m a v flags
  | ProtectRange cpu a v pages flags => address_space_protect_range cpu m a v pages flags
  | MapAnonymous cpu a v pages flags => address_space_map_anonymous cpu m a v pages flags
  | UnmapAnonymous cpu a v pages => address_space_unmap_anonymous cpu m a v pages
  | Clone cpu a source => address_space_clone_anonymous statics cpu m a source
  | Activate cpu a => address_space_activate cpu m a
  | ActivateKernel cpu => address_space_activate_kernel cpu m
  end.

(** Numbers of pages are unsigned.  A clone does not check that the array of the destination
    has room for the records of the source. *)
Definition admissible m (r : request) : Prop :=
  match r with
  | ProtectRange _ _ _ pages _ | MapAnonymous _ _ _ pages _ | UnmapAnonymous _ _ _ pages => 0 <= pages
  | Clone _ a source => anonymous_count (spaces m a) + anonymous_count (spaces m source) <= ADDRESS_SPACE_MAX_ANONYMOUS_PAGES
  | _ => True
  end.

(** The entries of [a] are [pages], its records [records]. *)
Definition holds m a (pages : Z -> Z) (records : list anonymous_t) : Prop :=
  (forall w, user_page w -> page_of m a w = pages w) /\ anonymous (spaces m a) = records.

Definition same m m' a : Prop :=
  holds m' a (page_of m a) (anonymous (spaces m a)) /\ (root (spaces m' a) = 0 <-> root (spaces m a) = 0).

(** What a request does to its space. *)
Definition effect m (r : request) (ok : bool) m' : Prop :=
  let records a := anonymous (spaces m a) in
  match r with
  | Create a =>
    if ok then root (spaces m a) = 0 /\ root (spaces m' a) <> 0 /\ holds m' a (fun _ => 0) []
    else same m m' a /\ (a <> 0 -> root (spaces m a) = 0 -> few_spare m)
  | Destroy cpu a =>
    (ok = true <-> root (spaces m a) <> 0 /\ root (spaces m a) <> kernel_root m /\
       root (spaces m a) <> (active_roots m).[address_space_cpu_index cpu]) /\
    if ok then dormant m' a else m' = m
  | MapPage a v physical flags =>
    if ok then mappable v physical flags = true /\ root (spaces m a) <> 0 /\ page_of m a v = 0 /\
      holds m' a (fun w => if w =? v then new_pte physical flags else page_of m a w) (records a)
    else same m m' a /\ (mappable v physical flags = true -> root (spaces m a) <> 0 -> page_of m a v = 0 ->
      30 <= owned_count (spaces m a) \/ few_spare m)
  | UnmapPage _ a v =>
    (ok = true <-> user_page v /\ page_of m a v <> 0) /\
    holds m' a (fun w => if ok && (w =? v) then 0 else page_of m a w) (records a)
  | UpdateFlags _ a v flags =>
    (ok = true <-> user_page v /\ has (page_of m a v) (Z.lor PAGE_PRESENT PAGE_USER) = true /\
       bad_flags flags (Z.lor (Z.lor ADDRESS_SPACE_WRITABLE ADDRESS_SPACE_USER) ADDRESS_SPACE_EXECUTABLE) = false) /\
    holds m' a (fun w => if ok && (w =? v) then protected (page_of m a v) flags else page_of m a w) (records a)
  | ProtectRange _ a v pages flags =>
    (ok = true <-> bad_pages pages = false /\ bad_range v pages = false /\
       bad_flags flags (Z.lor ADDRESS_SPACE_WRITABLE ADDRESS_SPACE_EXECUTABLE) = false /\
       forall j, 0 <= j < pages -> has (page_of m a (v + j * PAGE_SIZE)) (Z.lor PAGE_PRESENT PAGE_USER) = true) /\
    holds m' a (fun w => if ok && in_pages v pages w then protected (page_of m a w) (Z.lor flags ADDRESS_SPACE_USER) else page_of m a w)
      (records a)
  | MapAnonymous _ a v pages flags =>
    if ok then exists N, zlen N = pages /\ fresh_pages v (Z.lor flags ADDRESS_SPACE_USER) (page_of m a) N /\ Forall (zeroed m') N /\
      holds m' a (with_pages N (page_of m a)) (records a ++ N)
    else same m m' a
  | UnmapAnonymous _ a v pages =>
    exists D, D ++ anonymous (spaces m' a) ≡ₚ records a /\
      virtual_address <$> D = (fun i => v + Z.of_nat i * PAGE_SIZE) <$> seq 0 (List.length D) /\
      (if ok then zlen D = pages else D <> [] -> page_of m a (v + zlen D * PAGE_SIZE) = 0 \/ ~ user_page (v + zlen D * PAGE_SIZE)) /\
      forall w, user_page w -> page_of m' a w = if in_pages v (zlen D) w then 0 else page_of m a w
  | Clone _ a source =>
    if ok then exists N, new_pages (page_of m a) N /\ Forall2 (clones m') (records source) N /\
      holds m' a (with_pages N (page_of m a)) (records a ++ N)
    else holds m' a (page_of m a) (records a)
  | Activate _ _ | ActivateKernel _ => phys m' = phys m /\ spaces m' = spaces m
  end.

(** What is to be shown of a request. *)
Definition served m (r : request) (result : bool * vm_t P) : Prop := exists m' ok,
  result = (ok, m') /\ change m (subject r) m' /\
  (dormant m' (subject r) \/ exists k T, core m' (subject r) k T [] []) /\ effect m r ok m'.

Lemma step_change m a m' : step m a [] m' [] -> change m a m'.
Proof. by intros [Hmv Hsp (? & ? & _)]. Qed.

Lemma tstep_change m a m' : tstep m a m' -> same_pages m m' a -> change m a m'.
Proof. intros Hst Hsp. by apply step_change, pages_step. Qed.

Lemma change_refl m a : frames_ok (phys m) -> change m a m.
Proof. intros Hok. split; [by apply moved_refl|done]. Qed.

Lemma same_refl m a : same m m a.
Proof. done. Qed.

Lemma holds_core m a k T pages records :
  core m a k T [] [] -> (forall w, user_page w -> pte m T w = pages w) -> anonymous (spaces m a) = records -> holds m a pages records.
Proof. intros Hc Hp Hr. split; [|done]. intros w Hw. rewrite (core_page _ _ _ _ _ _ _ Hc Hw). by apply Hp. Qed.

Lemma same_core m m' a k T k' T' :
  core m a k T [] [] -> core m' a k' T' [] [] -> (forall w, user_page w -> pte m' T' w = pte m T w) ->
  anonymous (spaces m' a) = anonymous (spaces m a) -> same m m' a.
Proof.
  intros Hc Hc' Hp Ha. split.
  - eapply holds_core; [done| |done]. intros w Hw. by rewrite Hp, (core_page _ _ _ _ _ _ _ Hc Hw).
  - pose proof (core_root _ _ _ _ _ _ _ Hc). pose proof (core_root _ _ _ _ _ _ _ Hc'). lia.
Qed.

Lemma with_pages_ext N f g w : f w = g w -> with_pages N f w = with_pages N g w.
Proof. intros E. unfold with_pages. by destruct (List.find _ N). Qed.

(** A request that is refused. *)
Lemma refused m r m' a : frames_ok (phys m) -> (dormant m a \/ exists k T, core m a k T [] []) -> a = subject r ->
  m' = m -> effect m r false m -> served m r (false, m').
Proof. intros Hok Ha -> -> He. exists m, false. split; [done|]. split; [by apply change_refl|]. done. Qed.

Lemma serve_create m a : world m -> served m (Create a) (run m (Create a)).
Proof.
  intros Hw. pose proof Hw as [W1 W2 W3 W4]. cbn [run]. destruct (W3 a) as [Hd|(k & T & Hc)].
  - destruct (create_spec statics m a W1 W2 Hd) as (m' & ok & -> & Hst & Hres). exists m', ok. split; [done|].
    split; [by apply step_change|]. destruct ok.
    + destruct Hres as (Ha & Han & k & T & Hc & Hp). split; [right; by exists k, T|]. cbn. split_and!; [apply Hd| |].
      * pose proof (core_root _ _ _ _ _ _ _ Hc). lia.
      * by eapply holds_core.
    + destruct Hres as [Hd' Hfew]. split; [by left|]. cbn. split; [|intros Ha _; by apply Hfew]. split.
      * split; [intros w Hw'; by rewrite !dormant_page|]. unfold anonymous. by rewrite (proj2 (dorm_counts _ _ Hd)), (proj2 (dorm_counts _ _ Hd')).
      * by rewrite (dorm_root _ _ Hd), (dorm_root _ _ Hd').
  - pose proof (core_root _ _ _ _ _ _ _ Hc) as Hr. unfold address_space_create. replace (root (spaces m a) =? 0) with false by lia.
    rewrite orb_true_r. apply (refused m _ m a); [done|right; by exists k, T|done|done|]. cbn. split; [done|]. intros _ ?. lia.
Qed.

Lemma serve_destroy m cpu a : world m -> served m (Destroy cpu a) (run m (Destroy cpu a)).
Proof.
  intros Hw. pose proof Hw as [W1 W2 W3 W4]. cbn [run]. destruct (W3 a) as [Hd|(k & T & Hc)].
  - unfold address_space_destroy. rewrite (dorm_root _ _ Hd). rewrite orb_true_r. apply (refused m _ m a); [done|by left|done|done|].
    cbn. split; [|done]. split; [done|]. intros [Hr _]. by rewrite (dorm_root _ _ Hd) in Hr.
  - destruct (destroy_spec statics cpu m a k T Hc) as (m' & ok & -> & Hst & Hiff & Hres). pose proof (core_root _ _ _ _ _ _ _ Hc) as Hr.
    exists m', ok. split; [done|]. split; [by apply step_change|]. split; [|cbn; split; [rewrite Hiff|done]].
    + destruct ok; [by left|]. subst m'. right. by exists k, T.
    + split; [by intros [? ?]|by intros (_ & ? & ?)].
Qed.

Lemma serve_map_page m a v physical flags : world m -> served m (MapPage a v physical flags) (run m (MapPage a v physical flags)).
Proof.
  intros Hw. pose proof Hw as [W1 W2 W3 W4]. cbn [run]. destruct (W3 a) as [Hd|(k & T & Hc)].
  - unfold address_space_map_page. rewrite (dorm_root _ _ Hd), orb_true_r. cbn [orb]. apply (refused m _ m a); [done|by left|done|done|].
    cbn [effect]. split; [done|]. intros _ Hr. by rewrite (dorm_root _ _ Hd) in Hr.
  - pose proof (core_root _ _ _ _ _ _ _ Hc) as Hr.
    destruct (map_page_spec statics m a k T [] v physical flags Hc) as (m' & T' & ok & -> & Hc' & Hst & Hsp & Hres).
    pose proof (same_pages_anonymous _ _ _ Hsp) as Ha. exists m', ok. split; [done|]. split; [by apply tstep_change|].
    split; [right; by exists k, T'|]. destruct ok.
    + destruct Hres as (Hm & Hz & Hp).
      assert (user_page v) as Hv by (apply bad_address_spec; unfold mappable in Hm; apply negb_true_iff in Hm; rewrite !orb_false_iff in Hm; apply Hm).
      cbn [effect]. split_and!; try done; [by rewrite (core_page _ _ _ _ _ _ _ Hc Hv)|]. eapply holds_core; [done| |done]. intros w Hw'.
      by rewrite Hp, (core_page _ _ _ _ _ _ _ Hc Hw').
    + destruct Hres as (Ho & Hp & Hwhy). cbn [effect]. split; [by eapply same_core|]. intros Hm _ Hz. apply Hwhy; [done|].
      rewrite <- Hz. symmetry. apply (core_page _ _ _ _ _ _ _ Hc), bad_address_spec. unfold mappable in Hm. apply negb_true_iff in Hm.
      rewrite !orb_false_iff in Hm. apply Hm.
Qed.

Lemma serve_unmap_page m cpu a v : world m -> served m (UnmapPage cpu a v) (run m (UnmapPage cpu a v)).
Proof.
  intros Hw. pose proof Hw as [W1 W2 W3 W4]. cbn [run]. destruct (W3 a) as [Hd|(k & T & Hc)].
  - unfold address_space_unmap_page. rewrite (dorm_root _ _ Hd), orb_true_r. cbn [orb]. apply (refused m _ m a); [done|by left|done|done|].
    cbn [effect]. split; [|done]. rewrite dormant_page by done. split; [done|]. by intros [_ ?].
  - destruct (unmap_page_spec statics cpu m a k T [] v Hc) as (m' & T' & ok & -> & Hc' & Hst & Hsp & Hok & Hp).
    exists m', ok. split; [done|]. split; [by apply tstep_change|]. split; [right; by exists k, T'|]. cbn [effect]. split.
    + rewrite Hok. split; intros [Hv Hn]; (split; [done|]); by rewrite (core_page _ _ _ _ _ _ _ Hc Hv) in *.
    + eapply holds_core; [done| |by apply same_pages_anonymous]. intros w Hw'. by rewrite Hp, (core_page _ _ _ _ _ _ _ Hc Hw').
Qed.

Lemma serve_update_flags m cpu a v flags : world m -> served m (UpdateFlags cpu a v flags) (run m (UpdateFlags cpu a v flags)).
Proof.
  intros Hw. pose proof Hw as [W1 W2 W3 W4]. cbn [run]. destruct (W3 a) as [Hd|(k & T & Hc)].
  - unfold address_space_update_page_flags. rewrite (dorm_root _ _ Hd), orb_true_r. cbn [orb]. apply (refused m _ m a); [done|by left|done|done|].
    cbn [effect]. split; [|done]. rewrite dormant_page by done. split; [done|]. by intros (_ & ? & _).
  - destruct (update_flags_spec statics cpu m a k T [] v flags Hc) as (m' & ok & -> & Hc' & Hst & Hsp & Hok & Hp).
    exists m', ok. split; [done|]. split; [by apply tstep_change|]. split; [right; by exists k, T|]. cbn [effect]. split.
    + rewrite Hok. split; intros (Hv & Hn & Hf); (split; [done|]); by rewrite (core_page _ _ _ _ _ _ _ Hc Hv) in *.
    + eapply holds_core; [done| |by apply same_pages_anonymous]. intros w Hw'. rewrite Hp, (core_page _ _ _ _ _ _ _ Hc Hw') by done.
      case_if as E; [|done]. replace w with v in * by lia. by rewrite (core_page _ _ _ _ _ _ _ Hc Hw').
Qed.

Lemma serve_protect m cpu a v pages flags :
  world m -> 0 <= pages -> served m (ProtectRange cpu a v pages flags) (run m (ProtectRange cpu a v pages flags)).
Proof.
  intros Hw Hpg. pose proof Hw as [W1 W2 W3 W4]. cbn [run]. destruct (W3 a) as [Hd|(k & T & Hc)].
  - assert (exists r, address_space_protect_range cpu m a v pages flags = (false, r) /\ r = m) as (r & -> & Er).
    { unfold address_space_protect_range. case_if as E; [by eexists|]. rewrite (dorm_root _ _ Hd).
      rewrite !orb_false_iff in E. destruct E as [[[_ E1] _] _]. unfold bad_pages in E1. destruct (Z.to_nat pages) as [|n] eqn:En; [lia|].
      cbn. by eexists. }
    apply (refused m _ r a); [done|by left|done|done|]. cbn [effect]. split; [|done]. split; [done|]. intros (Hb & _ & _ & Hall).
    unfold bad_pages in Hb. specialize (Hall 0 ltac:(lia)). by rewrite dormant_page in Hall.
  - destruct (protect_range_spec statics cpu m a k T v pages flags Hc Hpg) as (m' & ok & -> & Hc' & Hst & Hsp & Hok & Hp).
    exists m', ok. split; [done|]. split; [by apply tstep_change|]. split; [right; by exists k, T|]. cbn [effect]. split.
    + rewrite Hok. split; intros (Hb1 & Hb2 & Hb3 & Hall); (split_and!; [done..|]); intros j Hj;
        pose proof (proj2 (proj2 (range_pages v pages Hpg Hb1 Hb2)) j Hj) as Hu;
        specialize (Hall j Hj); by rewrite (core_page _ _ _ _ _ _ _ Hc Hu) in *.
    + eapply holds_core; [done| |by apply same_pages_anonymous]. intros w Hw'. by rewrite Hp, (core_page _ _ _ _ _ _ _ Hc Hw') by done.
Qed.

(** In a space that is not in use a frame is taken and given back. *)
Lemma map_anonymous_dormant cpu m a v pages flags :
  frames_ok (phys m) -> dormant m a -> 0 <= pages ->
  exists m', address_space_map_anonymous cpu m a v pages flags = (false, m') /\ spaces m' = spaces m /\ moved m [] m' [] /\
    kernel_root m' = kernel_root m /\ heap_page_table_active m' = heap_page_table_active m.
Proof.
  intros Hok Hd Hpg. unfold address_space_map_anonymous. case_if as Eb; [exists m; split_and!; try done; by apply moved_refl|].
  case_if as E2; [exists m; split_and!; try done; by apply moved_refl|]. rewrite !orb_false_iff in Eb. destruct Eb as [[[_ Eb] _] _].
  unfold bad_pages in Eb. destruct (Z.to_nat pages) as [|n] eqn:En; [lia|]. cbn [map_anonymous_loop].
  pose proof (alloc_spec m Hok) as Hal. destruct (physical_alloc_frame (phys m)) as [f p].
  destruct Hal as [(-> & -> & _)|(F1 & _ & _ & F3 & _ & F5 & _)].
  { cbn. eexists. split; [done|]. split; [done|]. split; [|done]. by apply (moved_phys m _ m); [apply moved_refl|..]. }
  replace (f =? 0) with false by lia. set (m1 := m<| phys := p |>) in *. unfold address_space_map_page.
  change (root (spaces m1 a)) with (root (spaces m a)). rewrite (dorm_root _ _ Hd), orb_true_r. cbn [orb negb Z.to_nat undo_anonymous].
  eexists. split; [done|]. split; [done|]. split; [|done]. pose proof (F5 [] ltac:(set_solver)) as Hmv.
  destruct (moved_free m1 [] f (moved_ok _ _ _ _ Hmv) F3) as (Hmv2 & _); [set_solver|]. by eapply moved_trans.
Qed.

Lemma serve_map_anonymous m cpu a v pages flags :
  world m -> 0 <= pages -> served m (MapAnonymous cpu a v pages flags) (run m (MapAnonymous cpu a v pages flags)).
Proof.
  intros Hw Hpg. pose proof Hw as [W1 W2 W3 W4]. cbn [run]. destruct (W3 a) as [Hd|(k & T & Hc)].
  { destruct (map_anonymous_dormant cpu m a v pages flags W1 Hd Hpg) as (m' & -> & Es & Hmv & Hk). exists m', false. split; [done|].
    assert (dormant m' a) as Hd' by (destruct Hd as [D1 D2 D3]; by split; rewrite Es).
    destruct (dormant_accounted _ _ W1 Hd) as [_ Ef]. cbn [subject]. split; [split; [by rewrite Es, Ef|split; [intros b Hb; by rewrite Es|done]]|].
    split; [by left|]. cbn [effect]. split; [split; [intros w _; by rewrite !dormant_page|by rewrite Es]|by rewrite Es]. }
  unfold address_space_map_anonymous. pose proof (core_acc _ _ _ _ _ _ _ Hc) as [_ _ [A3 A3'] _ _].
  case_if as Eb; [apply (refused m _ m a); [done|right; by exists k, T|done|done|by cbn [effect]]|].
  case_if as E2; [apply (refused m _ m a); [done|right; by exists k, T|done|done|by cbn [effect]]|]. unfold ADDRESS_SPACE_MAX_ANONYMOUS_PAGES in E2.
  destruct (map_anonymous_loop_spec statics (Z.to_nat pages) cpu m a k T (anonymous (spaces m a)) [] (page_of m a) v flags Hc)
    as (m' & T' & ok & Eq & Hc' & Hst & Hres); [by rewrite app_nil_r| |by intros i e Hi|lia|].
  { intros w Hw'. rewrite with_pages_out by apply not_elem_of_nil. by rewrite (core_page _ _ _ _ _ _ _ Hc Hw'). }
  change (zlen []) with 0 in Eq. rewrite Eq. exists m', ok. split; [done|]. split; [by apply step_change|]. split; [right; by exists k, T'|].
  cbn [effect]. destruct ok.
  - destruct Hres as (N & Hl & Ha & Hf & Hp & _ & Hz). exists N. split_and!; try done; [unfold zlen; lia|]. by eapply holds_core.
  - destruct Hres as [Ha Hp]. eapply same_core; try done. intros w Hw'. by rewrite Hp, (core_page _ _ _ _ _ _ _ Hc Hw').
Qed.

Lemma found_records s v pages :
  0 <= anonymous_count s <= zlen (anonymous_frames s) ->
  forallb (fun page => match find_anonymous s (v + page * PAGE_SIZE) with Some _ => true | None => false end) (seqZ 0 pages) = true ->
  forall j, 0 <= j < pages -> v + j * PAGE_SIZE ∈ virtual_address <$> anonymous s.
Proof.
  intros Hn Hall j Hj. rewrite forallb_forall in Hall. specialize (Hall j). rewrite <- list_elem_of_In, elem_of_seqZ in Hall.
  specialize (Hall ltac:(lia)). pose proof (find_anonymous_spec s (v + j * PAGE_SIZE) Hn) as Hf. destruct (find_anonymous _ _) as [i|]; [|done].
  destruct Hf as [Hi <-]. apply list_elem_of_fmap_2. eapply list_elem_of_lookup_2, anonymous_lookup; done.
Qed.

Lemma unmap_none m a v pages : effect m (UnmapAnonymous None a v pages) false m.
Proof.
  cbn [effect]. exists []. split_and!; try done. intros w Hw. unfold in_pages. change (zlen []) with 0. by replace (_ && _) with false by lia.
Qed.

Lemma serve_unmap_anonymous m cpu a v pages :
  world m -> 0 <= pages -> served m (UnmapAnonymous cpu a v pages) (run m (UnmapAnonymous cpu a v pages)).
Proof.
  intros Hw Hpg. pose proof Hw as [W1 W2 W3 W4]. cbn [run]. unfold address_space_unmap_anonymous.
  case_if as Eb; [apply (refused m _ m a); try done; apply unmap_none|].
  destruct (forallb _ _) eqn:E2; cbn [negb]; [|apply (refused m _ m a); try done; apply unmap_none].
  rewrite !orb_false_iff in Eb. destruct Eb as [[[_ Ebp] _] Ebm]. destruct (W3 a) as [Hd|(k & T & Hc)].
  { exfalso. unfold bad_pages in Ebp. pose proof (found_records (spaces m a) v pages) as Hf. destruct (dorm_counts _ _ Hd) as [_ E0].
    destruct (dorm_lengths _ _ Hd) as [_ El]. specialize (Hf ltac:(lia) E2 0 ltac:(lia)). unfold anonymous in Hf. rewrite E0 in Hf.
    by apply not_elem_of_nil in Hf. }
  pose proof (core_acc _ _ _ _ _ _ _ Hc) as [_ _ [A3 A3'] _ _].
  assert (v mod 4096 = 0) as Hmod.
  { unfold PAGE_SIZE in Ebm. change (4096 - 1) with (Z.ones 12) in Ebm. rewrite Z.land_ones in Ebm by lia. change (2 ^ 12) with 4096 in Ebm. lia. }
  destruct (unmap_anonymous_loop_spec statics (Z.to_nat pages) cpu m a k T v 0 Hc Hmod) as (m' & T' & ok & D & -> & Hc' & Hst & HD & Hvs & Hres & Hp).
  { intros j Hj. apply (found_records _ _ pages); [lia|done|lia]. }
  exists m', ok. split; [done|]. split; [by apply step_change|]. split; [right; by exists k, T'|]. cbn [effect]. exists D. split_and!; try done.
  - destruct ok; [unfold zlen; lia|]. intros _. destruct Hres as [_ Hn]. rewrite Z.add_0_l in Hn.
    destruct (decide (page_of m a (v + zlen D * PAGE_SIZE) = 0)) as [?|Hne]; [by left|right]. intros Hu. apply Hn. split; [done|].
    by rewrite <- (core_page _ _ _ _ _ _ _ Hc Hu).
  - intros w Hw'. rewrite (core_page _ _ _ _ _ _ _ Hc' Hw'), Hp, (core_page _ _ _ _ _ _ _ Hc Hw') by done. by rewrite Z.mul_0_l, Z.add_0_r.
Qed.

Lemma world_counts m a : world m -> zlen (anonymous_frames (spaces m a)) = 128 /\ 0 <= anonymous_count (spaces m a) <= 128.
Proof.
  intros Hw. destruct (world_space m Hw a) as [Hd|(k & T & Hc)].
  - destruct (dorm_counts _ _ Hd). destruct (dorm_lengths _ _ Hd). lia.
  - apply (acc_anonymous _ _ _ (core_acc _ _ _ _ _ _ _ Hc)).
Qed.

Lemma world_cloneable m a source : world m -> source <> a -> cloneable m a source (anonymous (spaces m source)).
Proof.
  intros Hw Hne. pose proof (world_counts m source Hw) as [Hl Hn]. split; [done|done|lia|]. intros e He.
  assert (physical_address e ∈ footprint (spaces m source)) as Hin by (apply elem_of_app; right; by apply list_elem_of_fmap_2).
  split; [by eapply world_taken|]. intros Ho. apply (world_apart m Hw source a _ Hne Hin), elem_of_app. by left.
Qed.

Lemma clone_live m cpu a k T source created :
  world m -> core m a k T [] [] -> source <> a -> anonymous_count (spaces m a) + anonymous_count (spaces m source) <= 128 ->
  clone_result statics cpu m a k (anonymous (spaces m a)) (anonymous (spaces m source)) (page_of m a) created
    (clone_loop (Z.to_nat (anonymous_count (spaces m source))) cpu m a source (anonymous_count (spaces m a)) created 0).
Proof.
  intros Hw Hc Hne Hn. destruct (world_counts m a Hw) as [Hla Hna]. destruct (world_counts m source Hw) as [Hls Hns].
  rewrite <- (anonymous_length (spaces m a)) by lia. change 0 with (@zlen anonymous_t []).
  apply (clone_loop_spec statics _ cpu m a source _ k T); try done.
  - by apply world_cloneable.
  - pose proof (anonymous_length (spaces m source) ltac:(lia)) as Hl. unfold zlen in Hl. cbn. lia.
  - by rewrite app_nil_r.
  - lia.
  - intros w Hw'. rewrite with_pages_out by apply not_elem_of_nil. by rewrite (core_page _ _ _ _ _ _ _ Hc Hw').
  - split; [constructor|]. intros e He. by apply not_elem_of_nil in He.
Qed.

Lemma serve_clone_live m cpu a k T source :
  world m -> core m a k T [] [] -> source <> a -> anonymous_count (spaces m a) + anonymous_count (spaces m source) <= 128 ->
  served m (Clone cpu a source)
    (clone_loop (Z.to_nat (anonymous_count (spaces m source))) cpu m a source (anonymous_count (spaces m a)) false 0).
Proof.
  intros Hw Hc Hne Hn. destruct (clone_live m cpu a k T source false Hw Hc Hne Hn) as (m' & T' & ok & -> & Hc' & Hst & Hres).
  exists m', ok. split; [by destruct ok|]. split; [by apply step_change|]. split; [right; by exists k, T'|]. cbn [effect]. destruct ok.
  - destruct Hres as (N & Ha & HN & Hcl & Hp). exists N. split_and!; try done. by eapply holds_core.
  - destruct Hres as [Ha Hp]. by eapply holds_core.
Qed.

Lemma holds_dormant m a : dormant m a -> holds m a (fun _ => 0) [].
Proof. intros Hd. split; [intros w _; by apply dormant_page|]. unfold anonymous. by rewrite (proj2 (dorm_counts _ _ Hd)). Qed.

Lemma serve_clone_dormant m cpu a source :
  world m -> dormant m a -> source <> a -> root (spaces m source) <> 0 ->
  served m (Clone cpu a source) (
    let '(ok, m1) := address_space_create statics m a in
    if negb ok then (false, m1)
    else clone_loop (Z.to_nat (anonymous_count (spaces m1 source))) cpu m1 a source (anonymous_count (spaces m1 a)) ok 0).
Proof.
  intros Hw Hd Hne Hr. pose proof Hw as [W1 W2 W3 W4]. destruct (holds_dormant m a Hd) as [Hpa Hra].
  assert (forall m', holds m' a (fun _ => 0) [] -> holds m' a (page_of m a) (anonymous (spaces m a))) as Hnone.
  { intros m' [Hp Ha]. split; [intros w Hw'; by rewrite Hp, Hpa|by rewrite Hra]. }
  destruct (create_spec statics m a W1 W2 Hd) as (m1 & ok & -> & Hst1 & Hres1). destruct ok; cbn [negb].
  2:{ destruct Hres1 as [Hd1 _]. exists m1, false. split; [done|]. split; [by apply step_change|]. split; [by left|]. cbn [effect]. by apply Hnone, holds_dormant. }
  destruct Hres1 as (Ha & Han1 & k & T & Hc1 & Hp1).
  destruct (world_change m a m1 Hw (step_change _ _ _ Hst1)) as (Hw1 & Hun & _); [right; by exists k, T|].
  destruct (Hun source Hne) as (Es & _). destruct (world_counts m1 a Hw1) as [Hla Hna]. destruct (world_counts m1 source Hw1) as [Hls Hns].
  pose proof (anonymous_length (spaces m1 a) ltac:(lia)) as Hl. rewrite Han1 in Hl. change (zlen []) with 0 in Hl.
  destruct (clone_live m1 cpu a k T source true Hw1 Hc1 Hne ltac:(lia)) as (m2 & T2 & ok & -> & Hc2 & Hst2 & Hres).
  pose proof (step_trans _ _ _ _ _ _ _ Hst1 Hst2) as Hst. rewrite Han1 in Hres. destruct ok.
  - destruct Hres as (N & Ha2 & HN & Hcl & Hp). exists m2, true. split; [done|]. split; [by apply step_change|]. split; [right; by exists k, T2|].
    cbn [effect]. exists N. assert (forall w, user_page w -> page_of m1 a w = page_of m a w) as Hbase.
    { intros w Hw'. by rewrite (core_page _ _ _ _ _ _ _ Hc1 Hw'), Hp1, Hpa. }
    split_and!; [|by rewrite <- Es|].
    + destruct HN as [HN1 HN2]. split; [done|]. intros e He. destruct (HN2 e He) as [Hu Hz]. by rewrite <- Hbase.
    + eapply holds_core; [done| |by rewrite Ha2, Hra]. intros w Hw'. rewrite Hp by done. by apply with_pages_ext, Hbase.
  - destruct Hres as [Ha2 Hp]. assert (holds m2 a (fun _ => 0) []) as Hh.
    { eapply holds_core; [done| |done]. intros w Hw'. by rewrite Hp, (core_page _ _ _ _ _ _ _ Hc1 Hw'), Hp1. }
    destruct (destroy_spec statics cpu m2 a k T2 Hc2) as (m3 & ok3 & E3 & Hst3 & _ & Hres3). rewrite E3. exists m3, false. split; [done|].
    split; [by eapply step_change, step_trans|]. cbn [snd effect subject]. destruct ok3.
    + split; [by left|]. by apply Hnone, holds_dormant.
    + subst m3. split; [right; by exists k, T2|]. by apply Hnone.
Qed.

Lemma serve_clone m cpu a source :
  world m -> admissible m (Clone cpu a source) -> served m (Clone cpu a source) (run m (Clone cpu a source)).
Proof.
  intros Hw Hn. cbn [admissible] in Hn. unfold ADDRESS_SPACE_MAX_ANONYMOUS_PAGES in Hn. pose proof Hw as [W1 W2 W3 W4].
  cbn [run]. unfold address_space_clone_anonymous. case_if as Eb.
  { apply (refused m _ m a); try done. }
  rewrite !orb_false_iff in Eb. destruct Eb as [[[[E1 E2] E3] E4] E5]. destruct (W3 a) as [Hd|(k & T & Hc)].
  - rewrite (dorm_root _ _ Hd). cbn [Z.eqb].
    pose proof (serve_clone_dormant m cpu a source Hw Hd ltac:(lia) ltac:(lia)) as Hs. by destruct (address_space_create statics m a) as [ok m1].
  - pose proof (core_root _ _ _ _ _ _ _ Hc) as Hr. replace (root (spaces m a) =? 0) with false by lia. cbn [negb].
    by apply (serve_clone_live m cpu a k T); [..|lia|].
Qed.

Lemma serve_activation m r : world m -> (exists cpu a, r = Activate cpu a) \/ (exists cpu, r = ActivateKernel cpu) -> served m r (run m r).
Proof.
  intros Hw Hr. pose proof Hw as [W1 W2 W3 W4].
  assert (forall ok m', phys m' = phys m -> spaces m' = spaces m ->
    kernel_root m' = kernel_root m /\ heap_page_table_active m' = heap_page_table_active m -> effect m r ok m' -> served m r (ok, m')) as Hserve.
  { intros ok m' Ep Es Hk He. exists m', ok. split; [done|]. split; [|split; [|done]].
    - split; [rewrite Es; by apply (moved_phys m _ m); [apply moved_refl|..]|split; [intros b Hb; by rewrite Es|done]].
    - destruct (W3 (subject r)) as [[D1 D2 D3]|(k & T & Hc)]; [left; by split; rewrite Es|right; exists k, T]. apply (core_phys statics m); try done.
      by rewrite Es. }
  destruct Hr as [(cpu & a & ->)|(cpu & ->)]; cbn [run].
  - unfold address_space_activate. case_if as E; by apply Hserve.
  - unfold address_space_activate_kernel. by apply Hserve.
Qed.

Lemma serve m r : world m -> admissible m r -> served m r (run m r).
Proof.
  intros Hw Ha. destruct r.
  - by apply serve_create.
  - by apply serve_destroy.
  - by apply serve_map_page.
  - by apply serve_unmap_page.
  - by apply serve_update_flags.
  - by apply serve_protect.
  - by apply serve_map_anonymous.
  - by apply serve_unmap_anonymous.
  - by apply serve_clone.
  - apply serve_activation; [done|]. left. by eexists _, _.
  - apply serve_activation; [done|]. right. by eexists.
Qed.

(** ** User memory *)

Definition page_base (x : Z) : Z := x - x mod 4096.
Definition access (writable : bool) : Z := Z.lor (Z.lor PAGE_PRESENT PAGE_USER) (if writable then PAGE_WRITABLE else 0).

Lemma has_weaken e b c : has e (Z.lor b c) = true -> has e b = true.
Proof.
  unfold has. rewrite !Z.eqb_eq. intros E. apply Z.bits_inj'. intros n _. apply (f_equal (fun z => Z.testbit z n)) in E.
  rewrite !Z.land_spec, Z.lor_spec in *. by destruct (Z.testbit e n), (Z.testbit b n), (Z.testbit c n).
Qed.

(** The tables above the entry of a page are open to the user. *)
Definition user_tables m a (v : Z) : bool :=
  match walk (Z.lor PAGE_PRESENT PAGE_USER) m (root (spaces m a)) v with Some _ => true | None => false end.

(** A page that the loop accepts has an entry with the rights asked for. *)
Lemma user_page_spec m a v writable :
  root (spaces m a) <> 0 ->
  user_page_valid m (root (spaces m a)) v writable = user_tables m a v && has (page_of m a v) (access writable).
Proof.
  intros Hr. unfold user_page_valid, user_tables, walk, page_of, page_entry. replace (root (spaces m a) =? 0) with false by lia. cbn [negb snd].
  destruct (has (entry m _ (index v 39)) (Z.lor _ _)) eqn:E3; cbn [negb]; [|done]. apply has_weaken in E3. rewrite E3.
  destruct (has (entry m _ (index v 30)) (Z.lor _ _)) eqn:E2; cbn [negb]; [|done]. apply has_weaken in E2. rewrite E2.
  destruct (has (entry m _ (index v 21)) (Z.lor _ _)) eqn:E1; cbn [negb]; [|done]. apply has_weaken in E1. by rewrite E1.
Qed.

Lemma user_range_loop_spec n m r page last writable :
  page mod 4096 = 0 -> last = page + Z.of_nat n * 4096 -> 0 <= page -> last < 2 ^ 64 ->
  exists b, user_range_loop (S n) m r page last writable = Some b /\
    (b = true <-> forall j, 0 <= j <= Z.of_nat n -> user_page_valid m r (page + j * 4096) writable = true).
Proof.
  revert page. induction n as [|n IH]; intros page Hm Hl Hpos Hmax; change (user_range_loop (S ?k)) with
    (fun m r page last writable => if negb (user_page_valid m r page writable) then Some false else if page =? last then Some true
       else user_range_loop k m r (u64 (page + PAGE_SIZE)) last writable); cbv beta.
  - destruct (user_page_valid m r page writable) eqn:Ev; cbn [negb].
    + replace (page =? last) with true by lia. exists true. split; [done|]. split; [|done]. intros _ j Hj.
      by replace (page + j * 4096) with page by lia.
    + exists false. split; [done|]. split; [done|]. intros Hall. specialize (Hall 0 ltac:(lia)). rewrite Z.mul_0_l, Z.add_0_r in Hall. congruence.
  - destruct (user_page_valid m r page writable) eqn:Ev; cbn [negb].
    + replace (page =? last) with false by lia. unfold PAGE_SIZE. rewrite (wrap_small 64) by (widths; lia).
      destruct (IH (page + 4096) ltac:(zlia) ltac:(lia) ltac:(lia) Hmax) as (b & -> & Hb). exists b. split; [done|]. rewrite Hb. split.
      * intros Hall j Hj. destruct (decide (j = 0)) as [-> |]; [by rewrite Z.mul_0_l, Z.add_0_r|].
        replace (page + j * 4096) with (page + 4096 + (j - 1) * 4096) by lia. apply Hall. lia.
      * intros Hall j Hj. replace (page + 4096 + j * 4096) with (page + (j + 1) * 4096) by lia. apply Hall. lia.
    + exists false. split; [done|]. split; [done|]. intros Hall. specialize (Hall 0 ltac:(lia)). rewrite Z.mul_0_l, Z.add_0_r in Hall. congruence.
Qed.

Definition in_range (address size x : Z) : Prop := address <= x < address + size.

(** The validation stops, and accepts a range exactly when it lies in the user half and each
    of its bytes is in a page whose entries all give the rights. *)
Lemma range_valid_spec m a address size writable :
  is_u64 address -> is_u64 size ->
  exists b, address_space_user_range_valid m a address size writable = Some b /\
    (b = true <-> a <> 0 /\ root (spaces m a) <> 0 /\ 0 < size /\ 2 ^ 39 <= address /\ address + size <= 2 ^ 48 /\
       forall x, in_range address size x -> user_tables m a (page_base x) = true /\ has (page_of m a (page_base x)) (access writable) = true).
Proof.
  intros Ha Hs. unfold address_space_user_range_valid. change (Z.shiftl 1 39) with 549755813888. change (Z.shiftl 1 48) with 281474976710656.
  change (2 ^ 39) with 549755813888. change (2 ^ 48) with 281474976710656. unfold in_width in Ha, Hs. set (r := root (spaces m a)). case_if as Eb.
  { exists false. split; [done|]. split; [done|]. intros (? & ? & ? & ? & ? & _). lia. }
  rewrite !orb_false_iff in Eb. destruct Eb as [[[[[E1 E2] E3] E4] E5] E6].
  rewrite (wrap_small 64) by (widths; lia). rewrite !table_address_spec by (widths; lia). fold (page_base address).
  set (l := address + size - 1). fold (page_base l). set (n := Z.to_nat ((page_base l - page_base address) / 4096)).
  assert (0 <= (page_base l - page_base address) / 4096 /\ page_base l = page_base address + (page_base l - page_base address) / 4096 * 4096) as [Hn Hl]
    by (unfold page_base, l; zlia).
  unfold PAGE_SIZE. replace (Z.to_nat ((page_base l - page_base address) / 4096 + 1)) with (S n) by lia.
  destruct (user_range_loop_spec n m r (page_base address) (page_base l) writable) as (b & -> & Hb);
    [unfold page_base; zlia|lia|unfold page_base; zlia|unfold page_base, l; zlia|].
  exists b. split; [done|]. rewrite Hb. unfold in_range. split.
  - intros Hall. split_and!; try lia. intros x Hx. rewrite <- andb_true_iff, <- user_page_spec by lia. fold r. specialize (Hall ((page_base x - page_base address) / 4096)).
    replace (page_base address + (page_base x - page_base address) / 4096 * 4096) with (page_base x) in Hall by (unfold page_base; zlia).
    apply Hall. unfold n, page_base, l. zlia.
  - intros (_ & _ & _ & _ & _ & Hall) j Hj. specialize (Hall (Z.max address (page_base address + j * 4096))).
    replace (page_base address + j * 4096) with (page_base (Z.max address (page_base address + j * 4096))).
    + unfold r. rewrite user_page_spec by lia. apply andb_true_iff, Hall. unfold n, page_base, l in *. zlia.
    + unfold page_base. zlia.
Qed.

(** ** Copies to and from user memory *)

Lemma copy_to_spec (mem : Z -> Z) destination (bytes : list Z) size :
  0 <= size -> 0 <= destination -> destination + size <= 2 ^ 48 ->
  forall x, for_z 0 size (fun i mem => fupd mem (u64 (destination + i)) (bytes.[i])) mem x =
    if (destination <=? x) && (x <? destination + size) then bytes.[x - destination] else mem x.
Proof.
  intros Hs Hd Hm x. apply (for_z_ind (fun k mem' => mem' x = if (destination <=? x) && (x <? destination + k) then bytes.[x - destination] else mem x)); [lia| |].
  - by replace (_ && _) with false by lia.
  - intros i mem' Hi IH. rewrite (wrap_small 64) by (widths; lia). unfold fupd. rewrite IH. destruct (x =? destination + i) eqn:E.
    + replace (_ && _) with true by lia. do 2 f_equal. lia.
    + replace (x <? destination + (i + 1)) with (x <? destination + i) by lia. done.
Qed.

Lemma copy_from_spec (load : Z -> Z) source (out : list Z) size :
  0 <= size <= zlen out -> 0 <= source -> source + size <= 2 ^ 48 ->
  let out' := for_z 0 size (fun i out => out.[i <- load (u64 (source + i))]) out in
  zlen out' = zlen out /\ forall i, 0 <= i < zlen out -> out'.[i] = if i <? size then load (source + i) else out.[i].
Proof.
  intros Hs Hd Hm. cbv zeta. apply (for_z_ind (fun k out' => zlen out' = zlen out /\
    forall i, 0 <= i < zlen out -> out'.[i] = if i <? k then load (source + i) else out.[i])); [lia| |].
  - split; [done|]. intros i Hi. by replace (i <? 0) with false by lia.
  - intros k out' Hk [Hl IH]. rewrite zlen_set. split; [done|]. intros i Hi. rewrite (wrap_small 64) by (widths; lia).
    destruct (decide (i = k)) as [-> |Hne].
    + rewrite arr_get_eq by lia. by replace (k <? k + 1) with true by lia.
    + rewrite arr_get_ne by lia. rewrite IH by done. by replace (i <? k + 1) with (i <? k) by lia.
Qed.

(** ** Histories *)

Fixpoint run_all m (rs : list request) : vm_t P :=
  match rs with [] => m | r :: rs => run_all (snd (run m r)) rs end.

Fixpoint admissible_all m (rs : list request) : Prop :=
  match rs with [] => True | r :: rs => admissible m r /\ admissible_all (snd (run m r)) rs end.

Lemma untouched_trans m1 m2 m3 b : untouched m1 m2 b -> untouched m2 m3 b -> untouched m1 m3 b.
Proof.
  intros (E1 & P1 & F1) (E2 & P2 & F2). split_and!; [congruence| |].
  - intros v Hv. by rewrite P2, P1.
  - intros f Hf x Hx. rewrite E1 in F2. by rewrite (F2 f Hf x Hx), (F1 f Hf x Hx).
Qed.

Lemma run_world m r : world m -> admissible m r ->
  let m' := snd (run m r) in
  world m' /\ (forall b, b <> subject r -> untouched m m' b) /\
  forall f, (foreign m' f <-> foreign m f) /\ (foreign m f -> same_frame m m' f).
Proof.
  intros Hw Ha. destruct (serve m r Hw Ha) as (m' & ok & -> & Hch & Hsub & _). by apply world_change.
Qed.



(** C18. The validation of a user range always comes to an end.  It accepts a range exactly when
    it is not empty, lies in the user half, and each of its bytes is in a page whose tables
    are open to the user and whose entry is present, for the user, and writable when that is
    asked for. *)
Theorem user_range_exact m a address size writable :
  is_u64 address -> is_u64 size ->
  exists b, address_space_user_range_valid m a address size writable = Some b /\
    (b = true <-> a <> 0 /\ root (spaces m a) <> 0 /\ 0 < size /\ 2 ^ 39 <= address /\ address + size <= 2 ^ 48 /\
       forall x, in_range address size x -> user_tables m a (page_base x) = true /\ has (page_of m a (page_base x)) (access writable) = true).
Proof. apply range_valid_spec. Qed.

(** C21. A copy to the user writes exactly the bytes asked for, all of them in writable pages of
    the space that is active, or nothing at all. *)
Theorem copy_to_user_confined mem cpu m destination bytes size :
  is_u64 destination -> is_u64 size ->
  exists ok mem', address_space_copy_to_user mem cpu m destination bytes size = Some (ok, mem') /\
    if ok then forall x, (in_range destination size x ->
        bytes <> None /\ mem' x = (default [] bytes).[x - destination] /\
        has (page_of m (address_space_active cpu m) (page_base x)) (access true) = true) /\
      (~ in_range destination size x -> mem' x = mem x)
    else mem' = mem.
Proof.
  intros Hd Hs. unfold address_space_copy_to_user. destruct (size =? 0) eqn:E0.
  { exists true, mem. split; [done|]. intros x. unfold in_range. split; [lia|done]. }
  destruct bytes as [bytes|]; [|by exists false, mem].
  destruct (range_valid_spec m (address_space_active cpu m) destination size true Hd Hs) as (b & -> & Hb). cbn [mbind option_bind].
  eexists b, _. split; [done|]. destruct b; [|done]. destruct (proj1 Hb eq_refl) as (Hn & Hr & Hs1 & Hlo & Hhi & Hall). intros x.
  rewrite copy_to_spec by lia. split; intros Hx.
  - split_and!; [done| |by apply Hall]. unfold in_range in Hx. by replace (_ && _) with true by lia.
  - unfold in_range in Hx. by replace (_ && _) with false by lia.
Qed.

(** A copy from the user fills the buffer with the bytes of readable pages of the space that
    is active, or leaves it alone. *)
Theorem copy_from_user_confined load cpu m out source size :
  is_u64 source -> is_u64 size -> size <= zlen out ->
  exists ok out', address_space_copy_from_user load cpu m (Some out) source size = Some (ok, Some out') /\ zlen out' = zlen out /\
    if ok then forall i, 0 <= i < zlen out ->
      if i <? size then out'.[i] = load (source + i) /\
        has (page_of m (address_space_active cpu m) (page_base (source + i))) (access false) = true
      else out'.[i] = out.[i]
    else out' = out.
Proof.
  intros Hd Hs Hl. unfold address_space_copy_from_user. destruct (size =? 0) eqn:E0.
  { exists true, out. split; [done|]. split; [done|]. intros i Hi. by replace (i <? size) with false by lia. }
  destruct (range_valid_spec m (address_space_active cpu m) source size false Hd Hs) as (b & -> & Hb). cbn [mbind option_bind].
  eexists b, _. split; [done|]. destruct b; [|done]. destruct (proj1 Hb eq_refl) as (Hn & Hr & Hs1 & Hlo & Hhi & Hall).
  destruct (copy_from_spec load source out size) as [Hlen Hget]; [lia|lia|done|]. split; [done|]. intros i Hi. rewrite Hget by done.
  destruct (i <? size) eqn:Ei; [|done]. split; [done|]. apply Hall. unfold in_range. lia.
Qed.

(** ** Protection and clones *)

Lemma with_pages_in N f e : NoDup (virtual_address <$> N) -> e ∈ N -> with_pages N f (virtual_address e) = new_pte (physical_address e) (flags e).
Proof.
  unfold with_pages. induction N as [|e' N IH]; intros Hnd He; [by apply not_elem_of_nil in He|]. cbn in Hnd. apply NoDup_cons in Hnd as [Hn Hnd].
  cbn [List.find]. destruct (virtual_address e' =? virtual_address e) eqn:E.
  - apply elem_of_cons in He as [-> |He]; [done|]. exfalso. apply Hn. replace (virtual_address e') with (virtual_address e) by lia.
    by apply list_elem_of_fmap_2.
  - apply elem_of_cons in He as [-> |He]; [lia|]. by apply IH.
Qed.

Lemma has_bit e n : 0 <= n -> has e (2 ^ n) = Z.testbit e n.
Proof.
  intros Hn. unfold has. assert (Z.land e (2 ^ n) = if Z.testbit e n then 2 ^ n else 0) as ->.
  { apply Z.bits_inj'. intros i Hi. rewrite Z.land_spec. destruct (decide (i = n)) as [-> |Hne].
    - rewrite Z.pow2_bits_true by lia. destruct (Z.testbit e n); by rewrite ?Z.pow2_bits_true, ?Z.bits_0 by lia.
    - rewrite Z.pow2_bits_false, andb_false_r by lia. by destruct (Z.testbit e n); rewrite ?Z.pow2_bits_false, ?Z.bits_0 by lia. }
  destruct (Z.testbit e n); [apply Z.eqb_refl|]. apply Z.eqb_neq. pose proof (Z.pow_pos_nonneg 2 n). lia.
Qed.

Lemma has_writable e : has e PAGE_WRITABLE = Z.testbit e 1.
Proof. by apply (has_bit e 1). Qed.

Lemma protected_read_only e : has (protected e (Z.lor 0 ADDRESS_SPACE_USER)) PAGE_WRITABLE = false.
Proof.
  rewrite has_writable. unfold protected.
  change (Z.land (Z.lor 0 ADDRESS_SPACE_USER) ADDRESS_SPACE_WRITABLE =? 0) with true.
  change (Z.land (Z.lor 0 ADDRESS_SPACE_USER) ADDRESS_SPACE_EXECUTABLE =? 0) with true. cbv iota zeta.
  rewrite !Z.lor_spec, Z.land_spec. by rewrite andb_false_r.
Qed.

Lemma new_pte_writable f fl : Z.testbit fl 1 = true -> has (new_pte f fl) PAGE_WRITABLE = true.
Proof.
  intros Hb. rewrite has_writable. unfold new_pte. case_if as E; rewrite !Z.lor_spec, Hb; by rewrite ?orb_true_r.
Qed.

(** C32. A clone maps the flags recorded when a page was mapped, and a change of the protection
    does not record anything: after a writable page has been made read-only, the same page of
    a clone is writable again. *)
Theorem clone_forgets_protection m cpu a b v :
  let m1 := snd (run m (MapAnonymous cpu a v 1 ADDRESS_SPACE_WRITABLE)) in
  let m2 := snd (run m1 (ProtectRange cpu a v 1 0)) in
  let m3 := snd (run m2 (Clone cpu b a)) in
  world m -> b <> a -> fst (run m (MapAnonymous cpu a v 1 ADDRESS_SPACE_WRITABLE)) = true ->
  fst (run m1 (ProtectRange cpu a v 1 0)) = true -> admissible m2 (Clone cpu b a) -> fst (run m2 (Clone cpu b a)) = true ->
  has (page_of m3 a v) PAGE_WRITABLE = false /\ has (page_of m3 b v) PAGE_WRITABLE = true.
Proof.
  intros m1 m2 m3 Hw Hba Ok1 Ok2 Had Ok3.
  pose proof (serve m (MapAnonymous cpu a v 1 ADDRESS_SPACE_WRITABLE) Hw ltac:(done)) as (m1' & ok1 & E1 & _ & _ & He1).
  destruct (run_world m (MapAnonymous cpu a v 1 ADDRESS_SPACE_WRITABLE) Hw ltac:(done)) as (Hw1 & _). fold m1 in Hw1.
  assert (m1' = m1 /\ ok1 = true) as [-> ->] by (unfold m1; rewrite E1 in *; done).
  pose proof (serve m1 (ProtectRange cpu a v 1 0) Hw1 ltac:(done)) as (m2' & ok2 & E2 & _ & _ & He2).
  destruct (run_world m1 (ProtectRange cpu a v 1 0) Hw1 ltac:(done)) as (Hw2 & _). fold m2 in Hw2.
  assert (m2' = m2 /\ ok2 = true) as [-> ->] by (unfold m2; rewrite E2 in *; done).
  pose proof (serve m2 (Clone cpu b a) Hw2 Had) as (m3' & ok3 & E3 & _ & _ & He3).
  destruct (run_world m2 (Clone cpu b a) Hw2 Had) as (_ & Hun & _). fold m3 in Hun.
  assert (m3' = m3 /\ ok3 = true) as [-> ->] by (unfold m3; rewrite E3 in *; done).
  cbn [effect] in He1, He2, He3. clear E1 E2 E3 Ok1 Ok2 Ok3. clearbody m1 m2 m3.
  destruct He1 as (N & Hl & Hf & _ & _ & Hr1). destruct N as [|e [|? ?]]; [done| |unfold zlen in Hl; cbn in Hl; lia].
  destruct (Hf 0%nat e eq_refl) as (Ev & Hu & _ & Efl & _). rewrite Z.mul_0_l, Z.add_0_r in Ev. rewrite Ev in Hu.
  destruct He2 as [_ [Hp2 Hr2]]. destruct He3 as (N' & [Hnd _] & Hcl & Hp3 & _). split.
  - destruct (Hun a (not_eq_sym Hba)) as (_ & Hsame & _). rewrite Hsame, Hp2 by done. cbn [andb].
    unfold in_pages, PAGE_SIZE. replace (_ && _) with true by lia. apply protected_read_only.
  - rewrite Hr2, Hr1 in Hcl. apply Forall2_app_inv_l in Hcl as (N1 & N2 & _ & Hcl & ->).
    apply Forall2_cons_inv_l in Hcl as (e' & N3 & (Ev' & Efl' & _) & _ & ->). rewrite Hp3 by done.
    replace v with (virtual_address e') by congruence. rewrite (with_pages_in _ _ e' Hnd) by set_solver.
    apply new_pte_writable. by rewrite Efl', Efl.
Qed.

End proofs.

(** ** The frame allocator provides the frames *)

Definition set_memory (p : Frame.phys_t) (mem : Z -> Z) : Frame.phys_t :=
  {| Frame.frame_bitmap := Frame.frame_bitmap p; Frame.allocated_bitmap := Frame.allocated_bitmap p;
     Frame.stats := Frame.stats p; Frame.memory := mem |}.

#[export] Instance frame_frames : Frames Frame.phys_t := {
  physical_alloc_frame := Frame.physical_alloc_frame;
  physical_free_frame p f := Frame.physical_free_frame f p;
  word p a := Frame.memory p a;
  store p a v := set_memory p (fupd (Frame.memory p) a v);
}.

(** The addresses of the frames that can be handed out: those above 1 MiB. *)
Definition frame_address (f : Z) : bool := (f mod 4096 =? 0) && (1048576 <=? f) && (f <? 4294967296).
Definition frame_taken (p : Frame.phys_t) (f : Z) : bool :=
  frame_address f && Frame.frame_is_allocated (Frame.allocated_bitmap p) (f / 4096).
Definition frame_spare (p : Frame.phys_t) (f : Z) : bool :=
  frame_address f && Frame.frame_is_free (Frame.frame_bitmap p) (f / 4096).
Definition frame_reserved (p : Frame.phys_t) (f : Z) : bool :=
  frame_address f && negb (Frame.frame_is_allocated (Frame.allocated_bitmap p) (f / 4096))
  && negb (Frame.frame_is_free (Frame.frame_bitmap p) (f / 4096)).

Lemma frame_number f g : frame_address f = true -> frame_address g = true -> Frame.in_run (f / 4096) 1 (g / 4096) = (g =? f).
Proof. unfold frame_address, Frame.in_run. intros. zlia. Qed.

Lemma frame_alloc_law p :
  Frame.frame_ok p ->
  let '(f, p') := Frame.physical_alloc_frame p in
  Frame.frame_ok p' /\ ((f = 0 /\ p' = p /\ forall g, frame_spare p g = false) \/
    ((forall g, frame_spare p' g = frame_spare p g && negb (g =? f)) /\ frame_taken p f = false /\ frame_reserved p f = false /\
     (forall g, frame_taken p' g = frame_taken p g || (g =? f)) /\ (forall g, frame_reserved p' g = frame_reserved p g) /\
     forall a, Frame.memory p' a = if in_frame f a && (a mod 8 =? 0) then 0 else Frame.memory p a)).
Proof.
  intros Hok. pose proof (Frame.alloc_frames_correct p 1 Hok ltac:(done)) as Ha. unfold Frame.physical_alloc_frame.
  destruct (Frame.physical_alloc_frames 1 p) as [f p']. destruct Ha as [Hok' Ha]. split; [done|].
  destruct Ha as [(-> & -> & [?|Hno])|(n & Hn & Hmax & -> & Hrun & _ & [Hcl Hmem] & _)]; [done| |].
  - left. split_and!; try done. intros g. unfold frame_spare. destruct (frame_address g) eqn:Eg; [|done]. cbn [andb].
    apply not_true_iff_false. intros Hf. unfold frame_address in Eg. apply (Hno (g / 4096)); [zlia|unfold Frame.MAX_FRAMES; zlia|].
    intros i Hi. replace (g / 4096 + i) with (g / 4096) by lia. done.
  - right. unfold Frame.FRAME_SIZE, Frame.MAX_FRAMES in *. pose proof (Hrun 0 ltac:(lia)) as Hfree. rewrite Z.add_0_r in Hfree.
    assert (frame_address (n * 4096) = true) as Hfa by (unfold frame_address; zlia).
    assert (n * 4096 / 4096 = n) as Hdiv by zlia.
    assert (Frame.frame_is_allocated (Frame.allocated_bitmap p) n = false) as Hna.
    { apply not_true_iff_false. intros Hal. rewrite (Frame.ok_disjoint p Hok n) in Hfree; [done|unfold Frame.MAX_FRAMES; lia|done]. }
    assert (forall g, frame_address g = true -> Frame.in_run n 1 (g / 4096) = (g =? n * 4096)) as Hin.
    { intros g Hg. pose proof (frame_number (n * 4096) g Hfa Hg) as E. by rewrite Hdiv in E. }
    unfold frame_spare, frame_taken, frame_reserved. rewrite Hfa, Hdiv, Hna, Hfree. split_and!; try done.
    + intros g. destruct (frame_address g) eqn:Eg; [|done]. cbn [andb].
      destruct (Hcl (g / 4096) ltac:(unfold frame_address in Eg; zlia)) as [-> _]. by rewrite Hin.
    + intros g. destruct (frame_address g) eqn:Eg; cbn [andb orb]; [|symmetry; apply Z.eqb_neq; intros ->; congruence].
      destruct (Hcl (g / 4096) ltac:(unfold frame_address in Eg; zlia)) as [_ ->]. by rewrite Hin.
    + intros g. destruct (frame_address g) eqn:Eg; cbn [andb]; [|done].
      destruct (Hcl (g / 4096) ltac:(unfold frame_address in Eg; zlia)) as [-> ->]. rewrite !Hin by done.
      destruct (g =? n * 4096) eqn:En; [|by rewrite orb_false_r, andb_true_r]. replace (g / 4096) with n by zlia. by rewrite Hna, Hfree.
    + intros a. rewrite Hmem. unfold in_frame. replace ((n + 1) * 4096) with (n * 4096 + 4096) by lia. done.
Qed.

Lemma frame_free_law p f :
  Frame.frame_ok p -> frame_taken p f = true ->
  let p' := Frame.physical_free_frame f p in
  Frame.frame_ok p' /\ (forall g, frame_taken p' g = frame_taken p g && negb (g =? f)) /\
  (forall g, frame_spare p' g = frame_spare p g || (g =? f)) /\ (forall g, frame_reserved p' g = frame_reserved p g) /\
  forall a, Frame.memory p' a = Frame.memory p a.
Proof.
  intros Hok Ht p'. unfold frame_taken in Ht. apply andb_true_iff in Ht as [Hfa Hal].
  assert (f mod 4096 = 0 /\ 1048576 <= f < 4294967296) as Hf by (unfold frame_address in Hfa; lia).
  destruct (Frame.free_frames_correct p f 1 Hok) as (Hok' & Hrel & _); [widths; lia|done|]. fold (Frame.physical_free_frame f p) in Hok', Hrel.
  fold p' in Hok', Hrel. destruct Hrel as [Hrel Hmem]; [unfold Frame.free_request_valid, Frame.FRAME_SIZE, Frame.MAX_FRAMES; zlia|].
  unfold Frame.FRAME_SIZE in Hrel. clearbody p'. split; [done|]. unfold frame_spare, frame_taken, frame_reserved. split_and!.
  - intros g. destruct (frame_address g) eqn:Eg; [|done]. cbn [andb].
    destruct (Hrel (g / 4096) ltac:(unfold frame_address in Eg; zlia)) as [_ ->]. by rewrite frame_number.
  - intros g. destruct (frame_address g) eqn:Eg; cbn [andb orb]; [|symmetry; apply Z.eqb_neq; intros ->; congruence].
    destruct (Hrel (g / 4096) ltac:(unfold frame_address in Eg; zlia)) as [-> _]. rewrite frame_number by done.
    destruct (g =? f) eqn:En; [|done]. replace g with f by lia. by rewrite Hal.
  - intros g. destruct (frame_address g) eqn:Eg; [|done]. cbn [andb].
    destruct (Hrel (g / 4096) ltac:(unfold frame_address in Eg; zlia)) as [-> ->]. rewrite frame_number by done.
    destruct (g =? f) eqn:En; [replace g with f by lia; by rewrite Hal, orb_true_r, andb_false_r|]. by rewrite andb_true_r, orb_false_r.
  - intros a. by rewrite Hmem.
Qed.

#[export] Program Instance frame_frames_laws : FramesLaws Frame.phys_t := {
  frames_ok := Frame.frame_ok;
  taken := frame_taken;
  spare := frame_spare;
  reserved := frame_reserved;
  alloc_law := frame_alloc_law;
  free_law := frame_free_law;
}.
Next Obligation. unfold frame_taken, frame_address. lia. Qed.
Next Obligation. unfold frame_taken, frame_reserved. intros p f [-> ->]%andb_true_iff. done. Qed.
Next Obligation.
  intros p a v Hok. split_and!; try done. by destruct Hok as [B1 B2 B3 B4 B5 B6].
Qed.

(** ** Examples *)

(** A machine with 128 free frames from 2 MiB on and no space in use; [free] is its counter
    of free frames. *)
Definition example_bitmap : list Z := replicate 64 255 ++ replicate 16 0 ++ replicate (Z.to_nat 130992) 255.
Definition example_phys (free : Z) : Frame.phys_t :=
  {| Frame.frame_bitmap := example_bitmap; Frame.allocated_bitmap := replicate (Z.to_nat 131072) 0;
     Frame.stats := {| Frame.total_frames := 1048576; Frame.free_frames := free; Frame.reserved_frames := 1048576 - free |};
     Frame.memory := fun _ => 0 |}.
Definition example_statics : statics_t :=
  {| pml4 := 4194304; pdpt := 4198400; page_directories d := 4202496 + d * 4096; heap_page_tables t := 4218880 + t * 4096 |}.
Definition unused_space : address_space_t :=
  {| root := 0; owned_frames := replicate 32 0; owned_count := 0; anonymous_frames := replicate 128 inhabitant; anonymous_count := 0 |}.
Definition example_vm (free : Z) : vm_t Frame.phys_t :=
  {| phys := example_phys free; heap_page_table_active := false; kernel_root := 4194304; active_roots := replicate 64 4194304;
     active_spaces := replicate 64 0; spaces := fun _ => unused_space; efer := 0; calls := [] |}.

Lemma example_phys_ok : Frame.frame_ok (example_phys (Frame.free_count example_bitmap)).
Proof.
  split; unfold example_phys; cbn [Frame.frame_bitmap Frame.allocated_bitmap Frame.stats Frame.total_frames Frame.free_frames Frame.reserved_frames].
  - unfold zlen, example_bitmap, Frame.BITMAP_BYTES. rewrite !length_app, !length_replicate. lia.
  - unfold zlen, Frame.BITMAP_BYTES. rewrite length_replicate. lia.
  - intros f Hf. unfold Frame.frame_is_allocated. unfold Frame.MAX_FRAMES in Hf.
    rewrite lookup_total_replicate_2; [done|]. rewrite Z.shiftr_div_pow2 by lia. change (2 ^ 3) with 8. zlia.
  - reflexivity.
  - reflexivity.
  - reflexivity.
Qed.

Lemma example_reserved free : reserved (example_phys free) 4198400 = true.
Proof. vm_compute. reflexivity. Qed.

Lemma example_world : world example_statics (example_vm (Frame.free_count example_bitmap)).
Proof.
  split.
  - exact example_phys_ok.
  - split; [apply example_reserved|done].
  - intros a. left. by split.
  - intros a b f _ Hf. by apply not_elem_of_nil in Hf.
Qed.

(** Space 1 is created, gets a page and is cloned to space 2. *)
Definition example_calls : list request :=
  [Create 1; MapAnonymous None 1 (2 ^ 39) 1 ADDRESS_SPACE_WRITABLE; ProtectRange None 1 (2 ^ 39) 1 0; Clone None 2 1].

Lemma example_admissible free : admissible_all example_statics (example_vm free) example_calls.
Proof. vm_compute. split_and!; done. Qed.



(** The page of the example is valid for reading and writing before it is protected. *)
Definition mapped_vm : vm_t Frame.phys_t :=
  run_all example_statics (example_vm 128) [Create 1; MapAnonymous None 1 (2 ^ 39) 1 ADDRESS_SPACE_WRITABLE; Activate None 1].

Lemma user_range_exact_witness :
  address_space_user_range_valid mapped_vm 1 (2 ^ 39 + 5) 100 true = Some true /\
  exists b, address_space_user_range_valid mapped_vm 1 (2 ^ 39 + 4000) 100 true = Some b.
Proof.
  split; [vm_compute; reflexivity|].
  destruct (user_range_exact mapped_vm 1 (2 ^ 39 + 4000) 100 true ltac:(done) ltac:(done)) as (b & Hb & _). exists b. exact Hb.
Defined.

Lemma copy_to_user_confined_witness : exists ok mem',
  address_space_copy_to_user (fun _ => 7) None mapped_vm (2 ^ 39 + 5) (Some [1; 2; 3]) 3 = Some (ok, mem').
Proof.
  destruct (copy_to_user_confined (fun _ => 7) None mapped_vm (2 ^ 39 + 5) (Some [1; 2; 3]) 3 ltac:(done) ltac:(done)) as (ok & mem' & E & _).
  exists ok, mem'. exact E.
Defined.

Lemma copy_from_user_confined_witness : exists ok out,
  address_space_copy_from_user (fun x => x mod 256) None mapped_vm (Some [0; 0; 0]) (2 ^ 39 + 5) 3 = Some (ok, Some out).
Proof.
  destruct (copy_from_user_confined (fun x => x mod 256) None mapped_vm [0; 0; 0] (2 ^ 39 + 5) 3 ltac:(done) ltac:(done) ltac:(done))
    as (ok & out & E & _). exists ok, out. exact E.
Defined.

Lemma example_created free :
  let m := snd (run example_statics (example_vm free) (Create 1)) in
  let m1 := snd (run example_statics m (MapAnonymous None 1 (2 ^ 39) 1 ADDRESS_SPACE_WRITABLE)) in
  let m2 := snd (run example_statics m1 (ProtectRange None 1 (2 ^ 39) 1 0)) in
  fst (run example_statics m (MapAnonymous None 1 (2 ^ 39) 1 ADDRESS_SPACE_WRITABLE)) = true /\
  fst (run example_statics m1 (ProtectRange None 1 (2 ^ 39) 1 0)) = true /\
  admissible m2 (Clone None 2 1) /\ fst (run example_statics m2 (Clone None 2 1)) = true.
Proof. vm_compute. split_and!; done. Qed.

Lemma clone_forgets_protection_witness : exists m, has (page_of m 2 (2 ^ 39)) PAGE_WRITABLE = true.
Proof.
  destruct (example_created (Frame.free_count example_bitmap)) as (Ok1 & Ok2 & Had & Ok3).
  destruct (run_world example_statics _ (Create 1) example_world I) as (Hw & _).
  eexists. exact (proj2 (clone_forgets_protection example_statics _ None 1 2 (2 ^ 39) Hw ltac:(done) Ok1 Ok2 Had Ok3)).
Defined.

End Spaces.
