(* ===== verification/KernelMap.v ===== *)
(** * The kernel's mapping (kernel/mm/virtual/address_space.c)

    What the static tables map: the first 4 GiB to themselves in large pages, and the window
    of the kernel heap page by page.  [translate] is the descent of the processor through the
    tables; the theorems say what it finds after the functions that fill them, and that every
    address space shares it. *)

From S2P Require Import Prelude Frame AddressSpace Spaces.

Module KernelMap.

Import AddressSpace.AddressSpace Spaces.Spaces.

Section proofs.
Context {P : Type} `{FramesLaws P} (statics : statics_t).
Implicit Types (m : vm_t P) (v : Z).

(** The address bits of an entry, for a page and for a large page. *)
Definition page_frame (e : Z) : Z := e mod 2 ^ 52 - e mod 4096.
Definition huge_frame (e : Z) : Z := e mod 2 ^ 52 - e mod HUGE_PAGE_SIZE.

(** The processor's translation of [v] with the tables of [r]. *)
Definition translate m (r v : Z) : option Z :=
  let e4 := entry m r (index v 39) in
  if negb (has e4 PAGE_PRESENT) then None else
  let e3 := entry m (page_frame e4) (index v 30) in
  if negb (has e3 PAGE_PRESENT) then None else
  let e2 := entry m (page_frame e3) (index v 21) in
  if negb (has e2 PAGE_PRESENT) then None else
  if has e2 PAGE_HUGE then Some (huge_frame e2 + v mod HUGE_PAGE_SIZE) else
  let e1 := entry m (page_frame e2) (index v 12) in
  if has e1 PAGE_PRESENT then Some (page_frame e1 + v mod 4096) else None.

(** Where the static tables are: aligned, below 4 GiB, all different. *)
Definition static_tables : list Z :=
  pml4 statics :: pdpt statics :: (page_directories statics <$> seqZ 0 4) ++ (heap_page_tables statics <$> seqZ 0 8).

Record statics_ok : Prop := {
  statics_aligned t : t ∈ static_tables -> t mod 4096 = 0 /\ 0 <= t < 2 ^ 32;
  statics_distinct : NoDup static_tables;
}.

Lemma static_directory d : 0 <= d < 4 -> page_directories statics d ∈ static_tables.
Proof. intros Hd. do 2 right. apply elem_of_app. left. apply list_elem_of_fmap_2, elem_of_seqZ. lia. Qed.

Lemma static_heap t : 0 <= t < 8 -> heap_page_tables statics t ∈ static_tables.
Proof. intros Hd. do 2 right. apply elem_of_app. right. apply list_elem_of_fmap_2, elem_of_seqZ. lia. Qed.

Lemma NoDup_fmap_seqZ (f : Z -> Z) n i j : NoDup (f <$> seqZ 0 n) -> 0 <= i < n -> 0 <= j < n -> f i = f j -> i = j.
Proof.
  intros Hd Hi Hj E. assert (forall k, 0 <= k < n -> (f <$> seqZ 0 n) !! Z.to_nat k = Some (f k)) as Hl.
  { intros k Hk. rewrite list_lookup_fmap, (proj2 (lookup_seqZ 0 n (Z.to_nat k) k)) by lia. done. }
  pose proof (NoDup_lookup _ (Z.to_nat i) (Z.to_nat j) (f i) Hd (Hl i Hi)) as Hinj. rewrite E in Hinj. specialize (Hinj (Hl j Hj)). lia.
Qed.

(** The tables differ, so that an equality of their addresses is one of their names. *)
Lemma statics_apart : statics_ok ->
  pml4 statics <> pdpt statics /\
  (forall d, 0 <= d < 4 -> page_directories statics d <> pml4 statics /\ page_directories statics d <> pdpt statics) /\
  (forall t, 0 <= t < 8 -> heap_page_tables statics t <> pml4 statics /\ heap_page_tables statics t <> pdpt statics /\
     forall d, 0 <= d < 4 -> page_directories statics d <> heap_page_tables statics t) /\
  (forall d d', 0 <= d < 4 -> 0 <= d' < 4 -> page_directories statics d = page_directories statics d' -> d = d') /\
  (forall t t', 0 <= t < 8 -> 0 <= t' < 8 -> heap_page_tables statics t = heap_page_tables statics t' -> t = t').
Proof.
  intros [_ Hd]. unfold static_tables in Hd. apply NoDup_cons in Hd as [N1 Hd]. apply NoDup_cons in Hd as [N2 Hd].
  apply NoDup_app in Hd as (D1 & D2 & D3).
  assert (forall d, 0 <= d < 4 -> page_directories statics d ∈ page_directories statics <$> seqZ 0 4) as I1
    by (intros; apply list_elem_of_fmap_2, elem_of_seqZ; lia).
  assert (forall t, 0 <= t < 8 -> heap_page_tables statics t ∈ heap_page_tables statics <$> seqZ 0 8) as I2
    by (intros; apply list_elem_of_fmap_2, elem_of_seqZ; lia).
  split_and!.
  - intros E. apply N1. rewrite E. constructor.
  - intros d Hr. split; intros E; [apply N1|apply N2]; rewrite <- E; [right|]; apply elem_of_app; left; by apply I1.
  - intros t Hr. split_and!; [intros E; apply N1; rewrite <- E; right; apply elem_of_app; right; by apply I2|
      intros E; apply N2; rewrite <- E; apply elem_of_app; right; by apply I2|].
    intros d Hr' E. apply (D2 (page_directories statics d)); [by apply I1|]. rewrite E. by apply I2.
  - intros d d' Hr Hr' E. apply (NoDup_fmap_seqZ (page_directories statics) 4); done.
  - intros t t' Hr Hr' E. apply (NoDup_fmap_seqZ (heap_page_tables statics) 8); done.
Qed.

(** ** What the tables hold *)

Definition window_page v : Z := (v - HEAP_BASE) / 4096.
Definition in_window v : bool := (HEAP_BASE <=? v) && (v <? HEAP_BASE + HEAP_PAGE_COUNT * PAGE_SIZE).

(** Entry [i] of the directory [d] maps a large page to itself, with some flags. *)
Definition large_entry (d i e : Z) : Prop := exists low,
  0 <= low < 4096 /\ e = (d * 512 + i) * HUGE_PAGE_SIZE + low /\ Z.testbit low 0 = true /\ Z.testbit low 7 = true.

(** [heap] are the entries of the pages of the window, once they are in use. *)
Record kernel_map m (heap : Z -> Z) : Prop := {
  km_ok : frames_ok (phys m);
  km_root : kernel_root m = pml4 statics;
  km_pml4 i : 0 <= i < 512 -> entry m (pml4 statics) i = if i =? 0 then pdpt statics + 3 else 0;
  km_pdpt i : 0 <= i < 512 -> entry m (pdpt statics) i = if i <? 4 then page_directories statics i + 3 else 0;
  km_large d i : 0 <= d < 4 -> 0 <= i < 512 -> heap_page_table_active m = false \/ ~ (d = 1 /\ i < 8) ->
    large_entry d i (entry m (page_directories statics d) i);
  km_window i : heap_page_table_active m = true -> 0 <= i < 8 -> entry m (page_directories statics 1) i = heap_page_tables statics i + 3;
  km_heap p : heap_page_table_active m = true -> 0 <= p < 4096 -> entry m (heap_page_tables statics (p / 512)) (p mod 512) = heap p;
}.

Lemma odd_bit e : Z.odd e = Z.testbit e 0.
Proof. by rewrite Z.bit0_odd. Qed.

Lemma bit_low c low n : c mod 4096 = 0 -> 0 <= low < 4096 -> 0 <= n < 12 -> Z.testbit (c + low) n = Z.testbit low n.
Proof. intros Hc Hl Hn. rewrite <- lor_low by lia. rewrite Z.lor_spec. replace c with (c / 4096 * 2 ^ 12) by (change (2 ^ 12) with 4096; zlia).
  by rewrite Z.mul_pow2_bits_low by lia.
Qed.

(** A link to a table. *)
Lemma link_next c : c mod 4096 = 0 -> 0 <= c < 2 ^ 32 ->
  has (c + 3) PAGE_PRESENT = true /\ has (c + 3) PAGE_HUGE = false /\ page_frame (c + 3) = c.
Proof.
  intros Hc Hr. rewrite has_present, odd_bit. change PAGE_HUGE with (2 ^ 7). rewrite (has_bit _ 7), !bit_low by lia.
  split_and!; [done|done|]. unfold page_frame. change (2 ^ 32) with 4294967296 in Hr. change (2 ^ 52) with 4503599627370496. zlia.
Qed.

Lemma large_next d i e v :
  large_entry d i e -> 0 <= d < 4 -> 0 <= i < 512 -> d * 512 + i = v / HUGE_PAGE_SIZE ->
  has e PAGE_PRESENT = true /\ has e PAGE_HUGE = true /\ huge_frame e + v mod HUGE_PAGE_SIZE = v.
Proof.
  intros (low & Hl & -> & B0 & B7) Hd Hi Hv. rewrite has_present, odd_bit. change PAGE_HUGE with (2 ^ 7). rewrite (has_bit _ 7) by lia.
  assert (((d * 512 + i) * HUGE_PAGE_SIZE) mod 4096 = 0) as Hm by (unfold HUGE_PAGE_SIZE; zlia). rewrite !bit_low by (done || lia).
  split_and!; [done|done|]. unfold huge_frame, HUGE_PAGE_SIZE in *. change (2 ^ 52) with 4503599627370496. zlia.
Qed.

(** The indices of an address of the kernel half. *)
Lemma kernel_indices v : 0 <= v < 2 ^ 48 ->
  index v 39 = v / 2 ^ 39 /\ index v 30 = v / 2 ^ 30 mod 512 /\ index v 21 = v / 2 ^ 21 mod 512 /\ index v 12 = v / 2 ^ 12 mod 512.
Proof.
  intros Hv. rewrite !index_spec by lia. split_and!; try done. change (2 ^ 48) with 281474976710656 in Hv.
  change (2 ^ 39) with 549755813888. zlia.
Qed.

(** What the processor finds: the heap's pages in the window once it is in use, everything
    else below 4 GiB at its own address, nothing above. *)
Definition kernel_image m (heap : Z -> Z) v : option Z :=
  if heap_page_table_active m && in_window v then
    if has (heap (window_page v)) PAGE_PRESENT then Some (page_frame (heap (window_page v)) + v mod 4096) else None
  else if v <? 2 ^ 32 then Some v else None.

Lemma translate_image m heap v : statics_ok -> kernel_map m heap -> 0 <= v < 2 ^ 48 -> translate m (pml4 statics) v = kernel_image m heap v.
Proof.
  intros [Hal _] [K1 K2 K3 K4 K5 K6 K7] Hv. destruct (kernel_indices v Hv) as (I4 & I3 & I2 & I1). unfold translate, kernel_image, in_window, window_page.
  change (2 ^ 48) with 281474976710656 in Hv. change (2 ^ 39) with 549755813888 in *. change (2 ^ 30) with 1073741824 in *.
  change (2 ^ 21) with 2097152 in *. change (2 ^ 12) with 4096 in *. change (2 ^ 32) with 4294967296 in *.
  unfold HEAP_BASE, HEAP_PAGE_COUNT, PAGE_SIZE in *.
  assert (forall t, t ∈ static_tables -> t mod 4096 = 0 /\ 0 <= t < 2 ^ 32) as Hal' by exact Hal.
  rewrite K3 by (rewrite I4; zlia). rewrite I4. destruct (v / 549755813888 =? 0) eqn:E4.
  2:{ change (has 0 PAGE_PRESENT) with false. cbn [negb]. replace (1073741824 <=? v) with true by zlia.
      replace (v <? 1073741824 + 4096 * 4096) with false by zlia. rewrite andb_false_r. by replace (v <? 4294967296) with false by zlia. }
  destruct (link_next (pdpt statics)) as (-> & _ & ->); [apply Hal; right; constructor..|]. cbn [negb].
  rewrite K4 by (rewrite I3; zlia). rewrite I3. replace (v / 1073741824 mod 512) with (v / 1073741824) by zlia.
  destruct (v / 1073741824 <? 4) eqn:E3.
  2:{ change (has 0 PAGE_PRESENT) with false. cbn [negb]. replace (v <? 1073741824 + 4096 * 4096) with false by zlia.
      rewrite !andb_false_r. by replace (v <? 4294967296) with false by zlia. }
  set (d := v / 1073741824) in *. assert (0 <= d < 4) as Hd by (unfold d in *; zlia).
  destruct (link_next (page_directories statics d)) as (-> & _ & ->); [apply Hal, static_directory; lia..|]. cbn [negb]. rewrite I2.
  set (i := v / 2097152 mod 512). assert (0 <= i < 512) as Hi by (unfold i; zlia).
  assert (v <? 4294967296 = true) as -> by (unfold d in *; zlia).
  destruct (heap_page_table_active m && ((1073741824 <=? v) && (v <? 1073741824 + 4096 * 4096))) eqn:Ew.
  - assert (heap_page_table_active m = true) as Hact by lia. assert (d = 1 /\ 0 <= i < 8) as [-> Hi8] by (unfold d, i in *; zlia).
    rewrite K6 by done. destruct (link_next (heap_page_tables statics i)) as (-> & -> & ->); [apply Hal, static_heap; lia..|]. cbn [negb]. rewrite I1.
    rewrite <- (K7 ((v - 1073741824) / 4096)) by (done || zlia). replace ((v - 1073741824) / 4096 / 512) with i by (unfold i; zlia).
    replace ((v - 1073741824) / 4096 mod 512) with (v / 4096 mod 512) by zlia. done.
  - destruct (large_next d i (entry m (page_directories statics d) i) v) as (-> & -> & ->); try done; [|unfold d, i, HUGE_PAGE_SIZE; zlia].
    apply K5; [done|done|]. destruct (heap_page_table_active m); [|by left]. right. intros [Hd1 Hi8]. unfold d, i in *. zlia.
Qed.

(** ** Writing static tables *)

(** [m'] is [m] with other words in the tables [L]. *)
Record wrote m (L : list Z) m' : Prop := {
  wr_ok : frames_ok (phys m');
  wr_taken f : taken (phys m') f = taken (phys m) f;
  wr_reserved f : reserved (phys m') f = reserved (phys m) f;
  wr_words f : f mod 4096 = 0 -> f ∉ L -> same_frame m m' f;
  wr_spaces : spaces m' = spaces m;
}.

Lemma wrote_refl m L : frames_ok (phys m) -> wrote m L m.
Proof. intros Hok. by split. Qed.

Lemma wrote_trans m1 m2 m3 L : wrote m1 L m2 -> wrote m2 L m3 -> wrote m1 L m3.
Proof.
  intros [A1 A2 A3 A4 A5] [B1 B2 B3 B4 B5]. split; [done|intros; by rewrite B2|intros; by rewrite B3| |congruence].
  intros f Hf Hn x Hx. by rewrite (B4 f Hf Hn x Hx), (A4 f Hf Hn x Hx).
Qed.

Lemma set_entry_wrote m t i v L : frames_ok (phys m) -> t mod 4096 = 0 -> 0 <= i < 512 -> t ∈ L -> wrote m L (set_entry m t i v).
Proof.
  intros Hok Ht Hi HL. destruct (store_law (phys m) (t + 8 * i) v Hok) as (S0 & S1 & _ & S3 & S4).
  split; [done|done|done| |done]. intros f Hf Hn x Hx. change (word (store (phys m) (t + 8 * i) v) x = word (phys m) x). rewrite S4.
  replace (x =? t + 8 * i) with false; [done|]. symmetry. apply Z.eqb_neq. intros ->. assert (f = t) as ->; [|done].
  apply (frames_apart f t (t + 8 * i)); try done. unfold in_frame. lia.
Qed.

(** The first [n] entries of a table. *)
Lemma fill_words m t n (val : Z -> Z) L :
  frames_ok (phys m) -> t mod 4096 = 0 -> 0 <= n <= 512 -> t ∈ L ->
  let m' := for_z 0 n (fun i m => set_entry m t i (val i)) m in
  m' = m<| phys := phys m' |> /\ wrote m L m' /\
  forall t' j, t' mod 4096 = 0 -> 0 <= j < 512 -> entry m' t' j = if (t' =? t) && (j <? n) then val j else entry m t' j.
Proof.
  intros Hok Ht Hn HL. cbv zeta. apply (for_z_ind (fun k m' => m' = m<| phys := phys m' |> /\ wrote m L m' /\
    forall t' j, t' mod 4096 = 0 -> 0 <= j < 512 -> entry m' t' j = if (t' =? t) && (j <? k) then val j else entry m t' j)); [lia| |].
  - split_and!; [by destruct m|by apply wrote_refl|]. intros t' j Ht' Hj. replace (j <? 0) with false by lia. by rewrite andb_false_r.
  - intros i m' Hi (I1 & I2 & I3). split_and!; [by rewrite I1|eapply wrote_trans; [exact I2|apply set_entry_wrote; [apply I2|done|lia|done]]|].
    intros t' j Ht' Hj. rewrite set_entry_spec by (apply I2 || done || lia). rewrite I3 by done.
    destruct (t' =? t); cbn [andb]; [|done]. destruct (j =? i) eqn:E; [replace j with i by lia; by replace (i <? i + 1) with true by lia|].
    by replace (j <? i + 1) with (j <? i) by lia.
Qed.

(** ** virtual_memory_initialize *)

Lemma lor_link c : c mod 4096 = 0 -> Z.lor (Z.lor c PAGE_PRESENT) PAGE_WRITABLE = c + 3.
Proof. intros Hc. rewrite <- Z.lor_assoc. change (Z.lor PAGE_PRESENT PAGE_WRITABLE) with 3. apply lor_low; lia. Qed.

Definition large_page (d i : Z) : Z := (d * 512 + i) * HUGE_PAGE_SIZE + 0x83.

Lemma lor_large d i : Z.lor (Z.lor (Z.lor ((d * 512 + i) * HUGE_PAGE_SIZE) PAGE_PRESENT) PAGE_WRITABLE) PAGE_HUGE = large_page d i.
Proof.
  rewrite <- !Z.lor_assoc. change (Z.lor PAGE_PRESENT (Z.lor PAGE_WRITABLE PAGE_HUGE)) with 0x83. apply lor_low; [|lia].
  unfold HUGE_PAGE_SIZE. zlia.
Qed.

Lemma large_page_entry d i : large_entry d i (large_page d i).
Proof. exists 0x83. by split_and!. Qed.

Section tables.
Hypothesis (Hst : statics_ok).

Lemma static_aligned t : t ∈ static_tables -> t mod 4096 = 0.
Proof. intros Ht. by apply (statics_aligned Hst). Qed.

Lemma clear_table_spec m t :
  frames_ok (phys m) -> t ∈ static_tables ->
  clear_table m t = m<| phys := phys (clear_table m t) |> /\ wrote m static_tables (clear_table m t) /\
  forall t' j, t' mod 4096 = 0 -> 0 <= j < 512 -> entry (clear_table m t) t' j = if t' =? t then 0 else entry m t' j.
Proof.
  intros Hok Ht. destruct (fill_words m t 512 (fun _ => 0) static_tables Hok (static_aligned t Ht) ltac:(lia) Ht) as (C1 & C2 & C3).
  split_and!; [done|done|]. intros t' j Ht' Hj. unfold clear_table. rewrite C3 by done. replace (j <? 512) with true by lia. by rewrite andb_true_r.
Qed.

Lemma identity_directory_spec d m :
  0 <= d < 4 -> frames_ok (phys m) ->
  let m' := identity_directory statics d m in
  m' = m<| phys := phys m' |> /\ wrote m static_tables m' /\
  forall t j, t mod 4096 = 0 -> 0 <= j < 512 -> entry m' t j =
    if t =? page_directories statics d then large_page d j
    else if (t =? pdpt statics) && (j =? d) then page_directories statics d + 3 else entry m t j.
Proof.
  intros Hd Hok. unfold identity_directory. pose proof (static_directory d Hd) as Hpd. pose proof (static_aligned _ Hpd) as Hal.
  assert (pdpt statics ∈ static_tables) as Hpt by (right; constructor). pose proof (static_aligned _ Hpt) as Halp.
  destruct (clear_table_spec m (page_directories statics d) Hok Hpd) as (C1 & C2 & C3).
  generalize dependent (clear_table m (page_directories statics d)). intros m1 C1 C2 C3. cbv zeta.
  set (m2 := set_entry m1 (pdpt statics) d _).
  assert (wrote m1 static_tables m2) as W2 by (apply set_entry_wrote; [apply C2|done|lia|done]).
  assert (m2 = m1<| phys := phys m2 |>) as E2 by by destruct m1.
  assert (forall t j, t mod 4096 = 0 -> 0 <= j < 512 -> entry m2 t j =
    if (t =? pdpt statics) && (j =? d) then page_directories statics d + 3 else entry m1 t j) as V2.
  { intros t j Ht Hj. unfold m2. rewrite set_entry_spec, lor_link by (apply C2 || done || lia). done. }
  clearbody m2. destruct (fill_words m2 (page_directories statics d) 512
    (fun i => Z.lor (Z.lor (Z.lor ((d * 512 + i) * HUGE_PAGE_SIZE) PAGE_PRESENT) PAGE_WRITABLE) PAGE_HUGE) static_tables) as (D1 & D2 & D3);
    [apply W2|done|lia|done|].
  split_and!; [by rewrite D1, E2, C1|eapply wrote_trans; [exact C2|by eapply wrote_trans]|].
  intros t j Ht Hj. rewrite D3, lor_large, V2, C3 by done. replace (j <? 512) with true by lia. rewrite andb_true_r.
  by destruct (t =? page_directories statics d).
Qed.

Lemma directories_spec m :
  frames_ok (phys m) ->
  let m' := for_z 0 4 (identity_directory statics) m in
  m' = m<| phys := phys m' |> /\ wrote m static_tables m' /\
  (forall i, 0 <= i < 512 -> entry m' (pml4 statics) i = entry m (pml4 statics) i) /\
  (forall i, 0 <= i < 512 -> entry m' (pdpt statics) i = if i <? 4 then page_directories statics i + 3 else entry m (pdpt statics) i) /\
  forall d i, 0 <= d < 4 -> 0 <= i < 512 -> entry m' (page_directories statics d) i = large_page d i.
Proof.
  intros Hok. cbv zeta. destruct (statics_apart Hst) as (N1 & N2 & _ & N4 & _).
  assert (forall t, t ∈ static_tables -> t mod 4096 = 0) as Hal by apply static_aligned.
  apply (for_z_ind (fun k m' => m' = m<| phys := phys m' |> /\ wrote m static_tables m' /\
    (forall i, 0 <= i < 512 -> entry m' (pml4 statics) i = entry m (pml4 statics) i) /\
    (forall i, 0 <= i < 512 -> entry m' (pdpt statics) i = if i <? k then page_directories statics i + 3 else entry m (pdpt statics) i) /\
    forall d i, 0 <= d < k -> 0 <= i < 512 -> entry m' (page_directories statics d) i = large_page d i)); [lia| |].
  { split_and!; [by destruct m|by apply wrote_refl|done| |lia]. intros i Hi. by replace (i <? 0) with false by lia. }
  intros k m1 Hk (I1 & I2 & I3 & I4 & I5). destruct (identity_directory_spec k m1 Hk) as (D1 & D2 & D3); [apply I2|].
  assert (pml4 statics mod 4096 = 0) as A4 by (apply Hal; constructor). assert (pdpt statics mod 4096 = 0) as A3 by (apply Hal; right; constructor).
  generalize dependent (identity_directory statics k m1). intros m2 D1 D2 D3. destruct (N2 k Hk) as [N2a N2b]. split_and!; [by rewrite D1, I1|by eapply wrote_trans|..].
  - intros i Hi. rewrite D3 by done. replace (pml4 statics =? page_directories statics k) with false by lia.
    replace (pml4 statics =? pdpt statics) with false by lia. by apply I3.
  - intros i Hi. rewrite D3 by done. replace (pdpt statics =? page_directories statics k) with false by lia.
    rewrite Z.eqb_refl, I4 by done. cbn [andb]. destruct (i =? k) eqn:E; [replace i with k by lia; by replace (k <? k + 1) with true by lia|].
    by replace (i <? k + 1) with (i <? k) by lia.
  - intros d i Hd Hi. rewrite D3 by (done || apply Hal, static_directory; lia). destruct (page_directories statics d =? page_directories statics k) eqn:E.
    + rewrite (N4 d k) by lia. done.
    + destruct (decide (d = k)) as [-> |]; [lia|]. destruct (N2 d) as [_ N]; [lia|].
      replace (page_directories statics d =? pdpt statics) with false by lia. apply I5; lia.
Qed.

Lemma paging_spec m :
  frames_ok (phys m) -> heap_page_table_active m = false ->
  exists m', virtual_memory_initialize statics m = (true, m') /\ kernel_map m' (fun _ => 0) /\ heap_page_table_active m' = false /\
    wrote m static_tables m' /\ calls m' = calls m ++ [LoadRoot (pml4 statics)].
Proof.
  intros Hok Hact. unfold virtual_memory_initialize. set (m0 := m<| efer := _ |>).
  assert (pml4 statics ∈ static_tables) as H4 by constructor. assert (pdpt statics ∈ static_tables) as H3 by (right; constructor).
  destruct (statics_apart Hst) as (N1 & N2 & _). assert (forall t, t ∈ static_tables -> t mod 4096 = 0) as Hal by apply static_aligned.
  destruct (clear_table_spec m0 (pml4 statics) Hok H4) as (C1 & C2 & C3). generalize dependent (clear_table m0 (pml4 statics)). intros m1 C1 C2 C3.
  destruct (clear_table_spec m1 (pdpt statics) (wr_ok _ _ _ C2) H3) as (D1 & D2 & D3). generalize dependent (clear_table m1 (pdpt statics)). intros m2 D1 D2 D3.
  destruct (directories_spec m2 (wr_ok _ _ _ D2)) as (E1 & E2 & E3 & E4 & E5). generalize dependent (for_z 0 4 (identity_directory statics) m2).
  intros m3 E1 E2 E3 E4 E5. set (m4 := set_entry m3 (pml4 statics) 0 _).
  assert (wrote m3 static_tables m4) as F2 by (apply set_entry_wrote; [apply E2|by apply Hal|lia|done]).
  assert (forall t j, t mod 4096 = 0 -> 0 <= j < 512 -> entry m4 t j = if (t =? pml4 statics) && (j =? 0) then pdpt statics + 3 else entry m3 t j) as F3.
  { intros t j Ht Hj. unfold m4. by rewrite set_entry_spec, lor_link by (done || lia || by apply Hal || apply E2). }
  assert (wrote m static_tables m4) as W by (eapply wrote_trans; [|exact F2]; eapply wrote_trans; [|exact E2]; eapply wrote_trans; [|exact D2];
    destruct C2 as [G1 G2 G3 G4 G5]; by split).
  assert (heap_page_table_active m4 = false) as Hact4 by (change (heap_page_table_active m3 = false); by rewrite E1, D1, C1).
  assert (calls m4 = calls m) as Hcalls by (change (calls m3 = calls m); by rewrite E1, D1, C1).
  clearbody m4. eexists. split; [done|]. split_and!; [|done|by destruct W; split|by cbn; rewrite Hcalls]. split; try done.
  - apply W.
  - intros i Hi. change (entry m4 (pml4 statics) i = if i =? 0 then pdpt statics + 3 else 0). rewrite F3 by (done || by apply Hal). rewrite Z.eqb_refl.
    cbn [andb]. case_if as E; [done|]. rewrite E3, D3, C3 by (done || by apply Hal). replace (pml4 statics =? pdpt statics) with false by lia. by rewrite Z.eqb_refl.
  - intros i Hi. change (entry m4 (pdpt statics) i = if i <? 4 then page_directories statics i + 3 else 0). rewrite F3 by (done || by apply Hal).
    replace (pdpt statics =? pml4 statics) with false by lia. cbn [andb]. rewrite E4, D3 by (done || by apply Hal). by rewrite Z.eqb_refl.
  - intros d i Hd Hi _. change (large_entry d i (entry m4 (page_directories statics d) i)). destruct (N2 d Hd) as [Nd _].
    rewrite F3 by (done || by apply Hal, static_directory). replace (page_directories statics d =? pml4 statics) with false by lia. cbn [andb].
    rewrite E5 by done. apply large_page_entry.
  - intros i Ha. change (heap_page_table_active m4 = true) in Ha. congruence.
  - intros q Ha. change (heap_page_table_active m4 = true) in Ha. congruence.
Qed.

(** ** virtual_memory_map_page *)

Lemma clear_heap_spec m :
  frames_ok (phys m) ->
  let m' := for_z 0 8 (fun table m => clear_table m (heap_page_tables statics table)) m in
  m' = m<| phys := phys m' |> /\ wrote m static_tables m' /\
  (forall t i, t mod 4096 = 0 -> (forall k, 0 <= k < 8 -> t <> heap_page_tables statics k) -> 0 <= i < 512 -> entry m' t i = entry m t i) /\
  forall k i, 0 <= k < 8 -> 0 <= i < 512 -> entry m' (heap_page_tables statics k) i = 0.
Proof.
  intros Hok. cbv zeta. destruct (statics_apart Hst) as (_ & _ & _ & _ & N5).
  apply (for_z_ind (fun n m' => m' = m<| phys := phys m' |> /\ wrote m static_tables m' /\
    (forall t i, t mod 4096 = 0 -> (forall k, 0 <= k < 8 -> t <> heap_page_tables statics k) -> 0 <= i < 512 -> entry m' t i = entry m t i) /\
    forall k i, 0 <= k < n -> 0 <= i < 512 -> entry m' (heap_page_tables statics k) i = 0)); [lia| |].
  { split_and!; [by destruct m|by apply wrote_refl|done|lia]. }
  intros n m1 Hn (I1 & I2 & I3 & I4). destruct (clear_table_spec m1 (heap_page_tables statics n)) as (C1 & C2 & C3); [apply I2|by apply static_heap|].
  generalize dependent (clear_table m1 (heap_page_tables statics n)). intros m2 C1 C2 C3. split_and!; [by rewrite C1, I1|by eapply wrote_trans|..].
  - intros t i Ht Hne Hi. rewrite C3 by done. pose proof (Hne n Hn). replace (t =? heap_page_tables statics n) with false by lia. by apply I3.
  - intros k i Hk Hi. rewrite C3 by (done || apply static_aligned, static_heap; lia). case_if as E; [done|]. apply I4; [|done].
    destruct (decide (k = n)) as [-> |]; lia.
Qed.

Lemma activate_spec m heap :
  kernel_map m heap ->
  let m' := activate_heap_tables statics m in
  kernel_map m' (if heap_page_table_active m then heap else fun _ => 0) /\ heap_page_table_active m' = true /\ wrote m static_tables m' /\
  active_roots m' = active_roots m /\ active_spaces m' = active_spaces m /\ calls m' = calls m.
Proof.
  intros K. pose proof K as [K1 K2 K3 K4 K5 K6 K7]. cbv zeta. unfold activate_heap_tables. destruct (heap_page_table_active m) eqn:Ha.
  { by split_and!. }
  destruct (statics_apart Hst) as (N1 & N2 & N3 & N4 & N5). assert (forall t, t ∈ static_tables -> t mod 4096 = 0) as Hal by apply static_aligned.
  assert (pml4 statics mod 4096 = 0) as A4 by (apply Hal; constructor). assert (pdpt statics mod 4096 = 0) as A3 by (apply Hal; right; constructor).
  assert (forall d, 0 <= d < 4 -> page_directories statics d mod 4096 = 0) as A2 by (intros; by apply Hal, static_directory).
  assert (forall k, 0 <= k < 8 -> heap_page_tables statics k mod 4096 = 0) as A1 by (intros; by apply Hal, static_heap).
  change HEAP_PAGE_TABLE_COUNT with 8. destruct (clear_heap_spec m K1) as (C1 & C2 & C3 & C4).
  generalize dependent (for_z 0 8 (fun table m => clear_table m (heap_page_tables statics table)) m). intros m1 C1 C2 C3 C4.
  destruct (fill_words m1 (page_directories statics 1) 8 (fun k => Z.lor (Z.lor (heap_page_tables statics k) PAGE_PRESENT) PAGE_WRITABLE) static_tables)
    as (D1 & D2 & D3); [apply C2|apply A2; lia|lia|by apply static_directory|].
  generalize dependent (for_z 0 8 (fun k m => set_entry m (page_directories statics 1) k (Z.lor (Z.lor (heap_page_tables statics k) PAGE_PRESENT) PAGE_WRITABLE)) m1).
  intros m2 D1 D2 D3. pose proof (N2 1 ltac:(lia)) as [M1 M2].
  split_and!; [|done|by eapply wrote_trans; [exact C2|]; destruct D2; split|cbn; by rewrite D1, C1..].
  assert (forall t i, entry (m2<| heap_page_table_active := true |>) t i = entry m2 t i) as Ee by done. split; rewrite ?Ee.
  - apply D2.
  - cbn. by rewrite D1, C1.
  - intros i Hi. rewrite Ee, D3 by done. replace (pml4 statics =? page_directories statics 1) with false by lia. cbn [andb].
    rewrite C3; [by apply K3|done| |done]. intros k Hk. by destruct (N3 k Hk).
  - intros i Hi. rewrite Ee, D3 by done. replace (pdpt statics =? page_directories statics 1) with false by lia. cbn [andb].
    rewrite C3; [by apply K4|done| |done]. intros k Hk. by destruct (N3 k Hk) as (_ & ? & _).
  - intros d i Hd Hi [Hf|Hn]; [done|]. rewrite Ee, D3 by (done || by apply A2).
    replace ((page_directories statics d =? page_directories statics 1) && (i <? 8)) with false.
    + rewrite C3; [apply K5; by auto|by apply A2| |done]. intros k Hk. by apply N3.
    + symmetry. apply andb_false_iff. destruct (decide (d = 1)) as [-> |Hd1]; [right; lia|left]. apply Z.eqb_neq. intros E. by apply Hd1, N4.
  - intros i _ Hi. rewrite Ee, D3, Z.eqb_refl, lor_link by (apply A1 || apply A2 || lia; lia). by replace (i <? 8) with true by lia.
  - intros q _ Hq. rewrite Ee. assert (0 <= q / 512 < 8 /\ 0 <= q mod 512 < 512) as [Hq1 Hq2] by zlia. rewrite D3 by (done || by apply A1).
    replace (heap_page_tables statics (q / 512) =? page_directories statics 1) with false; [by apply C4|].
    symmetry. apply Z.eqb_neq. intros E. by apply (proj2 (proj2 (N3 (q / 512) Hq1)) 1 ltac:(lia)).
Qed.

(** The arguments that are accepted. *)
Definition map_page_valid (virtual physical : Z) : bool :=
  (virtual mod 4096 =? 0) && (physical mod 4096 =? 0) && in_window virtual && (physical <? 2 ^ 32).

Lemma map_page_guard virtual physical :
  negb (Z.land virtual (PAGE_SIZE - 1) =? 0) || negb (Z.land physical (PAGE_SIZE - 1) =? 0)
  || (virtual <? HEAP_BASE) || (HEAP_BASE + HEAP_PAGE_COUNT * PAGE_SIZE <=? virtual) || (0x100000000 <=? physical)
  = negb (map_page_valid virtual physical).
Proof.
  unfold map_page_valid, in_window. change (PAGE_SIZE - 1) with (Z.ones 12). rewrite !Z.land_ones by lia. change (2 ^ 12) with 4096.
  change (2 ^ 32) with 4294967296. lia.
Qed.

Lemma kernel_map_page_spec m heap virtual physical flags :
  kernel_map m heap ->
  let page := window_page virtual in
  let heap' q := if q =? page then Z.lor (Z.lor physical flags) PAGE_PRESENT else if heap_page_table_active m then heap q else 0 in
  exists m', virtual_memory_map_page statics m virtual physical flags = (map_page_valid virtual physical, m') /\ wrote m static_tables m' /\
    if map_page_valid virtual physical
    then kernel_map m' heap' /\ heap_page_table_active m' = true /\ calls m' = calls m ++ [LoadRoot (pml4 statics)] /\
      active_roots m' = active_roots m /\ active_spaces m' = active_spaces m
    else m' = m.
Proof.
  intros K page heap'. unfold virtual_memory_map_page. rewrite map_page_guard. destruct (map_page_valid virtual physical) eqn:Ev; cbn [negb].
  2:{ exists m. split_and!; try done. apply wrote_refl, K. }
  assert (0 <= page < 4096) as Hp.
  { unfold map_page_valid, in_window, HEAP_BASE, HEAP_PAGE_COUNT, PAGE_SIZE in Ev. unfold page, window_page, HEAP_BASE. zlia. }
  change ((virtual - HEAP_BASE) / PAGE_SIZE) with page. destruct (activate_spec m heap K) as (K' & Ha & W & Er & Es & Ec).
  generalize dependent (activate_heap_tables statics m). intros m1 K' Ha W Er Es Ec.
  pose proof K' as [K1 K2 K3 K4 K5 K6 K7]. destruct (statics_apart Hst) as (N1 & N2 & N3 & N4 & N5).
  assert (0 <= page / 512 < 8 /\ 0 <= page mod 512 < 512) as [Hp1 Hp2] by zlia. destruct (N3 (page / 512) Hp1) as (M1 & M2 & M3).
  assert (heap_page_tables statics (page / 512) mod 4096 = 0) as At by by apply static_aligned, static_heap.
  set (e := Z.lor (Z.lor physical flags) PAGE_PRESENT) in *. set (m2 := set_entry m1 (heap_page_tables statics (page / 512)) (page mod 512) e).
  assert (wrote m1 static_tables m2) as W2 by (apply set_entry_wrote; try done; by apply static_heap).
  assert (forall t i, t mod 4096 = 0 -> 0 <= i < 512 -> entry m2 t i =
    if (t =? heap_page_tables statics (page / 512)) && (i =? page mod 512) then e else entry m1 t i) as E2
    by (intros t i Ht Hi; unfold m2; by rewrite set_entry_spec).
  assert (forall t i, t ∈ static_tables -> t <> heap_page_tables statics (page / 512) -> 0 <= i < 512 -> entry m2 t i = entry m1 t i) as E2'.
  { intros t i Ht Hne Hi. rewrite E2 by (done || by apply static_aligned). by replace (t =? _) with false by lia. }
  exists (log m2 (LoadRoot (kernel_root m2))). split; [done|]. split; [by eapply wrote_trans; [exact W|]; destruct W2; split|].
  split_and!; [|done|by cbn; rewrite Ec, K2|done|done].
  split.
  - apply W2.
  - exact K2.
  - intros i Hi. change (entry m2 (pml4 statics) i = if i =? 0 then pdpt statics + 3 else 0). rewrite E2' by (done || lia || constructor). by apply K3.
  - intros i Hi. change (entry m2 (pdpt statics) i = if i <? 4 then page_directories statics i + 3 else 0).
    rewrite E2' by (done || lia || (right; constructor)). by apply K4.
  - intros d i Hd Hi Hn. change (large_entry d i (entry m2 (page_directories statics d) i)).
    rewrite E2' by (done || by apply static_directory || by apply M3). by apply K5.
  - intros i _ Hi. change (entry m2 (page_directories statics 1) i = heap_page_tables statics i + 3).
    rewrite E2' by (lia || by apply static_directory || by apply M3). by apply K6.
  - intros q _ Hq. change (entry m2 (heap_page_tables statics (q / 512)) (q mod 512) = heap' q).
    assert (0 <= q / 512 < 8 /\ 0 <= q mod 512 < 512) as [Hq1 Hq2] by zlia.
    rewrite E2 by (done || by apply static_aligned, static_heap). unfold heap'. destruct (q =? page) eqn:Eq.
    + replace q with page by lia. by rewrite !Z.eqb_refl.
    + replace (_ && _) with false; [rewrite K7 by done; by destruct (heap_page_table_active m)|]. symmetry. apply not_true_iff_false.
      rewrite andb_true_iff, !Z.eqb_eq. intros [E1 E3]. apply N5 in E1; zlia.
Qed.

(** ** virtual_memory_map_identity *)

Lemma set_large m heap d i e :
  kernel_map m heap -> 0 <= d < 4 -> 0 <= i < 512 -> heap_page_table_active m = false \/ ~ (d = 1 /\ i < 8) -> large_entry d i e ->
  kernel_map (set_entry m (page_directories statics d) i e) heap /\ wrote m static_tables (set_entry m (page_directories statics d) i e).
Proof.
  intros [K1 K2 K3 K4 K5 K6 K7] Hd Hi Hn He. destruct (statics_apart Hst) as (N1 & N2 & N3 & N4 & N5).
  pose proof (static_directory d Hd) as Hin. destruct (N2 d Hd) as [M1 M2]. set (m' := set_entry m _ i e).
  assert (wrote m static_tables m') as W by (apply set_entry_wrote; [done|by apply static_aligned|done|done]).
  assert (forall t j, t ∈ static_tables -> 0 <= j < 512 -> entry m' t j = if (t =? page_directories statics d) && (j =? i) then e else entry m t j) as E
    by (intros t j Ht Hj; unfold m'; by rewrite set_entry_spec by (done || by apply static_aligned)).
  split; [|done]. split; [apply W|done|..].
  - intros j Hj. rewrite E by (done || constructor). replace (pml4 statics =? _) with false by lia. by apply K3.
  - intros j Hj. rewrite E by (done || (right; constructor)). replace (pdpt statics =? _) with false by lia. by apply K4.
  - intros d' j Hd' Hj Hn'. rewrite E by (done || by apply static_directory). destruct (_ && _) eqn:Eb; [|by apply K5].
    apply andb_true_iff in Eb as [Ed%Z.eqb_eq Ej%Z.eqb_eq]. apply N4 in Ed; [|done|done]. by subst.
  - intros j Ha Hj. change (heap_page_table_active m = true) in Ha. rewrite E by (lia || by apply static_directory).
    replace (_ && _) with false; [by apply K6|]. symmetry. apply not_true_iff_false. rewrite andb_true_iff, !Z.eqb_eq. intros [Ed ->].
    apply N4 in Ed; [|lia|done]. destruct Hn as [?|Hn]; [congruence|]. apply Hn. lia.
  - intros q Ha Hq. change (heap_page_table_active m = true) in Ha. assert (0 <= q / 512 < 8 /\ 0 <= q mod 512 < 512) as [Hq1 Hq2] by zlia.
    rewrite E by (done || by apply static_heap). destruct (N3 (q / 512) Hq1) as (_ & _ & M3). pose proof (M3 d Hd).
    replace (heap_page_tables statics (q / 512) =? _) with false by lia. by apply K7.
Qed.

Lemma lor_low_bound a b : 0 <= a < 4096 -> 0 <= b < 4096 -> 0 <= Z.lor a b < 4096.
Proof.
  intros Ha Hb. assert (Z.lor a b = Z.lor a b mod 2 ^ 12) as ->; [|by apply Z.mod_pos_bound].
  rewrite <- Z.land_ones, Z.land_lor_distr_l, !Z.land_ones by lia. change (2 ^ 12) with 4096. by rewrite !Z.mod_small.
Qed.

(** Large pages are mapped again with other flags; while the window is in use it is left out. *)
Lemma map_identity_spec m heap address size flags :
  kernel_map m heap -> 0 <= address -> 0 <= size -> 0 <= flags < 4096 ->
  heap_page_table_active m = false \/ address + size <= HEAP_BASE \/ HEAP_BASE + HEAP_PAGE_COUNT * PAGE_SIZE <= address ->
  exists m', virtual_memory_map_identity statics m address size flags =
      ((address mod HUGE_PAGE_SIZE =? 0) && (size mod HUGE_PAGE_SIZE =? 0) && (0 <? size) && (address + size <=? 2 ^ 32), m') /\
    kernel_map m' heap /\ wrote m static_tables m' /\ heap_page_table_active m' = heap_page_table_active m.
Proof.
  intros K Ha Hs Hf Hw. unfold virtual_memory_map_identity. change (HUGE_PAGE_SIZE - 1) with (Z.ones 21). rewrite !Z.land_ones by lia.
  change (2 ^ 21) with HUGE_PAGE_SIZE. change (2 ^ 32) with 0x100000000. case_if as Eb.
  { exists m. split_and!; [f_equal; lia|done|apply wrote_refl, K|done]. }
  assert (address mod HUGE_PAGE_SIZE = 0 /\ size mod HUGE_PAGE_SIZE = 0 /\ 0 < size /\ address + size <= 0x100000000) as (B1 & B2 & B3 & B4) by lia.
  set (n := size / HUGE_PAGE_SIZE). set (body := fun i m => set_entry m _ _ _).
  assert (let m' := for_z 0 n body m in kernel_map m' heap /\ wrote m static_tables m' /\ heap_page_table_active m' = heap_page_table_active m) as (C1 & C2 & C3).
  { cbv zeta. apply (for_z_ind (fun _ m' => kernel_map m' heap /\ wrote m static_tables m' /\ heap_page_table_active m' = heap_page_table_active m)).
    - unfold n, HUGE_PAGE_SIZE. zlia.
    - split_and!; [done|apply wrote_refl, K|done].
    - intros i m1 Hi (I1 & I2 & I3). unfold body. set (g := address / HUGE_PAGE_SIZE + i). unfold n, HUGE_PAGE_SIZE in *.
      destruct (set_large m1 heap (g / 512) (g mod 512)
        (Z.lor (Z.lor (Z.lor (address + i * 0x200000) flags) PAGE_PRESENT) PAGE_HUGE) I1) as [J1 J2]; [unfold g; zlia|zlia| | |].
      + rewrite I3. destruct Hw as [?|Hw]; [by left|right]. unfold HEAP_BASE, HEAP_PAGE_COUNT, PAGE_SIZE, g in *. zlia.
      + exists (Z.lor flags 0x81). pose proof (lor_low_bound flags 0x81 Hf ltac:(lia)) as Hlow. split; [done|]. rewrite <- !Z.lor_assoc.
        change (Z.lor PAGE_PRESENT PAGE_HUGE) with 0x81. rewrite lor_low by (done || zlia). unfold HUGE_PAGE_SIZE, g.
        split_and!; [zlia|rewrite Z.lor_spec; by rewrite orb_true_r..].
      + split_and!; [done|by eapply wrote_trans|done]. }
  eexists. split; [f_equal; lia|]. generalize dependent (for_z 0 n body m). intros m1 C1 C2 C3.
  split_and!; [by destruct C1; split|by destruct C2; split|done].
Qed.

(** ** The kernel's mapping in every address space *)

(** The static tables lie where no frame is handed out. *)
Definition tables_reserved m : Prop := forall t, t ∈ static_tables -> reserved (phys m) t = true.

Lemma world_wrote m m' :
  world statics m -> wrote m static_tables m' -> tables_reserved m ->
  (forall i, 0 <= i < 512 -> entry m' (pdpt statics) i = entry m (pdpt statics) i) ->
  world statics m' /\ forall b, untouched m m' b.
Proof.
  intros Hw [A1 A2 A3 A4 A5] Hres Hpd. pose proof Hw as [W1 W2 W3 W4].
  assert (forall f, taken (phys m) f = true -> same_frame m m' f) as Hsame.
  { intros f Hf. apply A4; [apply (taken_frame _ _ Hf)|]. intros Hin. apply taken_reserved in Hf. by rewrite Hres in Hf. }
  assert (statics_reserved statics m') as Hst' by (destruct W2; split; [by rewrite A3|done]).
  assert (forall b k T, core statics m b k T [] [] -> core statics m' b k T [] [] /\ forall v, pte m' T v = pte m T v) as Hcore.
  { intros b k T Hc. apply core_frame; try done; [by rewrite A5|]. intros f Hf.
    pose proof (acc_taken _ _ _ (core_acc _ _ _ _ _ _ _ Hc) f Hf) as Ht. split; [by rewrite A2|by apply Hsame]. }
  split.
  - split; [done|done| |by rewrite A5]. intros a. destruct (W3 a) as [[D1 D2 D3]|(k & T & Hc)]; [left; by split; rewrite A5|].
    right. exists k, T. by apply Hcore.
  - intros b. split; [by rewrite A5|]. split; [|intros f Hf; by apply Hsame, (world_taken statics m b)]. intros v Hv.
    destruct (W3 b) as [Hd|(k & T & Hc)].
    + rewrite !dormant_page; [done|done|]. destruct Hd as [D1 D2 D3]. by split; rewrite A5.
    + destruct (Hcore b k T Hc) as [Hc' Hp]. by rewrite (core_page _ _ _ _ _ _ _ _ Hc' Hv), (core_page _ _ _ _ _ _ _ _ Hc Hv).
Qed.

Lemma translate_shared m heap a k T v :
  kernel_map m heap -> core statics m a k T [] [] -> 0 <= v < 2 ^ 39 -> translate m (root (spaces m a)) v = translate m (pml4 statics) v.
Proof.
  intros K Hc Hv. pose proof (core_tree _ _ _ _ _ _ _ Hc) as Ht. destruct (core_k _ _ _ _ _ _ _ Hc) as [Hkt _].
  destruct (taken_frame _ _ Hkt) as [Hkm Hkr]. change 4294967296 with (2 ^ 32) in Hkr.
  assert (index v 39 = 0) as I4 by (rewrite index_spec by lia; rewrite Z.div_small by lia; done).
  assert (0 <= index v 30 < 512) as I3 by (rewrite index_spec by lia; zlia).
  unfold translate. rewrite I4, (tree_kernel _ _ _ _ Ht), (km_pml4 _ _ K) by lia. cbn [Z.eqb].
  destruct (link_next k Hkm ltac:(lia)) as (-> & _ & ->). destruct (link_next (pdpt statics)) as (-> & _ & ->); [apply (statics_aligned Hst); right; constructor..|].
  cbn [negb]. by rewrite (core_kernel _ _ _ _ _ _ _ Hc) by done.
Qed.

(** Turning on paging maps the first 4 GiB to themselves and nothing else. *)
Theorem kernel_identity m :
  frames_ok (phys m) -> heap_page_table_active m = false ->
  let '(ok, m') := virtual_memory_initialize statics m in
  ok = true /\ calls m' = calls m ++ [LoadRoot (virtual_memory_root m')] /\
  forall v, 0 <= v < 2 ^ 48 -> translate m' (virtual_memory_root m') v = if v <? 2 ^ 32 then Some v else None.
Proof.
  intros Hok Ha. destruct (paging_spec m Hok Ha) as (m' & E & K & Ha' & _ & Hcalls). rewrite E. split; [done|]. unfold virtual_memory_root. split.
  - by rewrite Hcalls, (km_root _ _ K).
  - intros v Hv. rewrite (km_root _ _ K), (translate_image m' (fun _ => 0)) by done. unfold kernel_image. by rewrite Ha'.
Qed.

(** C20. Mapping a page of the heap: the window shows the pages mapped so far and nothing else,
    the rest of the kernel's addresses stays at itself. *)
Theorem kernel_window m heap virtual physical flags :
  kernel_map m heap -> 0 <= physical -> 0 <= flags < 4096 ->
  exists m', virtual_memory_map_page statics m virtual physical flags = (map_page_valid virtual physical, m') /\
  if map_page_valid virtual physical then forall v, 0 <= v < 2 ^ 48 -> translate m' (pml4 statics) v =
    if v - v mod 4096 =? virtual then Some (physical + v mod 4096)
    else if in_window v && negb (heap_page_table_active m) then None else translate m (pml4 statics) v
  else m' = m.
Proof.
  intros K Hp Hf. destruct (kernel_map_page_spec m heap virtual physical flags K) as (m' & E & _ & Hres). exists m'. split; [done|].
  destruct (map_page_valid virtual physical) eqn:Ev; [|done]. destruct Hres as (K' & Ha' & _). intros v Hv.
  rewrite (translate_image m' _ v Hst K' Hv), (translate_image m heap v Hst K Hv). unfold kernel_image. rewrite Ha'. cbn [andb].
  unfold map_page_valid, in_window, window_page, HEAP_BASE, HEAP_PAGE_COUNT, PAGE_SIZE in *. change (2 ^ 32) with 4294967296 in *.
  destruct (v - v mod 4096 =? virtual) eqn:Eq.
  - assert ((0x40000000 <=? v) && (v <? 0x40000000 + 4096 * 0x1000) = true) as -> by zlia.
    replace ((v - 0x40000000) / 4096 =? (virtual - 0x40000000) / 4096) with true by zlia.
    assert (Z.lor (Z.lor physical flags) PAGE_PRESENT = physical + Z.lor flags 1) as ->.
    { rewrite <- Z.lor_assoc. apply lor_low; [lia|]. by apply lor_low_bound. }
    pose proof (lor_low_bound flags 1 Hf ltac:(lia)) as Hl. rewrite has_present, odd_bit, bit_low, Z.lor_spec, orb_true_r by lia.
    f_equal. unfold page_frame. change (2 ^ 52) with 4503599627370496. zlia.
  - destruct ((0x40000000 <=? v) && (v <? 0x40000000 + 4096 * 0x1000)) eqn:Ew; cbn [andb]; [|by rewrite andb_false_r].
    replace ((v - 0x40000000) / 4096 =? (virtual - 0x40000000) / 4096) with false by zlia.
    by destruct (heap_page_table_active m).
Qed.

(** Growing the heap is seen by every address space and disturbs none: all of them translate
    the kernel's addresses as the kernel does, and keep their own pages. *)
Theorem kernel_shared m heap virtual physical flags :
  world statics m -> tables_reserved m -> kernel_map m heap ->
  let m' := snd (virtual_memory_map_page statics m virtual physical flags) in
  world statics m' /\ (forall b, untouched m m' b) /\
  forall a v, root (spaces m' a) <> 0 -> 0 <= v < 2 ^ 39 -> translate m' (root (spaces m' a)) v = translate m' (virtual_memory_root m') v.
Proof.
  intros Hw Hres K. destruct (kernel_map_page_spec m heap virtual physical flags K) as (m' & -> & W & Hm). cbn [snd].
  assert (exists heap', kernel_map m' heap') as [heap' K'] by (destruct (map_page_valid virtual physical); [destruct Hm as [Hm _]; by eexists|subst; by eexists]).
  destruct (world_wrote m m' Hw W Hres) as [Hw' Hun]; [intros i Hi; by rewrite (km_pdpt _ _ K'), (km_pdpt _ _ K)|].
  split; [done|]. split; [done|]. intros a v Hr Hv. unfold virtual_memory_root. rewrite (km_root _ _ K').
  destruct (world_space statics m' Hw' a) as [Hd|(k & T & Hc)]; [by rewrite (dorm_root _ _ Hd) in Hr|]. by eapply translate_shared.
Qed.

(** C33. The functions that fill the kernel's tables end by loading the kernel's root, whatever
    root is active: after the heap has grown while a space was active, the processor no
    longer sees the user half of that space, although the kernel's records still name it. *)
Theorem heap_growth_leaves_space m heap cpu a virtual physical flags :
  let c := address_space_cpu_index cpu in
  let m1 := snd (address_space_activate cpu m a) in
  let m2 := snd (virtual_memory_map_page statics m1 virtual physical flags) in
  kernel_map m heap -> fst (address_space_activate cpu m a) = true -> map_page_valid virtual physical = true ->
  0 <= c < zlen (active_roots m) -> 0 <= c < zlen (active_spaces m) ->
  (active_roots m2).[c] = root (spaces m a) /\ address_space_active cpu m2 = a /\
  last (calls m2) = Some (LoadRoot (kernel_root m2)) /\
  forall v, user_page v -> translate m2 (kernel_root m2) v = None.
Proof.
  intros c m1 m2 K Hok Hv Hr Hs.
  assert (kernel_map m1 heap /\ (active_roots m1).[c] = root (spaces m a) /\ (active_spaces m1).[c] = a) as (K1 & R1 & S1).
  { unfold m1, address_space_activate in *. destruct (_ || _); [done|]. cbn [snd]. split; [by destruct K; split|].
    split; cbn; by apply arr_get_eq. }
  clearbody m1. destruct (kernel_map_page_spec m1 heap virtual physical flags K1) as (m2' & E & _ & Hres). rewrite Hv in *.
  destruct Hres as (K2 & Ha & Hcalls & Er & Es). assert (m2' = m2) as -> by (unfold m2; by rewrite E). clearbody m2.
  unfold address_space_active. fold c. rewrite Er, Es. split_and!; try done.
  - by rewrite Hcalls, (km_root _ _ K2), last_snoc.
  - intros v [_ Hu]. rewrite (km_root _ _ K2). change (2 ^ 39) with 549755813888 in Hu. change (2 ^ 48) with 281474976710656 in Hu.
    rewrite (translate_image m2 _ v Hst K2) by (change (2 ^ 48) with 281474976710656; lia). unfold kernel_image, in_window.
    rewrite Ha. unfold HEAP_BASE, HEAP_PAGE_COUNT, PAGE_SIZE. change (2 ^ 32) with 4294967296. cbn [andb].
    replace ((_ <=? _) && _) with false by lia. by replace (v <? 4294967296) with false by lia.
Qed.

Lemma change_map m a m' heap :
  kernel_map m heap -> tables_reserved m -> change m a m' -> kernel_map m' heap /\ tables_reserved m'.
Proof.
  intros [K1 K2 K3 K4 K5 K6 K7] Hres (Hmv & _ & Er & Ea).
  assert (forall t i, t ∈ static_tables -> 0 <= i < 512 -> entry m' t i = entry m t i) as E.
  { intros t i Ht Hi. apply same_frame_entry; [|done]. apply (moved_static _ _ _ _ Hmv); [by apply static_aligned|by apply Hres]. }
  split; [|intros t Ht; by apply (moved_reserved _ _ _ _ Hmv), Hres]. split; rewrite ?Er, ?Ea; try done; [apply Hmv|..].
  - intros i Hi. rewrite E by (done || constructor). by apply K3.
  - intros i Hi. rewrite E by (done || (right; constructor)). by apply K4.
  - intros d i Hd Hi Hn. rewrite E by (done || by apply static_directory). by apply K5.
  - intros i Ha Hi. rewrite E by (lia || by apply static_directory). by apply K6.
  - intros q Ha Hq. rewrite E by (apply static_heap || idtac; zlia). by apply K7.
Qed.


End tables.

End proofs.

(** ** Examples *)

Lemma example_statics_ok : statics_ok example_statics.
Proof.
  split; [|apply (bool_decide_unpack _); vm_compute; exact I]. intros t Ht.
  assert (Forall (fun t => t mod 4096 = 0 /\ 0 <= t < 2 ^ 32) (static_tables example_statics)) as HF
    by (repeat constructor; done). rewrite Forall_forall in HF. by apply HF.
Qed.

Lemma example_tables_reserved free : tables_reserved example_statics (example_vm free).
Proof.
  assert (Forall (fun t => reserved (example_phys free) t = true) (static_tables example_statics)) as HF
    by (repeat constructor; vm_compute; reflexivity). rewrite Forall_forall in HF. exact HF.
Qed.

(** The example machine after paging has been turned on. *)
Definition example_kernel : vm_t Frame.phys_t :=
  snd (virtual_memory_initialize example_statics (example_vm (Frame.free_count example_bitmap))).

Lemma example_kernel_ok :
  kernel_map example_statics example_kernel (fun _ => 0) /\ tables_reserved example_statics example_kernel /\
  world example_statics example_kernel /\ zlen (active_roots example_kernel) = 64 /\ zlen (active_spaces example_kernel) = 64.
Proof.
  destruct (paging_spec example_statics example_statics_ok (example_vm (Frame.free_count example_bitmap)) (world_ok _ _ example_world) eq_refl)
    as (m' & E & K & _ & W & _). unfold example_kernel.
  assert (zlen (active_roots (snd (true, m'))) = 64 /\ zlen (active_spaces (snd (true, m'))) = 64) as [L1 L2] by by rewrite <- E.
  rewrite E. cbn [snd] in *. clear E. destruct W as [W1 W2 W3 W4 W5]. split_and!; try done.
  - intros t Ht. rewrite W3. by apply example_tables_reserved.
  - split; [done|split; [rewrite W3; apply example_reserved|done]| |].
    + intros a. left. by split; rewrite W5.
    + intros a b f _. rewrite W5. intros Hf. by apply not_elem_of_nil in Hf.
Qed.

Lemma kernel_identity_witness : exists m, translate m (virtual_memory_root m) 0xb8000 = Some 0xb8000.
Proof.
  pose proof (kernel_identity example_statics example_statics_ok (example_vm (Frame.free_count example_bitmap)) (world_ok _ _ example_world) eq_refl) as H.
  destruct (virtual_memory_initialize example_statics _) as [ok m']. exists m'. apply H. split; [discriminate|reflexivity].
Defined.

Lemma kernel_window_witness : exists m, translate m (pml4 example_statics) 0x40003004 = Some 0x200004.
Proof.
  destruct example_kernel_ok as (K & _).
  destruct (kernel_window example_statics example_statics_ok example_kernel (fun _ => 0) 0x40003000 0x200000 2 K ltac:(lia) ltac:(lia)) as (m' & _ & H).
  exists m'. apply (H 0x40003004). split; [discriminate|reflexivity].
Defined.

Lemma kernel_shared_witness : exists m, world example_statics m.
Proof.
  destruct example_kernel_ok as (K & Hres & Hw & _). eexists.
  exact (proj1 (kernel_shared example_statics example_statics_ok example_kernel (fun _ => 0) 0x40003000 0x200000 2 Hw Hres K)).
Defined.


(** A space whose root is the first frame of the example is activated. *)
Lemma heap_growth_leaves_space_witness : exists m : vm_t Frame.phys_t, last (calls m) = Some (LoadRoot (kernel_root m)).
Proof.
  destruct example_kernel_ok as (K & _ & _ & L1 & L2). revert K L1 L2. generalize example_kernel. intros n K L1 L2.
  set (m := set_space n 1 (unused_space<| root := 0x200000 |>)).
  assert (kernel_map example_statics m (fun _ => 0)) as Km by (destruct K; split; done).
  assert (fst (address_space_activate None m 1) = true) as Hok by reflexivity.
  destruct (heap_growth_leaves_space example_statics example_statics_ok m (fun _ => 0) None 1 0x40003000 0x201000 2 Km Hok eq_refl
    ltac:(change (0 <= 0 < zlen (active_roots n)); lia) ltac:(change (0 <= 0 < zlen (active_spaces n)); lia)) as (_ & _ & Hl & _).
  eexists. exact Hl.
Defined.

End KernelMap.
